(** * Markdown language service: link extraction, rename and smart selection

    A shallow embedding of the link computer ([documentLinks.ts]), the
    rename provider ([rename.ts]), the file-rename provider
    ([fileRename.ts]) and the selection-range provider ([smartSelect.ts]),
    together with the properties of the specification that concern them.

    JavaScript strings are modelled as lists of 8-bit code units
    ([list ascii]); line and character coordinates are integers ([Z]),
    since the code translates positions by negative deltas.  Regular
    expressions are kept as syntax trees and run by a backtracking
    matcher that follows the continuation-passing semantics of the
    ECMAScript specification. *)

From Stdlib Require Import ZArith List Ascii String Lia Bool Arith Sorted.
From stdpp Require Import gmap.
Import ListNotations.

Set Implicit Arguments.
Unset Strict Implicit.
Set Default Proof Using "Type".

(* ================================================================== *)
(** ** JavaScript strings *)
(* ================================================================== *)

Definition jsstring : Type := list ascii.

Definition lit (s : string) : jsstring := list_ascii_of_string s.
Coercion lit : string >-> jsstring.

Module Js.

Definition chr (n : nat) : ascii := ascii_of_nat n.

Definition TAB : ascii := chr 9.
Definition LF : ascii := chr 10.
Definition CR : ascii := chr 13.
Definition DQUOTE : ascii := chr 34.
Definition SQUOTE : ascii := chr 39.

Definition code (a : ascii) : nat := nat_of_ascii a.

(** [WhiteSpace] and [LineTerminator] code units below 256: the set
    matched by [\s] and stripped by [String.prototype.trim]. *)
Definition isWhiteSpace (a : ascii) : bool :=
  let n := code a in
  ((9 <=? n) && (n <=? 13)) || (n =? 32) || (n =? 160).

Definition isLineTerminator (a : ascii) : bool :=
  let n := code a in (n =? 10) || (n =? 13).

(** [\w] *)
Definition isWordChar (a : ascii) : bool :=
  let n := code a in
  ((48 <=? n) && (n <=? 57)) || ((65 <=? n) && (n <=? 90))
  || ((97 <=? n) && (n <=? 122)) || (n =? 95).

Definition isLetter (a : ascii) : bool :=
  let n := code a in
  ((65 <=? n) && (n <=? 90)) || ((97 <=? n) && (n <=? 122)).

Fixpoint eqb (s t : jsstring) : bool :=
  match s, t with
  | [], [] => true
  | a :: s', b :: t' => Ascii.eqb a b && eqb s' t'
  | _, _ => false
  end.

Definition isEmpty (s : jsstring) : bool :=
  match s with [] => true | _ => false end.

(** [s.substring(a, b)] for indices already clamped to be natural. *)
Definition slice (s : jsstring) (a b : nat) : jsstring :=
  firstn (b - a) (skipn a s).

Definition substring (s : jsstring) (a b : nat) : jsstring :=
  slice s (Nat.min a b) (Nat.max a b).

Fixpoint startsWith (s prefix : jsstring) : bool :=
  match prefix, s with
  | [], _ => true
  | p :: ps, a :: t => Ascii.eqb p a && startsWith t ps
  | _ :: _, [] => false
  end.

(** [s.indexOf(needle)], [-1] when absent. *)
Fixpoint indexOfFrom (i : nat) (s needle : jsstring) : Z :=
  if startsWith s needle then Z.of_nat i
  else match s with
       | [] => (-1)%Z
       | _ :: t => indexOfFrom (S i) t needle
       end.

Definition indexOf (s needle : jsstring) : Z := indexOfFrom 0 s needle.

Fixpoint trimStart (s : jsstring) : jsstring :=
  match s with
  | a :: t => if isWhiteSpace a then trimStart t else s
  | [] => []
  end.

Definition trimEnd (s : jsstring) : jsstring := rev (trimStart (rev s)).

Definition trim (s : jsstring) : jsstring := trimEnd (trimStart s).

(** [lines.join('\n')], the helper the test-suite builds documents with. *)
Fixpoint joinLines (ls : list string) : jsstring :=
  match ls with
  | [] => []
  | [l] => lit l
  | l :: rest => lit l ++ LF :: joinLines rest
  end.

End Js.

(* ================================================================== *)
(** ** Regular expressions *)
(* ================================================================== *)

Module Regex.

(** Syntax of the fragment of ECMAScript patterns the sources use.
    Character classes are predicates on code units; the [i] flag is
    folded into the classes.  Look-behind only occurs in the sources
    in front of a one-character class, which is what [NotBehind]
    expresses. *)
Inductive regex : Type :=
| Empty
| Chr (p : ascii -> bool)
| Seq (r1 r2 : regex)
| Alt (r1 r2 : regex)
| Star (greedy : bool) (r : regex)
| Plus (greedy : bool) (r : regex)
| Opt (greedy : bool) (r : regex)
| Group (i : nat) (r : regex)
| Backref (i : nat)
| Bol (multiline : bool)
| Eol (multiline : bool)
| NotBehind (p : ascii -> bool)
| NotAhead (r : regex).

(** Capture groups that occur inside a pattern: a quantifier resets
    them at the start of every iteration. *)
Fixpoint groupsOf (r : regex) : list nat :=
  match r with
  | Seq r1 r2 | Alt r1 r2 => groupsOf r1 ++ groupsOf r2
  | Star _ r' | Plus _ r' | Opt _ r' | NotAhead r' => groupsOf r'
  | Group i r' => i :: groupsOf r'
  | _ => []
  end.

Definition Captures : Type := list (nat * (nat * nat)).

Fixpoint lookupCapture (i : nat) (cs : Captures) : option (nat * nat) :=
  match cs with
  | [] => None
  | (j, se) :: t => if Nat.eqb i j then Some se else lookupCapture i t
  end.

Definition clearCaptures (gs : list nat) (cs : Captures) : Captures :=
  match gs with
  | [] => cs
  | _ => filter (fun '(j, _) => negb (existsb (Nat.eqb j) gs)) cs
  end.

(** Matcher state: [endIndex], the code unit before it, the input
    from it on, and the captures. *)
Record State : Type := mkState {
  st_pos : nat;
  st_prev : option ascii;
  st_rest : jsstring;
  st_caps : Captures
}.

Definition Cont : Type := State -> option State.
Definition Matcher : Type := State -> Cont -> option State.

Definition advance (x : State) : option (ascii * State) :=
  match st_rest x with
  | [] => None
  | a :: t => Some (a, mkState (S (st_pos x)) (Some a) t (st_caps x))
  end.

Definition withCaps (x : State) (cs : Captures) : State :=
  mkState (st_pos x) (st_prev x) (st_rest x) cs.

Definition orElse (o : option State) (k : unit -> option State) : option State :=
  match o with
  | Some z => Some z
  | None => k tt
  end.

(** [RepeatMatcher] with [min = 0] and no upper bound.  An iteration
    that consumes nothing is rejected, so every iteration moves
    [endIndex] forward and [fuel], one more than the number of code
    units left, is never exhausted. *)
Fixpoint repeatMatcher (m : Matcher) (greedy : bool) (gs : list nat)
         (fuel : nat) (x : State) (c : Cont) : option State :=
  match fuel with
  | O => None
  | S fuel' =>
      let d : Cont := fun y =>
        if Nat.eqb (st_pos y) (st_pos x) then None
        else repeatMatcher m greedy gs fuel' y c in
      let xr := withCaps x (clearCaptures gs (st_caps x)) in
      if greedy then orElse (m xr d) (fun _ => c x)
      else orElse (c x) (fun _ => m xr d)
  end.

(** Advance over a literal copy of [sub] (back-reference). *)
Fixpoint consume (sub : jsstring) (x : State) : option State :=
  match sub with
  | [] => Some x
  | a :: sub' =>
      match advance x with
      | Some (b, y) => if Ascii.eqb a b then consume sub' y else None
      | None => None
      end
  end.

Fixpoint matcher (inp : jsstring) (r : regex) : Matcher :=
  match r with
  | Empty => fun x c => c x
  | Chr p => fun x c =>
      match advance x with
      | Some (a, y) => if p a then c y else None
      | None => None
      end
  | Seq r1 r2 => fun x c =>
      matcher inp r1 x (fun y => matcher inp r2 y c)
  | Alt r1 r2 => fun x c =>
      orElse (matcher inp r1 x c) (fun _ => matcher inp r2 x c)
  | Star greedy r' => fun x c =>
      repeatMatcher (matcher inp r') greedy (groupsOf r')
                    (S (length (st_rest x))) x c
  | Plus greedy r' => fun x c =>
      let gs := groupsOf r' in
      matcher inp r' (withCaps x (clearCaptures gs (st_caps x)))
              (fun y => repeatMatcher (matcher inp r') greedy gs
                                      (S (length (st_rest y))) y c)
  | Opt greedy r' => fun x c =>
      let d : Cont := fun y =>
        if Nat.eqb (st_pos y) (st_pos x) then None else c y in
      let xr := withCaps x (clearCaptures (groupsOf r') (st_caps x)) in
      if greedy then orElse (matcher inp r' xr d) (fun _ => c x)
      else orElse (c x) (fun _ => matcher inp r' xr d)
  | Group i r' => fun x c =>
      matcher inp r' x
              (fun y => c (withCaps y ((i, (st_pos x, st_pos y)) :: st_caps y)))
  | Backref i => fun x c =>
      match lookupCapture i (st_caps x) with
      | None => c x
      | Some (s, e) =>
          match consume (Js.slice inp s e) x with
          | Some y => c y
          | None => None
          end
      end
  | Bol multiline => fun x c =>
      match st_prev x with
      | None => c x
      | Some a => if multiline && Js.isLineTerminator a then c x else None
      end
  | Eol multiline => fun x c =>
      match st_rest x with
      | [] => c x
      | a :: _ => if multiline && Js.isLineTerminator a then c x else None
      end
  | NotBehind p => fun x c =>
      match st_prev x with
      | Some a => if p a then None else c x
      | None => c x
      end
  | NotAhead r' => fun x c =>
      match matcher inp r' x Some with
      | Some _ => None
      | None => c x
      end
  end.

(** The result of a successful [exec]. *)
Record Match : Type := mkMatch {
  m_index : nat;
  m_end : nat;
  m_caps : Captures
}.

(** Try every start index from the current one on. *)
Fixpoint searchFrom (inp : jsstring) (r : regex) (pos : nat)
         (prev : option ascii) (rest : jsstring) : option Match :=
  match matcher inp r (mkState pos prev rest []) Some with
  | Some y => Some (mkMatch pos (st_pos y) (st_caps y))
  | None =>
      match rest with
      | [] => None
      | a :: t => searchFrom inp r (S pos) (Some a) t
      end
  end.

Definition prevAt (inp : jsstring) (i : nat) : option ascii :=
  match i with
  | O => None
  | S j => nth_error inp j
  end.

(** [RegExpBuiltinExec] with the given [lastIndex]. *)
Definition exec (r : regex) (inp : jsstring) (lastIndex : nat) : option Match :=
  if length inp <? lastIndex then None
  else searchFrom inp r lastIndex (prevAt inp lastIndex) (skipn lastIndex inp).

(** [r.test(s)] and [s.match(r)] for a pattern without the [g] flag. *)
Definition test (r : regex) (inp : jsstring) : bool :=
  match exec r inp 0 with Some _ => true | None => false end.

Fixpoint matchAllFrom (fuel : nat) (r : regex) (inp : jsstring)
         (lastIndex : nat) : list Match :=
  match fuel with
  | O => []
  | S fuel' =>
      match exec r inp lastIndex with
      | None => []
      | Some m =>
          m :: matchAllFrom fuel' r inp
                 (if Nat.eqb (m_end m) (m_index m) then S (m_end m) else m_end m)
      end
  end.

(** [s.matchAll(r)] for a pattern with the [g] flag: every round moves
    [lastIndex] forward, so [length s + 2] rounds are enough. *)
Definition matchAll (r : regex) (inp : jsstring) : list Match :=
  matchAllFrom (length inp + 2) r inp 0.

(** [match[0]] and [match[i]]: an unmatched group is [undefined]. *)
Definition full (inp : jsstring) (m : Match) : jsstring :=
  Js.slice inp (m_index m) (m_end m).

Definition group (inp : jsstring) (m : Match) (i : nat) : option jsstring :=
  match lookupCapture i (m_caps m) with
  | Some (s, e) => Some (Js.slice inp s e)
  | None => None
  end.

(** A group that always takes part in the match. *)
Definition groupOr (inp : jsstring) (m : Match) (i : nat) : jsstring :=
  match group inp m i with Some s => s | None => [] end.

(** Pattern combinators. *)
Definition only (a : ascii) : ascii -> bool := Ascii.eqb a.
Definition oneOf (s : jsstring) : ascii -> bool :=
  fun a => existsb (Ascii.eqb a) s.
Definition noneOf (s : jsstring) : ascii -> bool :=
  fun a => negb (existsb (Ascii.eqb a) s).
Definition orClass (p q : ascii -> bool) : ascii -> bool :=
  fun a => p a || q a.
Definition notClass (p : ascii -> bool) : ascii -> bool :=
  fun a => negb (p a).
(** [.] without the [s] flag *)
Definition dot : ascii -> bool := notClass Js.isLineTerminator.

Definition ch (a : ascii) : regex := Chr (only a).
Fixpoint seqs (rs : list regex) : regex :=
  match rs with
  | [] => Empty
  | [r] => r
  | r :: rest => Seq r (seqs rest)
  end.
Fixpoint alts (rs : list regex) : regex :=
  match rs with
  | [] => Empty
  | [r] => r
  | r :: rest => Alt r (alts rest)
  end.

End Regex.

(* ================================================================== *)
(** ** The patterns of the link computer and of smart selection *)
(* ================================================================== *)

Module Patterns.
Import Regex.

Local Open Scope char_scope.

Definition ws : regex := Chr Js.isWhiteSpace.
Definition nonWs : ascii -> bool := notClass Js.isWhiteSpace.
Definition backslash : ascii := "\".

(** [\\.] *)
Definition escaped : regex := Seq (ch backslash) (Chr dot).
(** [\[[^\[\]]*\]] *)
Definition bracketPair : regex :=
  seqs [ch "["; Star true (Chr (noneOf ["["; "]"])); ch "]"].
(** [<(?:\\[<>]|[^<>])+>] *)
Definition angleTarget : regex :=
  seqs [ch "<";
        Plus true (Alt (Seq (ch backslash) (Chr (oneOf ["<"; ">"])))
                       (Chr (noneOf ["<"; ">"])));
        ch ">"].

(** [/^[a-z\-][a-z\-]+:/i] *)
Definition schemeChar : ascii -> bool := orClass Js.isLetter (only "-").
Definition schemePattern : regex :=
  seqs [Bol false; Chr schemeChar; Plus true (Chr schemeChar); ch ":"].

(** [angleBracketLinkRe]: a less-than sign, any run of non line
    terminators (group 1), a greater-than sign, anchored at both ends. *)
Definition angleBracketLinkRe : regex :=
  seqs [Bol false; ch "<"; Group 1 (Star true (Chr dot)); ch ">"; Eol false].

(** [linkPattern], flags [g].  Groups: 1 link text with its brackets,
    2 the text before the href, 3 the href, 4 ([title]) the title. *)
Definition linkPattern : regex :=
  seqs [
    NotBehind (only backslash);
    Group 1 (seqs [
      Opt true (ch "!"); ch "[";
      Star true (alts [Chr (noneOf ["["; "]"; backslash]); escaped; bracketPair]);
      ch "]"]);
    Group 2 (seqs [ch "("; Star true ws]);
    Group 3 (Alt
      (seqs [
         Chr (fun a => nonWs a && noneOf ["("; ")"; "<"] a);
         Star true (Alt
           (Chr (fun a => nonWs a && noneOf ["("; ")"] a))
           (seqs [ch "(";
                  Star false (Chr (fun a => nonWs a && noneOf ["("; ")"] a));
                  ch ")"]))])
      angleTarget);
    Star true ws;
    Opt true (Group 4 (alts [
      seqs [ch Js.DQUOTE; Star true (Chr (noneOf [Js.DQUOTE])); ch Js.DQUOTE];
      seqs [ch Js.SQUOTE; Star true (Chr (noneOf [Js.SQUOTE])); ch Js.SQUOTE];
      seqs [ch "("; Star true (Chr (noneOf ["("; ")"])); ch ")"]]));
    Star true ws;
    ch ")"].

(** [referenceLinkPattern], flags [gm].  Groups: 1 [prefix], 2 [text],
    3 [ref], 4 [shorthand]. *)
Definition referenceLinkPattern : regex :=
  seqs [
    NotBehind (oneOf ["]"; backslash]);
    Alt
      (Seq
         (Group 1 (seqs [
            Opt true (ch "!"); ch "[";
            Group 2 (Star true (alts [escaped;
                                      Chr (noneOf ["["; "]"; backslash]);
                                      bracketPair]));
            ch "]"; ch "["; Star true ws]))
         (Seq (Group 3 (Star false (Alt (Chr (noneOf [backslash; "]"])) escaped)))
              (ch "]")))
      (seqs [
         ch "["; NotAhead (ch "!"); Star true ws;
         Group 4 (Plus false (Alt escaped (Chr (noneOf ["["; "]"; backslash]))));
         Star true ws; ch "]"]);
    NotAhead (ch "(")].

(** [autoLinkPattern], flags [g]. *)
Definition autoLinkPattern : regex :=
  seqs [
    NotBehind (only backslash); ch "<";
    Group 1 (seqs [Plus true (Chr Js.isWordChar); ch ":";
                   Plus true (Chr (fun a => nonWs a && negb (only ">" a)))]);
    ch ">"].

(** [definitionPattern], flags [gm].  Groups: 1 everything before the
    target, 2 the reference name, 3 the target. *)
Definition tabOrSpace : ascii -> bool := oneOf [Js.TAB; " "].
Definition definitionPattern : regex :=
  seqs [
    Bol true;
    Group 1 (seqs [
      Star true (Chr tabOrSpace);
      NotBehind (only backslash); ch "["; NotAhead (ch "^");
      Group 2 (Plus true (Alt (Seq (ch backslash) (ch "]")) (Chr (noneOf ["]"]))));
      ch "]"; ch ":"; Star true (Chr tabOrSpace)]);
    Group 3 (Alt (Seq (Chr (noneOf ["<"])) (Star true (Chr nonWs))) angleTarget)].

(** [inlineCodePattern], flags [gm]. *)
Definition newline : regex := Seq (Opt true (ch Js.CR)) (ch Js.LF).
Definition inlineCodePattern : regex :=
  seqs [
    NotBehind (only "`");
    Group 1 (Plus true (ch "`"));
    Group 2 (seqs [
      Alt (Plus false (Chr dot))
          (Seq (Star false (Chr dot))
               (Star false (Seq newline (Plus false (Chr dot)))));
      Opt true newline;
      Backref 1]);
    NotAhead (ch "`")].

(** [/\![\[\(]/], used to look for images inside link text. *)
Definition imageStartPattern : regex :=
  Seq (ch "!") (Chr (oneOf ["["; "("])).

(** [/^\s*[\-\*\+]\s*\[x\]/i], the task-list checkbox test. *)
Definition checkboxPattern : regex :=
  seqs [Bol false; Star true ws; Chr (oneOf ["-"; "*"; "+"]); Star true ws;
        ch "["; Chr (oneOf ["x"; "X"]); ch "]"].

(** [/<\w/] *)
Definition htmlTagStartPattern : regex := Seq (ch "<") (Chr Js.isWordChar).

(** Smart selection: [/\*\*([^*]+\*?[^*]+\*?[^*]+)\*\*/gim]. *)
Definition notStar : regex := Chr (noneOf ["*"]).
Definition boldPattern : regex :=
  seqs [ch "*"; ch "*";
        Group 1 (seqs [Plus true notStar; Opt true (ch "*");
                       Plus true notStar; Opt true (ch "*");
                       Plus true notStar]);
        ch "*"; ch "*"].

(** The two italic patterns, flags [g]; group 1 is the italic span. *)
Definition italicCore : regex :=
  Group 1 (seqs [
    ch "*"; Group 2 (Plus true notStar);
    Star true (seqs [ch "*"; ch "*"; Star true notStar; ch "*"; ch "*"]);
    Group 3 (Plus true notStar); ch "*"]).
Definition italicPattern0 : regex :=
  seqs [Plus true notStar; italicCore; Plus true notStar].
Definition italicPattern1 : regex :=
  seqs [Bol false; Star true notStar; italicCore; Star true notStar; Eol false].

(** [/\`[^\`]*\`/g] *)
Definition inlineCodeSpanPattern : regex :=
  seqs [ch "`"; Star true (Chr (noneOf ["`"])); ch "`"].

End Patterns.


(** [s.replace(r, f)] for a pattern without the [g] flag. *)
Definition replaceFirst (r : Regex.regex) (inp : jsstring)
           (f : Regex.Match -> jsstring) : jsstring :=
  match Regex.exec r inp 0 with
  | Some m => firstn (Regex.m_index m) inp ++ f m ++ skipn (Regex.m_end m) inp
  | None => inp
  end.

(* ================================================================== *)
(** ** Results of code that may throw *)
(* ================================================================== *)

Inductive Outcome (A : Type) : Type :=
| Ret (a : A)
| Throw.
Arguments Ret {A} a.
Arguments Throw {A}.

Global Instance Outcome_ret : MRet Outcome := fun A a => Ret a.
Global Instance Outcome_bind : MBind Outcome := fun A B k o =>
  match o with
  | Ret a => k a
  | Throw => Throw
  end.

(** Run [f] on every element in order and concatenate what it yields;
    the first exception aborts the whole loop. *)
Fixpoint flatMapO {A B : Type} (f : A -> Outcome (list B)) (l : list A)
  : Outcome (list B) :=
  match l with
  | [] => Ret []
  | a :: t =>
      ys ← f a;
      rest ← flatMapO f t;
      Ret (ys ++ rest)
  end.

(** [try { ... } catch { return undefined }] *)
Definition catchO {A : Type} (o : Outcome (option A)) : option A :=
  match o with
  | Ret a => a
  | Throw => None
  end.

(* ================================================================== *)
(** ** Positions and ranges *)
(* ================================================================== *)

Module Lsp.

Record Position : Type := mkPosition { line : Z; character : Z }.

Record Range : Type := mkRange { start : Position; end_ : Position }.

(** [lsp.Range.create(startLine, startCharacter, endLine, endCharacter)] *)
Definition Range_create (sl sc el ec : Z) : Range :=
  mkRange (mkPosition sl sc) (mkPosition el ec).

(** Modelled from the spec: the text-range utilities ([types/position.ts],
    [types/range.ts]) are not part of the sources at hand.  They are
    position and range arithmetic over line/character coordinates:
    translate, contains, equal, modify. *)
Definition translatePosition (pos : Position) (lineDelta characterDelta : Z)
  : Position :=
  mkPosition (line pos + lineDelta) (character pos + characterDelta).

Definition arePositionsEqual (a b : Position) : bool :=
  (line a =? line b)%Z && (character a =? character b)%Z.

Definition isBefore (a b : Position) : bool :=
  (line a <? line b)%Z || ((line a =? line b)%Z && (character a <? character b)%Z).

Definition isAfter (a b : Position) : bool := isBefore b a.

(** [rangeContains(range, position)]: both ends are inclusive. *)
Definition rangeContainsPosition (r : Range) (p : Position) : bool :=
  negb (isBefore p (start r)) && negb (isAfter p (end_ r)).

(** [rangeContains(range, otherRange)] *)
Definition rangeContains (r other : Range) : bool :=
  rangeContainsPosition r (start other) && rangeContainsPosition r (end_ other).

Definition areRangesEqual (a b : Range) : bool :=
  arePositionsEqual (start a) (start b) && arePositionsEqual (end_ a) (end_ b).

(** [modifyRange(range, start?, end?)] *)
Definition modifyRange (r : Range) (s e : option Position) : Range :=
  mkRange (default (start r) s) (default (end_ r) e).

End Lsp.
Export Lsp.

(* ================================================================== *)
(** ** URIs and text documents *)
(* ================================================================== *)

(** The components of a [vscode-uri] URI. *)
Record URI : Type := mkURI {
  scheme : jsstring;
  authority : jsstring;
  path : jsstring;
  query : jsstring;
  fragment : jsstring
}.

Definition URI_eqb (a b : URI) : bool :=
  Js.eqb (scheme a) (scheme b) && Js.eqb (authority a) (authority b)
  && Js.eqb (path a) (path b) && Js.eqb (query a) (query b)
  && Js.eqb (fragment a) (fragment b).

(** [uri.with({ path })] *)
Definition URI_withPath (u : URI) (p : jsstring) : URI :=
  mkURI (scheme u) (authority u) p (query u) (fragment u).

Record ITextDocument : Type := mkDoc {
  uri : URI;
  version : Z;
  getText : jsstring
}.

(** [getDocUri(doc)] *)
Definition getDocUri (doc : ITextDocument) : URI := uri doc.

Module TextDocument.

Definition isEOL (a : ascii) : bool := Js.isLineTerminator a.

(** [computeLineOffsets]: a line ends after LF, CR LF or a lone CR. *)
Fixpoint lineOffsetsFrom (i : nat) (s : jsstring) : list nat :=
  match s with
  | [] => []
  | a :: t =>
      if Ascii.eqb a Js.CR then
        match t with
        | b :: t' =>
            if Ascii.eqb b Js.LF
            then S (S i) :: lineOffsetsFrom (S (S i)) t'
            else S i :: lineOffsetsFrom (S i) t
        | [] => [S i]
        end
      else if Ascii.eqb a Js.LF then S i :: lineOffsetsFrom (S i) t
      else lineOffsetsFrom (S i) t
  end.

Definition getLineOffsets (content : jsstring) : list nat :=
  0 :: lineOffsetsFrom 0 content.

(** [ensureBeforeEOL]: step back over line-break code units. *)
Fixpoint ensureBeforeEOL (content : jsstring) (lineOffset offset : nat) : nat :=
  match offset with
  | O => O
  | S o' =>
      if (lineOffset <? offset)
         && match nth_error content o' with
            | Some a => isEOL a
            | None => false
            end
      then ensureBeforeEOL content lineOffset o'
      else offset
  end.

Fixpoint countLE (offset : nat) (offs : list nat) : nat :=
  match offs with
  | o :: t => if o <=? offset then S (countLE offset t) else 0
  | [] => 0
  end.

Definition positionAt (doc : ITextDocument) (offset : nat) : Position :=
  let content := getText doc in
  let offset := Nat.min offset (length content) in
  let lineOffsets := getLineOffsets content in
  let line := countLE offset lineOffsets - 1 in
  let lineOffset := nth line lineOffsets 0 in
  let offset := ensureBeforeEOL content lineOffset offset in
  mkPosition (Z.of_nat line) (Z.of_nat (offset - lineOffset)).

Definition offsetAt (doc : ITextDocument) (position : Position) : nat :=
  let content := getText doc in
  let lineOffsets := getLineOffsets content in
  if (Z.of_nat (length lineOffsets) <=? line position)%Z then length content
  else if (line position <? 0)%Z then 0
  else
    let l := Z.to_nat (line position) in
    let lineOffset := nth l lineOffsets 0 in
    if (character position <=? 0)%Z then lineOffset
    else
      let nextLineOffset :=
        if S l <? length lineOffsets then nth (S l) lineOffsets 0
        else length content in
      let offset :=
        Z.to_nat (Z.min (Z.of_nat lineOffset + character position)
                        (Z.of_nat nextLineOffset)) in
      ensureBeforeEOL content lineOffset offset.

(** [doc.getText(range)] *)
Definition getTextRange (doc : ITextDocument) (r : Range) : jsstring :=
  Js.substring (getText doc) (offsetAt doc (start r)) (offsetAt doc (end_ r)).

Definition Number_MAX_VALUE : Z := 2 ^ 1023.

(** [getLine(doc, line)]: the text of the line without its line break. *)
Definition getLine (doc : ITextDocument) (l : Z) : jsstring :=
  replaceFirst (Regex.seqs [Patterns.newline; Regex.Eol false])
               (getTextRange doc (Range_create l 0 l Number_MAX_VALUE))
               (fun _ => []).

End TextDocument.
Export TextDocument.

(* ================================================================== *)
(** ** Links *)
(* ================================================================== *)

Inductive HrefKind : Type := External | Internal | Reference.

Inductive Href : Type :=
| ExternalHref (uri : URI)
| InternalHref (path : URI) (fragment : jsstring)
| ReferenceHref (ref : jsstring).

Definition href_kind (h : Href) : HrefKind :=
  match h with
  | ExternalHref _ => External
  | InternalHref _ _ => Internal
  | ReferenceHref _ => Reference
  end.

Definition HrefKind_eqb (a b : HrefKind) : bool :=
  match a, b with
  | External, External | Internal, Internal | Reference, Reference => true
  | _, _ => false
  end.

Inductive MdLinkKind : Type := Link | Definition_ | AutoLink.

Definition MdLinkKind_eqb (a b : MdLinkKind) : bool :=
  match a, b with
  | Link, Link | Definition_, Definition_ | AutoLink, AutoLink => true
  | _, _ => false
  end.

Record MdLinkSource : Type := mkSource {
  hrefText : jsstring;
  hrefPathText : jsstring;
  resource : URI;
  range : Range;
  targetRange : Range;
  hrefRange : Range;
  hrefFragmentRange : option Range;
  isAngleBracketLink : bool;
  titleRange : option Range
}.

(** The name of a link definition: [ref.text] and [ref.range]. *)
Record MdLinkRef : Type := mkRef { ref_text : jsstring; ref_range : Range }.

(** [MdLink]; [ref] is present exactly on definitions. *)
Record MdLink : Type := mkLink {
  kind : MdLinkKind;
  href : Href;
  source : MdLinkSource;
  ref : option MdLinkRef
}.

(** A block token of the Markdown parser: its [type] and its [map],
    the half-open line span it covers. *)
Record Token : Type := mkToken {
  tok_type : jsstring;
  tok_map : option (Z * Z)
}.

(** What [node-html-parser] hands back: elements with their tag name,
    decoded attributes, source text and start offset; everything else
    (text, comments) is [OtherNode]. *)
Inductive HTMLNode : Type :=
| HTMLElement (tagName : option jsstring)
              (attributes : list (jsstring * jsstring))
              (outerHTML : jsstring)
              (rangeStart : nat)
              (childNodes : list HTMLNode)
| OtherNode.

(** [{ resource, linkFragment }] *)
Record ResolvedLink : Type := mkResolved {
  target_resource : URI;
  linkFragment : jsstring
}.

Record FileStat : Type := mkStat { isDirectory : bool }.

Record ContainingDocumentContext : Type := mkContaining {
  containing_uri : URI
}.

(** The workspace the language service runs against. *)
Class IWorkspace : Type := {
  stat : URI -> option FileStat;
  openMarkdownDocument : URI -> option ITextDocument;
  (** the optional method [getContainingDocument] *)
  getContainingDocument : option (URI -> option ContainingDocumentContext)
}.

(** The Markdown tokenizer. *)
Class IMdParser : Type := {
  tokenize : ITextDocument -> list Token
}.

(** Library calls and helpers of the repository whose sources are not
    at hand.  [URI_parse] is [None] when [URI.parse] throws;
    [resolveInternalDocumentLink] may itself throw, which is why
    [createMdLink] wraps [createHref] in a [try]; [parse] is
    [node-html-parser], [None] when it throws; [htmlTagPathAttrs] is the
    table of tags and their path-bearing attributes. *)
Class Helpers : Type := {
  URI_parse : jsstring -> option URI;
  tryDecodeUri : jsstring -> jsstring;
  resolveInternalDocumentLink :
    URI -> jsstring -> IWorkspace -> Outcome (option ResolvedLink);
  parse : jsstring -> option HTMLNode;
  htmlTagPathAttrs : list (jsstring * list jsstring)
}.

Fixpoint assoc {A : Type} (k : jsstring) (l : list (jsstring * A)) : option A :=
  match l with
  | [] => None
  | (k', v) :: t => if Js.eqb k k' then Some v else assoc k t
  end.

Module DocumentLinks.
Import Regex Patterns.

Local Open Scope char_scope.

Section WithHost.
Context {workspace : IWorkspace} {helpers : Helpers}.

(** [createHref]: the first component is what [console.warn] prints. *)
Definition createHref (sourceDocUri : URI) (link : jsstring)
  : list jsstring * Outcome (option Href) :=
  if test schemePattern link then
    (* Looks like a uri *)
    match URI_parse (tryDecodeUri link) with
    | Some u => ([], Ret (Some (ExternalHref u)))
    | None => ([lit "Failed to parse link " ++ link], Ret None)
    end
  else
    ([],
     resolved ← resolveInternalDocumentLink sourceDocUri link workspace;
     match resolved with
     | None => Ret None
     | Some r => Ret (Some (InternalHref (target_resource r) (linkFragment r)))
     end).

(** [stripAngleBrackets(link)] is [link.replace(angleBracketLinkRe, '$1')] *)
Definition stripAngleBrackets (link : jsstring) : jsstring :=
  replaceFirst angleBracketLinkRe link (fun m => groupOr link m 1).

Definition getFragmentRange (text : jsstring) (start_ end' : Position)
  : option Range :=
  let index := Js.indexOf text ["#"] in
  if (index <? 0)%Z then None
  else Some (mkRange (translatePosition start_ 0 (index + 1)) end').

Definition getLinkSourceFragmentInfo (document : ITextDocument)
           (link : jsstring) (linkStart linkEnd : Position)
  : option Range * jsstring :=
  let fragmentRange := getFragmentRange link linkStart linkEnd in
  (fragmentRange,
   getTextRange document
     (mkRange linkStart
              (match fragmentRange with
               | Some fr => translatePosition (start fr) 0 (-1)
               | None => linkEnd
               end))).

Definition createMdLink (document : ITextDocument)
           (targetText preHrefText rawLink : jsstring) (matchIndex : nat)
           (fullMatch : jsstring) (titleMatch : option jsstring)
  : option MdLink :=
  let isAngleBracketLink := Js.startsWith rawLink ["<"] in
  let link := stripAngleBrackets rawLink in
  match catchO (snd (createHref (getDocUri document) link)) with
  | None => None
  | Some linkTarget =>
      let pre := targetText ++ preHrefText in
      let linkStartOffset := matchIndex in
      let linkStart := positionAt document linkStartOffset in
      let linkEnd := positionAt document (linkStartOffset + length fullMatch) in
      let targetStart := positionAt document (linkStartOffset + length targetText) in
      let targetRange := mkRange targetStart linkEnd in
      let hrefStartOffset :=
        linkStartOffset + length pre + (if isAngleBracketLink then 1 else 0) in
      let hrefStart := positionAt document hrefStartOffset in
      let hrefEnd := positionAt document (hrefStartOffset + length link) in
      let hrefRange := mkRange hrefStart hrefEnd in
      let titleRange :=
        match titleMatch with
        | Some t =>
            if Js.isEmpty t then None
            else
              let indexOfTitleInLink := Js.indexOf fullMatch t in
              if (0 <=? indexOfTitleInLink)%Z then
                let titleStartOffset :=
                  linkStartOffset + Z.to_nat indexOfTitleInLink in
                Some (mkRange (positionAt document titleStartOffset)
                              (positionAt document (titleStartOffset + length t)))
              else None
        | None => None
        end in
      let '(fragmentRange, pathText) :=
        getLinkSourceFragmentInfo document link hrefStart hrefEnd in
      Some {| kind := Link;
              href := linkTarget;
              source := {| hrefText := link;
                           hrefPathText := pathText;
                           resource := getDocUri document;
                           range := mkRange linkStart linkEnd;
                           targetRange := targetRange;
                           hrefRange := hrefRange;
                           hrefFragmentRange := fragmentRange;
                           isAngleBracketLink := isAngleBracketLink;
                           titleRange := titleRange |};
              ref := None |}
  end.

End WithHost.

(** *** Ranges in which no link is detected *)

(** [InlineRanges]: for every line, the ranges that cover it. *)
Definition linesOf (r : Range) : list Z :=
  map (fun i => (line (start r) + Z.of_nat i)%Z)
      (seq 0 (Z.to_nat (line (end_ r) - line (start r) + 1))).

Definition InlineRanges_get (m : gmap Z (list Range)) (l : Z) : list Range :=
  default [] (m !! l).

(** [add]: register the range on every line it covers. *)
Definition InlineRanges_add (m : gmap Z (list Range)) (r : Range)
  : gmap Z (list Range) :=
  fold_left (fun m l => <[l := InlineRanges_get m l ++ [r]]> m) (linesOf r) m.

(** [concat] copies the map but not the arrays in it: a range pushed
    on a line that the receiver already knows lands in the receiver's
    array as well.  The result is the pair of the receiver after the
    call and the new object. *)
Definition InlineRanges_concat (m : gmap Z (list Range)) (newRanges : list Range)
  : gmap Z (list Range) * gmap Z (list Range) :=
  let result := fold_left InlineRanges_add newRanges m in
  (map_imap (fun l _ => result !! l) m, result).

Record NoLinkRanges : Type := mkNoLinkRanges {
  (** block elements, [(type, [line_start, line_end))] *)
  multiline : list (jsstring * (Z * Z));
  (** inline code spans *)
  inline : gmap Z (list Range)
}.

Definition isCodeLikeBlock (t : Token) : bool :=
  (Js.eqb (tok_type t) "code_block"%string
   || Js.eqb (tok_type t) "fence"%string
   || Js.eqb (tok_type t) "html_block"%string)
  && match tok_map t with Some _ => true | None => false end.

Definition NoLinkRanges_compute (tokens : list Token) (document : ITextDocument)
  : NoLinkRanges :=
  let multiline :=
    omap (fun t => if isCodeLikeBlock t
                   then option_map (fun m => (tok_type t, m)) (tok_map t)
                   else None) tokens in
  let text := getText document in
  let inlineRanges :=
    fold_left
      (fun acc m =>
         let startOffset := m_index m in
         let startPosition := positionAt document startOffset in
         InlineRanges_add acc
           (mkRange startPosition
                    (positionAt document (startOffset + length (full text m)))))
      (matchAll inlineCodePattern text) ∅ in
  mkNoLinkRanges multiline inlineRanges.

(** [contains(position, excludeType = '')] *)
Definition contains (nlr : NoLinkRanges) (position : Position)
           (excludeType : jsstring) : bool :=
  existsb (fun '(type, (r0, r1)) =>
             negb (Js.eqb type excludeType)
             && (r0 <=? line position)%Z && (line position <? r1)%Z)
          (multiline nlr)
  || existsb (fun inlineRange => rangeContainsPosition inlineRange position)
             (InlineRanges_get (inline nlr) (line position)).

(** [concatInline]: the receiver after the call, and the result. *)
Definition concatInline (nlr : NoLinkRanges) (inlineRanges : list Range)
  : NoLinkRanges * NoLinkRanges :=
  let '(mutated, result) := InlineRanges_concat (inline nlr) inlineRanges in
  (mkNoLinkRanges (multiline nlr) mutated, mkNoLinkRanges (multiline nlr) result).

(** *** The link computer *)

Section MdLinkComputer.
Context {workspace : IWorkspace} {helpers : Helpers} {tokenizer : IMdParser}.

(** The link a reference match yields. *)
Definition referenceLink (document : ITextDocument) (reference : jsstring)
           (linkStart linkEnd hrefStart hrefEnd : Position) : MdLink :=
  {| kind := Link;
     source := {| isAngleBracketLink := false;
                  hrefText := reference;
                  hrefPathText := reference;
                  resource := getDocUri document;
                  range := mkRange linkStart linkEnd;
                  targetRange := mkRange (translatePosition hrefStart 0 (-1))
                                         (translatePosition hrefEnd 0 1);
                  hrefRange := mkRange hrefStart hrefEnd;
                  hrefFragmentRange := None;
                  titleRange := None |};
     href := ReferenceHref reference;
     ref := None |}.

(** The body of the loop of [#getReferenceLinksInText] for one match
    of [referenceLinkPattern]; [recur] is the method itself, called
    on the link text. *)
Definition referenceLinksOfMatch
           (recur : jsstring -> nat -> list MdLink)
           (document : ITextDocument) (text : jsstring)
           (startingOffset : nat) (noLinkRanges : NoLinkRanges)
           (m : Match) : list MdLink :=
  let match0 := full text m in
  let linkStartOffset := startingOffset + m_index m in
  let linkStart := positionAt document linkStartOffset in
  if contains noLinkRanges linkStart [] then []
  else
    let linkEnd := translatePosition linkStart 0 (Z.of_nat (length match0)) in
    match group text m 3 with
    | Some [] => (* [ref][] *)
        let reference := Js.trim (groupOr text m 2) in
        if Js.isEmpty reference then []
        else
          let offset := linkStartOffset + 1 in
          let hrefStart := positionAt document offset in
          let hrefEnd := positionAt document (offset + length reference) in
          [referenceLink document reference linkStart linkEnd hrefStart hrefEnd]
    | Some reference => (* [text][ref] *)
        let text' := groupOr text m 2 in
        let isImage := Js.startsWith match0 ["!"] in
        if Js.isEmpty text' && negb isImage then
          (* Empty links are not valid *)
          []
        else
          let inner :=
            if negb isImage
            then recur text' (linkStartOffset + 1) (* Also get links in text *)
            else [] in
          let pre := groupOr text m 1 in
          let offset := linkStartOffset + length pre in
          let hrefStart := positionAt document offset in
          let hrefEnd := positionAt document (offset + length reference) in
          inner ++
          [referenceLink document reference linkStart linkEnd hrefStart hrefEnd]
    | None =>
        match group text m 4 with
        | Some ((_ :: _) as shorthand) => (* [ref] *)
            let reference := Js.trim shorthand in
            if Js.isEmpty reference then []
            else
              let offset := linkStartOffset + 1 in
              let hrefStart := positionAt document offset in
              let line_ := getLine document (line hrefStart) in
              (* See if link looks like link definition *)
              if (character linkStart =? 0)%Z
                 && match nth_error line_ (length match0) with
                    | Some a => Ascii.eqb a ":"
                    | None => false
                    end
              then []
              else
                (* See if link looks like a checkbox *)
                let checkboxMatch := exec checkboxPattern line_ 0 in
                if match checkboxMatch with
                   | Some cm =>
                       (character hrefStart <=? Z.of_nat (length (full line_ cm)))%Z
                   | None => false
                   end
                then []
                else
                  let hrefEnd := positionAt document (offset + length reference) in
                  [referenceLink document reference linkStart linkEnd
                                 hrefStart hrefEnd]
        | _ => []
        end
    end.

(** [#getReferenceLinksInText].  The method calls itself on the text
    of a [[text][ref]] link, which is shorter than the text it was
    found in; [fuel] bounds the nesting depth. *)
Fixpoint getReferenceLinksInText (fuel : nat) (document : ITextDocument)
         (text : jsstring) (startingOffset : nat)
         (noLinkRanges : NoLinkRanges) : list MdLink :=
  match fuel with
  | O => []
  | S fuel' =>
      flat_map
        (referenceLinksOfMatch
           (fun t o => getReferenceLinksInText fuel' document t o noLinkRanges)
           document text startingOffset noLinkRanges)
        (matchAll referenceLinkPattern text)
  end.

Definition getReferenceLinks (document : ITextDocument)
           (noLinkRanges : NoLinkRanges) : list MdLink :=
  let text := getText document in
  getReferenceLinksInText (S (length text)) document text 0 noLinkRanges.

(** [createMdLink] applied to a match of [linkPattern] found at
    [offset + match.index]. *)
Definition mdLinkOfMatch (document : ITextDocument) (text : jsstring)
           (offset : nat) (m : Match) : option MdLink :=
  createMdLink document (groupOr text m 1) (groupOr text m 2)
               (groupOr text m 3) (offset + m_index m) (full text m)
               (group text m 4).

(** The body of the loop of [#getInlineLinks] for one match. *)
Definition inlineLinksOfMatch (document : ITextDocument) (text : jsstring)
           (noLinkRanges : NoLinkRanges) (m : Match) : list MdLink :=
  let linkTextIncludingBrackets := groupOr text m 1 in
  match mdLinkOfMatch document text 0 m with
  | Some matchLinkData =>
      if contains noLinkRanges (start (hrefRange (source matchLinkData))) []
      then []
      else
        matchLinkData ::
        (* Also check for images in link text *)
        if test imageStartPattern linkTextIncludingBrackets then
          let linkText :=
            Js.slice linkTextIncludingBrackets 1
                     (length linkTextIncludingBrackets - 1) in
          let startOffset := m_index m + 1 in
          omap (mdLinkOfMatch document linkText startOffset)
               (matchAll linkPattern linkText)
          ++ getReferenceLinksInText (S (length linkText)) document linkText
                                     startOffset noLinkRanges
        else []
  | None => []
  end.

Definition getInlineLinks (document : ITextDocument)
           (noLinkRanges : NoLinkRanges) : list MdLink :=
  let text := getText document in
  flat_map (inlineLinksOfMatch document text noLinkRanges)
           (matchAll linkPattern text).

(** The body of the loop of [#getAutoLinks] for one match. *)
Definition autoLinkOfMatch (document : ITextDocument) (text : jsstring)
           (noLinkRanges : NoLinkRanges) (m : Match)
  : Outcome (list MdLink) :=
  let docUri := getDocUri document in
  let linkOffset := m_index m in
  let linkStart := positionAt document linkOffset in
  if contains noLinkRanges linkStart [] then Ret []
  else
    let link := groupOr text m 1 in
    linkTarget ← snd (createHref docUri link);
    match linkTarget with
    | Some (ExternalHref _ as target) =>
        let linkEnd :=
          translatePosition linkStart 0 (Z.of_nat (length (full text m))) in
        let hrefStart := translatePosition linkStart 0 1 in
        let hrefEnd := translatePosition hrefStart 0 (Z.of_nat (length link)) in
        let hrefRange := mkRange hrefStart hrefEnd in
        let '(fragmentRange, pathText) :=
          getLinkSourceFragmentInfo document link hrefStart hrefEnd in
        Ret [{| kind := AutoLink;
                href := target;
                source := {| isAngleBracketLink := false;
                             hrefText := link;
                             resource := docUri;
                             targetRange := hrefRange;
                             hrefRange := hrefRange;
                             range := mkRange linkStart linkEnd;
                             hrefFragmentRange := fragmentRange;
                             hrefPathText := pathText;
                             titleRange := None |};
                ref := None |}]
    | _ => Ret []
    end.

Definition getAutoLinks (document : ITextDocument)
           (noLinkRanges : NoLinkRanges) : Outcome (list MdLink) :=
  let text := getText document in
  flatMapO (autoLinkOfMatch document text noLinkRanges)
           (matchAll autoLinkPattern text).

(** The body of the loop of [#getLinkDefinitions] for one match. *)
Definition definitionOfMatch (document : ITextDocument) (text : jsstring)
           (noLinkRanges : NoLinkRanges) (m : Match)
  : Outcome (list MdLink) :=
  let docUri := getDocUri document in
  let offset := m_index m in
  let linkStart := positionAt document offset in
  if contains noLinkRanges linkStart [] then Ret []
  else
    let pre := groupOr text m 1 in
    let reference := groupOr text m 2 in
    let rawLinkText := Js.trim (groupOr text m 3) in
    let isAngleBracketLink := test angleBracketLinkRe rawLinkText in
    let linkText := stripAngleBrackets rawLinkText in
    target ← snd (createHref docUri linkText);
    match target with
    | None => Ret []
    | Some target =>
        let hrefStart :=
          translatePosition linkStart 0
            (Z.of_nat (length pre) + (if isAngleBracketLink then 1 else 0)) in
        let hrefEnd :=
          translatePosition hrefStart 0 (Z.of_nat (length linkText)) in
        let hrefRange := mkRange hrefStart hrefEnd in
        let refStart := translatePosition linkStart 0 1 in
        let refRange :=
          mkRange refStart
                  (translatePosition refStart 0 (Z.of_nat (length reference))) in
        let line_ := getLine document (line linkStart) in
        let linkEnd := translatePosition linkStart 0 (Z.of_nat (length line_)) in
        let '(fragmentRange, pathText) :=
          getLinkSourceFragmentInfo document rawLinkText hrefStart hrefEnd in
        Ret [{| kind := Definition_;
                source := {| isAngleBracketLink := isAngleBracketLink;
                             hrefText := linkText;
                             resource := docUri;
                             range := mkRange linkStart linkEnd;
                             targetRange := hrefRange;
                             hrefRange := hrefRange;
                             hrefFragmentRange := fragmentRange;
                             hrefPathText := pathText;
                             titleRange := None |};
                ref := Some (mkRef reference refRange);
                href := target |}]
    end.

Definition getLinkDefinitions (document : ITextDocument)
           (noLinkRanges : NoLinkRanges) : Outcome (list MdLink) :=
  let text := getText document in
  flatMapO (definitionOfMatch document text noLinkRanges)
           (matchAll definitionPattern text).

(** [#linkAttrsByTag]: for an attribute name, the pattern made of
    the name, an equals sign and a quote (group 1), the value up to
    the next quote (group 2) and a quote, with the [i] flag.  The
    names in the table are plain words. *)
Definition letterCI (a : ascii) : regex :=
  if Js.isLetter a
  then Chr (fun b => Nat.eqb (Nat.lor (Js.code a) 32) (Nat.lor (Js.code b) 32)
                     && Js.isLetter b)
  else ch a.

Definition attrRegexp (attr : jsstring) : regex :=
  seqs [Group 1 (seqs (map letterCI attr
                       ++ [ch "="; Chr (oneOf [Js.DQUOTE; Js.SQUOTE])]));
        Group 2 (Star true (Chr (noneOf [Js.SQUOTE; Js.DQUOTE])));
        Chr (oneOf [Js.DQUOTE; Js.SQUOTE])].

(** The body of the attribute loop of [#getHtmlLinksFromNode]. *)
Definition htmlLinkOfAttr (document : ITextDocument)
           (attributes : list (jsstring * jsstring)) (outerHTML : jsstring)
           (rangeStart : nat) (noLinkRanges : NoLinkRanges)
           (attr : jsstring) : Outcome (list MdLink) :=
  match assoc attr attributes with
  | None | Some [] => Ret []
  | Some link =>
      match exec (attrRegexp attr) outerHTML 0 with
      | None => Ret []
      | Some attrMatch =>
          let docUri := getDocUri document in
          linkTarget ← snd (createHref docUri link);
          match linkTarget with
          | None => Ret []
          | Some linkTarget =>
              let linkStart :=
                positionAt document
                  (rangeStart + m_index attrMatch
                   + length (groupOr outerHTML attrMatch 1)) in
              if contains noLinkRanges linkStart "html_block"%string then Ret []
              else
                let linkEnd :=
                  translatePosition linkStart 0
                    (Z.of_nat (length (groupOr outerHTML attrMatch 2))) in
                let hrefRange := mkRange linkStart linkEnd in
                let '(fragmentRange, pathText) :=
                  getLinkSourceFragmentInfo document link linkStart linkEnd in
                Ret [{| kind := Link;
                        href := linkTarget;
                        source := {| isAngleBracketLink := false;
                                     hrefText := link;
                                     resource := docUri;
                                     targetRange := hrefRange;
                                     hrefRange := hrefRange;
                                     range := mkRange linkStart linkEnd;
                                     hrefFragmentRange := fragmentRange;
                                     hrefPathText := pathText;
                                     titleRange := None |};
                        ref := None |}]
          end
      end
  end.

Fixpoint getHtmlLinksFromNode (document : ITextDocument) (node : HTMLNode)
         (noLinkRanges : NoLinkRanges) : Outcome (list MdLink) :=
  match node with
  | OtherNode => Ret []
  | HTMLElement tagName attributes outerHTML rangeStart childNodes =>
      own ←
        match tagName with
        | Some tag =>
            match assoc tag htmlTagPathAttrs with
            | Some attrs =>
                flatMapO (htmlLinkOfAttr document attributes outerHTML
                                         rangeStart noLinkRanges) attrs
            | None => Ret []
            end
        | None => Ret []
        end;
      rest ←
        (fix children (cs : list HTMLNode) : Outcome (list MdLink) :=
           match cs with
           | [] => Ret []
           | child :: cs' =>
               ys ← getHtmlLinksFromNode document child noLinkRanges;
               zs ← children cs';
               Ret (ys ++ zs)
           end) childNodes;
      Ret (own ++ rest)
  end.

Definition getHtmlLinks (document : ITextDocument)
           (noLinkRanges : NoLinkRanges) : Outcome (list MdLink) :=
  let text := getText document in
  if negb (test htmlTagStartPattern text) then Ret [] (* Only parse if there may be html *)
  else
    match parse text with
    | Some tree => getHtmlLinksFromNode document tree noLinkRanges
    | None => Ret []
    end.

(** [getAllLinks].  The inline links are collected first; the call
    of [concatInline] then leaves its mark on [noLinkRanges], which
    the last three passes read. *)
Definition getAllLinks (document : ITextDocument) (isCancellationRequested : bool)
  : Outcome (list MdLink) :=
  let tokens := tokenize document in
  if isCancellationRequested then Ret []
  else
    let noLinkRanges := NoLinkRanges_compute tokens document in
    let inlineLinks := getInlineLinks document noLinkRanges in
    let '(noLinkRanges', withInlineLinks) :=
      concatInline noLinkRanges (map (fun x => range (source x)) inlineLinks) in
    let referenceLinks := getReferenceLinks document withInlineLinks in
    definitions ← getLinkDefinitions document noLinkRanges';
    autoLinks ← getAutoLinks document noLinkRanges';
    htmlLinks ← getHtmlLinks document noLinkRanges';
    Ret (inlineLinks ++ referenceLinks ++ definitions ++ autoLinks ++ htmlLinks).

End MdLinkComputer.

End DocumentLinks.

(* ================================================================== *)
(** ** An in-memory host for worked examples *)
(* ================================================================== *)

(** The counterpart of the test-suite's [InMemoryWorkspace]: a list of
    documents under the folder [/workspace], a [URI.parse] that follows
    [vscode-uri], and a link resolver that follows the description of
    the href resolver.  The examples below run against it. *)
Module InMemory.
Import Regex Patterns DocumentLinks.
Local Open Scope char_scope.

(** Path arithmetic of [path.posix]. *)
Fixpoint splitOn (sep : ascii) (s : jsstring) : list jsstring :=
  match s with
  | [] => [[]]
  | a :: t =>
      if Ascii.eqb a sep then [] :: splitOn sep t
      else match splitOn sep t with
           | seg :: rest => (a :: seg) :: rest
           | [] => [[a]]
           end
  end.

Fixpoint joinWith (sep : ascii) (l : list jsstring) : jsstring :=
  match l with
  | [] => []
  | [s] => s
  | s :: rest => s ++ sep :: joinWith sep rest
  end.

(** Resolve [.] and [..] segments; [acc] is the reversed result. *)
Fixpoint normalizeSegments (acc segs : list jsstring) : list jsstring :=
  match segs with
  | [] => rev acc
  | seg :: rest =>
      if Js.isEmpty seg || Js.eqb seg "."%string then normalizeSegments acc rest
      else if Js.eqb seg ".."%string then normalizeSegments (tl acc) rest
      else normalizeSegments (seg :: acc) rest
  end.

Definition segments (p : jsstring) : list jsstring :=
  normalizeSegments [] (splitOn "/" p).

Definition absolute (segs : list jsstring) : jsstring :=
  "/" :: joinWith "/" segs.

Definition dirnameSegments (p : jsstring) : list jsstring :=
  removelast (segments p).

(** [Utils.joinPath(Utils.dirname(uri), rel)] *)
Definition joinDir (u : URI) (rel : jsstring) : URI :=
  URI_withPath u (absolute (normalizeSegments (rev (dirnameSegments (path u)))
                                              (splitOn "/" rel))).

(** [URI.parse]: split with the pattern of [vscode-uri], default the
    scheme to [file], reject an ill-formed scheme or path. *)
Definition uriPattern : regex :=
  seqs [Bol false;
        Opt true (Seq (Group 2 (Plus false (Chr (noneOf [":"; "/"; "?"; "#"]))))
                      (ch ":"));
        Opt true (seqs [ch "/"; ch "/";
                        Group 4 (Star true (Chr (noneOf ["/"; "?"; "#"])))]);
        Group 5 (Star true (Chr (noneOf ["?"; "#"])));
        Opt true (Seq (ch "?") (Group 7 (Star true (Chr (noneOf ["#"])))));
        Opt true (Seq (ch "#") (Group 9 (Star true (Chr dot))))].

Definition schemeOk (s : jsstring) : bool :=
  match s with
  | [] => true
  | a :: t =>
      Js.isWordChar a
      && forallb (fun b => Js.isWordChar b || oneOf ["+"; "."; "-"] b) t
  end.

Definition uriParse (value : jsstring) : option URI :=
  match exec uriPattern value 0 with
  | None => Some (mkURI "file"%string [] [] [] [])
  | Some m =>
      let scheme0 := groupOr value m 2 in
      let scheme := if Js.isEmpty scheme0 then lit "file" else scheme0 in
      let authority := groupOr value m 4 in
      let path0 := groupOr value m 5 in
      let path :=
        if Js.eqb scheme "https"%string || Js.eqb scheme "http"%string
           || Js.eqb scheme "file"%string
        then match path0 with
             | [] => ["/"]
             | a :: _ => if Ascii.eqb a "/" then path0 else "/" :: path0
             end
        else path0 in
      if negb (schemeOk scheme0) then None
      else if negb (Js.isEmpty authority) && negb (Js.isEmpty path)
              && negb (Js.startsWith path ["/"]) then None
      else if Js.isEmpty authority && Js.startsWith path ["/"; "/"] then None
      else Some (mkURI scheme authority path (groupOr value m 7) (groupOr value m 9))
  end.

Definition workspaceRoot : URI := mkURI "file"%string [] "/workspace"%string [] [].

Definition workspacePath (name : string) : URI :=
  URI_withPath workspaceRoot (lit "/workspace/" ++ lit name).

(** Modelled from the spec: [resolveInternalDocumentLink] is not part
    of the sources at hand.  The href resolver splits off a [#fragment]
    suffix and joins the path against the source document's directory
    unless the path is absolute (leading [/], resolved against the
    workspace folder) or empty (the link then targets the source
    document itself). *)
Definition splitFragment (linkText : jsstring) : jsstring * jsstring :=
  let i := Js.indexOf linkText ["#"] in
  if (i <? 0)%Z then (linkText, [])
  else (firstn (Z.to_nat i) linkText, skipn (S (Z.to_nat i)) linkText).

Definition resolveInternal (sourceDocUri : URI) (linkText : jsstring)
           (w : IWorkspace) : Outcome (option ResolvedLink) :=
  let '(p, frag) := splitFragment linkText in
  let docUri :=
    match getContainingDocument with
    | Some f => match f sourceDocUri with
                | Some ctx => containing_uri ctx
                | None => sourceDocUri
                end
    | None => sourceDocUri
    end in
  match p with
  | [] => Ret (Some (mkResolved sourceDocUri frag))
  | a :: _ =>
      if Ascii.eqb a "/"
      then Ret (Some (mkResolved
                        (URI_withPath workspaceRoot
                           (absolute (normalizeSegments
                                        (rev (segments (path workspaceRoot)))
                                        (splitOn "/" p))))
                        frag))
      else Ret (Some (mkResolved (joinDir docUri p) frag))
  end.

Definition emptyForest : HTMLNode := HTMLElement None [] [] 0 [].

(** No document of the examples contains an HTML element or a percent
    escape: the parsed forest is a root without children, and
    decoding leaves the text as it is. *)
Definition helpers : Helpers :=
  {| URI_parse := uriParse;
     tryDecodeUri := fun s => s;
     resolveInternalDocumentLink := resolveInternal;
     parse := fun _ => Some emptyForest;
     htmlTagPathAttrs :=
       [(lit "IMG", [lit "src"]); (lit "VIDEO", [lit "src"; lit "placeholder"]);
        (lit "SOURCE", [lit "src"]); (lit "A", [lit "href"])] |}.

Definition isFolder (u : URI) : bool := false.

Definition workspaceOf (docs : list ITextDocument) : IWorkspace :=
  {| stat := fun u =>
       if existsb (fun d => URI_eqb (uri d) u) docs
       then Some (mkStat false) else None;
     openMarkdownDocument := fun u =>
       find (fun d => URI_eqb (uri d) u) docs;
     getContainingDocument := None |}.

Definition docOf (name : string) (contents : jsstring) : ITextDocument :=
  mkDoc (workspacePath name) 1 contents.

(** The tokenizer's answer is given with each example. *)
Definition parserOf (tokens : list Token) : IMdParser :=
  {| tokenize := fun _ => tokens |}.

Definition token (type : string) (l0 l1 : Z) : Token :=
  mkToken (lit type) (Some (l0, l1)).

(** [getLinksForText] of the link-computer tests. *)
Definition getLinksForText (tokens : list Token) (fileContents : jsstring)
  : Outcome (list MdLink) :=
  let doc := docOf "test.md" fileContents in
  @getAllLinks (workspaceOf [doc]) helpers (parserOf tokens) doc false.

(** What the tests compare: [hrefRange] and [hrefText] of every link. *)
Definition hrefSummary (o : Outcome (list MdLink))
  : option (list ((Z * Z * Z * Z) * string)) :=
  match o with
  | Ret links =>
      Some (map (fun l =>
                   let r := hrefRange (source l) in
                   ((line (start r), character (start r),
                     line (end_ r), character (end_ r)),
                    string_of_list_ascii (hrefText (source l)))) links)
  | Throw => None
  end.

End InMemory.

(* ================================================================== *)
(** ** Table of contents, references and the remaining collaborators *)
(* ================================================================== *)

(** [lsp.Location]; the [uri] is kept in parsed form. *)
Record Location : Type := mkLocation {
  loc_uri : URI;
  loc_range : Range
}.

(** [TocEntry]; a [Slug] is its [value]. *)
Record TocEntry : Type := mkTocEntry {
  slug : jsstring;
  toc_text : jsstring;
  level : Z;
  toc_line : Z;
  headerLocation : Location;
  headerTextLocation : Location;
  sectionLocation : Location
}.

(** [slug.equals(other)] *)
Definition Slug_equals (a b : jsstring) : bool := Js.eqb a b.

Record TableOfContents : Type := mkToc { entries : list TocEntry }.

(** Modelled from the spec: [TableOfContents.lookupByFragment] is not
    part of the sources at hand.  A fragment matches a heading when it
    is that heading's slug: exact slug match required, no fuzzy
    matching; the first such entry is the answer. *)
Definition lookupByFragment (toc : TableOfContents) (fragmentText : jsstring)
  : option TocEntry :=
  find (fun entry => Slug_equals (slug entry) fragmentText) (entries toc).

Class ISlugifier : Type := {
  fromHeading : jsstring -> jsstring
}.

(** [MdTableOfContentsProvider] and [TableOfContents.create]. *)
Class ITocProvider : Type := {
  getForDocument : ITextDocument -> TableOfContents;
  getForContainingDoc : ITextDocument -> TableOfContents;
  TableOfContents_create : ITextDocument -> TableOfContents
}.

(** [MdReference]: a header or a link, whether it is the one under the
    cursor and whether it is the defining occurrence. *)
Inductive MdReference : Type :=
| HeaderReference (isTriggerLocation isDefinition : bool) (location : Location)
                  (headerText : jsstring) (headerTextLocation : Location)
| LinkReference (isTriggerLocation isDefinition : bool) (location : Location)
                (link : MdLink).

Definition isTriggerLocation (r : MdReference) : bool :=
  match r with
  | HeaderReference t _ _ _ _ | LinkReference t _ _ _ => t
  end.

Definition ref_isDefinition (r : MdReference) : bool :=
  match r with
  | HeaderReference _ d _ _ _ | LinkReference _ d _ _ => d
  end.

Definition location (r : MdReference) : Location :=
  match r with
  | HeaderReference _ _ l _ _ | LinkReference _ _ l _ => l
  end.

Definition isHeaderReference (r : MdReference) : bool :=
  match r with
  | HeaderReference _ _ _ _ _ => true
  | LinkReference _ _ _ _ => false
  end.

Class IReferencesProvider : Type := {
  getReferencesAtPosition : ITextDocument -> Position -> list MdReference;
  getReferencesToFileInWorkspace : URI -> list MdReference
}.

(** The part of [LsConfiguration] the code reads directly. *)
Record LsConfiguration : Type := mkConfig {
  markdownFileExtensions : list jsstring
}.

Definition defaultMarkdownFileExtension : jsstring := lit "md".

(** Path helpers of the repository and of [path.posix] / [vscode-uri]
    whose sources are not at hand. *)
Class PathHelpers : Type := {
  parseLocationInfoFromFragment : jsstring -> option Position;
  tryAppendMarkdownFileExtension : LsConfiguration -> URI -> option URI;
  statLinkToMarkdownFile : LsConfiguration -> IWorkspace -> URI -> option URI;
  looksLikeMarkdownUri : LsConfiguration -> URI -> bool;
  isExcludedPath : LsConfiguration -> URI -> bool;
  isSameResource : URI -> URI -> bool;
  isParentDir : URI -> URI -> bool;
  computeRelativePath : URI -> URI -> bool -> option jsstring;
  removeNewUriExtIfNeeded : LsConfiguration -> Href -> URI -> URI;
  needsAngleBracketLink : jsstring -> bool;
  escapeForAngleBracketLink : jsstring -> jsstring;
  posix_relative : jsstring -> jsstring -> jsstring;
  posix_join : jsstring -> jsstring -> jsstring;
  Utils_joinPath : URI -> jsstring -> URI;
  Utils_dirname : URI -> URI;
  Utils_extname : URI -> jsstring;
  encodeURI : jsstring -> jsstring;
  fsPath : URI -> jsstring
}.

(** Modelled from the spec: [WorkspaceEditBuilder] ([util/editBuilder.ts])
    is not part of the sources at hand.  A builder returns a
    multi-document edit, made of text edits and of workspace file-rename
    operations.  The edit is kept here as the list of the replacements
    and file renames asked of the builder; the list is in the order of
    the calls, which the edit that the builder hands out is not known to
    keep. *)
Inductive EditOperation : Type :=
| Replace (resource : URI) (range : Range) (newText : jsstring)
| RenameFile (oldUri newUri : URI).

Definition WorkspaceEdit : Type := list EditOperation.

Definition builder_replace (builder : WorkspaceEdit) (resource : URI)
           (range : Range) (newText : jsstring) : WorkspaceEdit :=
  builder ++ [Replace resource range newText].

Definition builder_renameFile (builder : WorkspaceEdit) (oldUri newUri : URI)
  : WorkspaceEdit :=
  builder ++ [RenameFile oldUri newUri].

(* ================================================================== *)
(** ** The link provider: resolving link targets *)
(* ================================================================== *)

(** [ResolvedDocumentLinkTarget] *)
Inductive ResolvedDocumentLinkTarget : Type :=
| FileTarget (uri : URI) (position : option Position) (fragment : option jsstring)
| FolderTarget (uri : URI)
| ExternalTarget (uri : URI).

Module LinkProvider.
Import DocumentLinks.

Section MdLinkProvider.
Context {workspace : IWorkspace} {helpers : Helpers}
        {pathHelpers : PathHelpers} {tocProvider : ITocProvider}.
Variable config : LsConfiguration.

(** The first half of [#resolveInternalLinkTarget]: probe the file
    system, unless the link lives in a containing document.  [inl]
    is an early [return], [inr] the target to go on with. *)
Definition probeTarget (linkPath : URI) (isCancellationRequested : bool)
  : ResolvedDocumentLinkTarget + URI :=
  let target := linkPath in
  let containingContext :=
    match getContainingDocument with
    | Some f => f target
    | None => None
    end in
  match containingContext with
  | Some _ => inr target
  | None =>
      let stat_ := stat target in
      if match stat_ with Some s => isDirectory s | None => false end
      then inl (FolderTarget target)
      else if isCancellationRequested then inl (FolderTarget target)
      else
        match stat_ with
        | Some _ => inr target
        | None =>
            (* We don't think the file exists.  If it doesn't already have
               an extension, try tacking on a .md and using that instead *)
            match tryAppendMarkdownFileExtension config target with
            | Some dotMdResource =>
                match stat dotMdResource with
                | Some _ => inr dotMdResource
                | None => inl (FileTarget target None None)
                end
            | None => inl (FileTarget target None None)
            end
        end
  end.

Definition resolveInternalLinkTarget (linkPath : URI) (linkFragment : jsstring)
           (isCancellationRequested : bool) : ResolvedDocumentLinkTarget :=
  match probeTarget linkPath isCancellationRequested with
  | inl result => result
  | inr target =>
      if Js.isEmpty linkFragment then FileTarget target None None
      else
        (* Try navigating with fragment that sets line number *)
        match parseLocationInfoFromFragment linkFragment with
        | Some locationLinkPosition =>
            FileTarget target (Some locationLinkPosition) None
        | None =>
            (* Try navigating to header in file *)
            let doc := openMarkdownDocument target in
            if isCancellationRequested then FileTarget target None None
            else
              match doc with
              | Some doc =>
                  let toc := getForContainingDoc doc in
                  match lookupByFragment toc linkFragment with
                  | Some entry =>
                      FileTarget (loc_uri (headerLocation entry))
                                 (Some (start (loc_range (headerLocation entry))))
                                 (Some linkFragment)
                  | None => FileTarget target None None
                  end
              | None => FileTarget target None None
              end
        end
  end.

Definition resolveLinkTarget (linkText : jsstring) (sourceDoc : URI)
           (isCancellationRequested : bool)
  : Outcome (option ResolvedDocumentLinkTarget) :=
  href_ ← snd (createHref sourceDoc linkText);
  match href_ with
  | Some (InternalHref _ _) =>
      resolved ← resolveInternalDocumentLink sourceDoc linkText workspace;
      match resolved with
      | None => Ret None
      | Some resolved =>
          Ret (Some (resolveInternalLinkTarget (target_resource resolved)
                                               (linkFragment resolved)
                                               isCancellationRequested))
      end
  | _ => Ret None
  end.

End MdLinkProvider.

End LinkProvider.

(* ================================================================== *)
(** ** The rename provider *)
(* ================================================================== *)

Record TextEdit : Type := mkTextEdit { edit_range : Range; edit_newText : jsstring }.

(** [tempDocVersion] *)
Definition tempDocVersion : Z := (-1)%Z.

(** Modelled from the spec: [InMemoryDocument.applyEdits] is not part of
    the sources at hand.  The hypothetical edited copy of a document is
    the same text with the span of the edit replaced. *)
Definition applyEdit (doc : ITextDocument) (e : TextEdit) : ITextDocument :=
  let a := offsetAt doc (start (edit_range e)) in
  let b := offsetAt doc (end_ (edit_range e)) in
  mkDoc (uri doc) tempDocVersion
        (firstn a (getText doc) ++ edit_newText e ++ skipn b (getText doc)).

Module Rename.

Local Open Scope char_scope.

Record MdReferencesResponse : Type := mkResponse {
  references : list MdReference;
  triggerRef : MdReference
}.

(** [#cachedRefs] *)
Record CachedRefs : Type := mkCached {
  cached_resource : URI;
  cached_version : Z;
  cached_position : Position;
  cached_triggerRef : MdReference;
  cached_references : list MdReference
}.

Definition responseOf (c : CachedRefs) : MdReferencesResponse :=
  mkResponse (cached_references c) (cached_triggerRef c).

(** [getFilePathRange(link)] *)
Definition getFilePathRange (link : MdLink) : Range :=
  match hrefFragmentRange (source link) with
  | Some fr =>
      modifyRange (hrefRange (source link)) None
                  (Some (translatePosition (start fr) 0 (-1)))
  | None => hrefRange (source link)
  end.

Definition newPathWithFragmentIfNeeded (newPath : jsstring) (link : MdLink)
  : jsstring :=
  match href link with
  | InternalHref _ fragment =>
      if Js.isEmpty fragment then newPath else newPath ++ "#" :: fragment
  | _ => newPath
  end.

Section Exported.
Context {workspace : IWorkspace} {helpers : Helpers} {pathHelpers : PathHelpers}.

(** [getLinkRenameText(workspace, source, newPath, preferDotSlash)] *)
Definition getLinkRenameText (source : MdLinkSource) (newPath : URI)
           (preferDotSlash : bool) : Outcome (option jsstring) :=
  if Js.startsWith (hrefText source) ["/"] then
    root ← resolveInternalDocumentLink (resource source) ["/"] workspace;
    match root with
    | None => Ret None
    | Some root =>
        Ret (Some ("/" :: posix_relative (path (target_resource root))
                                         (path newPath)))
    end
  else Ret (computeRelativePath (resource source) newPath preferDotSlash).

(** [getLinkRenameEdit(link, newPathText)] *)
Definition getLinkRenameEdit (link : MdLink) (newPathText : jsstring) : TextEdit :=
  let linkRange := hrefRange (source link) in
  let newPathText :=
    newPathWithFragmentIfNeeded
      (map (fun a => if Ascii.eqb a "\" then "/" else a) newPathText) link in
  if isAngleBracketLink (source link) then
    if negb (needsAngleBracketLink newPathText) then
      (* Remove the angle brackets *)
      mkTextEdit (mkRange (translatePosition (start linkRange) 0 (-1))
                          (translatePosition (end_ linkRange) 0 1))
                 newPathText
    else mkTextEdit linkRange (escapeForAngleBracketLink newPathText)
  else if needsAngleBracketLink newPathText then
    (* We might need to use angle brackets for the link *)
    mkTextEdit linkRange ("<" :: escapeForAngleBracketLink newPathText ++ [">"])
  else mkTextEdit linkRange newPathText.

End Exported.

Section MdRenameProvider.
Context {workspace : IWorkspace} {helpers : Helpers} {pathHelpers : PathHelpers}
        {tocProvider : ITocProvider} {slugifier : ISlugifier}
        {referencesProvider : IReferencesProvider}.
Variable configuration : LsConfiguration.

Definition cacheHit (c : CachedRefs) (document : ITextDocument)
           (position : Position) : bool :=
  Js.eqb (fsPath (cached_resource c)) (fsPath (getDocUri document))
  && (cached_version c =? version document)%Z
  && arePositionsEqual (cached_position c) position.

(** [#getAllReferences]: the answer, and [#cachedRefs] after the call. *)
Definition getAllReferences (cachedRefs : option CachedRefs)
           (document : ITextDocument) (position : Position)
           (isCancellationRequested : bool)
  : option MdReferencesResponse * option CachedRefs :=
  match cachedRefs with
  | Some c =>
      if cacheHit c document position then (Some (responseOf c), cachedRefs)
      else
        let references := getReferencesAtPosition document position in
        if isCancellationRequested then (None, cachedRefs)
        else
          match find isTriggerLocation references with
          | None => (None, cachedRefs)
          | Some triggerRef =>
              (Some (mkResponse references triggerRef),
               Some (mkCached (getDocUri document) (version document)
                              position triggerRef references))
          end
  | None =>
      let references := getReferencesAtPosition document position in
      if isCancellationRequested then (None, cachedRefs)
      else
        match find isTriggerLocation references with
        | None => (None, cachedRefs)
        | Some triggerRef =>
            (Some (mkResponse references triggerRef),
             Some (mkCached (getDocUri document) (version document)
                            position triggerRef references))
        end
  end.

(** The span a fragment rename rewrites in a link reference:
    [ref.link.source.hrefFragmentRange ?? ref.location.range]. *)
Definition fragmentSpan (link : MdLink) (location : Location) : Range :=
  default (loc_range location) (hrefFragmentRange (source link)).

(** The [forEach] over the old table of contents: the slug of the
    renamed header in the edited document, and the entries of the
    edited document whose slug differs from the old entry at the
    same index. *)
Definition compareEntry (newToc : TableOfContents) (existingHeaderLine : Z)
           (acc : jsstring * list TocEntry) (indexed : nat * TocEntry)
  : jsstring * list TocEntry :=
  let '(newSlug, changedHeaders) := acc in
  let '(index, oldEntry) := indexed in
  match nth_error (entries newToc) index with
  | None => acc
  | Some newEntry =>
      if (line (start (loc_range (headerLocation oldEntry)))
          =? existingHeaderLine)%Z
      then (slug newEntry, changedHeaders) (* Take the new slug from the edited document *)
      else if negb (Slug_equals (slug oldEntry) (slug newEntry))
           then (newSlug, changedHeaders ++ [newEntry])
           else acc
  end.

Definition compareTocs (oldToc newToc : TableOfContents)
           (existingHeaderLine : Z) (newSlug : jsstring)
  : jsstring * list TocEntry :=
  fold_left (compareEntry newToc existingHeaderLine)
            (combine (seq 0 (length (entries oldToc))) (entries oldToc))
            (newSlug, []).

(** The edits for the references of one header whose slug shifted. *)
Definition replaceLinksTo (changedHeader : TocEntry)
           (refs : list MdReference) (builder : WorkspaceEdit)
  : WorkspaceEdit :=
  fold_left
    (fun builder ref =>
       match ref with
       | LinkReference _ _ location link =>
           builder_replace builder (resource (source link))
                           (fragmentSpan link location) (slug changedHeader)
       | HeaderReference _ _ _ _ _ => builder
       end)
    refs builder.

(** The loop over [changedHeaders]; the state is [#cachedRefs] and
    the builder. *)
Fixpoint rewriteChangedHeaders (doc : ITextDocument)
         (changedHeaders : list TocEntry) (isCancellationRequested : bool)
         (cachedRefs : option CachedRefs) (builder : WorkspaceEdit)
  : option (option CachedRefs * WorkspaceEdit) :=
  match changedHeaders with
  | [] => Some (cachedRefs, builder)
  | changedHeader :: rest =>
      let '(refs, cachedRefs) :=
        getAllReferences cachedRefs doc
                         (start (loc_range (headerLocation changedHeader)))
                         isCancellationRequested in
      if isCancellationRequested then None
      else
        rewriteChangedHeaders
          doc rest isCancellationRequested cachedRefs
          (replaceLinksTo changedHeader
                          (match refs with
                           | Some r => references r
                           | None => []
                           end)
                          builder)
  end.

(** The final loop of [#renameFragment] over the gathered references. *)
Definition renameReference (newHeaderText newSlug : jsstring)
           (builder : WorkspaceEdit) (ref : MdReference) : WorkspaceEdit :=
  match ref with
  | HeaderReference _ _ location _ headerTextLocation =>
      builder_replace builder (loc_uri location)
                      (loc_range headerTextLocation) newHeaderText
  | LinkReference _ _ location link =>
      builder_replace
        builder (resource (source link)) (fragmentSpan link location)
        (match hrefFragmentRange (source link), href link with
         | None, _ | _, ExternalHref _ => newHeaderText
         | _, _ => newSlug
         end)
  end.

(** [#renameFragment]: [None] is [undefined] (cancelled). *)
Definition renameFragment (cachedRefs : option CachedRefs)
           (allRefsInfo : MdReferencesResponse) (newHeaderText : jsstring)
           (isCancellationRequested : bool)
  : option (option CachedRefs * WorkspaceEdit) :=
  let builder : WorkspaceEdit := [] in
  let newSlug := fromHeading newHeaderText in
  let cascade : option (jsstring * option CachedRefs * WorkspaceEdit) :=
    match find isHeaderReference (references allRefsInfo) with
    | Some existingHeader =>
        (* If there's a real header we're renaming, we need to handle
           cases where there are duplicate header ids. *)
        let doc := openMarkdownDocument (loc_uri (location existingHeader)) in
        if isCancellationRequested then None
        else
          match doc with
          | Some doc =>
              let editedDoc :=
                applyEdit (mkDoc (loc_uri (location existingHeader))
                                 tempDocVersion (getText doc))
                          (mkTextEdit (loc_range (location existingHeader))
                                      ("#" :: " " :: newHeaderText)) in
              let oldToc := getForDocument doc in
              let newToc := TableOfContents_create editedDoc in
              let '(newSlug, changedHeaders) :=
                compareTocs oldToc newToc
                            (line (start (loc_range (location existingHeader))))
                            newSlug in
              match rewriteChangedHeaders doc changedHeaders
                                          isCancellationRequested
                                          cachedRefs builder with
              | Some (cachedRefs, builder) => Some (newSlug, cachedRefs, builder)
              | None => None
              end
          | None => Some (newSlug, cachedRefs, builder)
          end
    | None => Some (newSlug, cachedRefs, builder)
    end in
  match cascade with
  | None => None
  | Some (newSlug, cachedRefs, builder) =>
      Some (cachedRefs,
            fold_left (renameReference newHeaderText newSlug)
                      (references allRefsInfo) builder)
  end.

Definition renameExternalLink (allRefsInfo : MdReferencesResponse)
           (newName : jsstring) : WorkspaceEdit :=
  fold_left
    (fun builder ref =>
       match ref with
       | LinkReference _ _ location link =>
           builder_replace builder (resource (source link))
                           (loc_range location) newName
       | HeaderReference _ _ _ _ _ => builder
       end)
    (references allRefsInfo) [].

Definition renameReferenceLinks (allRefsInfo : MdReferencesResponse)
           (newName : jsstring) : WorkspaceEdit :=
  fold_left
    (fun builder r =>
       match r with
       | LinkReference _ _ location link =>
           match kind link, ref link with
           | Definition_, Some name =>
               builder_replace builder (resource (source link))
                               (ref_range name) newName
           | _, _ =>
               builder_replace builder (resource (source link))
                               (fragmentSpan link location) newName
           end
       | HeaderReference _ _ _ _ _ => builder
       end)
    (references allRefsInfo) [].

(** [#getLinkRenameEdit] *)
Definition linkRenameEditFor (link : MdLink) (rawNewFilePath : ResolvedLink)
           (newName : jsstring) : Outcome TextEdit :=
  (* Try to preserve style of existing links *)
  newLinkText ← getLinkRenameText (source link) (target_resource rawNewFilePath)
                  (Js.startsWith newName ["."; "/"]
                   || Js.startsWith newName ["."; "\"]);
  Ret (getLinkRenameEdit link (default newName newLinkText)).

Definition renameFilePath (triggerDocument : URI) (triggerHrefPath : URI)
           (allRefsInfo : MdReferencesResponse) (newName : jsstring)
           (isCancellationRequested : bool) : Outcome WorkspaceEdit :=
  let builder : WorkspaceEdit := [] in
  let targetUri :=
    default triggerHrefPath
            (statLinkToMarkdownFile configuration workspace triggerHrefPath) in
  if isCancellationRequested then Ret builder
  else
    rawNewFilePath ← resolveInternalDocumentLink triggerDocument newName workspace;
    match rawNewFilePath with
    | None => Ret builder
    | Some rawNewFilePath =>
        let resolvedNewFilePath := target_resource rawNewFilePath in
        let resolvedNewFilePath :=
          if Js.isEmpty (Utils_extname resolvedNewFilePath)
             && negb (Js.isEmpty (Utils_extname targetUri))
          then
            (* If the newly entered path doesn't have a file extension but
               the original link did tack on a .md file extension *)
            URI_withPath resolvedNewFilePath
              (path resolvedNewFilePath ++ "." ::
               match markdownFileExtensions configuration with
               | ext :: _ => ext
               | [] => defaultMarkdownFileExtension
               end)
          else resolvedNewFilePath in
        (* First rename the file *)
        let builder :=
          match stat targetUri with
          | Some _ => builder_renameFile builder targetUri resolvedNewFilePath
          | None => builder
          end in
        (* Then update all refs to it *)
        fold_left
          (fun acc ref =>
             builder ← acc;
             match ref with
             | LinkReference _ _ _ link =>
                 e ← linkRenameEditFor link rawNewFilePath newName;
                 Ret (builder_replace builder (resource (source link))
                                      (edit_range e) (edit_newText e))
             | HeaderReference _ _ _ _ _ => Ret builder
             end)
          (references allRefsInfo) (Ret builder)
    end.

Definition inFragment (link : MdLink) (position : Position) : bool :=
  match hrefFragmentRange (source link) with
  | Some fr => rangeContainsPosition fr position
  | None => false
  end.

(** [provideRenameEdits]: the edit, or [undefined], and [#cachedRefs]
    after the call. *)
Definition provideRenameEdits (cachedRefs : option CachedRefs)
           (document : ITextDocument) (position : Position)
           (newName : jsstring) (isCancellationRequested : bool)
  : Outcome (option WorkspaceEdit) * option CachedRefs :=
  let '(allRefsInfo, cachedRefs) :=
    getAllReferences cachedRefs document position isCancellationRequested in
  match allRefsInfo with
  | None => (Ret None, cachedRefs)
  | Some allRefsInfo =>
      if isCancellationRequested
         || match references allRefsInfo with [] => true | _ => false end
      then (Ret None, cachedRefs)
      else
        match triggerRef allRefsInfo with
        | HeaderReference _ _ _ _ _ =>
            match renameFragment cachedRefs allRefsInfo newName
                                 isCancellationRequested with
            | Some (cachedRefs, edit) => (Ret (Some edit), cachedRefs)
            | None => (Ret None, cachedRefs)
            end
        | LinkReference _ _ _ link =>
            if (MdLinkKind_eqb (kind link) Definition_
                && match ref link with
                   | Some name => rangeContainsPosition (ref_range name) position
                   | None => false
                   end)
               || HrefKind_eqb (href_kind (href link)) Reference
            then (Ret (Some (renameReferenceLinks allRefsInfo newName)), cachedRefs)
            else if HrefKind_eqb (href_kind (href link)) External
            then (Ret (Some (renameExternalLink allRefsInfo newName)), cachedRefs)
            else if inFragment link position
                    && (MdLinkKind_eqb (kind link) Definition_
                        || (MdLinkKind_eqb (kind link) Link
                            && HrefKind_eqb (href_kind (href link)) Internal))
            then
              match renameFragment cachedRefs allRefsInfo newName
                                   isCancellationRequested with
              | Some (cachedRefs, edit) => (Ret (Some edit), cachedRefs)
              | None => (Ret None, cachedRefs)
              end
            else if negb (inFragment link position)
                    && (MdLinkKind_eqb (kind link) Link
                        || MdLinkKind_eqb (kind link) Definition_)
                    && HrefKind_eqb (href_kind (href link)) Internal
            then
              match href link with
              | InternalHref p _ =>
                  (e ← renameFilePath (resource (source link)) p allRefsInfo
                                      newName isCancellationRequested;
                   Ret (Some e), cachedRefs)
              | _ => (Ret None, cachedRefs)
              end
            else (Ret None, cachedRefs)
        end
  end.

End MdRenameProvider.

End Rename.

(* ================================================================== *)
(** ** The file-rename provider *)
(* ================================================================== *)

Module FileRename.
Import Rename.

Local Open Scope char_scope.

Record FileRename : Type := mkFileRename { oldUri : URI; newUri : URI }.

Record FileRenameResponse : Type := mkFileRenameResponse {
  participatingRenames : list FileRename;
  edit : WorkspaceEdit
}.

(** [MdWorkspaceInfoCache<readonly MdLink[]>]: the links of every
    document of the workspace, and of given documents. *)
Class ILinkCache : Type := {
  linkCache_entries : list (URI * list MdLink);
  linkCache_getForDoc : ITextDocument -> list MdLink
}.

Section MdFileRenameProvider.
Context {workspace : IWorkspace} {helpers : Helpers} {pathHelpers : PathHelpers}
        {referencesProvider : IReferencesProvider} {linkCache : ILinkCache}.
Variable config : LsConfiguration.

(** [#addLinkRenameEdit]: whether an edit was added, and the builder. *)
Definition addLinkRenameEdit (doc : URI) (link : MdLink) (newUri_ : URI)
           (builder : WorkspaceEdit) : Outcome (bool * WorkspaceEdit) :=
  match href link with
  | InternalHref _ _ =>
      let newFilePath := removeNewUriExtIfNeeded config (href link) newUri_ in
      newLinkText ← getLinkRenameText (source link) newFilePath
                      (Js.startsWith (hrefText (source link)) ["."]);
      match newLinkText with
      | Some newLinkText =>
          let e := getLinkRenameEdit link newLinkText in
          Ret (true, builder_replace builder doc (edit_range e) (edit_newText e))
      | None => Ret (false, builder)
      end
  | _ => Ret (false, builder)
  end.

(** The loop over [allEdits] in [#addEditsForLinksInSelf]: the first
    rename that moves the old target decides where it is now. *)
Fixpoint chainThroughRenames (allEdits : list FileRename) (oldLink : ResolvedLink)
  : ResolvedLink :=
  match allEdits with
  | [] => oldLink
  | edit :: rest =>
      if isSameResource (oldUri edit) (target_resource oldLink)
         || isParentDir (oldUri edit) (target_resource oldLink)
      then mkResolved
             (Utils_joinPath (newUri edit)
                (posix_relative (path (oldUri edit))
                                (path (target_resource oldLink))))
             (linkFragment oldLink)
      else chainThroughRenames rest oldLink
  end.

Definition addEditsForLinksInSelf (doc : ITextDocument) (link : MdLink)
           (edit : FileRename) (allEdits : list FileRename)
           (builder : WorkspaceEdit) : Outcome (bool * WorkspaceEdit) :=
  match href link with
  | InternalHref _ _ =>
      if Js.startsWith (hrefText (source link)) ["#"] then
        (* No rewrite needed as we are referencing the current doc implicitly *)
        Ret (false, builder)
      else if Js.startsWith (hrefText (source link)) ["/"] then
        (* We likely don't need to update anything since an absolute path is used *)
        Ret (false, builder)
      else
        (* Resolve the link relative to the old file path *)
        oldLink ← resolveInternalDocumentLink (oldUri edit)
                    (hrefText (source link)) workspace;
        match oldLink with
        | None => Ret (false, builder)
        | Some oldLink =>
            (* See if the old link was effected by one of the renames *)
            let oldLink := chainThroughRenames allEdits oldLink in
            addLinkRenameEdit (getDocUri doc) link (target_resource oldLink) builder
        end
  | _ => Ret (false, builder)
  end.

(** A loop that tries to add an edit for every element and records
    whether any attempt took part. *)
Fixpoint forEachEdit {A : Type}
         (step : A -> WorkspaceEdit -> Outcome (bool * WorkspaceEdit))
         (l : list A) (didParticipate : bool) (builder : WorkspaceEdit)
  : Outcome (bool * WorkspaceEdit) :=
  match l with
  | [] => Ret (didParticipate, builder)
  | a :: rest =>
      r ← step a builder;
      forEachEdit step rest (fst r || didParticipate) (snd r)
  end.

(** [#tryAddEditsInSelf] *)
Definition tryAddEditsInSelf (edit : FileRename) (allEdits : list FileRename)
           (builder : WorkspaceEdit) : Outcome (bool * WorkspaceEdit) :=
  if negb (looksLikeMarkdownUri config (newUri edit)) then Ret (false, builder)
  else if isExcludedPath config (newUri edit) then Ret (false, builder)
  else
    match openMarkdownDocument (newUri edit) with
    | None => Ret (false, builder)
    | Some doc =>
        let links := linkCache_getForDoc doc in
        forEachEdit (fun link => addEditsForLinksInSelf doc link edit allEdits)
                    links false builder
    end.

(** [#addEditsForReferencesToFile] *)
Definition addEditsForReferencesToFile (edit : FileRename)
           (builder : WorkspaceEdit) (isCancellationRequested : bool)
  : Outcome (bool * WorkspaceEdit) :=
  if isExcludedPath config (newUri edit) then Ret (false, builder)
  else
    let refs := getReferencesToFileInWorkspace (oldUri edit) in
    if isCancellationRequested then Ret (false, builder)
    else
      forEachEdit
        (fun ref builder =>
           match ref with
           | LinkReference _ _ location link =>
               addLinkRenameEdit (loc_uri location) link (newUri edit) builder
           | HeaderReference _ _ _ _ _ => Ret (false, builder)
           end)
        refs false builder.

(** [#addSingleFileRenameEdits] *)
Definition addSingleFileRenameEdits (edit : FileRename)
           (allEdits : list FileRename) (builder : WorkspaceEdit)
           (isCancellationRequested : bool) : Outcome (bool * WorkspaceEdit) :=
  (* Update all references to the file *)
  r1 ← addEditsForReferencesToFile edit builder isCancellationRequested;
  if isCancellationRequested then Ret (false, snd r1)
  else
    (* If the file moved was markdown, we also need to update links in the file itself *)
    r2 ← tryAddEditsInSelf edit allEdits (snd r1);
    Ret (fst r1 || fst r2, snd r2).

(** The body of the inner loop of [#addDirectoryRenameEdits]. *)
Definition directoryRenameEditsForLink (edit : FileRename) (docUri : URI)
           (link : MdLink) (builder : WorkspaceEdit)
  : Outcome (bool * WorkspaceEdit) :=
  match href link with
  | InternalHref hrefPath _ =>
      if Js.startsWith (hrefText (source link)) ["#"] then Ret (false, builder)
      else
        (* Update links to the moved dir *)
        match
          ((if isParentDir (oldUri edit) hrefPath then
             let relative := posix_relative (path (oldUri edit)) (path hrefPath) in
             let newUri_ :=
               URI_withPath (newUri edit) (posix_join (path (newUri edit)) relative) in
             addLinkRenameEdit docUri link newUri_ builder
           else Ret (false, builder)) : Outcome (bool * WorkspaceEdit))
        with
        | Throw => Throw
        | Ret first =>
        if fst first then Ret first
        else
          (* If the link was within a file in the moved dir but traversed
             out of it, we also need to update the path *)
          if Js.startsWith (hrefText (source link)) ["."; "."]
             && isParentDir (newUri edit) docUri
          then
            (* Resolve the link relative to the old file path *)
            let oldDocUri :=
              URI_withPath docUri
                (path (Utils_joinPath (oldUri edit)
                         (posix_relative (path (newUri edit)) (path docUri)))) in
            oldLink ← resolveInternalDocumentLink oldDocUri
                        (hrefText (source link)) workspace;
            match oldLink with
            | None => Ret (false, builder)
            | Some oldLink =>
                let newPathText :=
                  if isParentDir (oldUri edit) (target_resource oldLink) then
                    (* The link still points within the directory being moved. *)
                    let rootDir := Utils_dirname oldDocUri in
                    "." :: "/" :: posix_relative (path rootDir)
                                                 (path (target_resource oldLink))
                  else
                    let rootDir := Utils_dirname docUri in
                    posix_relative (path rootDir) (path (target_resource oldLink)) in
                let replacementPath := encodeURI newPathText in
                if negb (Js.eqb replacementPath (hrefPathText (source link))) then
                  let e := getLinkRenameEdit link replacementPath in
                  Ret (true, builder_replace builder docUri
                                             (edit_range e) (edit_newText e))
                else Ret (false, builder)
            end
          else Ret (false, builder)
        end
  | _ => Ret (false, builder)
  end.

(** [#addDirectoryRenameEdits] *)
Definition addDirectoryRenameEdits (edit : FileRename) (builder : WorkspaceEdit)
           (isCancellationRequested : bool) : Outcome (bool * WorkspaceEdit) :=
  (* First update every link that points to something in the moved dir *)
  let allLinksInWorkspace := linkCache_entries in
  if isCancellationRequested then Ret (false, builder)
  else
    forEachEdit
      (fun '(docUri, links) builder =>
         forEachEdit (directoryRenameEditsForLink edit docUri) links false builder)
      allLinksInWorkspace false builder.

(** The loop of [getRenameFilesInWorkspaceEdit]; [None] is
    [undefined] (cancelled). *)
Fixpoint renameLoop (remaining allEdits : list FileRename)
         (isCancellationRequested : bool)
         (participating : list FileRename) (builder : WorkspaceEdit)
  : Outcome (option FileRenameResponse) :=
  match remaining with
  | [] => Ret (Some (mkFileRenameResponse participating builder))
  | edit :: rest =>
      let stat_ := stat (newUri edit) in
      if isCancellationRequested then Ret None
      else
        '(didParticipate, builder) ←
          (if match stat_ with Some s => isDirectory s | None => false end
           then addDirectoryRenameEdits edit builder isCancellationRequested
           else addSingleFileRenameEdits edit allEdits builder
                                         isCancellationRequested);
        renameLoop rest allEdits isCancellationRequested
                   (if didParticipate : bool then participating ++ [edit]
                    else participating)
                   builder
  end.

Definition getRenameFilesInWorkspaceEdit (edits : list FileRename)
           (isCancellationRequested : bool) : Outcome (option FileRenameResponse) :=
  renameLoop edits edits isCancellationRequested [] [].

End MdFileRenameProvider.

End FileRename.

(* ================================================================== *)
(** ** The selection-range provider *)
(* ================================================================== *)

(** [lsp.SelectionRange]: a range and the enclosing selection, if any. *)
Inductive SelectionRange : Type :=
| mkSelectionRange (sr_range : Range) (sr_parent : option SelectionRange).

Definition sr_range (s : SelectionRange) : Range :=
  match s with mkSelectionRange r _ => r end.

Definition sr_parent (s : SelectionRange) : option SelectionRange :=
  match s with mkSelectionRange _ p => p end.

Module SmartSelect.
Import Regex Patterns DocumentLinks.

Local Open Scope Z_scope.

(** [Array.prototype.sort] with a comparator: a stable sort, here by
    insertion.  An element goes after those it does not precede. *)
Fixpoint insertSorted {A : Type} (cmp : A -> A -> Z) (x : A) (l : list A) : list A :=
  match l with
  | [] => [x]
  | y :: t => if cmp x y <? 0 then x :: l else y :: insertSorted cmp x t
  end.

Definition sortBy {A : Type} (cmp : A -> A -> Z) (l : list A) : list A :=
  fold_left (fun acc x => insertSorted cmp x acc) l [].

(** Modelled from the spec: [isEmptyOrWhitespace] of [util/string.ts] is
    not part of the sources at hand; blank lines are those made of
    white space only. *)
Definition isEmptyOrWhitespace (text : jsstring) : bool :=
  forallb Js.isWhiteSpace text.

Definition makeSelectionRange (range : Range) (parent : option SelectionRange)
  : SelectionRange :=
  match parent with
  | Some p =>
      if areRangesEqual (sr_range p) range then p
      else mkSelectionRange range parent
  | None => mkSelectionRange range parent
  end.

Definition sectionRange (h : TocEntry) : Range := loc_range (sectionLocation h).

Definition getHeadersForPosition (toc : list TocEntry) (position : Position)
  : list TocEntry * bool :=
  let enclosingHeaders :=
    filter (fun header =>
              (line (start (sectionRange header)) <=? line position)
              && (line (end_ (sectionRange header)) >=? line position)) toc in
  let sortedHeaders :=
    sortBy (fun header1 header2 =>
              (toc_line header1 - line position) - (toc_line header2 - line position))
           enclosingHeaders in
  let onThisLine :=
    match find (fun header => toc_line header =? line position) toc with
    | Some _ => true
    | None => false
    end in
  (sortedHeaders, onThisLine).

Definition createHeaderRange (header : TocEntry) (isClosestHeaderToPosition : bool)
           (onHeaderLine : bool) (parent : option SelectionRange)
           (startOfChildRange : option Position) : SelectionRange :=
  let range := sectionRange header in
  let contentRange := mkRange (translatePosition (start range) 1 0) (end_ range) in
  match startOfChildRange with
  | Some child =>
      if onHeaderLine && isClosestHeaderToPosition then
        (* selection was made on this header line, so select header and its
           content until the start of its first child then all of its content *)
        makeSelectionRange (modifyRange range None (Some child))
                           (Some (makeSelectionRange range parent))
      else if isClosestHeaderToPosition then
        (* selection was made within content and has child so select content
           of this header then all content then header *)
        makeSelectionRange
          (modifyRange contentRange None (Some child))
          (Some (makeSelectionRange contentRange
                                    (Some (makeSelectionRange range parent))))
      else
        makeSelectionRange contentRange (Some (makeSelectionRange range parent))
  | None =>
      if onHeaderLine && isClosestHeaderToPosition then
        (* selection was made on this header line and no children so expand
           to all of its content *)
        makeSelectionRange range parent
      else
        (* not on this header line so select content then header *)
        makeSelectionRange contentRange (Some (makeSelectionRange range parent))
  end.

Definition isList (token : Token) : bool :=
  existsb (Js.eqb (tok_type token))
          [lit "ordered_list_open"; lit "list_item_open"; lit "bullet_list_open"].

Definition isBlockElement (token : Token) : bool :=
  negb (existsb (Js.eqb (tok_type token))
                [lit "list_item_close"; lit "paragraph_close";
                 lit "bullet_list_close"; lit "inline"; lit "heading_close";
                 lit "heading_open"]).

(** A token that has a [map]. *)
Record TokenWithMap : Type := mkTokenWithMap {
  tm_type : jsstring;
  tm_map : Z * Z
}.

Definition tokenSize (t : TokenWithMap) : Z := snd (tm_map t) - fst (tm_map t).

Definition getBlockTokensForPosition (tokens : list Token) (position : Position)
           (parent : option SelectionRange) : list TokenWithMap :=
  let enclosingTokens :=
    omap (fun token =>
            match tok_map token with
            | Some (m0, m1) =>
                if (m0 <=? line position) && (m1 >? line position)
                   && match parent with
                      | Some p =>
                          (m0 >=? line (start (sr_range p)))
                          && (m1 <=? line (end_ (sr_range p)) + 1)
                      | None => true
                      end
                   && isBlockElement token
                then Some (mkTokenWithMap (tok_type token) (m0, m1))
                else None
            | None => None
            end) tokens in
  sortBy (fun token1 token2 => tokenSize token2 - tokenSize token1) enclosingTokens.

Definition lineLength (document : ITextDocument) (l : Z) : Z :=
  Z.of_nat (length (getLine document l)).

Definition createFencedRange (token : TokenWithMap) (cursorLine : Z)
           (document : ITextDocument) (parent : option SelectionRange)
  : SelectionRange :=
  let startLine := fst (tm_map token) in
  let endLine := snd (tm_map token) - 1 in
  let onFenceLine := (cursorLine =? startLine) || (cursorLine =? endLine) in
  let fenceRange := Range_create startLine 0 endLine (lineLength document endLine) in
  if (endLine - startLine >? 2) && negb onFenceLine then
    let contentRange :=
      Range_create (startLine + 1) 0 (endLine - 1)
                   (lineLength document (endLine - 1)) in
    makeSelectionRange contentRange (Some (makeSelectionRange fenceRange parent))
  else
    match parent with
    | Some p =>
        if areRangesEqual (sr_range p) fenceRange then p
        else makeSelectionRange fenceRange parent
    | None => makeSelectionRange fenceRange parent
    end.

Definition createBlockRange (block : TokenWithMap) (document : ITextDocument)
           (cursorLine : Z) (parent : option SelectionRange) : SelectionRange :=
  if Js.eqb (tm_type block) "fence"%string then
    createFencedRange block cursorLine document parent
  else
    let m0 := fst (tm_map block) in
    let m1 := snd (tm_map block) in
    let startLine := if isEmptyOrWhitespace (getLine document m0) then m0 + 1 else m0 in
    let endLine := if startLine =? m1 then m1 else m1 - 1 in
    let '(startLine, endLine) :=
      if Js.eqb (tm_type block) "paragraph_open"%string && (m1 - m0 =? 2)
      then (cursorLine, cursorLine)
      else if isList (mkToken (tm_type block) (Some (tm_map block)))
              && isEmptyOrWhitespace (getLine document endLine)
           then (startLine, endLine - 1)
           else (startLine, endLine) in
    let range := Range_create startLine 0 endLine (lineLength document endLine) in
    match parent with
    | Some p =>
        if rangeContains (sr_range p) range && negb (areRangesEqual (sr_range p) range)
        then makeSelectionRange range parent
        else if areRangesEqual (sr_range p) range then p
        else makeSelectionRange range None
    | None => makeSelectionRange range None
    end.

(** [getFirstChildHeader] *)
Definition getFirstChildHeader (document : ITextDocument) (header : TocEntry)
           (toc : list TocEntry) : option Position :=
  let children :=
    sortBy (fun t1 t2 => toc_line t1 - toc_line t2)
           (filter (fun t =>
                      rangeContains (sectionRange header) (sectionRange t)
                      && (line (start (sectionRange t))
                          >? line (start (sectionRange header)))) toc) in
  match children with
  | child :: _ =>
      let childRange := start (sectionRange child) in
      let lineText := getLine document (line childRange - 1) in
      Some (translatePosition childRange (-1) (Z.of_nat (length lineText)))
  | [] => None
  end.

(** The matches of a pattern that the cursor touches:
    [lineText.indexOf(match[0]) <= cursorChar] and
    [lineText.indexOf(match[0]) + match[0].length >= cursorChar]. *)
Definition matchesAtCursor (r : regex) (lineText : jsstring) (cursorChar : Z)
  : list Match :=
  filter (fun m =>
            let i := Js.indexOf lineText (full lineText m) in
            (i <=? cursorChar)
            && (i + Z.of_nat (length (full lineText m)) >=? cursorChar))
         (matchAll r lineText).

Definition createBoldRange (lineText : jsstring) (cursorChar cursorLine : Z)
           (parent : option SelectionRange) : option SelectionRange :=
  match matchesAtCursor boldPattern lineText cursorChar with
  | m :: _ =>
      (* should only be one match, so select first and index 0 contains the entire match *)
      let bold := full lineText m in
      let len := Z.of_nat (length bold) in
      let startIndex := Js.indexOf lineText bold in
      let cursorOnStars :=
        (cursorChar =? startIndex) || (cursorChar =? startIndex + 1)
        || (cursorChar =? startIndex + len) || (cursorChar =? startIndex + len - 1) in
      let contentAndStars :=
        makeSelectionRange
          (Range_create cursorLine startIndex cursorLine (startIndex + len)) parent in
      let content :=
        makeSelectionRange
          (Range_create cursorLine (startIndex + 2) cursorLine (startIndex + len - 2))
          (Some contentAndStars) in
      Some (if cursorOnStars then contentAndStars else content)
  | [] => None
  end.

Definition createOtherInlineRange (lineText : jsstring) (cursorChar cursorLine : Z)
           (isItalic : bool) (parent : option SelectionRange)
  : option SelectionRange :=
  let matches :=
    if isItalic then
      match matchesAtCursor italicPattern0 lineText cursorChar with
      | [] => matchesAtCursor italicPattern1 lineText cursorChar
      | ms => ms
      end
    else matchesAtCursor inlineCodeSpanPattern lineText cursorChar in
  match matches with
  | m :: _ =>
      (* select group 1 for italics because that contains just the italic section *)
      let match_ := if isItalic then groupOr lineText m 1 else full lineText m in
      let len := Z.of_nat (length match_) in
      let startIndex := Js.indexOf lineText match_ in
      let cursorOnType := (cursorChar =? startIndex) || (cursorChar =? startIndex + len) in
      let contentAndType :=
        makeSelectionRange
          (Range_create cursorLine startIndex cursorLine (startIndex + len)) parent in
      let content :=
        makeSelectionRange
          (Range_create cursorLine (startIndex + 1) cursorLine (startIndex + len - 1))
          (Some contentAndType) in
      Some (if cursorOnType then contentAndType else content)
  | [] => None
  end.

(** [a ?? b] *)
Definition orElseOpt {A : Type} (a b : option A) : option A :=
  match a with Some _ => a | None => b end.

(** [createLinkRange], given the links of the document. *)
Definition createLinkRange (allLinks : list MdLink) (cursorPos : Position)
           (parent : option SelectionRange) : option SelectionRange :=
  let linksInRange :=
    filter (fun link => rangeContainsPosition (range (source link)) cursorPos)
           allLinks in
  (* For nested image links, the inner most list is returned last *)
  match last linksInRange with
  | None => None
  | Some link =>
      let src := source link in
      if MdLinkKind_eqb (kind link) AutoLink then
        Some (makeSelectionRange (hrefRange src)
                                 (Some (makeSelectionRange (range src) parent)))
      else if HrefKind_eqb (href_kind (href link)) Reference
              && areRangesEqual (targetRange src) (range src)
      then Some (makeSelectionRange (targetRange src) parent)
      else
        let fullLinkSelectionRange := makeSelectionRange (range src) parent in
        (* determine if cursor is within [text] or (url) in order to know
           which should be selected *)
        if rangeContainsPosition (targetRange src) cursorPos then
          (* Inside the href *)
          if MdLinkKind_eqb (kind link) Definition_ then
            Some (makeSelectionRange (targetRange src) (Some fullLinkSelectionRange))
          else
            (* Create two ranges, one for the href content and one for the
               content plus brackets *)
            let linkDestRanges :=
              makeSelectionRange
                (mkRange (translatePosition (start (targetRange src)) 0 1)
                         (translatePosition (end_ (targetRange src)) 0 (-1)))
                (Some (makeSelectionRange (targetRange src)
                                          (Some fullLinkSelectionRange))) in
            let insideAngleBrackets :=
              if isAngleBracketLink src
                 && rangeContainsPosition (hrefRange src) cursorPos
              then
                (* If we're inside an angle bracket link, create a range for
                   the contents of the bracket and the brackets *)
                Some (makeSelectionRange
                        (hrefRange src)
                        (Some (makeSelectionRange
                                 (mkRange
                                    (translatePosition (start (hrefRange src)) 0 (-1))
                                    (translatePosition (end_ (hrefRange src)) 0 1))
                                 (Some linkDestRanges))))
              else None in
            match titleRange src with
            | Some title =>
                if rangeContainsPosition title cursorPos then
                  (* If we're inside the title, create a range for the title *)
                  Some (makeSelectionRange title (Some linkDestRanges))
                else
                  (* If we have a title but are not inside it, create an extra
                     range just for the href too without the title *)
                  orElseOpt insideAngleBrackets
                            (Some (makeSelectionRange (hrefRange src)
                                                      (Some linkDestRanges)))
            | None => orElseOpt insideAngleBrackets (Some linkDestRanges)
            end
        else
          (* Inside the text *)
          if MdLinkKind_eqb (kind link) Definition_ then
            Some (makeSelectionRange
                    (mkRange (translatePosition (start (range src)) 0 1)
                             (translatePosition (start (targetRange src)) 0 (-3)))
                    (Some fullLinkSelectionRange))
          else
            Some (makeSelectionRange
                    (mkRange (translatePosition (start (range src)) 0 1)
                             (translatePosition (start (targetRange src)) 0 (-1)))
                    (Some fullLinkSelectionRange))
  end.

Section MdSelectionRangeProvider.
Context {workspace : IWorkspace} {helpers : Helpers} {parser : IMdParser}
        {tocProvider : ITocProvider}.

(** [linkProvider.getLinks(document)]: the links of the document, as
    the link computer finds them. *)
Definition getLinks (document : ITextDocument) : Outcome (list MdLink) :=
  getAllLinks document false.

(** [createInlineRange]; [None] stands for [undefined]. *)
Definition createInlineRange (document : ITextDocument) (cursorPosition : Position)
           (parent : option SelectionRange) (isCancellationRequested : bool)
  : Outcome (option SelectionRange) :=
  let lineText := getLine document (line cursorPosition) in
  let cursorChar := character cursorPosition in
  let cursorLine := line cursorPosition in
  let boldSelection := createBoldRange lineText cursorChar cursorLine parent in
  let italicSelection :=
    createOtherInlineRange lineText cursorChar cursorLine true parent in
  let comboSelection :=
    match boldSelection, italicSelection with
    | Some b, Some i =>
        if negb (areRangesEqual (sr_range b) (sr_range i)) then
          if rangeContains (sr_range b) (sr_range i) then
            createOtherInlineRange lineText cursorChar cursorLine true boldSelection
          else if rangeContains (sr_range i) (sr_range b) then
            createBoldRange lineText cursorChar cursorLine italicSelection
          else None
        else None
    | _, _ => None
    end in
  allLinks ← getLinks document;
  if isCancellationRequested then Ret None
  else
    let linkSelection :=
      createLinkRange allLinks cursorPosition
        (orElseOpt comboSelection
           (orElseOpt boldSelection (orElseOpt italicSelection parent))) in
    let inlineCodeBlockSelection :=
      createOtherInlineRange lineText cursorChar cursorLine false
                             (orElseOpt linkSelection parent) in
    Ret (orElseOpt inlineCodeBlockSelection
           (orElseOpt linkSelection
              (orElseOpt comboSelection (orElseOpt boldSelection italicSelection)))).

(** [#getBlockSelectionRange] *)
Definition getBlockSelectionRange (document : ITextDocument) (position : Position)
           (parent : option SelectionRange) (isCancellationRequested : bool)
  : option SelectionRange :=
  let tokens := tokenize document in
  if isCancellationRequested then None
  else
    match getBlockTokensForPosition tokens position parent with
    | [] => None
    | first :: rest =>
        let '(currentRange, blockTokens) :=
          match parent with
          | Some p => (p, first :: rest)
          | None => (createBlockRange first document (line position) None, rest)
          end in
        Some (fold_left
                (fun currentRange block =>
                   createBlockRange block document (line position) (Some currentRange))
                blockTokens currentRange)
    end.

(** The loop of [#getHeaderSelectionRange]: [i] runs over the sorted
    headers, the last of which is the closest to the cursor. *)
Fixpoint headerChain (document : ITextDocument) (toc : list TocEntry)
         (headerOnThisLine : bool) (headers : list TocEntry)
         (currentRange : option SelectionRange) : option SelectionRange :=
  match headers with
  | [] => currentRange
  | header :: rest =>
      headerChain document toc headerOnThisLine rest
        (Some (createHeaderRange header
                                 (match rest with [] => true | _ => false end)
                                 headerOnThisLine currentRange
                                 (getFirstChildHeader document header toc)))
  end.

Definition getHeaderSelectionRange (document : ITextDocument) (position : Position)
           (isCancellationRequested : bool) : option SelectionRange :=
  let toc := getForDocument document in
  if isCancellationRequested then None
  else
    let '(headers, headerOnThisLine) :=
      getHeadersForPosition (entries toc) position in
    headerChain document (entries toc) headerOnThisLine headers None.

(** [#provideSelectionRange] *)
Definition provideSelectionRange (document : ITextDocument) (position : Position)
           (isCancellationRequested : bool) : Outcome (option SelectionRange) :=
  let headerRange := getHeaderSelectionRange document position isCancellationRequested in
  if isCancellationRequested then Ret None
  else
    let blockRange :=
      getBlockSelectionRange document position headerRange isCancellationRequested in
    inlineRange ← createInlineRange document position blockRange isCancellationRequested;
    if isCancellationRequested then Ret None
    else Ret (orElseOpt inlineRange (orElseOpt blockRange headerRange)).

(** [provideSelectionRanges]: one chain per position, [undefined]
    entries dropped. *)
Fixpoint provideSelectionRanges (document : ITextDocument)
         (positions : list Position) (isCancellationRequested : bool)
  : Outcome (list SelectionRange) :=
  match positions with
  | [] => Ret []
  | position :: rest =>
      r ← provideSelectionRange document position isCancellationRequested;
      rs ← provideSelectionRanges document rest isCancellationRequested;
      Ret (match r with Some s => s :: rs | None => rs end)
  end.

End MdSelectionRangeProvider.

(** [getLineage] of the tests: the ranges of a chain, innermost first. *)
Fixpoint getLineage (s : SelectionRange) : list Range :=
  match s with
  | mkSelectionRange r None => [r]
  | mkSelectionRange r (Some p) => r :: getLineage p
  end.

End SmartSelect.

(* ================================================================== *)
(** ** Documents of the worked examples *)
(* ================================================================== *)

Module Examples.
Import InMemory.

Local Open Scope string_scope.

(** The tokens of a document that is one paragraph on lines [a, b). *)
Definition paragraph (a b : Z) : list Token :=
  [token "paragraph_open" a b; token "inline" a b;
   mkToken (lit "paragraph_close") None].

(** A link definition whose angle-bracket target ends in a number sign.
    The parser consumes definitions: no token is left. *)
Definition angleDefinition : jsstring := Js.joinLines ["[a]: <b#>"].

(** The document of the test "Should not find link for unclosed
    bracket". *)
Definition unclosedBracket : jsstring :=
  Js.joinLines ["[unclosed"; ""; "[ref]: https://example.com"].
Definition unclosedBracketTokens : list Token := paragraph 0 1.


(** The documents of the checkbox tests. *)
Definition checkboxMarkers : list string :=
  ["- [x]"; "- [X]"; "- [ ]"; "* [x]"; "* [X]"; "* [ ]"; "+ [x]"; "+ [X]"; "+ [ ]"].
Definition listOf (lines : Z) : list Token :=
  [token "bullet_list_open" 0 lines; token "list_item_open" 0 1].
Definition checkboxThenLink : jsstring :=
  Js.joinLines ["- [x] [x]"; ""; "[x]: http://example.com"].

(** A reference link whose text holds a bold run, and the cursor in it. *)
Definition boldInLinkText : jsstring := Js.joinLines ["[a **bcd** c][r]"].

Definition noHeaders : ITocProvider :=
  {| getForDocument := fun _ => mkToc [];
     getForContainingDoc := fun _ => mkToc [];
     TableOfContents_create := fun _ => mkToc [] |}.

(** [getSelectionRangesForDocument] of the smart-select tests, for a
    document without headers: the lineage of the chain at a position. *)
Definition selectionLineage (tokens : list Token) (contents : jsstring)
           (l c : Z) : Outcome (option (list Range)) :=
  let doc := docOf "test.md" contents in
  r ← @SmartSelect.provideSelectionRange
         (workspaceOf [doc]) helpers (parserOf tokens) noHeaders
         doc (mkPosition l c) false;
  Ret (option_map SmartSelect.getLineage r).

(** A chain is nested when every range lies within the next one. *)
Fixpoint nested (rs : list Range) : bool :=
  match rs with
  | r :: ((p :: _) as rest) => rangeContains p r && nested rest
  | _ => true
  end.

End Examples.

(* ================================================================== *)
(** ** Well-formed selection chains *)
(* ================================================================== *)

(** No node has the range of its parent. *)
Fixpoint distinctFromParents (s : SelectionRange) : Prop :=
  match s with
  | mkSelectionRange _ None => True
  | mkSelectionRange r (Some p) =>
      areRangesEqual (sr_range p) r = false /\ distinctFromParents p
  end.

Definition distinctFromParentsOpt (s : option SelectionRange) : Prop :=
  match s with
  | Some s => distinctFromParents s
  | None => True
  end.

(* ================================================================== *)
(** ** Auxiliary notions for the statements about links *)
(* ================================================================== *)

(** No block and no inline code span: nothing is excluded. *)
Definition emptyNoLinkRanges : DocumentLinks.NoLinkRanges :=
  DocumentLinks.mkNoLinkRanges [] ∅.

(** The first match of the reference pattern in a text. *)
Definition firstReferenceMatch (text : jsstring) : Regex.Match :=
  default (Regex.mkMatch 0 0 [])
          (Regex.exec Patterns.referenceLinkPattern text 0).

(** The loop body of the reference scan on the first match of a
    one-line document. *)
Definition scanFirstReference (text : string) : list MdLink :=
  DocumentLinks.referenceLinksOfMatch
    (fun _ _ => []) (InMemory.docOf "test.md" (lit text)) (lit text) 0
    emptyNoLinkRanges (firstReferenceMatch (lit text)).

(** A text begins with a scheme: two or more letters or hyphens, then a
    colon. *)
Definition schemeLike (text : jsstring) : Prop :=
  exists s rest,
    text = s ++ ":"%char :: rest
    /\ 2 <= length s
    /\ forallb Patterns.schemeChar s = true.

(** The state of the matcher after it has read [run]. *)
Definition afterRun (pos : nat) (prev : option ascii) (run tail : jsstring)
           (caps : Regex.Captures) : Regex.State :=
  Regex.mkState (pos + length run) (fold_left (fun _ a => Some a) run prev) tail caps.

(** [tail] does not go on with a code unit of the class. *)
Definition stopsClass (p : ascii -> bool) (tail : jsstring) : Prop :=
  match tail with
  | [] => True
  | t :: _ => p t = false
  end.

(** The workspace and source document of the [createHref] examples. *)
Definition exampleWorkspace : IWorkspace := InMemory.workspaceOf [].
Definition exampleSource : URI := InMemory.workspacePath "test.md".

(* ================================================================== *)
(** ** Path helpers of the in-memory host *)
(* ================================================================== *)

Module InMemoryPaths.
Import InMemory.
Local Open Scope char_scope.

Fixpoint dropCommonPrefix (a b : list jsstring) : list jsstring * list jsstring :=
  match a, b with
  | x :: a', y :: b' => if Js.eqb x y then dropCommonPrefix a' b' else (a, b)
  | _, _ => (a, b)
  end.

(** [path.posix.relative(from, to)] for absolute paths. *)
Definition relative (from to : jsstring) : jsstring :=
  let '(up, down) := dropCommonPrefix (segments from) (segments to) in
  joinWith "/" (map (fun _ => lit "..") up ++ down).

(** [path.posix.join(a, b)] *)
Definition join (a b : jsstring) : jsstring :=
  absolute (normalizeSegments (rev (segments a)) (splitOn "/" b)).

(** [path.posix.extname] of the last segment: from its last dot on,
    unless the name starts with that dot. *)
Fixpoint extOf (name : jsstring) (afterFirst : bool) : jsstring :=
  match name with
  | [] => []
  | a :: t =>
      match extOf t true with
      | [] => if Ascii.eqb a "." && afterFirst then name else []
      | e => e
      end
  end.

Definition extname (u : URI) : jsstring :=
  match last (segments (path u)) with
  | Some name => extOf name false
  | None => []
  end.

Fixpoint isPrefixOf (a b : list jsstring) : bool :=
  match a, b with
  | [], _ => true
  | x :: a', y :: b' => Js.eqb x y && isPrefixOf a' b'
  | _ :: _, [] => false
  end.

Definition sameResource (a b : URI) : bool :=
  Js.eqb (scheme a) (scheme b)
  && Js.eqb (joinWith "/" (segments (path a))) (joinWith "/" (segments (path b))).

Definition parentDir (parent child : URI) : bool :=
  Js.eqb (scheme parent) (scheme child)
  && isPrefixOf (segments (path parent)) (segments (path child))
  && negb (sameResource parent child).

Definition endsWithMd (u : URI) : bool := Js.eqb (extname u) ".md"%string.

(** [computeRelativePath(fromDoc, toDoc, preferDotSlash)] *)
Definition relativePath (fromDoc toDoc : URI) (preferDotSlash : bool)
  : option jsstring :=
  if Js.eqb (scheme fromDoc) (scheme toDoc)
     && negb (Js.eqb (scheme fromDoc) "untitled"%string)
  then
    let newLink := relative (absolute (dirnameSegments (path fromDoc))) (path toDoc) in
    Some (if preferDotSlash && negb (Js.startsWith newLink ["."; "."; "/"])
          then "." :: "/" :: newLink
          else newLink)
  else None.

Definition digits (s : jsstring) : option Z :=
  match s with
  | [] => None
  | _ =>
      fold_left (fun acc a =>
                   match acc with
                   | Some n =>
                       let d := Js.code a in
                       if (48 <=? d)%nat && (d <=? 57)%nat
                       then Some (10 * n + Z.of_nat (d - 48))%Z
                       else None
                   | None => None
                   end) s (Some 0%Z)
  end.

(** The fragments that the link provider itself writes for a position:
    [L], the line, a comma, the column, counted from one. *)
Definition parseLocation (fragment_ : jsstring) : option Position :=
  match fragment_ with
  | "L" :: rest =>
      match splitOn "," rest with
      | [l; c] =>
          match digits l, digits c with
          | Some l, Some c => Some (mkPosition (l - 1) (c - 1))
          | _, _ => None
          end
      | _ => None
      end
  | _ => None
  end.

Definition pathHelpers : PathHelpers :=
  {| parseLocationInfoFromFragment := parseLocation;
     tryAppendMarkdownFileExtension := fun _ u =>
       if Js.isEmpty (extname u) then Some (URI_withPath u (path u ++ lit ".md"))
       else None;
     statLinkToMarkdownFile := fun _ w u =>
       match @stat w u with
       | Some _ => Some u
       | None =>
           if Js.isEmpty (extname u)
           then match @stat w (URI_withPath u (path u ++ lit ".md")) with
                | Some _ => Some (URI_withPath u (path u ++ lit ".md"))
                | None => None
                end
           else None
       end;
     looksLikeMarkdownUri := fun _ u => endsWithMd u;
     isExcludedPath := fun _ _ => false;
     isSameResource := sameResource;
     isParentDir := parentDir;
     computeRelativePath := relativePath;
     removeNewUriExtIfNeeded := fun _ originalHref newUri =>
       match originalHref with
       | InternalHref p _ =>
           if endsWithMd newUri && Js.isEmpty (extname p)
           then URI_withPath newUri
                  (firstn (length (path newUri) - length (extname newUri))
                          (path newUri))
           else newUri
       | _ => newUri
       end;
     needsAngleBracketLink := fun s =>
       existsb (fun a => Js.isWhiteSpace a
                         || Regex.oneOf ["("; ")"; "<"; ">"] a) s;
     escapeForAngleBracketLink := fun s =>
       flat_map (fun a => if Regex.oneOf ["<"; ">"] a then ["\"; a] else [a]) s;
     posix_relative := relative;
     posix_join := join;
     Utils_joinPath := fun u p => URI_withPath u (join (path u) p);
     Utils_dirname := fun u => URI_withPath u (absolute (dirnameSegments (path u)));
     Utils_extname := extname;
     encodeURI := fun s => s;
     fsPath := path |}.

Definition config : LsConfiguration := mkConfig [lit "md"].

End InMemoryPaths.

(* ================================================================== *)
(** ** The example of a link to a heading *)
(* ================================================================== *)

Module HeadingExample.
Import InMemory.

(** [x.md] holds one heading, [# Heading], whose slug is [heading]. *)
Definition target : ITextDocument := docOf "x.md" (Js.joinLines ["# Heading"%string; "text"%string]).

Definition headingEntry : TocEntry :=
  {| slug := lit "heading";
     toc_text := lit "Heading";
     level := 1;
     toc_line := 0;
     headerLocation := mkLocation (uri target) (Range_create 0 0 0 9);
     headerTextLocation := mkLocation (uri target) (Range_create 0 2 0 9);
     sectionLocation := mkLocation (uri target) (Range_create 0 0 1 4) |}.

Definition workspace : IWorkspace := workspaceOf [target].

Definition tocProvider : ITocProvider :=
  {| getForDocument := fun _ => mkToc [headingEntry];
     getForContainingDoc := fun _ => mkToc [headingEntry];
     TableOfContents_create := fun _ => mkToc [headingEntry] |}.

Definition source : URI := workspacePath "test.md".

End HeadingExample.

(* ================================================================== *)
(** ** Vocabulary for the edits of a file rename *)
(* ================================================================== *)

Section RenameVocabulary.
Import FileRename Rename.
Context {workspace : IWorkspace} {helpers : Helpers} {pathHelpers : PathHelpers}.
Variable config : LsConfiguration.

(** Whether a rename of the batch moves the resource: it renames the
    resource itself or a directory above it. *)
Definition movedBy (r : FileRename) (resource : URI) : bool :=
  isSameResource (oldUri r) resource || isParentDir (oldUri r) resource.

(** The edit that replaces the path of a link by a new text. *)
Definition pathEdit (docUri : URI) (link : MdLink) (newLinkText : jsstring)
  : EditOperation :=
  Replace docUri
          (edit_range (getLinkRenameEdit link newLinkText))
          (edit_newText (getLinkRenameEdit link newLinkText)).

(** A link text that is neither fragment-only nor root-absolute. *)
Definition isRelativeText (link : MdLink) : bool :=
  negb (Js.startsWith (hrefText (source link)) ["#"%char])
  && negb (Js.startsWith (hrefText (source link)) ["/"%char]).

(** The path from the document of the link to where the old target of
    the link is after the batch. *)
Definition renameTextFor (link : MdLink) (allEdits : list FileRename)
           (oldLink : ResolvedLink) : option jsstring :=
  computeRelativePath (resource (source link))
    (removeNewUriExtIfNeeded config (href link)
       (target_resource (chainThroughRenames allEdits oldLink)))
    (Js.startsWith (hrefText (source link)) ["."%char]).

(** A step on the edit builder that returns and only adds edits. *)
Definition grows (step : WorkspaceEdit -> Outcome (bool * WorkspaceEdit)) : Prop :=
  forall builder, exists b added, step builder = Ret (b, builder ++ added).

End RenameVocabulary.

(* ================================================================== *)
(** ** The example of a batch of two renames *)
(* ================================================================== *)

Module RenameExample.
Import InMemory FileRename.

(** [b.md] moved to [sub/b.md] and [a.md] moved to [other/a.md] in one
    batch.  The moved [b.md] still holds its old links. *)
Definition moved : ITextDocument :=
  docOf "sub/b.md" (Js.joinLines ["[a](./a.md) [top](#top) [root](/c.md)"%string]).

Definition docs : list ITextDocument :=
  [moved; docOf "other/a.md" (Js.joinLines ["text"%string]);
   docOf "c.md" (Js.joinLines ["text"%string])].

Definition workspace : IWorkspace := workspaceOf docs.

Definition linksOf (doc : ITextDocument) : list MdLink :=
  match @DocumentLinks.getAllLinks workspace helpers
          (parserOf (Examples.paragraph 0 1)) doc false with
  | Ret links => links
  | Throw => []
  end.

Definition linkCache : ILinkCache :=
  {| linkCache_entries := map (fun doc => (uri doc, linksOf doc)) docs;
     linkCache_getForDoc := linksOf |}.

(** The references to a file: the links of the workspace whose target
    is that file. *)
Definition referencesProvider : IReferencesProvider :=
  {| getReferencesAtPosition := fun _ _ => [];
     getReferencesToFileInWorkspace := fun resource =>
       flat_map
         (fun doc =>
            flat_map
              (fun link =>
                 match href link with
                 | InternalHref p _ =>
                     if InMemoryPaths.sameResource p resource
                     then [LinkReference false false
                             (mkLocation (uri doc) (range (source link))) link]
                     else []
                 | _ => []
                 end)
              (linksOf doc))
         docs |}.

Definition renameOfB : FileRename :=
  mkFileRename (workspacePath "b.md") (workspacePath "sub/b.md").
Definition renameOfA : FileRename :=
  mkFileRename (workspacePath "a.md") (workspacePath "other/a.md").
Definition batch : list FileRename := [renameOfB; renameOfA].

End RenameExample.

(* ================================================================== *)
(** ** The example of a root-absolute link to a renamed file *)
(* ================================================================== *)

Module RootLinkExample.
Import InMemory FileRename.

(** [b.md] moved to [sub/b.md] and [c.md] moved to [d.md] in one batch.
    The moved [b.md] still holds its old links. *)
Definition moved : ITextDocument :=
  docOf "sub/b.md" (Js.joinLines ["[root](/c.md) [top](#top)"%string]).

Definition docs : list ITextDocument :=
  [moved; docOf "d.md" (Js.joinLines ["text"%string])].

Definition workspace : IWorkspace := workspaceOf docs.

Definition linksOf (doc : ITextDocument) : list MdLink :=
  match @DocumentLinks.getAllLinks workspace helpers
          (parserOf (Examples.paragraph 0 1)) doc false with
  | Ret links => links
  | Throw => []
  end.

Definition linkCache : ILinkCache :=
  {| linkCache_entries := map (fun doc => (uri doc, linksOf doc)) docs;
     linkCache_getForDoc := linksOf |}.

(** The references to a file: the links of the workspace whose target
    is that file. *)
Definition referencesProvider : IReferencesProvider :=
  {| getReferencesAtPosition := fun _ _ => [];
     getReferencesToFileInWorkspace := fun resource =>
       flat_map
         (fun doc =>
            flat_map
              (fun link =>
                 match href link with
                 | InternalHref p _ =>
                     if InMemoryPaths.sameResource p resource
                     then [LinkReference false false
                             (mkLocation (uri doc) (range (source link))) link]
                     else []
                 | _ => []
                 end)
              (linksOf doc))
         docs |}.

Definition renameOfB : FileRename :=
  mkFileRename (workspacePath "b.md") (workspacePath "sub/b.md").
Definition renameOfC : FileRename :=
  mkFileRename (workspacePath "c.md") (workspacePath "d.md").
Definition batch : list FileRename := [renameOfB; renameOfC].

End RootLinkExample.

(* ================================================================== *)
(** ** Image links in the text of an inline link *)
(* ================================================================== *)

Section NestedImageLinks.
Import Regex Patterns DocumentLinks.
Context {workspace : IWorkspace} {helpers : Helpers}.



End NestedImageLinks.

(* ================================================================== *)
(** ** Documents with inline code spans *)
(* ================================================================== *)

Module CodeSpanExamples.
Import InMemory Examples.

(** The document of the test "Should not consider links in multiline
    inline code span". *)
Definition multilineSpan : jsstring :=
  Js.joinLines ["`` "%string; "[b](https://example.com)"%string; "``"%string].

(** Two backticks open a span that goes on, past a single backtick, to
    the next run of two. *)
Definition doubleBacktickSpan : jsstring :=
  Js.joinLines ["``a ` [b](c) `` [d](e)"%string].

(** One backtick, closed by the second backtick of a run of two. *)
Definition singleThenDouble : jsstring :=
  Js.joinLines ["`a`` [b](c)"%string].

(** A run of two backticks, and a single backtick after it. *)
Definition doubleThenSingle : jsstring :=
  Js.joinLines ["``a` [b](c)"%string].

Definition noLinkRangesOf (contents : jsstring) : DocumentLinks.NoLinkRanges :=
  DocumentLinks.NoLinkRanges_compute (paragraph 0 1) (docOf "test.md" contents).

(** The ranges and href ranges of the links of a document. *)
Definition linkRanges (tokens : list Token) (contents : jsstring)
  : Outcome (list (Range * Range)) :=
  links ← getLinksForText tokens contents;
  Ret (map (fun link => (range (source link), hrefRange (source link))) links).

End CodeSpanExamples.

(* ================================================================== *)
(** ** Vocabulary for the edits of a header rename *)
(* ================================================================== *)

Section HeaderRenameVocabulary.
Import Rename.
Context {pathHelpers : PathHelpers} {referencesProvider : IReferencesProvider}.

(** What the references provider knows at a position: the references
    and the one that triggered, when there is one. *)
Definition lookupReferences (document : ITextDocument) (position : Position)
  : option MdReferencesResponse :=
  match find isTriggerLocation (getReferencesAtPosition document position) with
  | Some triggerRef =>
      Some (mkResponse (getReferencesAtPosition document position) triggerRef)
  | None => None
  end.

(** The provider answers by the file path and the version of the
    document and by the position. *)
Definition stableProvider : Prop :=
  forall d d' p p',
    fsPath (getDocUri d) = fsPath (getDocUri d') ->
    version d = version d' ->
    arePositionsEqual p p' = true ->
    getReferencesAtPosition d p = getReferencesAtPosition d' p'.

(** [#cachedRefs] holds what the provider answers for its key. *)
Definition coherent (cachedRefs : option CachedRefs) : Prop :=
  match cachedRefs with
  | Some c =>
      forall d p, cacheHit c d p = true ->
                  lookupReferences d p = Some (responseOf c)
  | None => True
  end.

(** The edit of a gathered reference: the declaration of the header
    gets the new text; a link gets the new slug in its fragment span,
    or the new text when it has no fragment span or an external
    target. *)
Definition referenceEdit (newHeaderText newSlug : jsstring) (ref : MdReference)
  : EditOperation :=
  match ref with
  | HeaderReference _ _ location _ headerTextLocation =>
      Replace (loc_uri location) (loc_range headerTextLocation) newHeaderText
  | LinkReference _ _ location link =>
      Replace (resource (source link)) (fragmentSpan link location)
              (match hrefFragmentRange (source link) with
               | Some _ =>
                   if HrefKind_eqb (href_kind (href link)) External
                   then newHeaderText else newSlug
               | None => newHeaderText
               end)
  end.

(** The edits for the links to a header whose slug shifted. *)
Definition linkEditsTo (changedHeader : TocEntry) (refs : list MdReference)
  : list EditOperation :=
  flat_map (fun ref =>
              match ref with
              | LinkReference _ _ location link =>
                  [Replace (resource (source link)) (fragmentSpan link location)
                           (slug changedHeader)]
              | HeaderReference _ _ _ _ _ => []
              end) refs.

(** The references to a header of the document, found at the start of
    the header. *)
Definition referencesTo (doc : ITextDocument) (header : TocEntry)
  : list MdReference :=
  match lookupReferences doc (start (loc_range (headerLocation header))) with
  | Some response => references response
  | None => []
  end.

Definition cascadeEdits (doc : ITextDocument) (changedHeaders : list TocEntry)
  : list EditOperation :=
  flat_map (fun header => linkEditsTo header (referencesTo doc header))
           changedHeaders.

(** The triggers that [provideRenameEdits] answers with a rename of
    a fragment: a header, or the fragment of a link to a file. *)
Definition fragmentRenameTrigger (trigger : MdReference) (position : Position)
  : bool :=
  match trigger with
  | HeaderReference _ _ _ _ _ => true
  | LinkReference _ _ _ link =>
      negb (MdLinkKind_eqb (kind link) Definition_
            && match ref link with
               | Some name => rangeContainsPosition (ref_range name) position
               | None => false
               end)
      && HrefKind_eqb (href_kind (href link)) Internal
      && (MdLinkKind_eqb (kind link) Definition_
          || MdLinkKind_eqb (kind link) Link)
      && inFragment link position
  end.

End HeaderRenameVocabulary.

(* ================================================================== *)
(** ** The example of three headers with one text *)
(* ================================================================== *)

Module HeaderRenameExample.
Import InMemory Rename.
Local Open Scope char_scope.

(** Three headers with the slugs [header], [header-1] and [header-2],
    and a link to each of the last two. *)
Definition contents : jsstring :=
  Js.joinLines ["# Header"%string; "# Header"%string; "# Header"%string;
                "[a](#header-2) [b](#header-1)"%string].

Definition document : ITextDocument := docOf "test.md" contents.

Definition workspace : IWorkspace := workspaceOf [document].

(** Letters in lower case, a hyphen for a space. *)
Definition slugChar (a : ascii) : ascii :=
  let n := Js.code a in
  if (65 <=? n)%nat && (n <=? 90)%nat then ascii_of_nat (n + 32)
  else if Ascii.eqb a " " then "-" else a.

Definition slugifier : ISlugifier := {| fromHeading := map slugChar |}.

Fixpoint decimal (fuel n : nat) : jsstring :=
  match fuel with
  | O => []
  | S fuel' =>
      (if (n <? 10)%nat then [] else decimal fuel' (n / 10))
      ++ [ascii_of_nat (48 + n mod 10)]
  end.

(** The slug of a heading after the headings before it: a heading
    whose slug was seen [n] times before gets the suffix [-n]. *)
Definition uniqueSlug (seen : list jsstring) (text : jsstring) : jsstring :=
  let base := map slugChar text in
  match length (filter (Js.eqb base) seen) with
  | O => base
  | n => base ++ "-" :: decimal n n
  end.

(** The headings of the example documents are the lines that start
    with a number sign and a space. *)
Fixpoint headings (resource : URI) (lines : list jsstring) (lineNumber : Z)
         (seen : list jsstring) : list TocEntry :=
  match lines with
  | [] => []
  | l :: rest =>
      match l with
      | "#" :: " " :: text =>
          let whole := mkLocation resource
                         (Range_create lineNumber 0 lineNumber
                                       (Z.of_nat (length l))) in
          {| slug := uniqueSlug seen text;
             toc_text := text;
             level := 1;
             toc_line := lineNumber;
             headerLocation := whole;
             headerTextLocation :=
               mkLocation resource
                 (Range_create lineNumber 2 lineNumber (Z.of_nat (length l)));
             sectionLocation := whole |}
          :: headings resource rest (lineNumber + 1) (map slugChar text :: seen)
      | _ => headings resource rest (lineNumber + 1) seen
      end
  end.

Definition tocOf (doc : ITextDocument) : TableOfContents :=
  mkToc (headings (uri doc) (splitOn Js.LF (getText doc)) 0 []).

Definition tocProvider : ITocProvider :=
  {| getForDocument := tocOf;
     getForContainingDoc := tocOf;
     TableOfContents_create := tocOf |}.

Definition links : list MdLink :=
  match @DocumentLinks.getAllLinks workspace helpers
          (parserOf (Examples.paragraph 3 4)) document false with
  | Ret links => links
  | Throw => []
  end.

(** The workspace holds one document, and every request is about it:
    at a header, the references are the header and the links whose
    fragment is its slug. *)
Definition referencesAt (position : Position) : list MdReference :=
  match find (fun entry => (toc_line entry =? line position)%Z)
             (entries (tocOf document)) with
  | Some entry =>
      HeaderReference true true (headerLocation entry) (toc_text entry)
                      (headerTextLocation entry)
      :: flat_map
           (fun link =>
              match href link with
              | InternalHref _ fragment_ =>
                  if Js.eqb fragment_ (slug entry)
                  then [LinkReference false false
                          (mkLocation (uri document) (hrefRange (source link)))
                          link]
                  else []
              | _ => []
              end)
           links
  | None => []
  end.

Definition referencesProvider : IReferencesProvider :=
  {| getReferencesAtPosition := fun _ position => referencesAt position;
     getReferencesToFileInWorkspace := fun _ => [] |}.

End HeaderRenameExample.

(* ================================================================== *)
(** ** A run of escape characters *)
(* ================================================================== *)

Module EscapeRunExample.
Import InMemory Examples.
Local Open Scope char_scope.

(** The document of the test "Should not catastrophical backtrack on
    slashes": a heading, then an opening bracket and 84 backslashes. *)
Definition contents : jsstring :=
  lit "# symbol" ++ [Js.LF] ++ "[" :: repeat "\" 84.

Definition tokens : list Token :=
  [token "heading_open" 0 1; token "inline" 0 1;
   mkToken (lit "heading_close") None] ++ paragraph 1 2.

End EscapeRunExample.

(* ================================================================== *)
(** ** Vocabulary for the inline ranges *)
(* ================================================================== *)

(** The range covers the line: [add] registers it there. *)
Definition coversLine (l : Z) (r : Range) : bool :=
  (line (start r) <=? l)%Z && (l <=? line (end_ r))%Z.

(* ================================================================== *)
(** ** More example documents *)
(* ================================================================== *)

Module MoreExamples.
Import InMemory Examples.

(** An inline link followed by a shorthand reference. *)
Definition linkThenReference : jsstring := Js.joinLines ["[a](b) [c]"%string].

End MoreExamples.

(* ================================================================== *)
(** ** The shape of a link *)
(* ================================================================== *)

(** What every pass of the link computer gives its links: the document
    as resource; a reference name exactly for definitions; an external
    target for autolinks; for a link by reference, the kind [Link], a
    reference that is not empty and is the href text, and no fragment
    range. *)
Definition linkShape (document : ITextDocument) (link : MdLink) : Prop :=
  resource (source link) = getDocUri document
  /\ (ref link <> None <-> kind link = Definition_)
  /\ (kind link = AutoLink -> exists u, href link = ExternalHref u)
  /\ (forall reference,
         href link = ReferenceHref reference ->
         kind link = Link /\ reference <> []
         /\ hrefText (source link) = reference
         /\ hrefFragmentRange (source link) = None).

(* ================================================================== *)
(** ** A document with a link of every kind *)
(* ================================================================== *)

Module KindsExample.
Import InMemory Examples.

(** An inline link, a link by reference, an autolink and a
    definition. *)
Definition contents : jsstring :=
  Js.joinLines ["[a](b) [c] <http://example.com>"%string; ""%string;
                "[c]: d"%string].

Definition document : ITextDocument := docOf "test.md" contents.

Definition workspace : IWorkspace := workspaceOf [document].

Definition tokenizer : IMdParser := parserOf (paragraph 0 1).

Definition links : Outcome (list MdLink) :=
  @DocumentLinks.getAllLinks workspace helpers tokenizer document false.

End KindsExample.

(* ================================================================== *)
(** ** A greedy star over a character class *)
(* ================================================================== *)

(** The longest run of the class first, then the shorter ones: what
    the continuation is tried on, and in which order. *)
Fixpoint greedyClass (p : ascii -> bool) (c : Regex.Cont)
         (pos : nat) (prev : option ascii) (rest : jsstring)
         (caps : Regex.Captures) : option Regex.State :=
  match rest with
  | a :: t =>
      if p a
      then Regex.orElse (greedyClass p c (S pos) (Some a) t caps)
                        (fun _ => c (Regex.mkState pos prev rest caps))
      else c (Regex.mkState pos prev rest caps)
  | [] => c (Regex.mkState pos prev rest caps)
  end.

(* ================================================================== *)
(** ** The rename provider: preparing a rename *)
(* ================================================================== *)

Module PrepareRename.
Import Rename.

Section MdRenameProvider.
Context {helpers : Helpers} {pathHelpers : PathHelpers}
        {referencesProvider : IReferencesProvider}.

(** [#findHeaderDeclaration] *)
Definition findHeaderDeclaration (references : list MdReference)
  : option MdReference :=
  find (fun ref => ref_isDefinition ref && isHeaderReference ref) references.

(** The reference name a rename was triggered on: the link is a
    definition and the position lies in the range of its name. *)
Definition triggeredName (link : MdLink) (position : Position)
  : option MdLinkRef :=
  if MdLinkKind_eqb (kind link) Definition_ then
    match ref link with
    | Some name =>
        (* We may have been triggered on the ref or the definition itself *)
        if rangeContainsPosition (ref_range name) position then Some name
        else None
    | None => None
    end
  else None.

(** The edits of a rename of a reference name for one gathered
    reference: the name of a definition, the fragment span of another
    link; none for a header. *)
Definition nameEdits (newName : jsstring) (r : MdReference)
  : list EditOperation :=
  match r with
  | LinkReference _ _ location link =>
      match kind link, ref link with
      | Definition_, Some name =>
          [Replace (resource (source link)) (ref_range name) newName]
      | _, _ =>
          [Replace (resource (source link)) (fragmentSpan link location) newName]
      end
  | HeaderReference _ _ _ _ _ => []
  end.

(** [prepareRename]: the range and the placeholder, [None] for
    [undefined], [Throw] for [RenameNotSupportedAtLocationError]; and
    [#cachedRefs] after the call. *)
Definition prepareRename (cachedRefs : option CachedRefs)
           (document : ITextDocument) (position : Position)
           (isCancellationRequested : bool)
  : Outcome (option (Range * jsstring)) * option CachedRefs :=
  let '(allRefsInfo, cachedRefs) :=
    getAllReferences cachedRefs document position isCancellationRequested in
  if isCancellationRequested then (Ret None, cachedRefs)
  else
    match allRefsInfo with
    | None => (Throw, cachedRefs)
    | Some allRefsInfo =>
        match references allRefsInfo with
        | [] => (Throw, cachedRefs)
        | _ :: _ =>
            match triggerRef allRefsInfo with
            | HeaderReference _ _ _ headerText headerTextLocation =>
                (Ret (Some (loc_range headerTextLocation, headerText)), cachedRefs)
            | LinkReference _ _ _ link =>
                match triggeredName link position with
                | Some name =>
                    (Ret (Some (ref_range name, ref_text name)), cachedRefs)
                | None =>
                    if HrefKind_eqb (href_kind (href link)) External then
                      (Ret (Some (hrefRange (source link),
                                  getTextRange document (hrefRange (source link)))),
                       cachedRefs)
                    else
                      (* See if we are renaming the fragment or the path.
                         [getFilePathRange] always gives a range, so the
                         guard on a missing range never throws. *)
                      let path_ :=
                        (getFilePathRange link,
                         tryDecodeUri
                           (getTextRange document (getFilePathRange link))) in
                      match hrefFragmentRange (source link) with
                      | Some hrefFragmentRange =>
                          if rangeContainsPosition hrefFragmentRange position then
                            let declaration :=
                              findHeaderDeclaration (references allRefsInfo) in
                            (Ret (Some
                               (hrefFragmentRange,
                                match declaration with
                                | Some (HeaderReference _ _ _ headerText _) =>
                                    headerText
                                | _ => getTextRange document hrefFragmentRange
                                end)), cachedRefs)
                          else (Ret (Some path_), cachedRefs)
                      | None => (Ret (Some path_), cachedRefs)
                      end
                end
            end
        end
    end.

End MdRenameProvider.

End PrepareRename.

(* ================================================================== *)
(** ** Vocabulary for the response to a batch of file renames *)
(* ================================================================== *)

(** A text edit, as opposed to the rename of a file. *)
Definition isTextEdit (op : EditOperation) : bool :=
  match op with
  | Replace _ _ _ => true
  | RenameFile _ _ => false
  end.

Definition nonEmpty {A : Type} (l : list A) : bool :=
  match l with
  | [] => false
  | _ :: _ => true
  end.

(** The answer of a step on the edit builder tallies with what it
    added: the step only appended text edits, and it reports to have
    taken part, beyond [didParticipate], exactly when it added one. *)
Definition tallied (builder : WorkspaceEdit) (didParticipate : bool)
           (r : bool * WorkspaceEdit) : Prop :=
  exists added,
    snd r = builder ++ added
    /\ fst r = didParticipate || nonEmpty added
    /\ forallb isTextEdit added = true.

Definition tallies (step : WorkspaceEdit -> Outcome (bool * WorkspaceEdit))
  : Prop :=
  forall builder r, step builder = Ret r -> tallied builder false r.

(* ================================================================== *)
(** ** Vocabulary for the growth of selection chains *)
(* ================================================================== *)

(** The ranges of an optional chain, innermost first. *)
Definition lineageOf (parent : option SelectionRange) : list Range :=
  match parent with
  | Some p => SmartSelect.getLineage p
  | None => []
  end.

(** The chain [s] goes on with the whole chain [parent]: expanding the
    selection from [s] reaches every range of [parent], in order. *)
Definition expandsTo (parent : option SelectionRange) (s : SelectionRange)
  : Prop :=
  exists inner, SmartSelect.getLineage s = inner ++ lineageOf parent.

Definition expandsToOpt (parent s : option SelectionRange) : Prop :=
  match s with
  | Some s => expandsTo parent s
  | None => True
  end.

(* ================================================================== *)
(** ** Vocabulary for the ranges without links *)
(* ================================================================== *)

(** The range of a match of the pattern of inline code in a document. *)
Definition codeSpanRange (document : ITextDocument) (m : Regex.Match) : Range :=
  mkRange (positionAt document (Regex.m_index m))
          (positionAt document
             (Regex.m_index m + length (Regex.full (getText document) m))).

(** The token is a code block, a fence or a block of HTML, of another
    type than the excluded one, and its lines hold the line. *)
Definition blocksLine (excludeType : jsstring) (l : Z) (t : Token) : bool :=
  DocumentLinks.isCodeLikeBlock t
  && negb (Js.eqb (tok_type t) excludeType)
  && match tok_map t with
     | Some (m0, m1) => (m0 <=? l)%Z && (l <? m1)%Z
     | None => false
     end.

(* ================================================================== *)
(** ** Vocabulary for the rename of a file path *)
(* ================================================================== *)

(** The documents of the links among the references. *)
Definition linkResources (refs : list MdReference) : list URI :=
  flat_map (fun r =>
              match r with
              | LinkReference _ _ _ link => [resource (source link)]
              | HeaderReference _ _ _ _ _ => []
              end) refs.

(** The document a text edit is about. *)
Definition editedResource (op : EditOperation) : list URI :=
  match op with
  | Replace resource _ _ => [resource]
  | RenameFile _ _ => []
  end.

(** The first link of the moved document of the batch example,
    [[a](./a.md)], as the only reference of a rename of its path. *)
Module PathRenameExample.
Import InMemory.

Definition references : list MdReference :=
  map (fun link =>
         LinkReference true false
                       (mkLocation (workspacePath "sub/b.md")
                                   (hrefRange (source link)))
                       link)
      (firstn 1 (RenameExample.linksOf RenameExample.moved)).

Definition response : option Rename.MdReferencesResponse :=
  match references with
  | trigger :: _ => Some (Rename.mkResponse references trigger)
  | [] => None
  end.

End PathRenameExample.

(* ================================================================== *)
(** ** Vocabulary for the documents a file rename edits *)
(* ================================================================== *)

Section EditedDocuments.
Import FileRename.
Context {workspace : IWorkspace} {referencesProvider : IReferencesProvider}
        {linkCache : ILinkCache}.

(** The operation is a text edit in an allowed document. *)
Definition landsIn (allowed : URI -> Prop) (op : EditOperation) : Prop :=
  match op with
  | Replace resource _ _ => allowed resource
  | RenameFile _ _ => False
  end.

(** A step on the edit builder that only appends text edits in allowed
    documents. *)
Definition adds (allowed : URI -> Prop)
           (step : WorkspaceEdit -> Outcome (bool * WorkspaceEdit)) : Prop :=
  forall builder r,
    step builder = Ret r ->
    exists added, snd r = builder ++ added /\ List.Forall (landsIn allowed) added.

(** The link cache has links for the document. *)
Definition inLinkCache (resource : URI) : Prop :=
  exists links, In (resource, links) linkCache_entries.

(** The document holds a link that the references provider reports as
    a reference to the old file of the rename. *)
Definition referencesOldFile (rename : FileRename) (resource : URI) : Prop :=
  exists isTrigger isDefinition location link,
    In (LinkReference isTrigger isDefinition location link)
       (getReferencesToFileInWorkspace (oldUri rename))
    /\ resource = loc_uri location.

(** The document is the renamed file itself, opened at its new place. *)
Definition isRenamedDocument (rename : FileRename) (resource : URI) : Prop :=
  exists doc,
    openMarkdownDocument (newUri rename) = Some doc
    /\ resource = getDocUri doc.

End EditedDocuments.

(* ================================================================== *)
(** ** Patterns that need a character *)
(* ================================================================== *)

(** Every match of the pattern holds a code unit of the class [q]:
    the pattern is such a class or narrower, a sequence with such a
    part, an alternative of two such patterns, or a group or a
    repetition with at least one round of such a pattern. *)
Inductive Needs (q : ascii -> bool) : Regex.regex -> Prop :=
| Needs_Chr (p : ascii -> bool) :
    (forall a, p a = true -> q a = true) -> Needs q (Regex.Chr p)
| Needs_Seq_l (r1 r2 : Regex.regex) :
    Needs q r1 -> Needs q (Regex.Seq r1 r2)
| Needs_Seq_r (r1 r2 : Regex.regex) :
    Needs q r2 -> Needs q (Regex.Seq r1 r2)
| Needs_Alt (r1 r2 : Regex.regex) :
    Needs q r1 -> Needs q r2 -> Needs q (Regex.Alt r1 r2)
| Needs_Plus (greedy : bool) (r : Regex.regex) :
    Needs q r -> Needs q (Regex.Plus greedy r)
| Needs_Group (i : nat) (r : Regex.regex) :
    Needs q r -> Needs q (Regex.Group i r).

(** No code unit of the text is in the class. *)
Definition lacks (q : ascii -> bool) (s : jsstring) : Prop :=
  forall a, In a s -> q a = false.

(** The input left in the state [y] is an end of the input left in the
    state [x]. *)
Definition reaches (x y : Regex.State) : Prop :=
  exists pre, Regex.st_rest x = pre ++ Regex.st_rest y.

(* ================================================================== *)
(** ** Lines that begin with a checkbox marker *)
(* ================================================================== *)

(** The line begins with a marker of [n] code units: white space, a
    bullet, white space, and [x] or [X] in square brackets.  These are
    the lines on which [Patterns.checkboxPattern] matches, and [n] is
    the length of the match ([checkboxMarker_exec],
    [exec_checkboxMarker]). *)
Definition checkboxMarker (line_ : jsstring) (n : nat) : Prop :=
  exists ws bullet ws' box rest,
    line_ = ws ++ bullet :: ws' ++ "["%char :: box :: "]"%char :: rest
    /\ forallb Js.isWhiteSpace ws = true
    /\ Regex.oneOf ["-"; "*"; "+"]%char bullet = true
    /\ forallb Js.isWhiteSpace ws' = true
    /\ Regex.oneOf ["x"; "X"]%char box = true
    /\ n = length ws + length ws' + 4.

(** The part of [checkboxPattern] after the bullet, and the box. *)
Definition checkboxBox : Regex.regex :=
  Regex.seqs [Regex.ch "["; Regex.Chr (Regex.oneOf ["x"; "X"]%char); Regex.ch "]"].
Definition checkboxAfterBullet : Regex.regex :=
  Regex.Seq (Regex.Star true Patterns.ws) checkboxBox.

(* ================================================================== *)
(** ** Properties *)
(* ================================================================== *)

Import Regex Patterns DocumentLinks SmartSelect.

(** *** C2: the ranges of a link *)

(** C2 (the code departs from the claim).  The claim: the [range] of
    every link contains its [hrefRange], which contains its
    [hrefFragmentRange] when present.  For the definition
    [[a]: <b#>] the code yields [hrefRange] 0:6-0:8 and
    [hrefFragmentRange] 0:9-0:8, which starts after the href has
    ended: [#getLinkDefinitions] hands the text with its angle brackets
    to [getLinkSourceFragmentInfo] although [hrefStart] already skips
    the opening bracket. *)
Theorem C2_definition_fragment_outside_href :
  exists l,
    InMemory.getLinksForText [] Examples.angleDefinition = Ret [l]
    /\ kind l = Definition_
    /\ hrefRange (source l) = Range_create 0 6 0 8
    /\ hrefFragmentRange (source l) = Some (Range_create 0 9 0 8)
    /\ rangeContains (hrefRange (source l)) (Range_create 0 9 0 8) = false.
Proof.
  eexists. split; [vm_compute; reflexivity|].
  repeat split; reflexivity.
Qed.

(** The same pass on the document of the repository's own test, which
    expects the href at 2:7-2:26: the pattern matches from the unclosed
    bracket on, the href is placed on line 0 by adding the length of the
    match prefix to the column, and the link's [range], the first line,
    does not contain it. *)
Lemma definition_href_outside_range :
  exists l,
    InMemory.getLinksForText Examples.unclosedBracketTokens
                             Examples.unclosedBracket = Ret [l]
    /\ range (source l) = Range_create 0 0 0 9
    /\ hrefRange (source l) = Range_create 0 18 0 37
    /\ rangeContains (range (source l)) (hrefRange (source l)) = false.
Proof.
  eexists. split; [vm_compute; reflexivity|].
  repeat split; reflexivity.
Qed.

(** *** C7: selection chains *)

(** C7 (the code departs from the claim).  The claim: in every chain
    each node's range is contained in its parent's range.  On the line
    [[a **bcd** c][r]] with the cursor on [c] of [bcd], the bold span
    is found first and becomes the parent of the link: the chain is
    text 0:1-0:12, link 0:0-0:16, bold content 0:5-0:8, bold 0:3-0:10,
    paragraph 0:0-0:16, and the link is not contained in the bold
    content that is its parent. *)
Theorem C7_link_around_bold_breaks_nesting :
  Examples.selectionLineage (Examples.paragraph 0 1) Examples.boldInLinkText 0 6
  = Ret (Some [Range_create 0 1 0 12; Range_create 0 0 0 16;
               Range_create 0 5 0 8; Range_create 0 3 0 10;
               Range_create 0 0 0 16])
  /\ rangeContains (Range_create 0 5 0 8) (Range_create 0 0 0 16) = false
  /\ Examples.nested [Range_create 0 1 0 12; Range_create 0 0 0 16;
                      Range_create 0 5 0 8; Range_create 0 3 0 10;
                      Range_create 0 0 0 16] = false.
Proof. repeat split; vm_compute; reflexivity. Qed.

(** The part of C7 that the code keeps.  A range equal to the range of
    its parent is never added. *)
Lemma makeSelectionRange_distinct (r : Range) (parent : option SelectionRange) :
  distinctFromParentsOpt parent ->
  distinctFromParents (SmartSelect.makeSelectionRange r parent).
Proof.
  intros Hp. unfold SmartSelect.makeSelectionRange.
  destruct parent as [p|]; simpl in *; [|exact I].
  destruct (areRangesEqual (sr_range p) r) eqn:E; simpl; auto.
Qed.

Lemma makeSelectionRange_distinct_some (r : Range) (parent : option SelectionRange) :
  distinctFromParentsOpt parent ->
  distinctFromParentsOpt (Some (SmartSelect.makeSelectionRange r parent)).
Proof. apply makeSelectionRange_distinct. Qed.

Lemma orElseOpt_distinct (a b : option SelectionRange) :
  distinctFromParentsOpt a -> distinctFromParentsOpt b ->
  distinctFromParentsOpt (SmartSelect.orElseOpt a b).
Proof. destruct a; simpl; auto. Qed.

(** Case analysis on the next [if] or [match] of the goal, without
    unfolding anything else. *)
Ltac split_branch :=
  match goal with
  | |- context [if ?b then _ else _] => destruct b
  | |- context [match ?x with Some _ => _ | None => _ end] => destruct x
  | |- context [match ?x with [] => _ | _ :: _ => _ end] => destruct x
  | |- context [match ?x with (_, _) => _ end] => destruct x
  end.

Ltac chain_step :=
  lazymatch goal with
  | |- distinctFromParentsOpt None => exact I
  | |- distinctFromParentsOpt (Some (makeSelectionRange _ _)) =>
      apply makeSelectionRange_distinct_some
  | |- distinctFromParents (makeSelectionRange _ _) =>
      apply makeSelectionRange_distinct
  | |- distinctFromParentsOpt (orElseOpt _ _) => apply orElseOpt_distinct
  | |- _ => assumption
  end.

Lemma createHeaderRange_distinct header closest onLine parent child :
  distinctFromParentsOpt parent ->
  distinctFromParents
    (SmartSelect.createHeaderRange header closest onLine parent child).
Proof.
  intros Hp. unfold SmartSelect.createHeaderRange.
  destruct child; repeat split_branch; repeat chain_step.
Qed.

Lemma createFencedRange_distinct token cursorLine document parent :
  distinctFromParentsOpt parent ->
  distinctFromParents
    (SmartSelect.createFencedRange token cursorLine document parent).
Proof.
  intros Hp. unfold SmartSelect.createFencedRange. cbv zeta.
  generalize (SmartSelect.lineLength document (snd (tm_map token) - 1)).
  generalize (SmartSelect.lineLength document (snd (tm_map token) - 1 - 1)).
  intros n1 n2.
  destruct (_ && _); [repeat chain_step|].
  destruct parent as [p|]; [|repeat chain_step].
  destruct (areRangesEqual _ _); [exact Hp | repeat chain_step].
Qed.

Lemma createBlockRange_distinct block document cursorLine parent :
  distinctFromParentsOpt parent ->
  distinctFromParents
    (SmartSelect.createBlockRange block document cursorLine parent).
Proof.
  intros Hp. unfold SmartSelect.createBlockRange. cbv zeta.
  destruct (Js.eqb (tm_type block) _); [apply createFencedRange_distinct, Hp|].
  match goal with
  | |- context [let '(_, _) := ?e in _] => generalize e
  end.
  intros [startLine endLine].
  generalize (SmartSelect.lineLength document endLine). intros n.
  destruct parent as [p|]; [|repeat chain_step].
  destruct (_ && _); [repeat chain_step|].
  destruct (areRangesEqual _ _); [exact Hp | repeat chain_step].
Qed.

Lemma createBoldRange_distinct lineText cursorChar cursorLine parent :
  distinctFromParentsOpt parent ->
  distinctFromParentsOpt
    (SmartSelect.createBoldRange lineText cursorChar cursorLine parent).
Proof.
  intros Hp. unfold SmartSelect.createBoldRange.
  destruct (SmartSelect.matchesAtCursor _ _ _) as [|m ms]; [exact I|].
  cbv zeta. generalize (full lineText m). intros bold.
  generalize (Js.indexOf lineText bold). intros startIndex.
  destruct (_ || _); repeat chain_step.
Qed.

Lemma createOtherInlineRange_distinct lineText cursorChar cursorLine isItalic parent :
  distinctFromParentsOpt parent ->
  distinctFromParentsOpt
    (SmartSelect.createOtherInlineRange lineText cursorChar cursorLine isItalic parent).
Proof.
  intros Hp. unfold SmartSelect.createOtherInlineRange. cbv zeta.
  match goal with
  | |- context [match ?ms with [] => None | _ :: _ => _ end] => generalize ms
  end.
  intros [|m ms]; [exact I|].
  generalize (if isItalic then groupOr lineText m 1 else full lineText m).
  intros match_.
  generalize (Js.indexOf lineText match_). intros startIndex.
  destruct (_ || _); repeat chain_step.
Qed.

Lemma createLinkRange_distinct allLinks cursorPos parent :
  distinctFromParentsOpt parent ->
  distinctFromParentsOpt (SmartSelect.createLinkRange allLinks cursorPos parent).
Proof.
  intros Hp. unfold SmartSelect.createLinkRange. cbv zeta.
  destruct (last _) as [link|]; [|exact I].
  generalize (source link). intros src.
  destruct (MdLinkKind_eqb (kind link) AutoLink); [repeat chain_step|].
  destruct (_ && _); [repeat chain_step|].
  destruct (rangeContainsPosition (targetRange src) cursorPos).
  - destruct (MdLinkKind_eqb (kind link) Definition_); [repeat chain_step|].
    destruct (titleRange src) as [title|].
    + destruct (rangeContainsPosition title cursorPos); [repeat chain_step|].
      apply orElseOpt_distinct; [|repeat chain_step].
      destruct (_ && _); [repeat chain_step | exact I].
    + apply orElseOpt_distinct; [|repeat chain_step].
      destruct (_ && _); [repeat chain_step | exact I].
  - destruct (MdLinkKind_eqb (kind link) Definition_); repeat chain_step.
Qed.

Section SelectionChains.
Context {workspace : IWorkspace} {helpers : Helpers} {parser : IMdParser}
        {tocProvider : ITocProvider}.

Lemma headerChain_distinct document toc onLine headers current :
  distinctFromParentsOpt current ->
  distinctFromParentsOpt
    (SmartSelect.headerChain document toc onLine headers current).
Proof.
  revert current. induction headers as [|h rest IH]; intros current Hc.
  - exact Hc.
  - cbn [SmartSelect.headerChain]. apply IH.
    apply createHeaderRange_distinct, Hc.
Qed.

Lemma getHeaderSelectionRange_distinct document position cancelled :
  distinctFromParentsOpt
    (SmartSelect.getHeaderSelectionRange document position cancelled).
Proof.
  unfold SmartSelect.getHeaderSelectionRange. cbv zeta.
  destruct cancelled; [exact I|].
  destruct (SmartSelect.getHeadersForPosition (entries (getForDocument document))
                                              position) as [headers onLine].
  apply headerChain_distinct. exact I.
Qed.

Lemma blockFold_distinct document cursorLine blocks current :
  distinctFromParents current ->
  distinctFromParents
    (fold_left (fun currentRange block =>
                  SmartSelect.createBlockRange block document cursorLine
                                               (Some currentRange))
               blocks current).
Proof.
  revert current. induction blocks as [|b rest IH]; intros current Hc.
  - exact Hc.
  - cbn [fold_left]. apply IH. apply createBlockRange_distinct. exact Hc.
Qed.

Lemma getBlockSelectionRange_distinct document position parent cancelled :
  distinctFromParentsOpt parent ->
  distinctFromParentsOpt
    (SmartSelect.getBlockSelectionRange document position parent cancelled).
Proof.
  intros Hp. unfold SmartSelect.getBlockSelectionRange. cbv zeta.
  destruct cancelled; [exact I|].
  destruct (SmartSelect.getBlockTokensForPosition (tokenize document) position parent)
    as [|b rest]; [exact I|].
  destruct parent as [p|]; apply blockFold_distinct.
  - exact Hp.
  - apply createBlockRange_distinct. exact I.
Qed.

Lemma createInlineRange_distinct document position parent cancelled r :
  distinctFromParentsOpt parent ->
  SmartSelect.createInlineRange document position parent cancelled = Ret r ->
  distinctFromParentsOpt r.
Proof.
  intros Hp. unfold SmartSelect.createInlineRange. cbv zeta.
  generalize (getLine document (line position)). intros lineText.
  destruct (SmartSelect.getLinks document) as [links|]; [|discriminate].
  cbn [mbind Outcome_bind].
  destruct cancelled; intros [= <-]; [exact I|].
  pose proof (createBoldRange_distinct lineText (character position)
                                       (line position) Hp) as Hb.
  pose proof (createOtherInlineRange_distinct lineText (character position)
                                              (line position) true Hp) as Hi.
  destruct (SmartSelect.createBoldRange lineText (character position)
                                        (line position) parent) as [b|];
    destruct (SmartSelect.createOtherInlineRange lineText (character position)
                                                 (line position) true parent) as [i|].
  2-4: repeat first [ chain_step
                    | apply createOtherInlineRange_distinct
                    | apply createLinkRange_distinct ].
  assert (Hcm : distinctFromParentsOpt
                  (if negb (areRangesEqual (sr_range b) (sr_range i))
                   then if rangeContains (sr_range b) (sr_range i)
                        then SmartSelect.createOtherInlineRange
                               lineText (character position) (line position)
                               true (Some b)
                        else if rangeContains (sr_range i) (sr_range b)
                             then SmartSelect.createBoldRange
                                    lineText (character position) (line position)
                                    (Some i)
                             else None
                   else None)).
  { repeat split_branch;
      first [ exact I
            | apply createOtherInlineRange_distinct, Hb
            | apply createBoldRange_distinct, Hi ]. }
  repeat first [ chain_step
               | apply createOtherInlineRange_distinct
               | apply createLinkRange_distinct ].
Qed.

(** For every document, tokens, table of contents and position, no
    node of the chain that [#provideSelectionRange] returns has the
    range of its parent. *)
Lemma provideSelectionRange_distinct document position cancelled s :
  SmartSelect.provideSelectionRange document position cancelled = Ret (Some s) ->
  distinctFromParents s.
Proof.
  unfold SmartSelect.provideSelectionRange. cbv zeta.
  destruct cancelled; [discriminate|].
  pose proof (getHeaderSelectionRange_distinct document position false) as Hh.
  destruct (SmartSelect.getHeaderSelectionRange document position false)
    as [header|] eqn:Eh.
  all: match goal with
       | |- context [SmartSelect.getBlockSelectionRange ?d ?p ?h false] =>
           pose proof (@getBlockSelectionRange_distinct d p h false Hh) as Hb;
           destruct (SmartSelect.getBlockSelectionRange d p h false) as [block|]
       end.
  all: match goal with
       | |- context [SmartSelect.createInlineRange ?d ?p ?b false] =>
           destruct (SmartSelect.createInlineRange d p b false) as [r|] eqn:E;
           [pose proof (createInlineRange_distinct Hb E) as Hr | discriminate]
       end.
  all: cbn [mbind Outcome_bind]; intros [= H].
  all: destruct r as [r|]; cbn [SmartSelect.orElseOpt] in H;
    try discriminate; injection H as <-; assumption.
Qed.

End SelectionChains.

(** The document [Hello] with the cursor inside the word: one range,
    the word. *)
Lemma hello_single_range :
  Examples.selectionLineage (Examples.paragraph 0 1) (lit "Hello") 0 3
  = Ret (Some [Range_create 0 0 0 5]).
Proof. vm_compute. reflexivity. Qed.

(** *** C8 and C10: reference links *)

Lemma contains_empty (p : Position) (excludeType : jsstring) :
  contains emptyNoLinkRanges p excludeType = false.
Proof. reflexivity. Qed.

Lemma incl_flat_map {A B : Type} (f g : A -> list B) (l : list A) :
  (forall x, incl (f x) (g x)) -> incl (flat_map f l) (flat_map g l).
Proof.
  intros H y Hy. apply in_flat_map in Hy as [x [Hx Hy]].
  apply in_flat_map. exists x. split; [exact Hx | apply H, Hy].
Qed.

(** Excluding ranges only removes reference links: what the scan finds
    with some ranges excluded, it also finds with none excluded. *)
Lemma referenceLinksOfMatch_incl recur recur0 document text offset nlr m :
  (forall t o, incl (recur t o) (recur0 t o)) ->
  incl (referenceLinksOfMatch recur document text offset nlr m)
       (referenceLinksOfMatch recur0 document text offset emptyNoLinkRanges m).
Proof.
  intros Hrec. unfold referenceLinksOfMatch. cbv zeta.
  rewrite contains_empty.
  destruct (contains nlr _ _); [apply incl_nil_l|].
  destruct (group text m 3) as [[|a reference]|].
  - apply incl_refl.
  - destruct (_ && _); [apply incl_refl|].
    apply incl_app_app; [|apply incl_refl].
    destruct (negb _); [apply Hrec | apply incl_refl].
  - apply incl_refl.
Qed.

Lemma getReferenceLinksInText_incl fuel document text offset nlr :
  incl (getReferenceLinksInText fuel document text offset nlr)
       (getReferenceLinksInText fuel document text offset emptyNoLinkRanges).
Proof.
  revert text offset. induction fuel as [|fuel IH]; intros text offset.
  - apply incl_refl.
  - cbn [getReferenceLinksInText]. apply incl_flat_map. intros m.
    apply referenceLinksOfMatch_incl. intros t o. apply IH.
Qed.

Lemma getReferenceLinks_none document nlr :
  getReferenceLinks document emptyNoLinkRanges = [] ->
  getReferenceLinks document nlr = [].
Proof.
  intros H. apply incl_l_nil. rewrite <- H.
  unfold getReferenceLinks. apply getReferenceLinksInText_incl.
Qed.

(** A bare shorthand on a line that starts with a checkbox marker, and
    whose href starts no later than the marker ends, is skipped. *)
Lemma checkbox_shorthand_skipped recur document text offset nlr m shorthand cm :
  group text m 3 = None ->
  group text m 4 = Some shorthand ->
  let hrefStart := positionAt document (offset + m_index m + 1) in
  let line_ := getLine document (line hrefStart) in
  exec checkboxPattern line_ 0 = Some cm ->
  (character hrefStart <=? Z.of_nat (length (full line_ cm)))%Z = true ->
  referenceLinksOfMatch recur document text offset nlr m = [].
Proof.
  intros H3 H4 hrefStart line_ Hcm Hle. unfold referenceLinksOfMatch. cbv zeta.
  destruct (contains nlr _ _); [reflexivity|].
  rewrite H3, H4. destruct shorthand as [|a s]; [reflexivity|].
  destruct (Js.isEmpty _); [reflexivity|].
  destruct (_ && _); [reflexivity|].
  fold hrefStart. fold line_. rewrite Hcm, Hle. reflexivity.
Qed.

(** C10.  For every match of the reference pattern: with a reference
    and an empty text it yields nothing unless the match starts with an
    exclamation mark, and then exactly the link to the reference; with
    an empty reference and a text that trims to nothing, or a shorthand
    that trims to nothing, it yields nothing.  The constructs the claim
    names are matched accordingly: [[][ref]], [[][]], [[ ][]] and [[ ]]
    give no link, [![][ref]] gives the link with href 0:4-0:7. *)
Theorem C10_empty_reference_text :
  (forall recur document text offset nlr m,
      (forall reference,
          group text m 3 = Some reference -> reference <> [] ->
          groupOr text m 2 = [] ->
          let linkStart := positionAt document (offset + m_index m) in
          if Js.startsWith (full text m) [Ascii.ascii_of_nat 33]
          then if contains nlr linkStart []
               then referenceLinksOfMatch recur document text offset nlr m = []
               else exists l,
                   referenceLinksOfMatch recur document text offset nlr m = [l]
                   /\ href l = ReferenceHref reference
          else referenceLinksOfMatch recur document text offset nlr m = [])
      /\ (group text m 3 = Some [] -> Js.trim (groupOr text m 2) = [] ->
          referenceLinksOfMatch recur document text offset nlr m = [])
      /\ (forall shorthand,
             group text m 3 = None -> group text m 4 = Some shorthand ->
             Js.trim shorthand = [] ->
             referenceLinksOfMatch recur document text offset nlr m = []))
  /\ InMemory.getLinksForText [] (lit "[][ref]") = Ret []
  /\ InMemory.getLinksForText [] (lit "[][]") = Ret []
  /\ InMemory.getLinksForText [] (lit "[ ][]") = Ret []
  /\ InMemory.getLinksForText [] (lit "[ ]") = Ret []
  /\ exists l,
      InMemory.getLinksForText [] (lit "![][ref]") = Ret [l]
      /\ href l = ReferenceHref (lit "ref")
      /\ hrefRange (source l) = Range_create 0 4 0 7.
Proof.
  split; [|repeat split; try (vm_compute; reflexivity)].
  - intros recur document text offset nlr m. repeat split.
    + intros reference H3 Hne H2 linkStart.
      unfold referenceLinksOfMatch. cbv zeta. fold linkStart.
      rewrite H3, H2.
      destruct reference as [|a reference]; [contradiction|].
      destruct (Js.startsWith (full text m) _); cbn [negb andb Js.isEmpty].
      * destruct (contains nlr linkStart []); [reflexivity|].
        eexists. split; reflexivity.
      * destruct (contains nlr linkStart []); reflexivity.
    + intros H3 H2. unfold referenceLinksOfMatch. cbv zeta.
      rewrite H3, H2. destruct (contains nlr _ _); reflexivity.
    + intros shorthand H3 H4 Ht. unfold referenceLinksOfMatch. cbv zeta.
      rewrite H3, H4, Ht. destruct (contains nlr _ _); [reflexivity|].
      destruct shorthand; reflexivity.
  - eexists. split; [vm_compute; reflexivity|]. split; reflexivity.
Qed.

(** C10 at the three constructs: [[][ref]], [[ ][]] and [[ ]]. *)
Lemma C10_empty_reference_text_witness :
  scanFirstReference "[][ref]" = []
  /\ scanFirstReference "[ ][]" = []
  /\ scanFirstReference "[ ]" = [].
Proof.
  pose proof (proj1 C10_empty_reference_text) as H.
  unfold scanFirstReference. split; [|split].
  - exact (proj1 (H (fun _ _ => []) (InMemory.docOf "test.md" (lit "[][ref]"))
                    (lit "[][ref]") 0 emptyNoLinkRanges
                    (firstReferenceMatch (lit "[][ref]")))
                 (lit "ref") ltac:(vm_compute; reflexivity) ltac:(discriminate)
                 ltac:(vm_compute; reflexivity)).
  - exact (proj1 (proj2 (H (fun _ _ => []) (InMemory.docOf "test.md" (lit "[ ][]"))
                           (lit "[ ][]") 0 emptyNoLinkRanges
                           (firstReferenceMatch (lit "[ ][]"))))
                 ltac:(vm_compute; reflexivity) ltac:(vm_compute; reflexivity)).
  - exact (proj2 (proj2 (H (fun _ _ => []) (InMemory.docOf "test.md" (lit "[ ]"))
                           (lit "[ ]") 0 emptyNoLinkRanges
                           (firstReferenceMatch (lit "[ ]"))))
                 (lit " ") ltac:(vm_compute; reflexivity)
                 ltac:(vm_compute; reflexivity) ltac:(vm_compute; reflexivity)).
Defined.

(** *** C6: classifying an href *)

Lemma split_run (p : ascii -> bool) (l : jsstring) :
  exists run tail,
    l = run ++ tail /\ forallb p run = true /\ stopsClass p tail.
Proof.
  induction l as [|a l IH].
  - exists [], []. repeat split.
  - destruct (p a) eqn:E.
    + destruct IH as (run & tail & -> & Hrun & Htail).
      exists (a :: run), tail. repeat split; [|exact Htail].
      cbn [forallb]. rewrite E, Hrun. reflexivity.
    + exists [], (a :: l). repeat split. exact E.
Qed.

(** A greedy star over a character class, followed by something that
    cannot start with a code unit of the class, reads the whole run of
    the class and hands over: there is nothing to backtrack to. *)
Lemma repeatMatcher_class_run inp (p : ascii -> bool) (c : Cont) :
  (forall y a r, st_rest y = a :: r -> p a = true -> c y = None) ->
  forall run tail pos prev caps fuel,
    forallb p run = true -> stopsClass p tail -> length run < fuel ->
    repeatMatcher (matcher inp (Chr p)) true [] fuel
                  (mkState pos prev (run ++ tail) caps) c
    = c (afterRun pos prev run tail caps).
Proof.
  intros Hc run. induction run as [|a run IH]; intros tail pos prev caps fuel Hrun Htail Hfuel.
  - destruct fuel as [|fuel]; [inversion Hfuel|].
    cbn [repeatMatcher app]. unfold withCaps, clearCaptures. cbn [st_caps st_pos st_prev st_rest].
    unfold afterRun. cbn [length fold_left]. rewrite Nat.add_0_r.
    cbn [matcher]. unfold advance. cbn [st_rest].
    destruct tail as [|t ts]; [reflexivity|].
    cbn in Htail. rewrite Htail. reflexivity.
  - destruct fuel as [|fuel]; [inversion Hfuel|].
    cbn [forallb] in Hrun. apply andb_true_iff in Hrun as [Ha Hrun].
    cbn [repeatMatcher]. unfold withCaps, clearCaptures.
    cbn [st_caps st_pos st_prev st_rest app].
    cbn [matcher]. unfold advance at 1. cbn [st_rest st_pos st_caps app].
    rewrite Ha. cbn [st_pos].
    replace (S pos =? pos) with false by (symmetry; apply Nat.eqb_neq; lia).
    rewrite IH; [|exact Hrun|exact Htail|cbn [length] in Hfuel; lia].
    unfold afterRun. cbn [length fold_left].
    replace (S pos + length run) with (pos + S (length run)) by lia.
    rewrite (Hc (mkState pos prev (a :: run ++ tail) caps) a (run ++ tail) eq_refl Ha).
    destruct (c _); reflexivity.
Qed.

(** A pattern anchored at the start of the input matches at index 0 or
    not at all. *)
Lemma searchFrom_anchored inp r rest pos a :
  searchFrom inp (Seq (Bol false) r) pos (Some a) rest = None.
Proof.
  revert pos a. induction rest as [|b rest IH]; intros pos a.
  - reflexivity.
  - cbn [searchFrom matcher st_prev andb orElse]. apply IH.
Qed.

Lemma colon_no_scheme_char : schemeChar ":" = false.
Proof. reflexivity. Qed.

Lemma scheme_char_no_colon a : schemeChar a = true -> only ":" a = false.
Proof.
  intros Ha. unfold only. destruct (Ascii.eqb ":" a) eqn:E; [|reflexivity].
  apply Ascii.eqb_eq in E. subst a. discriminate Ha.
Qed.

(** What [/^[a-z\-][a-z\-]+:/i.test(text)] decides. *)
Lemma test_schemePattern text :
  test schemePattern text = true <-> schemeLike text.
Proof.
  unfold test, exec. cbn [length Nat.ltb Nat.leb prevAt skipn].
  assert (Hcont : forall y a r, st_rest y = a :: r -> schemeChar a = true ->
                                matcher text (ch ":") y Some = None).
  { intros y a r Hy Ha. cbn [ch matcher]. unfold advance. rewrite Hy.
    rewrite (scheme_char_no_colon Ha). reflexivity. }
  split.
  - intros H.
    destruct text as [|a text]; [discriminate H|].
    cbn [skipn searchFrom schemePattern seqs matcher st_prev] in H.
    rewrite searchFrom_anchored in H.
    unfold advance at 1 in H. cbn [st_rest st_pos st_caps] in H.
    destruct (schemeChar a) eqn:Ha; [|discriminate H].
    unfold withCaps, clearCaptures, groupsOf in H.
    cbn [st_rest st_pos st_caps st_prev] in H.
    destruct text as [|b text]; [discriminate H|].
    unfold advance at 1 in H. cbn [st_rest st_pos st_caps] in H.
    destruct (schemeChar b) eqn:Hb; [|discriminate H].
    destruct (split_run schemeChar text) as (run & tail & -> & Hrun & Htail).
    cbn [st_rest] in H.
    change (fun (x : State) (c : Cont) =>
              match advance x with
              | Some (a, y) => if schemeChar a then c y else None
              | None => None
              end)
      with (matcher (a :: b :: run ++ tail) (Chr schemeChar)) in H.
    rewrite (@repeatMatcher_class_run _ schemeChar _ Hcont) in H;
      [|exact Hrun|exact Htail|rewrite length_app; lia].
    unfold afterRun in H. cbn [ch matcher] in H. unfold advance in H.
    cbn [st_rest] in H.
    destruct tail as [|t tail]; [discriminate H|].
    destruct (only ":" t) eqn:Ht; [|discriminate H].
    apply Ascii.eqb_eq in Ht. subst t.
    exists (a :: b :: run), tail. repeat split.
    + cbn [length]. lia.
    + cbn [forallb]. rewrite Ha, Hb, Hrun. reflexivity.
  - intros (s & rest & -> & Hlen & Hs).
    destruct s as [|a [|b run]]; cbn [length] in Hlen; try lia.
    cbn [forallb] in Hs.
    apply andb_true_iff in Hs as [Ha Hs]. apply andb_true_iff in Hs as [Hb Hrun].
    cbn [app skipn searchFrom schemePattern seqs matcher st_prev].
    unfold advance at 1. cbn [st_rest st_pos st_caps]. rewrite Ha.
    unfold withCaps, clearCaptures, groupsOf.
    cbn [st_rest st_pos st_caps st_prev].
    unfold advance at 1. cbn [st_rest st_pos st_caps]. rewrite Hb.
    cbn [st_rest].
    change (fun (x : State) (c : Cont) =>
              match advance x with
              | Some (a, y) => if schemeChar a then c y else None
              | None => None
              end)
      with (matcher (a :: b :: run ++ ":"%char :: rest) (Chr schemeChar)).
    rewrite (@repeatMatcher_class_run _ schemeChar _ Hcont);
      [|exact Hrun|exact colon_no_scheme_char|rewrite length_app; cbn [length]; lia].
    unfold afterRun. cbn [ch matcher]. unfold advance. cbn [st_rest].
    reflexivity.
Qed.

Lemma flatMapO_skip {A B : Type} (f : A -> Outcome (list B)) (before after : list A) (a : A) :
  f a = Ret [] ->
  flatMapO f (before ++ a :: after) = flatMapO f (before ++ after).
Proof.
  intros Ha. induction before as [|b before IH]; cbn [app flatMapO].
  - rewrite Ha. cbn [mbind Outcome_bind].
    destruct (flatMapO f after); reflexivity.
  - rewrite IH. reflexivity.
Qed.

Section CreateHref.
Context {workspace : IWorkspace} {helpers : Helpers}.

(** C6, amended.  A text that begins with a scheme is classified as
    external: [createHref] returns the parsed URI, or, when parsing
    fails, [undefined] together with a warning, and does not throw.  Any
    other text is resolved as an internal link.  A definition, an
    autolink or an HTML attribute whose href begins with a scheme and
    fails to parse contributes nothing to its pass, and the pass goes on
    with what stands on either side of it.  An inline link with such an
    href contributes nothing either, neither the link nor the images in
    its text, and the pass goes on with the matches on either side. *)
Theorem C6_createHref_classifies (sourceDocUri : URI) (text : jsstring) :
  (schemeLike text ->
   match URI_parse (tryDecodeUri text) with
   | Some u => createHref sourceDocUri text = ([], Ret (Some (ExternalHref u)))
   | None =>
       (exists warning, createHref sourceDocUri text = ([warning], Ret None))
       /\ (forall document contents nlr m before after,
              stripAngleBrackets (Js.trim (groupOr contents m 3)) = text ->
              getDocUri document = sourceDocUri ->
              definitionOfMatch document contents nlr m = Ret []
              /\ flatMapO (definitionOfMatch document contents nlr)
                          (before ++ m :: after)
                 = flatMapO (definitionOfMatch document contents nlr)
                            (before ++ after))
       /\ (forall document contents nlr m before after,
              groupOr contents m 1 = text ->
              getDocUri document = sourceDocUri ->
              autoLinkOfMatch document contents nlr m = Ret []
              /\ flatMapO (autoLinkOfMatch document contents nlr)
                          (before ++ m :: after)
                 = flatMapO (autoLinkOfMatch document contents nlr)
                            (before ++ after))
       /\ (forall document attributes outerHTML rangeStart nlr attr before after,
              assoc attr attributes = Some text ->
              getDocUri document = sourceDocUri ->
              htmlLinkOfAttr document attributes outerHTML rangeStart nlr attr
              = Ret []
              /\ flatMapO (htmlLinkOfAttr document attributes outerHTML
                                          rangeStart nlr)
                          (before ++ attr :: after)
                 = flatMapO (htmlLinkOfAttr document attributes outerHTML
                                            rangeStart nlr)
                            (before ++ after))
       /\ (forall document contents nlr m before after,
              stripAngleBrackets (groupOr contents m 3) = text ->
              getDocUri document = sourceDocUri ->
              inlineLinksOfMatch document contents nlr m = []
              /\ flat_map (inlineLinksOfMatch document contents nlr)
                          (before ++ m :: after)
                 = flat_map (inlineLinksOfMatch document contents nlr)
                            (before ++ after))
   end)
  /\ (~ schemeLike text ->
      createHref sourceDocUri text
      = ([],
         resolved ← resolveInternalDocumentLink sourceDocUri text workspace;
         Ret (option_map (fun r => InternalHref (target_resource r) (linkFragment r))
                         resolved))).
Proof.
  split.
  - intros Hs. apply test_schemePattern in Hs.
    assert (Hfail : URI_parse (tryDecodeUri text) = None ->
                    snd (createHref sourceDocUri text) = Ret None).
    { intros Hp. unfold createHref. rewrite Hs, Hp. reflexivity. }
    destruct (URI_parse (tryDecodeUri text)) as [u|] eqn:Hp.
    + unfold createHref. rewrite Hs, Hp. reflexivity.
    + specialize (Hfail eq_refl).
      assert (Hdef : forall document contents nlr m,
                 stripAngleBrackets (Js.trim (groupOr contents m 3)) = text ->
                 getDocUri document = sourceDocUri ->
                 definitionOfMatch document contents nlr m = Ret []).
      { intros document contents nlr m Ht Hd.
        unfold definitionOfMatch. cbv zeta. rewrite Ht, Hd, Hfail.
        destruct (contains nlr _ _); reflexivity. }
      assert (Hauto : forall document contents nlr m,
                 groupOr contents m 1 = text ->
                 getDocUri document = sourceDocUri ->
                 autoLinkOfMatch document contents nlr m = Ret []).
      { intros document contents nlr m Ht Hd.
        unfold autoLinkOfMatch. cbv zeta. rewrite Ht, Hd, Hfail.
        destruct (contains nlr _ _); reflexivity. }
      assert (Hhtml : forall document attributes outerHTML rangeStart nlr attr,
                 assoc attr attributes = Some text ->
                 getDocUri document = sourceDocUri ->
                 htmlLinkOfAttr document attributes outerHTML rangeStart nlr attr
                 = Ret []).
      { intros document attributes outerHTML rangeStart nlr attr Ht Hd.
        unfold htmlLinkOfAttr. cbv zeta. rewrite Ht, Hd, Hfail.
        destruct text; [reflexivity|].
        destruct (Regex.exec _ _ _); reflexivity. }
      assert (Hinline : forall document contents nlr m,
                 stripAngleBrackets (groupOr contents m 3) = text ->
                 getDocUri document = sourceDocUri ->
                 inlineLinksOfMatch document contents nlr m = []).
      { intros document contents nlr m Ht Hd.
        unfold inlineLinksOfMatch, mdLinkOfMatch, createMdLink. cbv zeta.
        rewrite Ht, Hd, Hfail. reflexivity. }
      split; [|split; [|split; [|split]]].
      * unfold createHref. rewrite Hs, Hp. eexists. reflexivity.
      * intros document contents nlr m before after Ht Hd.
        split; [|apply flatMapO_skip]; apply Hdef; assumption.
      * intros document contents nlr m before after Ht Hd.
        split; [|apply flatMapO_skip]; apply Hauto; assumption.
      * intros document attributes outerHTML rangeStart nlr attr before after Ht Hd.
        split; [|apply flatMapO_skip]; apply Hhtml; assumption.
      * intros document contents nlr m before after Ht Hd.
        split; [apply Hinline; assumption|].
        rewrite !flat_map_app. cbn [flat_map].
        rewrite (Hinline _ _ _ _ Ht Hd). reflexivity.
  - intros Hn. unfold createHref.
    destruct (test schemePattern text) eqn:Ht.
    + exfalso. apply Hn, test_schemePattern, Ht.
    + f_equal. destruct (resolveInternalDocumentLink _ _ _) as [[r|]|]; reflexivity.
Qed.

End CreateHref.

(** C6 at the href [-R:] of the test "definition that spans multiple
    lines", which begins with a scheme that [URI.parse] rejects, and at
    the relative path [./file]. *)
Lemma C6_createHref_classifies_witness :
  (exists warning,
      @createHref exampleWorkspace InMemory.helpers exampleSource (lit "-R:")
      = ([warning], Ret None))
  /\ @createHref exampleWorkspace InMemory.helpers exampleSource (lit "./file")
     = ([], Ret (Some (InternalHref (InMemory.workspacePath "file") []))).
Proof.
  split.
  - refine (proj1 (proj1 (@C6_createHref_classifies
                            exampleWorkspace InMemory.helpers exampleSource
                            (lit "-R:")) _)).
    exists (lit "-R"), []. split; [reflexivity | split; [simpl; lia | reflexivity]].
  - refine (proj2 (@C6_createHref_classifies
                     exampleWorkspace InMemory.helpers exampleSource
                     (lit "./file")) _).
    intros Hs. apply test_schemePattern in Hs. vm_compute in Hs. discriminate Hs.
Defined.

(** An image in the text of an inline link is a link of its own when
    the href of the outer link is well formed, and is dropped with the
    outer link when that href begins with a scheme and fails to parse. *)
Lemma C6_nested_image_dropped :
  InMemory.getLinksForText [] (lit "[![a](b.png)](-R:)") = Ret []
  /\ exists outer image,
      InMemory.getLinksForText [] (lit "[![a](b.png)](c.md)")
      = Ret [outer; image]
      /\ hrefText (source outer) = lit "c.md"
      /\ range (source outer) = Range_create 0 0 0 19
      /\ hrefText (source image) = lit "b.png"
      /\ range (source image) = Range_create 0 1 0 12
      /\ hrefRange (source image) = Range_create 0 6 0 11.
Proof.
  split; [vm_compute; reflexivity|].
  do 2 eexists. split; [vm_compute; reflexivity|].
  repeat split; reflexivity.
Qed.

(* ------------------------------------------------------------------ *)
(** *** C8: checkbox markers *)

Section CheckboxLines.
Import Regex Patterns.

Lemma whiteSpace_no_bullet a :
  Js.isWhiteSpace a = true -> oneOf ["-"; "*"; "+"]%char a = false.
Proof.
  intros Ha. destruct (oneOf _ a) eqn:E; [|reflexivity].
  unfold oneOf in E. cbn [existsb] in E.
  repeat (apply orb_true_iff in E as [E | E];
          [apply Ascii.eqb_eq in E; subst a; discriminate Ha|]).
  discriminate E.
Qed.

Lemma whiteSpace_no_bracket a :
  Js.isWhiteSpace a = true -> only "["%char a = false.
Proof.
  intros Ha. unfold only. destruct (Ascii.eqb "[" a) eqn:E; [|reflexivity].
  apply Ascii.eqb_eq in E. subst a. discriminate Ha.
Qed.

Lemma bullet_no_whiteSpace a :
  oneOf ["-"; "*"; "+"]%char a = true -> Js.isWhiteSpace a = false.
Proof.
  intros Ha. destruct (Js.isWhiteSpace a) eqn:E; [|reflexivity].
  rewrite (@whiteSpace_no_bullet _ E) in Ha. discriminate Ha.
Qed.

Lemma checkbox_first_run line_ y a r :
  st_rest y = a :: r -> Js.isWhiteSpace a = true ->
  matcher line_ (Seq (Chr (oneOf ["-"; "*"; "+"]%char)) checkboxAfterBullet) y Some
  = None.
Proof.
  intros Hy Ha. cbn [matcher]. unfold advance. rewrite Hy.
  rewrite (@whiteSpace_no_bullet _ Ha). reflexivity.
Qed.

Lemma checkbox_second_run line_ y a r :
  st_rest y = a :: r -> Js.isWhiteSpace a = true ->
  matcher line_ checkboxBox y Some = None.
Proof.
  intros Hy Ha. unfold checkboxBox. cbn [seqs ch matcher]. unfold advance. rewrite Hy.
  rewrite (@whiteSpace_no_bracket _ Ha). reflexivity.
Qed.

(** A pattern anchored at the start of the input is tried at index 0
    only. *)
Lemma exec_anchored (r : regex) (inp : jsstring) :
  exec (Seq (Bol false) r) inp 0
  = match matcher inp r (mkState 0 None inp []) Some with
    | Some y => Some (mkMatch 0 (st_pos y) (st_caps y))
    | None => None
    end.
Proof.
  unfold exec. change (skipn 0 inp) with inp. cbn [Nat.ltb Nat.leb prevAt].
  destruct inp as [|a inp]; cbn [searchFrom matcher st_prev].
  - destruct (matcher [] r _ Some); reflexivity.
  - destruct (matcher (a :: inp) r _ Some); [reflexivity|].
    apply searchFrom_anchored.
Qed.

(** The pattern after the anchor, on a line split at its first run of
    white space and, after a bullet, at the second. *)
Lemma checkboxPattern_eq :
  checkboxPattern
  = Seq (Bol false)
        (Seq (Star true ws)
             (Seq (Chr (oneOf ["-"; "*"; "+"]%char)) checkboxAfterBullet)).
Proof. reflexivity. Qed.

Lemma checkbox_run line_ ws1 tail :
  line_ = ws1 ++ tail ->
  forallb Js.isWhiteSpace ws1 = true -> stopsClass Js.isWhiteSpace tail ->
  matcher line_ (Seq (Star true ws)
                     (Seq (Chr (oneOf ["-"; "*"; "+"]%char)) checkboxAfterBullet))
          (mkState 0 None line_ []) Some
  = match tail with
    | bullet :: tail1 =>
        if oneOf ["-"; "*"; "+"]%char bullet then
          matcher line_ checkboxAfterBullet
                  (mkState (S (length ws1)) (Some bullet) tail1 []) Some
        else None
    | [] => None
    end.
Proof.
  intros -> Hws Htail.
  change (matcher (ws1 ++ tail)
                  (Seq (Star true ws)
                       (Seq (Chr (oneOf ["-"; "*"; "+"]%char)) checkboxAfterBullet))
                  (mkState 0 None (ws1 ++ tail) []) Some)
    with (repeatMatcher (matcher (ws1 ++ tail) (Chr Js.isWhiteSpace)) true []
            (S (length (ws1 ++ tail))) (mkState 0 None (ws1 ++ tail) [])
            (fun y => matcher (ws1 ++ tail)
                        (Seq (Chr (oneOf ["-"; "*"; "+"]%char)) checkboxAfterBullet)
                        y Some)).
  rewrite (@repeatMatcher_class_run _ Js.isWhiteSpace _
             (@checkbox_first_run (ws1 ++ tail)));
    [|exact Hws|exact Htail|rewrite length_app; lia].
  unfold afterRun. cbn [matcher]. unfold advance. cbn [st_rest st_pos st_caps].
  destruct tail as [|bullet tail1]; [reflexivity|].
  destruct (oneOf _ bullet); reflexivity.
Qed.

Lemma checkbox_box line_ ws2 tail pos prev :
  forallb Js.isWhiteSpace ws2 = true -> stopsClass Js.isWhiteSpace tail ->
  matcher line_ checkboxAfterBullet (mkState pos prev (ws2 ++ tail) []) Some
  = match tail with
    | open :: box :: close :: rest =>
        if only "["%char open && oneOf ["x"; "X"]%char box && only "]"%char close
        then Some (mkState (pos + length ws2 + 3) (Some close) rest [])
        else None
    | _ => None
    end.
Proof.
  intros Hws Htail.
  change (matcher line_ checkboxAfterBullet (mkState pos prev (ws2 ++ tail) []) Some)
    with (repeatMatcher (matcher line_ (Chr Js.isWhiteSpace)) true []
            (S (length (ws2 ++ tail))) (mkState pos prev (ws2 ++ tail) [])
            (fun y => matcher line_ checkboxBox y Some)).
  rewrite (@repeatMatcher_class_run _ Js.isWhiteSpace _
             (@checkbox_second_run line_));
    [|exact Hws|exact Htail|rewrite length_app; lia].
  unfold afterRun, checkboxBox. cbn [seqs ch matcher]. unfold advance.
  cbn [st_rest st_pos st_caps].
  destruct tail as [|open [|box [|close rest]]]; try reflexivity.
  - destruct (only "["%char open); reflexivity.
  - destruct (only "["%char open); cbn [st_rest st_pos st_caps]; [|reflexivity].
    destruct (oneOf ["x"; "X"]%char box); reflexivity.
  - destruct (only "["%char open); cbn [st_rest st_pos st_caps andb]; [|reflexivity].
    destruct (oneOf ["x"; "X"]%char box); cbn [st_rest st_pos st_caps andb];
      [|reflexivity].
    destruct (only "]"%char close); [|reflexivity].
    do 2 f_equal. lia.
Qed.

Lemma full_prefix_length (inp : jsstring) (n : nat) (caps : Captures) :
  n <= length inp -> length (full inp (mkMatch 0 n caps)) = n.
Proof.
  intros H. unfold full, Js.slice. cbn [m_index m_end].
  change (skipn 0 inp) with inp. rewrite length_firstn. lia.
Qed.

Lemma checkboxMarker_exec line_ n :
  checkboxMarker line_ n ->
  exists cm,
    exec checkboxPattern line_ 0 = Some cm /\ length (full line_ cm) = n.
Proof.
  intros (ws1 & bullet & ws2 & box & rest & Hline & Hws1 & Hbullet & Hws2 & Hbox & ->).
  rewrite checkboxPattern_eq, exec_anchored.
  rewrite (@checkbox_run line_ ws1 _ Hline Hws1)
    by (cbn; apply bullet_no_whiteSpace; exact Hbullet).
  rewrite Hbullet.
  rewrite (@checkbox_box line_ ws2 ("["%char :: box :: "]"%char :: rest) _ _ Hws2)
    by reflexivity.
  rewrite Hbox.
  change (only "["%char "["%char) with true.
  change (only "]"%char "]"%char) with true. cbn [andb].
  eexists. split; [reflexivity|].
  cbn [st_pos st_caps].
  assert (Hlen : length line_ = length ws1 + length ws2 + 4 + length rest).
  { rewrite Hline, !length_app. cbn [length]. rewrite length_app. cbn [length]. lia. }
  rewrite full_prefix_length; lia.
Qed.

Lemma exec_checkboxMarker line_ cm :
  exec checkboxPattern line_ 0 = Some cm ->
  checkboxMarker line_ (length (full line_ cm)).
Proof.
  rewrite checkboxPattern_eq, exec_anchored.
  destruct (split_run Js.isWhiteSpace line_) as (ws1 & tail & Hline & Hws1 & Htail).
  rewrite (@checkbox_run line_ ws1 tail Hline Hws1 Htail).
  destruct tail as [|bullet tail1]; [discriminate|].
  destruct (oneOf _ bullet) eqn:Hbullet; [|discriminate].
  destruct (split_run Js.isWhiteSpace tail1) as (ws2 & tail2 & -> & Hws2 & Htail2).
  rewrite (@checkbox_box line_ ws2 tail2 _ _ Hws2 Htail2).
  destruct tail2 as [|open [|box [|close rest]]]; try discriminate.
  destruct (only "[" open) eqn:Hopen; [|discriminate].
  destruct (oneOf _ box) eqn:Hbox; [|discriminate].
  destruct (only "]" close) eqn:Hclose; [|discriminate].
  cbn [andb]. intros [= <-].
  apply Ascii.eqb_eq in Hopen. apply Ascii.eqb_eq in Hclose. subst open close.
  exists ws1, bullet, ws2, box, rest.
  repeat split; try assumption.
  cbn [st_pos st_caps].
  assert (Hlen : length line_ = length ws1 + length ws2 + 4 + length rest).
  { rewrite Hline, !length_app. cbn [length]. rewrite length_app. cbn [length]. lia. }
  rewrite full_prefix_length; lia.
Qed.

End CheckboxLines.

Section CheckboxShorthands.
Import Regex Patterns.
Context {workspace : IWorkspace} {helpers : Helpers}.

(** C8, amended.  For every match of the reference pattern that is a
    bare shorthand, [[text]]:
    - when the line of the shorthand begins with a checkbox marker
      (white space, a bullet [-], [*] or [+], white space, and [x] or
      [X] in square brackets) and the text of the shorthand starts no
      later than the marker ends, the match yields no link;
    - when the shorthand is blank, as in [[ ]], the match yields no
      link;
    - in every other case the match yields the reference link of the
      shorthand, unless its start lies in a range without links or the
      shorthand stands at the start of a line and is followed by a
      colon, as a definition: this holds in particular for a shorthand
      after the marker, and for the box of a marker that is not at the
      start of the line.
    The documents of the nine markers give no link; [- [x] text] gives
    no link; in the document [- [x] [x]] followed by a definition of
    [x], the only link of the first line is the reference link of the
    second bracket, with href 0:7-0:8. *)
Theorem C8_checkbox_marker_is_no_link :
  (forall recur document text offset nlr m shorthand n,
      group text m 3 = None ->
      group text m 4 = Some shorthand ->
      let hrefStart := positionAt document (offset + m_index m + 1) in
      checkboxMarker (getLine document (line hrefStart)) n ->
      (character hrefStart <= Z.of_nat n)%Z ->
      referenceLinksOfMatch recur document text offset nlr m = [])
  /\ (forall recur document text offset nlr m shorthand,
         group text m 3 = None ->
         group text m 4 = Some shorthand ->
         Js.trim shorthand = [] ->
         referenceLinksOfMatch recur document text offset nlr m = [])
  /\ (forall recur document text offset nlr m shorthand,
         group text m 3 = None ->
         group text m 4 = Some shorthand ->
         Js.trim shorthand <> [] ->
         let linkStart := positionAt document (offset + m_index m) in
         let hrefStart := positionAt document (offset + m_index m + 1) in
         let line_ := getLine document (line hrefStart) in
         contains nlr linkStart [] = false ->
         (character linkStart =? 0)%Z
         && match nth_error line_ (length (full text m)) with
            | Some a => Ascii.eqb a ":"
            | None => false
            end = false ->
         (forall n, checkboxMarker line_ n -> (Z.of_nat n < character hrefStart)%Z) ->
         referenceLinksOfMatch recur document text offset nlr m
         = [referenceLink document (Js.trim shorthand) linkStart
              (translatePosition linkStart 0 (Z.of_nat (length (full text m))))
              hrefStart
              (positionAt document
                 (offset + m_index m + 1 + length (Js.trim shorthand)))])
  /\ Forall (fun marker : string =>
               (forall nlr,
                   getReferenceLinks (InMemory.docOf "test.md" (lit marker)) nlr = [])
               /\ InMemory.getLinksForText (Examples.listOf 1) (lit marker) = Ret [])
            Examples.checkboxMarkers
  /\ InMemory.getLinksForText (Examples.listOf 1) (lit "- [x] text") = Ret []
  /\ exists l d,
      InMemory.getLinksForText (Examples.listOf 1) Examples.checkboxThenLink
      = Ret [l; d]
      /\ kind l = Link
      /\ href l = ReferenceHref (lit "x")
      /\ range (source l) = Range_create 0 6 0 9
      /\ hrefRange (source l) = Range_create 0 7 0 8
      /\ kind d = Definition_
      /\ range (source d) = Range_create 2 0 2 23.
Proof.
  split; [|split; [|split; [|split; [|split]]]].
  - intros recur document text offset nlr m shorthand n H3 H4 hrefStart Hmarker Hle.
    apply checkboxMarker_exec in Hmarker as [cm [Hcm Hlen]].
    eapply checkbox_shorthand_skipped; [exact H3 | exact H4 | exact Hcm |].
    fold hrefStart. rewrite Hlen. apply Z.leb_le. exact Hle.
  - intros recur document text offset nlr m shorthand H3 H4 Hblank.
    unfold referenceLinksOfMatch. cbv zeta.
    destruct (contains nlr _ _); [reflexivity|].
    rewrite H3, H4. destruct shorthand as [|a s]; [reflexivity|].
    rewrite Hblank. reflexivity.
  - intros recur document text offset nlr m shorthand H3 H4 Hsome
           linkStart hrefStart line_ Hfree Hdefinition Hafter.
    unfold referenceLinksOfMatch. cbv zeta.
    fold linkStart. rewrite Hfree, H3, H4.
    destruct shorthand as [|a s]; [exfalso; apply Hsome; reflexivity|].
    destruct (Js.trim (a :: s)) as [|b reference] eqn:Etrim;
      [exfalso; apply Hsome; reflexivity|].
    cbn [Js.isEmpty].
    fold hrefStart. fold line_. rewrite Hdefinition.
    destruct (exec checkboxPattern line_ 0) as [cm|] eqn:Ecm; [|reflexivity].
    apply exec_checkboxMarker in Ecm. apply Hafter in Ecm.
    replace (character hrefStart <=? Z.of_nat (length (full line_ cm)))%Z
      with false by (symmetry; apply Z.leb_gt; exact Ecm).
    reflexivity.
  - unfold Examples.checkboxMarkers.
    repeat (constructor;
            [split; [intros nlr; apply getReferenceLinks_none|];
             vm_compute; reflexivity|]).
    constructor.
  - vm_compute. reflexivity.
  - do 2 eexists. split; [vm_compute; reflexivity|].
    repeat split; reflexivity.
Qed.

End CheckboxShorthands.

(** C8 at the box of [- [x] text]: the line begins with a marker of
    five code units, and the text of the shorthand starts at 0:3. *)
Lemma C8_checkbox_marker_is_no_link_witness :
  checkboxMarker (lit "- [x] text") 5
  /\ scanFirstReference "- [x] text" = [].
Proof.
  assert (Hmarker : checkboxMarker (lit "- [x] text") 5).
  { exists [], "-"%char, [" "%char], "x"%char, (lit " text").
    repeat split; reflexivity. }
  split; [exact Hmarker|].
  unfold scanFirstReference.
  refine (proj1 C8_checkbox_marker_is_no_link
                (fun _ _ => []) (InMemory.docOf "test.md" (lit "- [x] text"))
                (lit "- [x] text") 0 emptyNoLinkRanges
                (firstReferenceMatch (lit "- [x] text")) (lit "x") 5
                ltac:(vm_compute; reflexivity) ltac:(vm_compute; reflexivity) _ _).
  - vm_compute getLine. exact Hmarker.
  - vm_compute. discriminate.
Defined.

(** The box of a list item inside a list item, and of a list item in a
    block quote, is not at the start of the line: it yields the
    reference link 0:4-0:7, with href 0:5-0:6. *)
Lemma C8_nested_item_checkbox_is_a_link :
  (exists l,
      InMemory.getLinksForText (Examples.listOf 1) (lit "- - [x] a") = Ret [l]
      /\ kind l = Link
      /\ href l = ReferenceHref (lit "x")
      /\ range (source l) = Range_create 0 4 0 7
      /\ hrefRange (source l) = Range_create 0 5 0 6)
  /\ (exists l,
         InMemory.getLinksForText (Examples.listOf 1) (lit "> - [x] a") = Ret [l]
         /\ kind l = Link
         /\ href l = ReferenceHref (lit "x")
         /\ range (source l) = Range_create 0 4 0 7
         /\ hrefRange (source l) = Range_create 0 5 0 6).
Proof.
  split; eexists; (split; [vm_compute; reflexivity|]); repeat split; reflexivity.
Qed.

(** *** Link targets that name a heading *)

Lemma Js_eqb_eq (a b : jsstring) : Js.eqb a b = true <-> a = b.
Proof.
  revert b. induction a as [|x a IH]; intros [|y b]; simpl; split;
    try congruence; try reflexivity.
  - intros H. apply andb_true_iff in H as [Hx Hab].
    apply Ascii.eqb_eq in Hx. apply IH in Hab. congruence.
  - intros H. injection H as -> ->. apply andb_true_iff. split.
    + apply Ascii.eqb_refl.
    + apply IH. reflexivity.
Qed.

Lemma lookupByFragment_some toc fragmentText entry :
  lookupByFragment toc fragmentText = Some entry ->
  In entry (entries toc) /\ slug entry = fragmentText.
Proof.
  unfold lookupByFragment. intros H. apply find_some in H as [Hin Heq].
  split; [exact Hin | apply Js_eqb_eq; exact Heq].
Qed.

Lemma lookupByFragment_none toc fragmentText :
  lookupByFragment toc fragmentText = None <->
  (forall entry, In entry (entries toc) -> slug entry <> fragmentText).
Proof.
  unfold lookupByFragment. split.
  - intros H entry Hin Heq.
    pose proof (find_none _ _ H entry Hin) as Hno. cbv beta in Hno.
    apply Js_eqb_eq in Heq. unfold Slug_equals in Hno. congruence.
  - intros H. destruct (find _ _) as [entry|] eqn:E; [|reflexivity].
    apply find_some in E as [Hin Heq]. apply Js_eqb_eq in Heq.
    exfalso. exact (H entry Hin Heq).
Qed.

Section ResolveLinkTarget.
Context {workspace : IWorkspace} {helpers : Helpers}
        {pathHelpers : PathHelpers} {tocProvider : ITocProvider}.
Variable config : LsConfiguration.

(** C5.  [resolveLinkTarget] on a link text such as [./x.md#heading]:
    the text does not look like a URI with a scheme, it resolves to the
    file [target] with the fragment [fragment_], the file is there (the
    probe of the file system goes on with [file]), the fragment is not
    empty and is not a line-number fragment, and the file opens as the
    document [doc].  Then the answer is a file target.  When a heading
    of the document's table of contents has a slug that equals the
    fragment exactly, the answer carries the uri of such a heading, the
    start of the heading as position and the fragment.  When no heading
    has that slug, the answer is the file alone, without position and
    without fragment. *)
Theorem C5_resolveLinkTarget_heading
        (linkText : jsstring) (sourceDoc target file : URI)
        (fragment_ : jsstring) (doc : ITextDocument) :
  ~ schemeLike linkText ->
  resolveInternalDocumentLink sourceDoc linkText workspace
  = Ret (Some (mkResolved target fragment_)) ->
  LinkProvider.probeTarget config target false = inr file ->
  fragment_ <> [] ->
  parseLocationInfoFromFragment fragment_ = None ->
  openMarkdownDocument file = Some doc ->
  ((exists header, In header (entries (getForContainingDoc doc))
                   /\ slug header = fragment_) ->
   exists entry,
     In entry (entries (getForContainingDoc doc))
     /\ slug entry = fragment_
     /\ LinkProvider.resolveLinkTarget config linkText sourceDoc false
        = Ret (Some (FileTarget (loc_uri (headerLocation entry))
                                (Some (start (loc_range (headerLocation entry))))
                                (Some fragment_))))
  /\ ((forall header, In header (entries (getForContainingDoc doc)) ->
                      slug header <> fragment_) ->
      LinkProvider.resolveLinkTarget config linkText sourceDoc false
      = Ret (Some (FileTarget file None None))).
Proof.
  intros Hscheme Hres Hprobe Hfrag Hloc Hopen.
  assert (Hstep : LinkProvider.resolveLinkTarget config linkText sourceDoc false
                  = Ret (Some
                      match lookupByFragment (getForContainingDoc doc) fragment_ with
                      | Some entry =>
                          FileTarget (loc_uri (headerLocation entry))
                                     (Some (start (loc_range (headerLocation entry))))
                                     (Some fragment_)
                      | None => FileTarget file None None
                      end)).
  { unfold LinkProvider.resolveLinkTarget, createHref.
    destruct (test schemePattern linkText) eqn:Et.
    { exfalso. apply Hscheme. apply test_schemePattern. exact Et. }
    cbn [snd]. rewrite Hres. cbn.
    unfold LinkProvider.resolveInternalLinkTarget. rewrite Hprobe.
    destruct fragment_ as [|a rest]; [congruence|].
    cbn [Js.isEmpty]. rewrite Hloc, Hopen. reflexivity. }
  split.
  - intros [header [Hin Hslug]].
    destruct (lookupByFragment (getForContainingDoc doc) fragment_)
      as [entry|] eqn:E.
    + apply lookupByFragment_some in E as Hentry. destruct Hentry as [Hin' Hslug'].
      exists entry. split; [exact Hin'|]. split; [exact Hslug'|]. exact Hstep.
    + exfalso. exact (proj1 (lookupByFragment_none _ _) E header Hin Hslug).
  - intros Hnone. apply lookupByFragment_none in Hnone.
    rewrite Hnone in Hstep. exact Hstep.
Qed.

End ResolveLinkTarget.

Lemma C5_resolveLinkTarget_heading_witness :
  @LinkProvider.resolveLinkTarget
    HeadingExample.workspace InMemory.helpers InMemoryPaths.pathHelpers
    HeadingExample.tocProvider InMemoryPaths.config
    (lit "./x.md#heading") HeadingExample.source false
  = Ret (Some (FileTarget (InMemory.workspacePath "x.md")
                          (Some (mkPosition 0 0)) (Some (lit "heading"))))
  /\ @LinkProvider.resolveLinkTarget
       HeadingExample.workspace InMemory.helpers InMemoryPaths.pathHelpers
       HeadingExample.tocProvider InMemoryPaths.config
       (lit "./x.md#other") HeadingExample.source false
     = Ret (Some (FileTarget (InMemory.workspacePath "x.md") None None)).
Proof.
  split.
  - destruct (proj1 (@C5_resolveLinkTarget_heading
                       HeadingExample.workspace InMemory.helpers
                       InMemoryPaths.pathHelpers HeadingExample.tocProvider
                       InMemoryPaths.config
                       (lit "./x.md#heading") HeadingExample.source
                       (InMemory.workspacePath "x.md")
                       (InMemory.workspacePath "x.md")
                       (lit "heading") HeadingExample.target
                       ltac:(intros Hs; apply test_schemePattern in Hs;
                             vm_compute in Hs; discriminate Hs)
                       ltac:(vm_compute; reflexivity)
                       ltac:(vm_compute; reflexivity)
                       ltac:(discriminate)
                       ltac:(vm_compute; reflexivity)
                       ltac:(vm_compute; reflexivity))
                    (ex_intro _ HeadingExample.headingEntry
                              (conj (or_introl eq_refl) eq_refl)))
      as [entry [Hin [_ Hresult]]].
    destruct Hin as [<- | []]. exact Hresult.
  - refine (proj2 (@C5_resolveLinkTarget_heading
                     HeadingExample.workspace InMemory.helpers
                     InMemoryPaths.pathHelpers HeadingExample.tocProvider
                     InMemoryPaths.config
                     (lit "./x.md#other") HeadingExample.source
                     (InMemory.workspacePath "x.md")
                     (InMemory.workspacePath "x.md")
                     (lit "other") HeadingExample.target
                     ltac:(intros Hs; apply test_schemePattern in Hs;
                           vm_compute in Hs; discriminate Hs)
                     ltac:(vm_compute; reflexivity)
                     ltac:(vm_compute; reflexivity)
                     ltac:(discriminate)
                     ltac:(vm_compute; reflexivity)
                     ltac:(vm_compute; reflexivity)) _).
    intros header [<- | []]. vm_compute. discriminate.
Defined.

(* ------------------------------------------------------------------ *)
(** *** Links inside a renamed file *)

Section LinksInSelf.
Import FileRename Rename.
Context {workspace : IWorkspace} {helpers : Helpers} {pathHelpers : PathHelpers}
        {referencesProvider : IReferencesProvider} {linkCache : ILinkCache}.
Variable config : LsConfiguration.

Lemma chainThroughRenames_unmoved allEdits oldLink :
  (forall r, In r allEdits -> movedBy r (target_resource oldLink) = false) ->
  chainThroughRenames allEdits oldLink = oldLink.
Proof.
  induction allEdits as [|r rest IH]; intros Hnone; [reflexivity|].
  cbn [chainThroughRenames].
  pose proof (Hnone r (or_introl eq_refl)) as Hr. unfold movedBy in Hr.
  rewrite Hr. apply IH. intros r' Hin. apply Hnone. right. exact Hin.
Qed.

Lemma chainThroughRenames_moved before r after oldLink :
  (forall r', In r' before -> movedBy r' (target_resource oldLink) = false) ->
  movedBy r (target_resource oldLink) = true ->
  chainThroughRenames (before ++ r :: after) oldLink
  = mkResolved (Utils_joinPath (newUri r)
                  (posix_relative (path (oldUri r))
                                  (path (target_resource oldLink))))
               (linkFragment oldLink).
Proof.
  induction before as [|r' rest IH]; intros Hnone Hr.
  - cbn [app chainThroughRenames]. unfold movedBy in Hr. rewrite Hr. reflexivity.
  - cbn [app chainThroughRenames].
    pose proof (Hnone r' (or_introl eq_refl)) as Hr'. unfold movedBy in Hr'.
    rewrite Hr'. apply IH; [|exact Hr].
    intros r'' Hin. apply Hnone. right. exact Hin.
Qed.

Lemma getLinkRenameText_relative link newPath preferDotSlash :
  isRelativeText link = true ->
  getLinkRenameText (source link) newPath preferDotSlash
  = Ret (computeRelativePath (resource (source link)) newPath preferDotSlash).
Proof.
  unfold isRelativeText, getLinkRenameText. intros H.
  apply andb_true_iff in H as [_ H]. apply negb_true_iff in H.
  rewrite H. reflexivity.
Qed.

Lemma addEditsForLinksInSelf_skipped doc link edit allEdits builder :
  isRelativeText link = false ->
  addEditsForLinksInSelf config doc link edit allEdits builder
  = Ret (false, builder).
Proof.
  unfold isRelativeText, addEditsForLinksInSelf. intros H.
  destruct (href link); try reflexivity.
  destruct (Js.startsWith (hrefText (source link)) ["#"%char]); [reflexivity|].
  destruct (Js.startsWith (hrefText (source link)) ["/"%char]); [reflexivity|].
  discriminate H.
Qed.

Lemma addEditsForLinksInSelf_relative doc link edit allEdits builder p f oldLink :
  href link = InternalHref p f ->
  isRelativeText link = true ->
  resolveInternalDocumentLink (oldUri edit) (hrefText (source link)) workspace
  = Ret (Some oldLink) ->
  addEditsForLinksInSelf config doc link edit allEdits builder
  = Ret match renameTextFor config link allEdits oldLink with
        | Some text => (true, builder ++ [pathEdit (getDocUri doc) link text])
        | None => (false, builder)
        end.
Proof.
  unfold addEditsForLinksInSelf, renameTextFor.
  intros Hhref Hrel Hres. rewrite Hhref.
  pose proof Hrel as Hrel'. unfold isRelativeText in Hrel'.
  destruct (Js.startsWith (hrefText (source link)) ["#"%char]); [discriminate Hrel'|].
  destruct (Js.startsWith (hrefText (source link)) ["/"%char]); [discriminate Hrel'|].
  rewrite Hres. cbn [mbind Outcome_bind].
  unfold addLinkRenameEdit. rewrite Hhref.
  rewrite (getLinkRenameText_relative _ _ Hrel). cbn [mbind Outcome_bind].
  rewrite <- Hhref.
  destruct (computeRelativePath _ _ _); reflexivity.
Qed.

(** What one step of the pass does: nothing, or it adds the path edit
    of a link with a relative text. *)
Lemma addEditsForLinksInSelf_adds doc link edit allEdits builder :
  resolveInternalDocumentLink (oldUri edit) (hrefText (source link)) workspace
  <> Throw ->
  exists b added,
    addEditsForLinksInSelf config doc link edit allEdits builder
    = Ret (b, builder ++ added)
    /\ (forall e, In e added ->
                  exists text, isRelativeText link = true
                               /\ e = pathEdit (getDocUri doc) link text)
    /\ (forall p f oldLink text,
           href link = InternalHref p f ->
           isRelativeText link = true ->
           resolveInternalDocumentLink (oldUri edit) (hrefText (source link))
                                       workspace = Ret (Some oldLink) ->
           renameTextFor config link allEdits oldLink = Some text ->
           In (pathEdit (getDocUri doc) link text) added).
Proof.
  intros Hthrow.
  assert (Hnothing :
            addEditsForLinksInSelf config doc link edit allEdits builder
            = Ret (false, builder) ->
            (forall p f oldLink text,
                href link = InternalHref p f ->
                isRelativeText link = true ->
                resolveInternalDocumentLink (oldUri edit) (hrefText (source link))
                                            workspace = Ret (Some oldLink) ->
                renameTextFor config link allEdits oldLink = Some text -> False) ->
            exists b added,
              addEditsForLinksInSelf config doc link edit allEdits builder
              = Ret (b, builder ++ added)
              /\ (forall e, In e added ->
                            exists text, isRelativeText link = true
                                         /\ e = pathEdit (getDocUri doc) link text)
              /\ (forall p f oldLink text,
                     href link = InternalHref p f ->
                     isRelativeText link = true ->
                     resolveInternalDocumentLink (oldUri edit)
                       (hrefText (source link)) workspace = Ret (Some oldLink) ->
                     renameTextFor config link allEdits oldLink = Some text ->
                     In (pathEdit (getDocUri doc) link text) added)).
  { intros Heq Hno. exists false, []. rewrite app_nil_r.
    split; [exact Heq|]. split; [intros e []|].
    intros p f oldLink text H1 H2 H3 H4. exact (Hno p f oldLink text H1 H2 H3 H4). }
  destruct (isRelativeText link) eqn:Hrel.
  2:{ apply Hnothing.
      - apply addEditsForLinksInSelf_skipped. exact Hrel.
      - intros; discriminate. }
  destruct (href link) as [u|p f|r] eqn:Hhref.
  1,3: apply Hnothing;
       [unfold addEditsForLinksInSelf; rewrite Hhref; reflexivity
       |intros; discriminate].
  destruct (resolveInternalDocumentLink (oldUri edit) (hrefText (source link))
                                        workspace)
    as [[oldLink|]|] eqn:Hres; [| |congruence].
  2:{ apply Hnothing; [|intros; discriminate].
      unfold addEditsForLinksInSelf. rewrite Hhref.
      unfold isRelativeText in Hrel.
      destruct (Js.startsWith (hrefText (source link)) ["#"%char]); [discriminate Hrel|].
      destruct (Js.startsWith (hrefText (source link)) ["/"%char]); [discriminate Hrel|].
      rewrite Hres. reflexivity. }
  pose proof (@addEditsForLinksInSelf_relative doc link edit allEdits builder
                p f oldLink Hhref Hrel Hres) as Hstep.
  destruct (renameTextFor config link allEdits oldLink) as [text|] eqn:Htext.
  - exists true, [pathEdit (getDocUri doc) link text].
    split; [exact Hstep|]. split.
    + intros e [<- | []]. exists text. split; reflexivity.
    + intros p' f' oldLink' text' _ _ [= <-] Htext'.
      rewrite Htext in Htext'. injection Htext' as <-. left. reflexivity.
  - apply Hnothing; [exact Hstep|].
    intros p' f' oldLink' text' _ _ [= <-] Htext'. congruence.
Qed.

(** The pass over the links of the renamed file. *)
Lemma linksInSelf_adds doc edit allEdits links :
  (forall link, In link links ->
     resolveInternalDocumentLink (oldUri edit) (hrefText (source link)) workspace
     <> Throw) ->
  forall didParticipate builder,
  exists b added,
    forEachEdit (fun link => addEditsForLinksInSelf config doc link edit allEdits)
                links didParticipate builder = Ret (b, builder ++ added)
    /\ (forall e, In e added ->
                  exists link text, In link links
                                    /\ isRelativeText link = true
                                    /\ e = pathEdit (getDocUri doc) link text)
    /\ (forall link p f oldLink text,
           In link links ->
           href link = InternalHref p f ->
           isRelativeText link = true ->
           resolveInternalDocumentLink (oldUri edit) (hrefText (source link))
                                       workspace = Ret (Some oldLink) ->
           renameTextFor config link allEdits oldLink = Some text ->
           In (pathEdit (getDocUri doc) link text) added).
Proof.
  induction links as [|link rest IH]; intros Hthrow didParticipate builder.
  - exists didParticipate, []. rewrite app_nil_r.
    split; [reflexivity|]. split; intros; contradiction.
  - destruct (@addEditsForLinksInSelf_adds doc link edit allEdits builder
                (Hthrow link (or_introl eq_refl)))
      as [b1 [added1 [Hstep [Honly1 Hall1]]]].
    destruct (IH (fun l Hin => Hthrow l (or_intror Hin))
                 (b1 || didParticipate) (builder ++ added1))
      as [b [added [Hrest [Honly Hall]]]].
    exists b, (added1 ++ added). split.
    { cbn [forEachEdit]. rewrite Hstep. cbn [mbind Outcome_bind fst snd].
      rewrite Hrest, app_assoc. reflexivity. }
    split.
    + intros e He. apply in_app_or in He as [He | He].
      * destruct (Honly1 e He) as [text [Hrel ->]].
        exists link, text. split; [left; reflexivity|]. split; [exact Hrel | reflexivity].
      * destruct (Honly e He) as [l [t [Hin Hrest']]].
        exists l, t. split; [right; exact Hin | exact Hrest'].
    + intros l p f oldLink t [<- | Hin] Hhref Hrel Hres Htext; apply in_or_app.
      * left. exact (Hall1 p f oldLink t Hhref Hrel Hres Htext).
      * right. exact (Hall l p f oldLink t Hin Hhref Hrel Hres Htext).
Qed.

(** Under a resolver that does not throw, every pass returns and only
    adds edits. *)
Section Grows.
Hypothesis resolves :
  forall u text, resolveInternalDocumentLink u text workspace <> Throw.

Lemma grows_skip (b : bool) : grows (fun builder => Ret (b, builder)).
Proof. intros builder. exists b, []. rewrite app_nil_r. reflexivity. Qed.

Lemma forEachEdit_grows {A : Type}
      (step : A -> WorkspaceEdit -> Outcome (bool * WorkspaceEdit)) (l : list A) :
  (forall a, In a l -> grows (step a)) ->
  forall didParticipate, grows (forEachEdit step l didParticipate).
Proof.
  induction l as [|a rest IH]; intros Hstep didParticipate builder.
  - exists didParticipate, []. rewrite app_nil_r. reflexivity.
  - destruct (Hstep a (or_introl eq_refl) builder) as [b1 [added1 H1]].
    destruct (IH (fun x Hin => Hstep x (or_intror Hin))
                 (b1 || didParticipate) (builder ++ added1)) as [b [added H2]].
    exists b, (added1 ++ added).
    cbn [forEachEdit]. rewrite H1. cbn [mbind Outcome_bind fst snd].
    rewrite H2, app_assoc. reflexivity.
Qed.

Lemma addLinkRenameEdit_grows doc link newUri_ :
  grows (addLinkRenameEdit config doc link newUri_).
Proof using resolves.
  intros builder. unfold addLinkRenameEdit.
  destruct (href link); try apply (grows_skip false).
  unfold getLinkRenameText.
  destruct (Js.startsWith (hrefText (source link)) ["/"%char]).
  - destruct (resolveInternalDocumentLink (resource (source link)) ["/"%char]
                                          workspace) as [[root|]|] eqn:E;
      cbn [mbind Outcome_bind].
    + eexists true, [_]. reflexivity.
    + apply (grows_skip false).
    + exfalso. exact (resolves E).
  - cbn [mbind Outcome_bind].
    destruct (computeRelativePath _ _ _).
    + eexists true, [_]. reflexivity.
    + apply (grows_skip false).
Qed.

Lemma addEditsForReferencesToFile_grows edit cancelled :
  grows (fun builder => addEditsForReferencesToFile config edit builder cancelled).
Proof using resolves.
  intros builder. unfold addEditsForReferencesToFile.
  destruct (isExcludedPath config (newUri edit)); [apply (grows_skip false)|].
  destruct cancelled; [apply (grows_skip false)|].
  apply forEachEdit_grows. intros [] _.
  - apply (grows_skip false).
  - apply addLinkRenameEdit_grows.
Qed.

Lemma directoryRenameEditsForLink_grows edit docUri link :
  grows (directoryRenameEditsForLink config edit docUri link).
Proof using resolves.
  intros builder. unfold directoryRenameEditsForLink.
  destruct (href link) as [u|hrefPath f|r]; try apply (grows_skip false).
  destruct (Js.startsWith (hrefText (source link)) ["#"%char]);
    [apply (grows_skip false)|].
  assert (Hsecond :
            exists b added,
              (if Js.startsWith (hrefText (source link)) ["."%char; "."%char]
                  && isParentDir (newUri edit) docUri
               then
                 oldLink ← resolveInternalDocumentLink
                             (URI_withPath docUri
                                (path (Utils_joinPath (oldUri edit)
                                         (posix_relative (path (newUri edit))
                                                         (path docUri)))))
                             (hrefText (source link)) workspace;
                 match oldLink with
                 | None => Ret (false, builder)
                 | Some oldLink =>
                     let newPathText :=
                       if isParentDir (oldUri edit) (target_resource oldLink) then
                         let rootDir :=
                           Utils_dirname
                             (URI_withPath docUri
                                (path (Utils_joinPath (oldUri edit)
                                         (posix_relative (path (newUri edit))
                                                         (path docUri))))) in
                         "."%char :: "/"%char
                           :: posix_relative (path rootDir)
                                             (path (target_resource oldLink))
                       else
                         let rootDir := Utils_dirname docUri in
                         posix_relative (path rootDir)
                                        (path (target_resource oldLink)) in
                     let replacementPath := encodeURI newPathText in
                     if negb (Js.eqb replacementPath (hrefPathText (source link)))
                     then
                       let e := getLinkRenameEdit link replacementPath in
                       Ret (true, builder_replace builder docUri
                                                  (edit_range e) (edit_newText e))
                     else Ret (false, builder)
                 end
               else Ret (false, builder))
              = Ret (b, builder ++ added)).
  { destruct (_ && _); [|apply (grows_skip false)].
    destruct (resolveInternalDocumentLink _ _ _) as [[oldLink|]|] eqn:E;
      cbn [mbind Outcome_bind].
    - cbv zeta. destruct (negb _).
      + eexists true, [_]. reflexivity.
      + apply (grows_skip false).
    - apply (grows_skip false).
    - exfalso. exact (resolves E). }
  destruct (isParentDir (oldUri edit) hrefPath).
  - destruct (addLinkRenameEdit_grows
                (getDocUri (mkDoc docUri 0 [])) link
                (URI_withPath (newUri edit)
                   (posix_join (path (newUri edit))
                      (posix_relative (path (oldUri edit)) (path hrefPath))))
                builder) as [b1 [added1 H1]].
    cbv zeta. change (getDocUri (mkDoc docUri 0 [])) with docUri in H1.
    rewrite H1. cbn [fst]. destruct b1.
    + exists true, added1. reflexivity.
    + exact Hsecond.
  - cbn [fst]. exact Hsecond.
Qed.

Lemma addDirectoryRenameEdits_grows edit cancelled :
  grows (fun builder => addDirectoryRenameEdits config edit builder cancelled).
Proof using resolves.
  intros builder. unfold addDirectoryRenameEdits.
  destruct cancelled; [apply (grows_skip false)|].
  apply forEachEdit_grows. intros [docUri links] _.
  apply forEachEdit_grows. intros link _.
  apply directoryRenameEditsForLink_grows.
Qed.

Lemma tryAddEditsInSelf_grows edit allEdits :
  grows (tryAddEditsInSelf config edit allEdits).
Proof using resolves.
  intros builder. unfold tryAddEditsInSelf.
  destruct (negb _); [apply (grows_skip false)|].
  destruct (isExcludedPath _ _); [apply (grows_skip false)|].
  destruct (openMarkdownDocument _) as [doc|]; [|apply (grows_skip false)].
  destruct (@linksInSelf_adds doc edit allEdits (linkCache_getForDoc doc)
              (fun l _ => @resolves _ _) false builder) as [b [added [H _]]].
  exists b, added. exact H.
Qed.

Lemma addSingleFileRenameEdits_grows edit allEdits cancelled :
  grows (fun builder =>
           addSingleFileRenameEdits config edit allEdits builder cancelled).
Proof using resolves.
  intros builder. unfold addSingleFileRenameEdits.
  destruct (addEditsForReferencesToFile_grows edit cancelled builder)
    as [b1 [added1 H1]].
  rewrite H1. cbn [mbind Outcome_bind fst snd].
  destruct cancelled.
  - exists false, added1. reflexivity.
  - destruct (tryAddEditsInSelf_grows edit allEdits (builder ++ added1))
      as [b2 [added2 H2]].
    rewrite H2. cbn [mbind Outcome_bind fst snd].
    exists (b1 || b2), (added1 ++ added2). rewrite app_assoc. reflexivity.
Qed.

Lemma renameStep_grows edit allEdits :
  grows (fun builder =>
           if match stat (newUri edit) with
              | Some s => isDirectory s
              | None => false
              end
           then addDirectoryRenameEdits config edit builder false
           else addSingleFileRenameEdits config edit allEdits builder false).
Proof using resolves.
  intros builder.
  destruct (match stat (newUri edit) with Some s => isDirectory s | None => false end).
  - apply addDirectoryRenameEdits_grows.
  - apply addSingleFileRenameEdits_grows.
Qed.

Lemma renameLoop_grows allEdits remaining :
  forall participating builder,
  exists response added,
    renameLoop config remaining allEdits false participating builder
    = Ret (Some response)
    /\ edit response = builder ++ added.
Proof using resolves.
  induction remaining as [|e rest IH]; intros participating builder.
  - eexists _, []. split; [reflexivity|]. rewrite app_nil_r. reflexivity.
  - cbn [renameLoop].
    destruct (renameStep_grows e allEdits builder) as [b [added1 H1]].
    rewrite H1. cbn [mbind Outcome_bind].
    destruct (IH (if b then participating ++ [e] else participating)
                 (builder ++ added1)) as [response [added [H2 H3]]].
    exists response, (added1 ++ added). split; [exact H2|].
    rewrite H3, app_assoc. reflexivity.
Qed.

(** The links of a renamed Markdown file and the edit of the batch. *)
Lemma renameLoop_rewrites allEdits rename doc link p f oldLink text before after :
  match stat (newUri rename) with Some s => isDirectory s | None => false end
  = false ->
  looksLikeMarkdownUri config (newUri rename) = true ->
  isExcludedPath config (newUri rename) = false ->
  openMarkdownDocument (newUri rename) = Some doc ->
  In link (linkCache_getForDoc doc) ->
  href link = InternalHref p f ->
  isRelativeText link = true ->
  resolveInternalDocumentLink (oldUri rename) (hrefText (source link)) workspace
  = Ret (Some oldLink) ->
  renameTextFor config link allEdits oldLink = Some text ->
  forall participating builder,
  exists response,
    renameLoop config (before ++ rename :: after) allEdits false
               participating builder = Ret (Some response)
    /\ In (pathEdit (getDocUri doc) link text) (edit response).
Proof using resolves.
  intros Hstat Hmd Hexcluded Hopen Hin Hhref Hrel Hres Htext.
  induction before as [|e rest IH]; intros participating builder.
  - cbn [app renameLoop]. rewrite Hstat.
    unfold addSingleFileRenameEdits.
    destruct (addEditsForReferencesToFile_grows rename false builder)
      as [b1 [added1 H1]].
    rewrite H1. cbn [mbind Outcome_bind fst snd].
    unfold tryAddEditsInSelf. rewrite Hmd, Hexcluded, Hopen. cbn [negb].
    destruct (@linksInSelf_adds doc rename allEdits (linkCache_getForDoc doc)
                (fun l _ => @resolves _ _) false (builder ++ added1))
      as [b2 [added2 [H2 [_ Hall]]]].
    rewrite H2. cbn [mbind Outcome_bind fst snd].
    destruct (renameLoop_grows allEdits after
                (if b1 || b2 then participating ++ [rename] else participating)
                ((builder ++ added1) ++ added2))
      as [response [added [H3 H4]]].
    exists response. split; [exact H3|].
    rewrite H4. apply in_or_app. left. apply in_or_app. right.
    exact (Hall link p f oldLink text Hin Hhref Hrel Hres Htext).
  - cbn [app renameLoop].
    destruct (renameStep_grows e allEdits builder) as [b [added1 H1]].
    rewrite H1. cbn [mbind Outcome_bind].
    apply IH.
Qed.

(** A step of a loop that adds an edit on every builder: the edit is
    among those the loop adds. *)
Lemma forEachEdit_adds_at {A : Type}
      (step : A -> WorkspaceEdit -> Outcome (bool * WorkspaceEdit))
      (l : list A) (a : A) (e : EditOperation) :
  (forall x, In x l -> grows (step x)) ->
  In a l ->
  (forall builder, exists b, step a builder = Ret (b, builder ++ [e])) ->
  forall didParticipate builder,
  exists b added,
    forEachEdit step l didParticipate builder = Ret (b, builder ++ added)
    /\ In e added.
Proof.
  induction l as [|x rest IH]; intros Hgrows Hin Hstep didParticipate builder;
    [contradiction|].
  cbn [forEachEdit].
  destruct Hin as [-> | Hin].
  - destruct (Hstep builder) as [b1 H1].
    destruct (forEachEdit_grows (fun y Hy => Hgrows y (or_intror Hy))
                (b1 || didParticipate) (builder ++ [e])) as [b [added H2]].
    exists b, ([e] ++ added). rewrite H1. cbn [mbind Outcome_bind fst snd].
    rewrite H2, app_assoc. split; [reflexivity | left; reflexivity].
  - destruct (Hgrows x (or_introl eq_refl) builder) as [b1 [added1 H1]].
    destruct (IH (fun y Hy => Hgrows y (or_intror Hy)) Hin Hstep
                 (b1 || didParticipate) (builder ++ added1))
      as [b [added [H2 He]]].
    exists b, (added1 ++ added). rewrite H1. cbn [mbind Outcome_bind fst snd].
    rewrite H2, app_assoc. split; [reflexivity|].
    apply in_or_app. right. exact He.
Qed.

(** The pass over the references to a renamed file rewrites a link
    whose text starts with a slash. *)
Lemma referencesToFile_rewrites_rooted other isTrigger isDefinition location
      link p f root :
  isExcludedPath config (newUri other) = false ->
  In (LinkReference isTrigger isDefinition location link)
     (getReferencesToFileInWorkspace (oldUri other)) ->
  href link = InternalHref p f ->
  Js.startsWith (hrefText (source link)) ["/"%char] = true ->
  resolveInternalDocumentLink (resource (source link)) ["/"%char] workspace
  = Ret (Some root) ->
  forall builder,
  exists didParticipate added,
    addEditsForReferencesToFile config other builder false
    = Ret (didParticipate, builder ++ added)
    /\ In (pathEdit (loc_uri location) link
             ("/"%char
                :: posix_relative
                     (path (target_resource root))
                     (path (removeNewUriExtIfNeeded config (href link)
                                                    (newUri other)))))
          added.
Proof using resolves.
  intros Hexcluded Hin Hhref Hslash Hroot builder.
  unfold addEditsForReferencesToFile. rewrite Hexcluded.
  eapply forEachEdit_adds_at with
    (a := LinkReference isTrigger isDefinition location link).
  - intros [] _; [apply (grows_skip false) | apply addLinkRenameEdit_grows].
  - exact Hin.
  - intros builder'. exists true.
    unfold addLinkRenameEdit, getLinkRenameText.
    rewrite Hhref, Hslash, Hroot. reflexivity.
Qed.

End Grows.

(** C4, amended.  A batch of renames holds the rename of a Markdown
    file: the
    new location is not a directory, looks like Markdown, is not
    excluded and opens as the document [doc]; the resolver of link
    texts does not throw.  Then [getRenameFilesInWorkspaceEdit] answers
    with an edit, and:
    - for every link of [doc] with an internal target whose text is
      neither fragment-only nor root-absolute, that resolves against
      the old location of the file, and for which a path to the chained
      target can be computed, the edit of the answer replaces the path
      of the link by that path;
    - the pass over the links of the file itself returns, only adds
      edits, and every edit it adds is the path edit of a link whose
      text starts neither with a number sign nor with a slash;
    - the chained target is the resolved old target when no rename of
      the batch moves it; when renames of the batch move it (the same
      resource, or a directory above it), it is the new location of the
      first of them joined with the path from its old location to the
      old target;
    - the pass over the references to a renamed file, whose new location
      is not excluded, returns, and for every link among those
      references whose text starts with a slash, and whose root
      resolves, it adds the edit that replaces the path of the link by
      a slash and the path from the root to the new location. *)
Theorem C4_links_in_renamed_file
        (batch : list FileRename) (rename : FileRename) (doc : ITextDocument) :
  (forall u text, resolveInternalDocumentLink u text workspace <> Throw) ->
  In rename batch ->
  match stat (newUri rename) with Some s => isDirectory s | None => false end
  = false ->
  looksLikeMarkdownUri config (newUri rename) = true ->
  isExcludedPath config (newUri rename) = false ->
  openMarkdownDocument (newUri rename) = Some doc ->
  (exists response,
      getRenameFilesInWorkspaceEdit config batch false = Ret (Some response)
      /\ forall link p f oldLink text,
           In link (linkCache_getForDoc doc) ->
           href link = InternalHref p f ->
           isRelativeText link = true ->
           resolveInternalDocumentLink (oldUri rename) (hrefText (source link))
                                       workspace = Ret (Some oldLink) ->
           renameTextFor config link batch oldLink = Some text ->
           In (pathEdit (getDocUri doc) link text) (edit response))
  /\ (forall builder,
       exists didParticipate added,
         tryAddEditsInSelf config rename batch builder
         = Ret (didParticipate, builder ++ added)
         /\ forall e, In e added ->
                      exists link text,
                        In link (linkCache_getForDoc doc)
                        /\ Js.startsWith (hrefText (source link)) ["#"%char] = false
                        /\ Js.startsWith (hrefText (source link)) ["/"%char] = false
                        /\ e = pathEdit (getDocUri doc) link text)
  /\ (forall oldLink,
         (forall r, In r batch -> movedBy r (target_resource oldLink) = false) ->
         chainThroughRenames batch oldLink = oldLink)
  /\ (forall oldLink earlier r later,
         batch = earlier ++ r :: later ->
         (forall r', In r' earlier -> movedBy r' (target_resource oldLink) = false) ->
         movedBy r (target_resource oldLink) = true ->
         chainThroughRenames batch oldLink
         = mkResolved (Utils_joinPath (newUri r)
                         (posix_relative (path (oldUri r))
                                         (path (target_resource oldLink))))
                      (linkFragment oldLink))
  /\ (forall other isTrigger isDefinition location link p f root builder,
         isExcludedPath config (newUri other) = false ->
         In (LinkReference isTrigger isDefinition location link)
            (getReferencesToFileInWorkspace (oldUri other)) ->
         href link = InternalHref p f ->
         Js.startsWith (hrefText (source link)) ["/"%char] = true ->
         resolveInternalDocumentLink (resource (source link)) ["/"%char] workspace
         = Ret (Some root) ->
         exists didParticipate added,
           addEditsForReferencesToFile config other builder false
           = Ret (didParticipate, builder ++ added)
           /\ In (pathEdit (loc_uri location) link
                    ("/"%char
                       :: posix_relative
                            (path (target_resource root))
                            (path (removeNewUriExtIfNeeded config (href link)
                                                           (newUri other)))))
                 added).
Proof.
  intros Hresolves Hin Hstat Hmd Hexcluded Hopen.
  split; [|split; [|split; [|split]]].
  - destruct (in_split _ _ Hin) as [before [after Hbatch]].
    destruct (renameLoop_grows Hresolves batch batch [] [])
      as [response [added [Hloop _]]].
    exists response. split; [exact Hloop|].
    intros link p f oldLink text Hlink Hhref Hrel Hres Htext.
    destruct (@renameLoop_rewrites Hresolves batch rename doc link p f oldLink text
                before after Hstat Hmd Hexcluded Hopen Hlink Hhref Hrel Hres Htext
                [] []) as [response' [Hloop' Hedit]].
    unfold getRenameFilesInWorkspaceEdit in Hloop.
    rewrite <- Hbatch in Hloop'. rewrite Hloop in Hloop'.
    injection Hloop' as <-. exact Hedit.
  - intros builder. unfold tryAddEditsInSelf.
    rewrite Hmd, Hexcluded, Hopen. cbn [negb].
    destruct (@linksInSelf_adds doc rename batch (linkCache_getForDoc doc)
                (fun l _ => @Hresolves _ _) false builder)
      as [b [added [Hpass [Honly _]]]].
    exists b, added. split; [exact Hpass|].
    intros e He. destruct (Honly e He) as [link [text [Hlink [Hrel ->]]]].
    exists link, text. unfold isRelativeText in Hrel.
    apply andb_true_iff in Hrel as [H1 H2].
    apply negb_true_iff in H1. apply negb_true_iff in H2.
    split; [exact Hlink|]. split; [exact H1|]. split; [exact H2 | reflexivity].
  - intros oldLink. apply chainThroughRenames_unmoved.
  - intros oldLink earlier r later ->. apply chainThroughRenames_moved.
  - intros other isTrigger isDefinition location link p f root builder
           Hother Href Hhref Hslash Hroot.
    eapply referencesToFile_rewrites_rooted; eassumption.
Qed.

End LinksInSelf.

Lemma resolveInternal_returns (w : IWorkspace) (u : URI) (text : jsstring) :
  InMemory.resolveInternal u text w <> Throw.
Proof.
  unfold InMemory.resolveInternal.
  destruct (InMemory.splitFragment text) as [[|a p] frag]; [discriminate|].
  destruct (Ascii.eqb a "/"); discriminate.
Qed.

Lemma C4_links_in_renamed_file_witness :
  exists response,
    @FileRename.getRenameFilesInWorkspaceEdit
      RenameExample.workspace InMemory.helpers InMemoryPaths.pathHelpers
      RenameExample.referencesProvider RenameExample.linkCache
      InMemoryPaths.config RenameExample.batch false
    = Ret (Some response)
    /\ In (Replace (InMemory.workspacePath "sub/b.md") (Range_create 0 4 0 10)
                   (lit "../other/a.md"))
          (FileRename.edit response).
Proof.
  destruct (proj1 (@C4_links_in_renamed_file
                     RenameExample.workspace InMemory.helpers
                     InMemoryPaths.pathHelpers RenameExample.referencesProvider
                     RenameExample.linkCache InMemoryPaths.config
                     RenameExample.batch RenameExample.renameOfB
                     RenameExample.moved
                     (@resolveInternal_returns RenameExample.workspace)
                     ltac:(left; reflexivity)
                     ltac:(vm_compute; reflexivity)
                     ltac:(vm_compute; reflexivity)
                     ltac:(vm_compute; reflexivity)
                     ltac:(vm_compute; reflexivity)))
    as [response [Hrun Hall]].
  exists response. split; [exact Hrun|].
  let links := eval vm_compute in (RenameExample.linksOf RenameExample.moved) in
  lazymatch links with
  | ?link :: _ =>
      refine (Hall link _ _
                   (mkResolved (InMemory.workspacePath "a.md") [])
                   (lit "../other/a.md")
                   ltac:(vm_compute; left; reflexivity)
                   ltac:(reflexivity)
                   ltac:(vm_compute; reflexivity)
                   ltac:(vm_compute; reflexivity)
                   ltac:(vm_compute; reflexivity))
  end.
Defined.

(** [b.md] with the link [/c.md] moved to [sub/b.md], and [c.md] moved
    to [d.md] in the same batch: the edit of the answer rewrites the
    root-absolute link of the moved file. *)
Lemma C4_root_absolute_link_rewritten :
  exists link response,
    In link (RootLinkExample.linksOf RootLinkExample.moved)
    /\ hrefText (source link) = lit "/c.md"
    /\ hrefRange (source link) = Range_create 0 7 0 12
    /\ @FileRename.getRenameFilesInWorkspaceEdit
         RootLinkExample.workspace InMemory.helpers InMemoryPaths.pathHelpers
         RootLinkExample.referencesProvider RootLinkExample.linkCache
         InMemoryPaths.config RootLinkExample.batch false
       = Ret (Some response)
    /\ FileRename.edit response
       = [Replace (InMemory.workspacePath "sub/b.md") (Range_create 0 7 0 12)
                  (lit "/d.md")].
Proof.
  do 2 eexists.
  split; [vm_compute; left; reflexivity|].
  split; [reflexivity|]. split; [reflexivity|].
  split; vm_compute; reflexivity.
Qed.

(* ------------------------------------------------------------------ *)
(** *** Links and the ranges without links *)





Lemma in_flatMapO {A B : Type} (f : A -> Outcome (list B)) (l : list A)
      (r : list B) (y : B) :
  flatMapO f l = Ret r -> In y r ->
  exists a ys, In a l /\ f a = Ret ys /\ In y ys.
Proof.
  revert r. induction l as [|a l IH]; intros r H Hy; cbn [flatMapO] in H.
  - injection H as <-. contradiction.
  - destruct (f a) as [ys|] eqn:Ea; cbn [mbind Outcome_bind] in H; [|discriminate H].
    destruct (flatMapO f l) as [rest|] eqn:El; cbn [mbind Outcome_bind] in H;
      [|discriminate H].
    injection H as <-. apply in_app_or in Hy as [Hy | Hy].
    + exists a, ys. split; [left; reflexivity|]. split; [exact Ea | exact Hy].
    + destruct (IH rest eq_refl Hy) as [a' [ys' [Hin [Ha' Hy']]]].
      exists a', ys'. split; [right; exact Hin|]. split; [exact Ha' | exact Hy'].
Qed.

Section LinkStarts.
Context {workspace : IWorkspace} {helpers : Helpers} {tokenizer : IMdParser}.

Lemma createHref_kind (sourceDocUri : URI) (link : jsstring) (target : Href) :
  snd (createHref sourceDocUri link) = Ret (Some target) ->
  href_kind target <> Reference.
Proof.
  unfold createHref. destruct (test schemePattern link).
  - destruct (URI_parse _); cbn [snd]; intros [= <-]; discriminate.
  - cbn [snd]. destruct (resolveInternalDocumentLink _ _ _) as [[r|]|];
      cbn [mbind Outcome_bind]; intros [= <-]; discriminate.
Qed.

(** A reference link is found at a start that no range excludes. *)
Lemma referenceLinksOfMatch_start recur document text offset nlr m link :
  (forall t o l, In l (recur t o) ->
                 href_kind (href l) = Reference
                 /\ contains nlr (start (range (source l))) [] = false) ->
  In link (referenceLinksOfMatch recur document text offset nlr m) ->
  href_kind (href link) = Reference
  /\ contains nlr (start (range (source link))) [] = false.
Proof.
  intros Hrec. unfold referenceLinksOfMatch. cbv zeta.
  destruct (contains nlr _ _) eqn:Hc; [intros []|].
  assert (Hone : forall reference linkEnd hrefStart hrefEnd,
             In link [referenceLink document reference
                        (positionAt document (offset + m_index m))
                        linkEnd hrefStart hrefEnd] ->
             href_kind (href link) = Reference
             /\ contains nlr (start (range (source link))) [] = false).
  { intros reference linkEnd hrefStart hrefEnd [<- | []]. cbn. split; [reflexivity | exact Hc]. }
  destruct (group text m 3) as [[|a reference]|].
  - destruct (Js.isEmpty _); [intros [] | apply Hone].
  - destruct (_ && _); [intros []|].
    intros Hin. apply in_app_or in Hin as [Hin | Hin]; [|exact (Hone _ _ _ _ Hin)].
    destruct (negb _); [exact (Hrec _ _ _ Hin) | destruct Hin].
  - destruct (group text m 4) as [[|a shorthand]|]; try (intros []).
    destruct (Js.isEmpty _); [intros []|].
    destruct (_ && _); [intros []|].
    destruct (match exec checkboxPattern _ 0 with Some _ => _ | None => _ end);
      [intros [] | apply Hone].
Qed.

Lemma getReferenceLinksInText_start fuel document nlr :
  forall text offset link,
  In link (getReferenceLinksInText fuel document text offset nlr) ->
  href_kind (href link) = Reference
  /\ contains nlr (start (range (source link))) [] = false.
Proof.
  induction fuel as [|fuel IH]; intros text offset link Hin; [destruct Hin|].
  cbn [getReferenceLinksInText] in Hin.
  apply in_flat_map in Hin as [m [_ Hin]].
  eapply referenceLinksOfMatch_start; [|exact Hin].
  intros t o l. apply IH.
Qed.



Lemma getLinkDefinitions_start document nlr links link :
  getLinkDefinitions document nlr = Ret links -> In link links ->
  kind link = Definition_ /\ href_kind (href link) <> Reference
  /\ contains nlr (start (range (source link))) [] = false.
Proof.
  unfold getLinkDefinitions. cbv zeta. intros H Hin.
  destruct (@in_flatMapO _ _ _ _ _ _ H Hin) as [m [ys [_ [Hm Hy]]]].
  unfold definitionOfMatch in Hm. cbv zeta in Hm.
  destruct (contains nlr _ _) eqn:Hc; [injection Hm as <-; destruct Hy|].
  destruct (snd (createHref _ _)) as [[target|]|] eqn:E;
    cbn [mbind Outcome_bind] in Hm; [| |discriminate Hm].
  2:{ injection Hm as <-. destruct Hy. }
  destruct (getLinkSourceFragmentInfo _ _ _ _) as [fragmentRange pathText].
  injection Hm as <-. destruct Hy as [<- | []]. cbn.
  split; [reflexivity|]. split; [(eapply createHref_kind; exact E) | exact Hc].
Qed.

Lemma getAutoLinks_start document nlr links link :
  getAutoLinks document nlr = Ret links -> In link links ->
  kind link = AutoLink /\ href_kind (href link) <> Reference
  /\ contains nlr (start (range (source link))) [] = false.
Proof.
  unfold getAutoLinks. cbv zeta. intros H Hin.
  destruct (@in_flatMapO _ _ _ _ _ _ H Hin) as [m [ys [_ [Hm Hy]]]].
  unfold autoLinkOfMatch in Hm. cbv zeta in Hm.
  destruct (contains nlr _ _) eqn:Hc; [injection Hm as <-; destruct Hy|].
  destruct (snd (createHref _ _)) as [[[u|p f|r]|]|] eqn:E;
    cbn [mbind Outcome_bind] in Hm; [| | | |discriminate Hm].
  2-4: injection Hm as <-; destruct Hy.
  destruct (getLinkSourceFragmentInfo _ _ _ _) as [fragmentRange pathText].
  injection Hm as <-. destruct Hy as [<- | []]. cbn.
  split; [reflexivity|]. split; [discriminate | exact Hc].
Qed.

Lemma htmlLinkOfAttr_start document attributes outerHTML rangeStart nlr attr
      links link :
  htmlLinkOfAttr document attributes outerHTML rangeStart nlr attr = Ret links ->
  In link links ->
  kind link = Link /\ href_kind (href link) <> Reference
  /\ range (source link) = hrefRange (source link)
  /\ contains nlr (start (range (source link))) "html_block"%string = false.
Proof.
  unfold htmlLinkOfAttr. cbv zeta. intros H Hin.
  destruct (assoc attr attributes) as [[|a l]|];
    try (injection H as <-; destruct Hin).
  destruct (exec _ _ _) as [attrMatch|]; [|injection H as <-; destruct Hin].
  destruct (snd (createHref _ _)) as [[target|]|] eqn:E;
    cbn [mbind Outcome_bind] in H; [| |discriminate H].
  2:{ injection H as <-. destruct Hin. }
  destruct (contains nlr _ _) eqn:Hc; [injection H as <-; destruct Hin|].
  destruct (getLinkSourceFragmentInfo _ _ _ _) as [fragmentRange pathText].
  injection H as <-. destruct Hin as [<- | []]. cbn.
  split; [reflexivity|]. split; [eapply createHref_kind; exact E|].
  split; [reflexivity | exact Hc].
Qed.

Lemma getHtmlLinksFromNode_start document nlr :
  forall node links link,
  getHtmlLinksFromNode document node nlr = Ret links -> In link links ->
  kind link = Link /\ href_kind (href link) <> Reference
  /\ range (source link) = hrefRange (source link)
  /\ contains nlr (start (range (source link))) "html_block"%string = false.
Proof.
  fix IH 1. intros [tagName attributes outerHTML rangeStart childNodes|] links link H Hin.
  2:{ cbn in H. injection H as <-. destruct Hin. }
  cbn [getHtmlLinksFromNode] in H.
  destruct (match tagName with Some _ => _ | None => _ end) as [own|] eqn:Eown;
    cbn [mbind Outcome_bind] in H; [|discriminate H].
  match type of H with
  | context [mbind _ ?children] => destruct children as [rest|] eqn:Erest
  end; cbn [mbind Outcome_bind] in H; [|discriminate H].
  injection H as <-. apply in_app_or in Hin as [Hin | Hin].
  - destruct tagName as [tag|]; [|injection Eown as <-; destruct Hin].
    destruct (assoc tag htmlTagPathAttrs) as [attrs|];
      [|injection Eown as <-; destruct Hin].
    destruct (@in_flatMapO _ _ _ _ _ _ Eown Hin) as [attr [ys [_ [Hattr Hy]]]].
    eapply htmlLinkOfAttr_start; [exact Hattr | exact Hy].
  - clear Eown. revert rest Erest Hin.
    induction childNodes as [|child cs IHcs]; intros rest Erest Hin.
    + injection Erest as <-. destruct Hin.
    + destruct (getHtmlLinksFromNode document child nlr) as [ys|] eqn:Echild;
        cbn [mbind Outcome_bind] in Erest; [|discriminate Erest].
      match type of Erest with
      | context [mbind _ ?children] => destruct children as [zs|] eqn:Ezs
      end; cbn [mbind Outcome_bind] in Erest; [|discriminate Erest].
      injection Erest as <-. apply in_app_or in Hin as [Hin | Hin].
      * exact (IH child ys link Echild Hin).
      * exact (IHcs zs eq_refl Hin).
Qed.

Lemma getHtmlLinks_start document nlr links link :
  getHtmlLinks document nlr = Ret links -> In link links ->
  kind link = Link /\ href_kind (href link) <> Reference
  /\ range (source link) = hrefRange (source link)
  /\ contains nlr (start (range (source link))) "html_block"%string = false.
Proof.
  unfold getHtmlLinks. cbv zeta.
  destruct (negb _); [intros [= <-] []|].
  destruct (parse _) as [tree|]; [|intros [= <-] []].
  apply getHtmlLinksFromNode_start.
Qed.

End LinkStarts.
Section AllLinks.
Context {workspace : IWorkspace} {helpers : Helpers} {tokenizer : IMdParser}.


End AllLinks.


(** Links in multi-line spans and in spans opened by a run of
    backticks: the span of [doubleBacktickSpan] goes on to the second
    run of two backticks, and only the link after it is found. *)
Lemma code_span_examples :
  CodeSpanExamples.linkRanges (Examples.paragraph 0 3) CodeSpanExamples.multilineSpan
  = Ret []
  /\ InlineRanges_get
       (inline (CodeSpanExamples.noLinkRangesOf CodeSpanExamples.doubleBacktickSpan)) 0
     = [Range_create 0 0 0 15]
  /\ CodeSpanExamples.linkRanges (Examples.paragraph 0 1)
                                 CodeSpanExamples.doubleBacktickSpan
     = Ret [(Range_create 0 16 0 22, Range_create 0 20 0 21)].
Proof. vm_compute. repeat split; reflexivity. Qed.

(** The closing run of a span need not be as long as the run that
    opens it.  In [singleThenDouble] the match of [inlineCodePattern]
    opens with the one backtick and ends with the second backtick of the
    run of two: the span is 0:0-0:4.  In [doubleThenSingle] the match
    opens with the first backtick of the run of two and ends with the
    single backtick: the span is 0:0-0:4 again.  The link after the
    span is found in both. *)
Lemma code_span_backtick_runs :
  map (fun m => (Regex.m_index m, Regex.m_end m,
                 Regex.group CodeSpanExamples.singleThenDouble m 1))
      (Regex.matchAll Patterns.inlineCodePattern CodeSpanExamples.singleThenDouble)
  = [(0, 4, Some (lit "`"))]
  /\ InlineRanges_get
       (inline (CodeSpanExamples.noLinkRangesOf CodeSpanExamples.singleThenDouble)) 0
     = [Range_create 0 0 0 4]
  /\ CodeSpanExamples.linkRanges (Examples.paragraph 0 1)
                                 CodeSpanExamples.singleThenDouble
     = Ret [(Range_create 0 5 0 11, Range_create 0 9 0 10)]
  /\ map (fun m => (Regex.m_index m, Regex.m_end m,
                    Regex.group CodeSpanExamples.doubleThenSingle m 1))
        (Regex.matchAll Patterns.inlineCodePattern CodeSpanExamples.doubleThenSingle)
     = [(0, 4, Some (lit "`"))]
  /\ InlineRanges_get
       (inline (CodeSpanExamples.noLinkRangesOf CodeSpanExamples.doubleThenSingle)) 0
     = [Range_create 0 0 0 4]
  /\ CodeSpanExamples.linkRanges (Examples.paragraph 0 1)
                                 CodeSpanExamples.doubleThenSingle
     = Ret [(Range_create 0 5 0 11, Range_create 0 9 0 10)].
Proof. vm_compute. repeat split; reflexivity. Qed.


(* ------------------------------------------------------------------ *)
(** *** Renaming a header *)

Section HeaderRename.
Import Rename.
Context {workspace : IWorkspace} {helpers : Helpers} {pathHelpers : PathHelpers}
        {tocProvider : ITocProvider} {slugifier : ISlugifier}
        {referencesProvider : IReferencesProvider}.
Variable configuration : LsConfiguration.

Lemma cacheHit_key (c : CachedRefs) (d : ITextDocument) (p : Position) :
  cacheHit c d p = true ->
  fsPath (cached_resource c) = fsPath (getDocUri d)
  /\ cached_version c = version d
  /\ arePositionsEqual (cached_position c) p = true.
Proof.
  unfold cacheHit. intros H.
  apply andb_true_iff in H as [H Hp]. apply andb_true_iff in H as [Hf Hv].
  split; [apply Js_eqb_eq; exact Hf|]. split; [lia | exact Hp].
Qed.

(** With a coherent cache, [#getAllReferences] answers what the
    provider knows, and leaves a coherent cache. *)
Lemma getAllReferences_lookup cachedRefs document position :
  stableProvider -> coherent cachedRefs ->
  fst (getAllReferences cachedRefs document position false)
  = lookupReferences document position
  /\ coherent (snd (getAllReferences cachedRefs document position false)).
Proof.
  intros Hstable Hcoherent.
  assert (Hmiss :
            fst (match find isTriggerLocation
                            (getReferencesAtPosition document position) with
                 | None => (None, cachedRefs)
                 | Some triggerRef =>
                     (Some (mkResponse (getReferencesAtPosition document position)
                                       triggerRef),
                      Some (mkCached (getDocUri document) (version document)
                                     position triggerRef
                                     (getReferencesAtPosition document position)))
                 end) = lookupReferences document position
            /\ coherent
                 (snd (match find isTriggerLocation
                                  (getReferencesAtPosition document position) with
                       | None => (None, cachedRefs)
                       | Some triggerRef =>
                           (Some (mkResponse
                                    (getReferencesAtPosition document position)
                                    triggerRef),
                            Some (mkCached (getDocUri document) (version document)
                                           position triggerRef
                                           (getReferencesAtPosition document
                                                                    position)))
                       end))).
  { unfold lookupReferences.
    destruct (find isTriggerLocation (getReferencesAtPosition document position))
      as [triggerRef|] eqn:Efind; cbn [fst snd]; (split; [reflexivity|]);
      [|exact Hcoherent].
    intros d p Hhit. apply cacheHit_key in Hhit as [Hf [Hv Hp]].
    cbn in Hf, Hv, Hp. unfold lookupReferences.
    rewrite <- (Hstable document d position p Hf Hv Hp), Efind. reflexivity. }
  unfold getAllReferences. destruct cachedRefs as [c|]; [|exact Hmiss].
  destruct (cacheHit c document position) eqn:Hhit; [|exact Hmiss].
  cbn [fst snd]. split; [|exact Hcoherent].
  symmetry. exact (Hcoherent document position Hhit).
Qed.

Lemma replaceLinksTo_edits changedHeader refs builder :
  replaceLinksTo changedHeader refs builder
  = builder ++ linkEditsTo changedHeader refs.
Proof.
  unfold replaceLinksTo, linkEditsTo. revert builder.
  induction refs as [|ref refs IH]; intros builder; cbn [fold_left flat_map].
  - rewrite app_nil_r. reflexivity.
  - rewrite IH. destruct ref; cbn [app].
    + reflexivity.
    + unfold builder_replace. rewrite <- app_assoc. reflexivity.
Qed.

Lemma rewriteChangedHeaders_edits doc changedHeaders :
  stableProvider ->
  forall cachedRefs builder,
  coherent cachedRefs ->
  exists cachedRefs',
    rewriteChangedHeaders doc changedHeaders false cachedRefs builder
    = Some (cachedRefs', builder ++ cascadeEdits doc changedHeaders)
    /\ coherent cachedRefs'.
Proof.
  intros Hstable.
  induction changedHeaders as [|header rest IH]; intros cachedRefs builder Hcoherent.
  - exists cachedRefs. cbn. rewrite app_nil_r. split; [reflexivity | exact Hcoherent].
  - cbn [rewriteChangedHeaders].
    destruct (@getAllReferences_lookup cachedRefs doc
                (start (loc_range (headerLocation header))) Hstable Hcoherent)
      as [Hfst Hsnd].
    destruct (getAllReferences cachedRefs doc _ false) as [refs cachedRefs1].
    cbn [fst snd] in Hfst, Hsnd.
    destruct (IH cachedRefs1
                 (replaceLinksTo header
                    (match refs with Some r => references r | None => [] end)
                    builder) Hsnd) as [cachedRefs' [Hrest Hcoherent']].
    exists cachedRefs'. split; [|exact Hcoherent'].
    rewrite Hrest, replaceLinksTo_edits, <- app_assoc.
    unfold cascadeEdits at 2. cbn [flat_map].
    unfold referencesTo at 1. rewrite <- Hfst. reflexivity.
Qed.

Lemma renameReference_edits newHeaderText newSlug refs builder :
  fold_left (renameReference newHeaderText newSlug) refs builder
  = builder ++ map (referenceEdit newHeaderText newSlug) refs.
Proof.
  revert builder. induction refs as [|ref refs IH]; intros builder;
    cbn [fold_left map].
  - rewrite app_nil_r. reflexivity.
  - rewrite IH. unfold builder_replace.
    assert (Hone : renameReference newHeaderText newSlug builder ref
                   = builder ++ [referenceEdit newHeaderText newSlug ref]).
    { destruct ref as [t d l h hl | t d l link]; cbn; [reflexivity|].
      unfold builder_replace.
      destruct (hrefFragmentRange (source link)); [|reflexivity].
      destruct (href link); reflexivity. }
    rewrite Hone, <- app_assoc. reflexivity.
Qed.

(** The comparison of the tables of contents, entry by entry. *)
Lemma compareEntries_from newToc existingHeaderLine :
  forall oldEntries k newSlug changedHeaders,
  let result :=
    fold_left (compareEntry newToc existingHeaderLine)
              (combine (seq k (length oldEntries)) oldEntries)
              (newSlug, changedHeaders) in
  (forall newEntry,
      In newEntry (snd result) <->
      In newEntry changedHeaders
      \/ exists index oldEntry,
           nth_error oldEntries index = Some oldEntry
           /\ nth_error (entries newToc) (k + index) = Some newEntry
           /\ line (start (loc_range (headerLocation oldEntry)))
              <> existingHeaderLine
           /\ slug oldEntry <> slug newEntry)
  /\ (forall index oldEntry newEntry,
         nth_error oldEntries index = Some oldEntry ->
         nth_error (entries newToc) (k + index) = Some newEntry ->
         line (start (loc_range (headerLocation oldEntry))) = existingHeaderLine ->
         (forall j other, nth_error oldEntries j = Some other ->
                          line (start (loc_range (headerLocation other)))
                          = existingHeaderLine -> j = index) ->
         fst result = slug newEntry)
  /\ ((forall index oldEntry,
          nth_error oldEntries index = Some oldEntry ->
          line (start (loc_range (headerLocation oldEntry))) = existingHeaderLine ->
          nth_error (entries newToc) (k + index) = None) ->
      fst result = newSlug).
Proof.
  induction oldEntries as [|oldEntry rest IH]; intros k newSlug changedHeaders.
  - cbn. split; [|split].
    + intros newEntry. split; [intros H; left; exact H|].
      intros [H | [index [o [H _]]]]; [exact H|].
      destruct index; discriminate H.
    + intros index o e H. destruct index; discriminate H.
    + reflexivity.
  - cbn [length seq combine fold_left]. cbv zeta.
    set (acc := compareEntry newToc existingHeaderLine (newSlug, changedHeaders)
                             (k, oldEntry)).
    specialize (IH (S k) (fst acc) (snd acc)). cbv zeta in IH.
    rewrite <- surjective_pairing in IH.
    destruct IH as [IHin [IHslug IHnone]].
    assert (Hacc :
              match nth_error (entries newToc) k with
              | None => acc = (newSlug, changedHeaders)
              | Some newEntry =>
                  if (line (start (loc_range (headerLocation oldEntry)))
                      =? existingHeaderLine)%Z
                  then acc = (slug newEntry, changedHeaders)
                  else if negb (Slug_equals (slug oldEntry) (slug newEntry))
                       then acc = (newSlug, changedHeaders ++ [newEntry])
                       else acc = (newSlug, changedHeaders)
              end).
    { unfold acc, compareEntry.
      destruct (nth_error (entries newToc) k); [|reflexivity].
      destruct (_ =? _)%Z; [reflexivity|].
      destruct (negb _); reflexivity. }
    clearbody acc.
    split; [|split].
    + intros newEntry. rewrite IHin. split.
      * intros [Hin | [index [o [Ho [He [Hline Hslug]]]]]].
        -- destruct (nth_error (entries newToc) k) as [e|] eqn:Ek;
             [|rewrite Hacc in Hin; left; exact Hin].
           destruct (_ =? _)%Z eqn:El; [rewrite Hacc in Hin; left; exact Hin|].
           destruct (negb _) eqn:Es; rewrite Hacc in Hin; cbn [snd] in Hin;
             [|left; exact Hin].
           apply in_app_or in Hin as [Hin | [<- | []]]; [left; exact Hin|].
           right. exists 0, oldEntry. rewrite Nat.add_0_r.
           split; [reflexivity|]. split; [exact Ek|]. split; [lia|].
           intros Heq. apply Js_eqb_eq in Heq. unfold Slug_equals in Es.
           rewrite Heq in Es. discriminate Es.
        -- right. exists (S index), o. rewrite Nat.add_succ_r.
           split; [exact Ho|]. split; [exact He|]. split; [exact Hline | exact Hslug].
      * intros [Hin | [index [o [Ho [He [Hline Hslug]]]]]].
        -- left. destruct (nth_error (entries newToc) k) as [e|];
             [|rewrite Hacc; exact Hin].
           destruct (_ =? _)%Z; [rewrite Hacc; exact Hin|].
           destruct (negb _); rewrite Hacc; cbn [snd]; [|exact Hin].
           apply in_or_app. left. exact Hin.
        -- destruct index as [|index].
           ++ left. rewrite Nat.add_0_r in He. injection Ho as <-.
              rewrite He in Hacc.
              destruct (_ =? _)%Z eqn:El; [lia|].
              destruct (negb _) eqn:Es.
              ** rewrite Hacc. cbn [snd]. apply in_or_app. right. left. reflexivity.
              ** exfalso. apply Hslug. apply Js_eqb_eq.
                 unfold Slug_equals in Es. apply negb_false_iff in Es. exact Es.
           ++ right. exists index, o. rewrite Nat.add_succ_r in He.
              split; [exact Ho|]. split; [exact He|]. split; [exact Hline | exact Hslug].
    + intros index o e Ho He Hline Honly. destruct index as [|index].
      * rewrite Nat.add_0_r in He. injection Ho as <-. rewrite He in Hacc.
        destruct (_ =? _)%Z eqn:El; [|lia].
        rewrite IHnone; [rewrite Hacc; reflexivity|].
        intros j other Hj Hother.
        pose proof (Honly (S j) other Hj Hother) as Habs. discriminate Habs.
      * rewrite Nat.add_succ_r in He.
        apply (IHslug index o e Ho He Hline).
        intros j other Hj Hother.
        pose proof (Honly (S j) other Hj Hother) as Heq. lia.
    + intros Hnone. rewrite IHnone.
      * pose proof (Hnone 0 oldEntry eq_refl) as H0. rewrite Nat.add_0_r in H0.
        destruct (nth_error (entries newToc) k) as [e|];
          [|rewrite Hacc; reflexivity].
        destruct (_ =? _)%Z eqn:El; [discriminate (H0 ltac:(lia))|].
        destruct (negb _); rewrite Hacc; reflexivity.
      * intros index o Ho Hline.
        replace (S k + index) with (k + S index) by lia.
        exact (Hnone (S index) o Ho Hline).
Qed.

(** C1.  A rename at a position where the provider knows references
    with a trigger, the trigger being a header or the fragment of a
    link to a file; the references hold a header declaration, and its
    document opens.  The provider is stable and the cache coherent.
    Then [provideRenameEdits] answers with an edit, made of
    - first, for every header of [changedHeaders] in turn, the edits
      that write its new slug over the fragment span of every link
      reference to it, the references being those the provider knows
      in the document at the start of the header;
    - then, for every gathered reference in turn, its own edit: the
      new text over the text of a header declaration; over the fragment
      span of a link the new slug, or the new text when the link has no
      fragment span or an external target.
    Here the old table of contents is that of the document, the new
    one that of the copy with the line of the header replaced by a
    number sign, a space and the new text, and the two are compared
    index by index:
    - [changedHeaders] holds the new entries at the indices where the
      old entry is not on the line of the renamed header and the slugs
      of the old and the new entry differ;
    - the new slug is the slug of the new entry at the index of the
      old entry on the line of the renamed header, and the slug of the
      new text when no such pair of entries is there. *)
Theorem C1_header_rename_cascades
        (cachedRefs : option CachedRefs) (document : ITextDocument)
        (position : Position) (newHeaderText : jsstring)
        (allRefsInfo : MdReferencesResponse) (existingHeader : MdReference)
        (doc : ITextDocument) :
  stableProvider ->
  coherent cachedRefs ->
  lookupReferences document position = Some allRefsInfo ->
  fragmentRenameTrigger (triggerRef allRefsInfo) position = true ->
  find isHeaderReference (references allRefsInfo) = Some existingHeader ->
  openMarkdownDocument (loc_uri (location existingHeader)) = Some doc ->
  let editedDoc :=
    applyEdit (mkDoc (loc_uri (location existingHeader)) tempDocVersion
                     (getText doc))
              (mkTextEdit (loc_range (location existingHeader))
                          ("#"%char :: " "%char :: newHeaderText)) in
  let oldToc := getForDocument doc in
  let newToc := TableOfContents_create editedDoc in
  let headerLine := line (start (loc_range (location existingHeader))) in
  let compared := compareTocs oldToc newToc headerLine (fromHeading newHeaderText) in
  let newSlug := fst compared in
  let changedHeaders := snd compared in
  (exists cachedRefs',
      provideRenameEdits configuration cachedRefs document position
                         newHeaderText false
      = (Ret (Some (cascadeEdits doc changedHeaders
                    ++ map (referenceEdit newHeaderText newSlug)
                           (references allRefsInfo))),
         cachedRefs')
      /\ coherent cachedRefs')
  /\ (forall newEntry,
         In newEntry changedHeaders <->
         exists index oldEntry,
           nth_error (entries oldToc) index = Some oldEntry
           /\ nth_error (entries newToc) index = Some newEntry
           /\ line (start (loc_range (headerLocation oldEntry))) <> headerLine
           /\ slug oldEntry <> slug newEntry)
  /\ (forall index oldEntry newEntry,
         nth_error (entries oldToc) index = Some oldEntry ->
         nth_error (entries newToc) index = Some newEntry ->
         line (start (loc_range (headerLocation oldEntry))) = headerLine ->
         (forall j other, nth_error (entries oldToc) j = Some other ->
                          line (start (loc_range (headerLocation other)))
                          = headerLine -> j = index) ->
         newSlug = slug newEntry)
  /\ ((forall index oldEntry,
          nth_error (entries oldToc) index = Some oldEntry ->
          line (start (loc_range (headerLocation oldEntry))) = headerLine ->
          nth_error (entries newToc) index = None) ->
      newSlug = fromHeading newHeaderText).
Proof.
  intros Hstable Hcoherent Hlookup Htrigger Hheader Hopen
         editedDoc oldToc newToc headerLine compared newSlug changedHeaders.
  destruct (compareEntries_from newToc headerLine (entries oldToc) 0
                                (fromHeading newHeaderText) [])
    as [Hchanged [Hslug Hnone]].
  cbv zeta in Hchanged, Hslug, Hnone.
  change (fold_left (compareEntry newToc headerLine)
                    (combine (seq 0 (length (entries oldToc))) (entries oldToc))
                    (fromHeading newHeaderText, []))
    with compared in Hchanged, Hslug, Hnone.
  split; [|split; [|split]].
  - (* the edit *)
    assert (Hfragment :
              exists cachedRefs',
                renameFragment
                  (snd (getAllReferences cachedRefs document position false))
                  allRefsInfo newHeaderText false
                = Some (cachedRefs',
                        cascadeEdits doc changedHeaders
                        ++ map (referenceEdit newHeaderText newSlug)
                               (references allRefsInfo))
                /\ coherent cachedRefs').
    { destruct (@getAllReferences_lookup cachedRefs document position
                  Hstable Hcoherent) as [_ Hcoherent1].
      unfold renameFragment. cbv zeta. rewrite Hheader, Hopen.
      fold editedDoc. fold oldToc. fold newToc. fold headerLine. fold compared.
      rewrite (surjective_pairing compared). fold newSlug. fold changedHeaders.
      destruct (@rewriteChangedHeaders_edits doc changedHeaders Hstable
                  _ [] Hcoherent1) as [cachedRefs' [Hrewrite Hcoherent']].
      rewrite Hrewrite. exists cachedRefs'. split; [|exact Hcoherent'].
      rewrite renameReference_edits. reflexivity. }
    destruct Hfragment as [cachedRefs' [Hfragment Hcoherent']].
    exists cachedRefs'. split; [|exact Hcoherent'].
    unfold provideRenameEdits.
    destruct (@getAllReferences_lookup cachedRefs document position
                Hstable Hcoherent) as [Hfst _].
    destruct (getAllReferences cachedRefs document position false)
      as [found cachedRefs1].
    cbn [fst snd] in Hfst, Hfragment. rewrite Hfst, Hlookup.
    cbn [orb].
    destruct (references allRefsInfo) as [|r0 refs] eqn:Erefs;
      [discriminate Hheader|]. rewrite <- Erefs in *.
    destruct (triggerRef allRefsInfo) as [t d l h hl | t d l link].
    + rewrite Hfragment. reflexivity.
    + cbn [fragmentRenameTrigger] in Htrigger.
      apply andb_true_iff in Htrigger as [Htrigger Hin].
      apply andb_true_iff in Htrigger as [Htrigger Hkind].
      apply andb_true_iff in Htrigger as [Hdef Hinternal].
      apply negb_true_iff in Hdef. rewrite Hdef.
      destruct (href_kind (href link)); try discriminate Hinternal.
      cbn [HrefKind_eqb orb]. rewrite Hin. cbn [andb].
      rewrite andb_true_r.
      rewrite Hkind. rewrite Hfragment. reflexivity.
  - intros newEntry. unfold changedHeaders. rewrite (Hchanged newEntry). split.
    + intros [[] | H]. exact H.
    + intros H. right. exact H.
  - exact Hslug.
  - exact Hnone.
Qed.

End HeaderRename.
Lemma exampleProvider_stable :
  @stableProvider InMemoryPaths.pathHelpers HeaderRenameExample.referencesProvider.
Proof.
  intros d d' p p' _ _ Hp. cbn. unfold HeaderRenameExample.referencesAt.
  unfold arePositionsEqual in Hp. apply andb_true_iff in Hp as [Hl _].
  apply Z.eqb_eq in Hl. rewrite Hl. reflexivity.
Qed.

Lemma C1_header_rename_cascades_witness :
  fst (@Rename.provideRenameEdits
         HeaderRenameExample.workspace InMemory.helpers InMemoryPaths.pathHelpers
         HeaderRenameExample.tocProvider HeaderRenameExample.slugifier
         HeaderRenameExample.referencesProvider InMemoryPaths.config
         None HeaderRenameExample.document (mkPosition 1 3) (lit "New") false)
  = Ret (Some [Replace (InMemory.workspacePath "test.md")
                       (Range_create 3 5 3 13) (lit "header-1");
               Replace (InMemory.workspacePath "test.md")
                       (Range_create 1 2 1 8) (lit "New");
               Replace (InMemory.workspacePath "test.md")
                       (Range_create 3 20 3 28) (lit "new")]).
Proof.
  let found := eval vm_compute in
        (@lookupReferences HeaderRenameExample.referencesProvider
           HeaderRenameExample.document (mkPosition 1 3)) in
  lazymatch found with
  | Some ?allRefsInfo =>
      let header := eval vm_compute in
            (find isHeaderReference (Rename.references allRefsInfo)) in
      lazymatch header with
      | Some ?existingHeader =>
          destruct (proj1 (@C1_header_rename_cascades
                             HeaderRenameExample.workspace InMemory.helpers
                             InMemoryPaths.pathHelpers
                             HeaderRenameExample.tocProvider
                             HeaderRenameExample.slugifier
                             HeaderRenameExample.referencesProvider
                             InMemoryPaths.config
                             None HeaderRenameExample.document (mkPosition 1 3)
                             (lit "New") allRefsInfo existingHeader
                             HeaderRenameExample.document
                             exampleProvider_stable I
                             ltac:(vm_compute; reflexivity)
                             ltac:(vm_compute; reflexivity)
                             ltac:(vm_compute; reflexivity)
                             ltac:(vm_compute; reflexivity)))
            as [cachedRefs' [Hrun _]]
      end
  end.
  rewrite Hrun. vm_compute. reflexivity.
Defined.

(* ------------------------------------------------------------------ *)
(** *** A run of escape characters *)

(** The scan of the document with the run of 84 backslashes after an
    opening bracket ends and finds no link. *)
Lemma escape_run_yields_no_link :
  InMemory.getLinksForText EscapeRunExample.tokens EscapeRunExample.contents
  = Ret [].
Proof. vm_compute. reflexivity. Qed.

(* ================================================================== *)
(** ** Further properties of the link computer *)
(* ================================================================== *)

(** *** Inline ranges *)

Lemma linesOf_spec (r : Range) (l : Z) :
  In l (linesOf r) <-> coversLine l r = true.
Proof.
  unfold linesOf, coversLine. rewrite in_map_iff. split.
  - intros [i [<- Hi]]. apply in_seq in Hi. apply andb_true_iff. split; lia.
  - intros H. apply andb_true_iff in H as [H1 H2].
    exists (Z.to_nat (l - line (start r))). split; [lia|].
    apply in_seq. lia.
Qed.

Lemma linesOf_NoDup (r : Range) : List.NoDup (linesOf r).
Proof.
  unfold linesOf.
  generalize (Z.to_nat (line (end_ r) - line (start r) + 1)) as n.
  generalize 0%nat as k. intros k n. revert k.
  induction n as [|n IH]; intros k; cbn [seq map]; constructor.
  - rewrite in_map_iff. intros [i [Heq Hi]]. apply in_seq in Hi. lia.
  - apply IH.
Qed.

Lemma registerOn_get (r : Range) (ls : list Z) :
  List.NoDup ls ->
  forall (m : gmap Z (list Range)) (l : Z),
    InlineRanges_get
      (fold_left (fun m l => <[l := InlineRanges_get m l ++ [r]]> m) ls m) l
    = if existsb (Z.eqb l) ls then InlineRanges_get m l ++ [r]
      else InlineRanges_get m l.
Proof.
  induction 1 as [|l0 ls Hnot Hnodup IH]; intros m l; cbn [fold_left existsb].
  - reflexivity.
  - rewrite IH. destruct (Z.eqb_spec l l0) as [->|Hne]; cbn [orb].
    + replace (existsb (Z.eqb l0) ls) with false.
      * unfold InlineRanges_get at 1. rewrite lookup_insert_eq. reflexivity.
      * symmetry. apply not_true_is_false. intros H.
        apply existsb_exists in H as [x [Hx Heq]].
        apply Z.eqb_eq in Heq. subst x. exact (Hnot Hx).
    + assert (Hget : InlineRanges_get (<[l0 := InlineRanges_get m l0 ++ [r]]> m) l
                     = InlineRanges_get m l).
      { unfold InlineRanges_get at 1. rewrite lookup_insert_ne by congruence.
        reflexivity. }
      rewrite Hget. reflexivity.
Qed.

(** [add] registers the range on the lines it covers, after the ranges
    that are there, and on no other line. *)
Lemma InlineRanges_add_get (m : gmap Z (list Range)) (r : Range) (l : Z) :
  InlineRanges_get (InlineRanges_add m r) l
  = if coversLine l r then InlineRanges_get m l ++ [r] else InlineRanges_get m l.
Proof.
  unfold InlineRanges_add. rewrite (@registerOn_get r _ (linesOf_NoDup r)).
  destruct (coversLine l r) eqn:E.
  - apply linesOf_spec in E.
    replace (existsb (Z.eqb l) (linesOf r)) with true; [reflexivity|].
    symmetry. apply existsb_exists. exists l. split; [exact E | apply Z.eqb_refl].
  - replace (existsb (Z.eqb l) (linesOf r)) with false; [reflexivity|].
    symmetry. apply not_true_is_false. intros H.
    apply existsb_exists in H as [x [Hx Heq]]. apply Z.eqb_eq in Heq. subst x.
    apply linesOf_spec in Hx. congruence.
Qed.

Lemma InlineRanges_fold_get (rs : list Range) :
  forall (m : gmap Z (list Range)) (l : Z),
    InlineRanges_get (fold_left InlineRanges_add rs m) l
    = InlineRanges_get m l ++ List.filter (coversLine l) rs.
Proof.
  induction rs as [|r rs IH]; intros m l; cbn [fold_left List.filter].
  - rewrite app_nil_r. reflexivity.
  - rewrite IH, InlineRanges_add_get.
    destruct (coversLine l r); [rewrite <- app_assoc|]; reflexivity.
Qed.

(** X1.  [InlineRanges.concat]: on every line the new object holds the
    ranges of the receiver followed by the new ranges that cover the
    line, in their order.  The receiver shares its arrays with the new
    object: after the call it holds the same on every line it had an
    entry for, and still nothing on the other lines. *)
Theorem InlineRanges_concat_get
        (m : gmap Z (list Range)) (newRanges : list Range) (l : Z) :
  InlineRanges_get (snd (InlineRanges_concat m newRanges)) l
  = InlineRanges_get m l ++ List.filter (coversLine l) newRanges
  /\ InlineRanges_get (fst (InlineRanges_concat m newRanges)) l
     = match m !! l with
       | Some ranges => ranges ++ List.filter (coversLine l) newRanges
       | None => []
       end.
Proof.
  unfold InlineRanges_concat. cbn [fst snd]. split.
  - apply InlineRanges_fold_get.
  - unfold InlineRanges_get at 1. rewrite map_lookup_imap.
    pose proof (InlineRanges_fold_get newRanges m l) as H.
    unfold InlineRanges_get at 2 in H.
    destruct (m !! l) as [ranges|] eqn:E; cbn; [|reflexivity].
    cbn in H. exact H.
Qed.

Lemma rangeContainsPosition_covers (r : Range) (p : Position) :
  rangeContainsPosition r p = true -> coversLine (line p) r = true.
Proof.
  unfold rangeContainsPosition, isAfter, isBefore, coversLine. intros H.
  apply andb_true_iff in H as [H1 H2].
  apply negb_true_iff in H1. apply negb_true_iff in H2.
  apply orb_false_iff in H1 as [H1 _]. apply orb_false_iff in H2 as [H2 _].
  apply andb_true_iff. split; lia.
Qed.

Lemma existsb_filter_implied {A : Type} (f g : A -> bool) (l : list A) :
  (forall x, f x = true -> g x = true) ->
  existsb f (List.filter g l) = existsb f l.
Proof.
  intros H. induction l as [|x l IH]; cbn [List.filter existsb]; [reflexivity|].
  destruct (g x) eqn:Eg; cbn [existsb]; rewrite IH; [reflexivity|].
  destruct (f x) eqn:Ef; [|reflexivity].
  rewrite (H x Ef) in Eg. discriminate Eg.
Qed.

(** X2.  [concatInline]: the new index contains a position when the
    receiver did, or when one of the added ranges contains it.  The
    receiver itself, after the call, contains the position as well in
    the second case, provided it had an entry for the line of the
    position. *)
Theorem concatInline_contains_after
        (nlr : NoLinkRanges) (inlineRanges : list Range)
        (position : Position) (excludeType : jsstring) :
  contains (snd (concatInline nlr inlineRanges)) position excludeType
  = contains nlr position excludeType
    || existsb (fun r => rangeContainsPosition r position) inlineRanges
  /\ contains (fst (concatInline nlr inlineRanges)) position excludeType
     = contains nlr position excludeType
       || match inline nlr !! line position with
          | Some _ => existsb (fun r => rangeContainsPosition r position)
                              inlineRanges
          | None => false
          end.
Proof.
  unfold concatInline, InlineRanges_concat. cbn [fst snd].
  unfold contains. cbn [multiline inline].
  assert (Hadded :
            existsb (fun r => rangeContainsPosition r position)
                    (List.filter (coversLine (line position)) inlineRanges)
            = existsb (fun r => rangeContainsPosition r position) inlineRanges).
  { apply existsb_filter_implied. intros r. apply rangeContainsPosition_covers. }
  pose proof (InlineRanges_fold_get inlineRanges (inline nlr) (line position))
    as Hresult.
  split.
  - rewrite Hresult, existsb_app, Hadded, orb_assoc. reflexivity.
  - unfold InlineRanges_get in Hresult |- *. rewrite map_lookup_imap.
    destruct (inline nlr !! line position) as [ranges|] eqn:E;
      cbn [mbind option_bind default] in Hresult |- *.
    + rewrite Hresult, existsb_app, Hadded, orb_assoc. reflexivity.
    + rewrite !orb_false_r. reflexivity.
Qed.

(** What the index with the inline links excludes. *)
Lemma concatInline_excludes (nlr : NoLinkRanges) (inlineRanges : list Range)
      (position : Position) (excludeType : jsstring) :
  contains (snd (concatInline nlr inlineRanges)) position excludeType = false ->
  forall r, In r inlineRanges -> rangeContainsPosition r position = false.
Proof.
  unfold concatInline, InlineRanges_concat. cbn [fst snd].
  unfold contains. cbn [multiline inline]. intros H r Hin.
  apply orb_false_iff in H as [_ H].
  rewrite InlineRanges_fold_get, existsb_app in H.
  apply orb_false_iff in H as [_ H].
  destruct (rangeContainsPosition r position) eqn:E; [|reflexivity].
  rewrite <- H. symmetry. apply existsb_exists. exists r. split; [|exact E].
  apply filter_In. split; [exact Hin | apply rangeContainsPosition_covers, E].
Qed.

Section ReferencePass.
Context {workspace : IWorkspace} {helpers : Helpers} {tokenizer : IMdParser}.

(** X3.  A reference link of [getAllLinks] was found in the text of an
    inline link, by the pass over the inline links, or it starts
    outside the range of every link of that pass. *)
Theorem reference_links_start_outside_inline_links
        (document : ITextDocument) (links : list MdLink) (link : MdLink) :
  getAllLinks document false = Ret links ->
  In link links ->
  href_kind (href link) = Reference ->
  let inlineLinks :=
    getInlineLinks document (NoLinkRanges_compute (tokenize document) document) in
  In link inlineLinks
  \/ forall inlineLink,
       In inlineLink inlineLinks ->
       rangeContainsPosition (range (source inlineLink))
                             (start (range (source link))) = false.
Proof.
  intros Hall Hin Href inlineLinks. unfold getAllLinks in Hall. cbv zeta in Hall.
  cbn [negb] in Hall. fold inlineLinks in Hall.
  pose proof (@concatInline_excludes
                (NoLinkRanges_compute (tokenize document) document)
                (map (fun x => range (source x)) inlineLinks)) as Hexcl.
  destruct (concatInline _ _) as [noLinkRanges' withInlineLinks].
  cbn [snd] in Hexcl.
  destruct (getLinkDefinitions document noLinkRanges') as [definitions|] eqn:Ed;
    cbn [mbind Outcome_bind] in Hall; [|discriminate Hall].
  destruct (getAutoLinks document noLinkRanges') as [autoLinks|] eqn:Ea;
    cbn [mbind Outcome_bind] in Hall; [|discriminate Hall].
  destruct (getHtmlLinks document noLinkRanges') as [htmlLinks|] eqn:Eh;
    cbn [mbind Outcome_bind] in Hall; [|discriminate Hall].
  injection Hall as <-.
  apply in_app_or in Hin as [Hin | Hin]; [left; exact Hin|].
  apply in_app_or in Hin as [Hin | Hin].
  { right. apply getReferenceLinksInText_start in Hin as [_ Hc].
    intros inlineLink HinInline. apply (Hexcl _ _ Hc).
    apply in_map_iff. exists inlineLink. split; [reflexivity | exact HinInline]. }
  exfalso.
  apply in_app_or in Hin as [Hin | Hin].
  { eapply getLinkDefinitions_start in Hin as [_ [Hk _]]; [|exact Ed]. exact (Hk Href). }
  apply in_app_or in Hin as [Hin | Hin].
  { eapply getAutoLinks_start in Hin as [_ [Hk _]]; [|exact Ea]. exact (Hk Href). }
  eapply getHtmlLinks_start in Hin as [_ [Hk _]]; [|exact Eh]. exact (Hk Href).
Qed.

End ReferencePass.

Lemma reference_links_start_outside_inline_links_witness :
  exists inlineLink link,
    InMemory.getLinksForText (Examples.paragraph 0 1) MoreExamples.linkThenReference
    = Ret [inlineLink; link]
    /\ rangeContainsPosition (range (source inlineLink))
                             (start (range (source link))) = false.
Proof.
  let links := eval vm_compute in
        (InMemory.getLinksForText (Examples.paragraph 0 1)
                                  MoreExamples.linkThenReference) in
  lazymatch links with
  | Ret [?inlineLink; ?link] =>
      exists inlineLink, link; split; [vm_compute; reflexivity|];
      destruct (@reference_links_start_outside_inline_links
                  (InMemory.workspaceOf
                     [InMemory.docOf "test.md" MoreExamples.linkThenReference])
                  InMemory.helpers (InMemory.parserOf (Examples.paragraph 0 1))
                  (InMemory.docOf "test.md" MoreExamples.linkThenReference)
                  [inlineLink; link] link
                  ltac:(vm_compute; reflexivity)
                  ltac:(right; left; reflexivity)
                  ltac:(reflexivity)) as [Hin | Hout];
      [vm_compute in Hin; destruct Hin as [Hin | []]; discriminate Hin
      |apply Hout; vm_compute; left; reflexivity]
  end.
Defined.

(** *** The shape of the links *)

Section LinkShapes.
Context {workspace : IWorkspace} {helpers : Helpers} {tokenizer : IMdParser}.

Lemma isEmpty_false (s : jsstring) : Js.isEmpty s = false -> s <> [].
Proof. intros H ->. discriminate H. Qed.

Lemma referenceLink_shape document reference linkStart linkEnd hrefStart hrefEnd :
  reference <> [] ->
  linkShape document
            (referenceLink document reference linkStart linkEnd hrefStart hrefEnd).
Proof.
  intros Hne. unfold linkShape, referenceLink. cbn. split; [reflexivity|].
  split; [split; [intros H; exfalso; apply H; reflexivity | discriminate]|].
  split; [discriminate|].
  intros r [= <-]. repeat split; [exact Hne].
Qed.

Lemma referenceLinksOfMatch_shape recur document text offset nlr m link :
  (forall t o l, In l (recur t o) -> linkShape document l) ->
  In link (referenceLinksOfMatch recur document text offset nlr m) ->
  linkShape document link.
Proof.
  intros Hrec. unfold referenceLinksOfMatch. cbv zeta.
  destruct (contains nlr _ _); [intros []|].
  destruct (group text m 3) as [[|a reference]|].
  - destruct (Js.isEmpty _) eqn:E; [intros []|].
    intros [<- | []]. apply referenceLink_shape, isEmpty_false, E.
  - destruct (_ && _); [intros []|].
    intros Hin. apply in_app_or in Hin as [Hin | [<- | []]].
    + destruct (negb _); [exact (Hrec _ _ _ Hin) | destruct Hin].
    + apply referenceLink_shape. discriminate.
  - destruct (group text m 4) as [[|a shorthand]|]; try (intros []).
    destruct (Js.isEmpty _) eqn:E; [intros []|].
    destruct (_ && _); [intros []|].
    destruct (match exec checkboxPattern _ 0 with Some _ => _ | None => _ end);
      [intros []|].
    intros [<- | []]. apply referenceLink_shape, isEmpty_false, E.
Qed.

Lemma getReferenceLinksInText_shape fuel document nlr :
  forall text offset link,
  In link (getReferenceLinksInText fuel document text offset nlr) ->
  linkShape document link.
Proof.
  induction fuel as [|fuel IH]; intros text offset link Hin; [destruct Hin|].
  cbn [getReferenceLinksInText] in Hin.
  apply in_flat_map in Hin as [m [_ Hin]].
  eapply referenceLinksOfMatch_shape; [|exact Hin].
  intros t o l. apply IH.
Qed.

Lemma createHref_target (sourceDocUri : URI) (link : jsstring) (target : Href) :
  snd (createHref sourceDocUri link) = Ret (Some target) ->
  forall reference, target <> ReferenceHref reference.
Proof.
  intros H reference ->. apply createHref_kind in H. apply H. reflexivity.
Qed.

Lemma mdLinkOfMatch_shape document text offset m link :
  mdLinkOfMatch document text offset m = Some link ->
  linkShape document link.
Proof.
  unfold mdLinkOfMatch, createMdLink. cbv zeta.
  destruct (snd (createHref _ _)) as [[target|]|] eqn:E; cbn [catchO];
    try discriminate.
  destruct (getLinkSourceFragmentInfo _ _ _ _) as [fragmentRange pathText].
  intros [= <-]. unfold linkShape. cbn. split; [reflexivity|].
  split; [split; [intros H; exfalso; apply H; reflexivity | discriminate]|].
  split; [discriminate|].
  intros reference Hhref. exfalso. eapply createHref_target in E. exact (E Hhref).
Qed.

Lemma getInlineLinks_shape document nlr link :
  In link (getInlineLinks document nlr) -> linkShape document link.
Proof.
  unfold getInlineLinks. cbv zeta. intros Hin.
  apply in_flat_map in Hin as [m [_ Hin]].
  unfold inlineLinksOfMatch in Hin. cbv zeta in Hin.
  destruct (mdLinkOfMatch document (getText document) 0 m) as [data|] eqn:Edata;
    [|destruct Hin].
  destruct (contains nlr _ _); [destruct Hin|].
  destruct Hin as [<- | Hin]; [eapply mdLinkOfMatch_shape; exact Edata|].
  destruct (test imageStartPattern _); [|destruct Hin].
  apply in_app_or in Hin as [Hin | Hin].
  - apply list_elem_of_In, list_elem_of_omap in Hin as [inner [_ Hinner]].
    eapply mdLinkOfMatch_shape; exact Hinner.
  - eapply getReferenceLinksInText_shape. exact Hin.
Qed.

Lemma getLinkDefinitions_shape document nlr links link :
  getLinkDefinitions document nlr = Ret links -> In link links ->
  linkShape document link.
Proof.
  unfold getLinkDefinitions. cbv zeta. intros H Hin.
  destruct (@in_flatMapO _ _ _ _ _ _ H Hin) as [m [ys [_ [Hm Hy]]]].
  unfold definitionOfMatch in Hm. cbv zeta in Hm.
  destruct (contains nlr _ _); [injection Hm as <-; destruct Hy|].
  destruct (snd (createHref _ _)) as [[target|]|] eqn:E;
    cbn [mbind Outcome_bind] in Hm; [| |discriminate Hm].
  2:{ injection Hm as <-. destruct Hy. }
  destruct (getLinkSourceFragmentInfo _ _ _ _) as [fragmentRange pathText].
  injection Hm as <-. destruct Hy as [<- | []]. unfold linkShape. cbn.
  split; [reflexivity|].
  split; [split; [reflexivity | discriminate]|].
  split; [discriminate|].
  intros reference Hhref. exfalso. eapply createHref_target in E. exact (E Hhref).
Qed.

Lemma getAutoLinks_shape document nlr links link :
  getAutoLinks document nlr = Ret links -> In link links ->
  linkShape document link.
Proof.
  unfold getAutoLinks. cbv zeta. intros H Hin.
  destruct (@in_flatMapO _ _ _ _ _ _ H Hin) as [m [ys [_ [Hm Hy]]]].
  unfold autoLinkOfMatch in Hm. cbv zeta in Hm.
  destruct (contains nlr _ _); [injection Hm as <-; destruct Hy|].
  destruct (snd (createHref _ _)) as [[[u|p f|r]|]|] eqn:E;
    cbn [mbind Outcome_bind] in Hm; [| | | |discriminate Hm].
  2-4: injection Hm as <-; destruct Hy.
  destruct (getLinkSourceFragmentInfo _ _ _ _) as [fragmentRange pathText].
  injection Hm as <-. destruct Hy as [<- | []]. unfold linkShape. cbn.
  split; [reflexivity|].
  split; [split; [intros H0; exfalso; apply H0; reflexivity | discriminate]|].
  split; [intros _; exists u; reflexivity|].
  discriminate.
Qed.

Lemma htmlLinkOfAttr_shape document attributes outerHTML rangeStart nlr attr
      links link :
  htmlLinkOfAttr document attributes outerHTML rangeStart nlr attr = Ret links ->
  In link links -> linkShape document link.
Proof.
  unfold htmlLinkOfAttr. cbv zeta. intros H Hin.
  destruct (assoc attr attributes) as [[|a l]|];
    try (injection H as <-; destruct Hin).
  destruct (exec _ _ _) as [attrMatch|]; [|injection H as <-; destruct Hin].
  destruct (snd (createHref _ _)) as [[target|]|] eqn:E;
    cbn [mbind Outcome_bind] in H; [| |discriminate H].
  2:{ injection H as <-. destruct Hin. }
  destruct (contains nlr _ _); [injection H as <-; destruct Hin|].
  destruct (getLinkSourceFragmentInfo _ _ _ _) as [fragmentRange pathText].
  injection H as <-. destruct Hin as [<- | []]. unfold linkShape. cbn.
  split; [reflexivity|].
  split; [split; [intros H0; exfalso; apply H0; reflexivity | discriminate]|].
  split; [discriminate|].
  intros reference Hhref. exfalso. eapply createHref_target in E. exact (E Hhref).
Qed.

Lemma getHtmlLinksFromNode_shape document nlr :
  forall node links link,
  getHtmlLinksFromNode document node nlr = Ret links -> In link links ->
  linkShape document link.
Proof.
  fix IH 1. intros [tagName attributes outerHTML rangeStart childNodes|] links link H Hin.
  2:{ cbn in H. injection H as <-. destruct Hin. }
  cbn [getHtmlLinksFromNode] in H.
  destruct (match tagName with Some _ => _ | None => _ end) as [own|] eqn:Eown;
    cbn [mbind Outcome_bind] in H; [|discriminate H].
  match type of H with
  | context [mbind _ ?children] => destruct children as [rest|] eqn:Erest
  end; cbn [mbind Outcome_bind] in H; [|discriminate H].
  injection H as <-. apply in_app_or in Hin as [Hin | Hin].
  - destruct tagName as [tag|]; [|injection Eown as <-; destruct Hin].
    destruct (assoc tag htmlTagPathAttrs) as [attrs|];
      [|injection Eown as <-; destruct Hin].
    destruct (@in_flatMapO _ _ _ _ _ _ Eown Hin) as [attr [ys [_ [Hattr Hy]]]].
    eapply htmlLinkOfAttr_shape; [exact Hattr | exact Hy].
  - clear Eown. revert rest Erest Hin.
    induction childNodes as [|child cs IHcs]; intros rest Erest Hin.
    + injection Erest as <-. destruct Hin.
    + destruct (getHtmlLinksFromNode document child nlr) as [ys|] eqn:Echild;
        cbn [mbind Outcome_bind] in Erest; [|discriminate Erest].
      match type of Erest with
      | context [mbind _ ?children] => destruct children as [zs|] eqn:Ezs
      end; cbn [mbind Outcome_bind] in Erest; [|discriminate Erest].
      injection Erest as <-. apply in_app_or in Hin as [Hin | Hin].
      * exact (IH child ys link Echild Hin).
      * exact (IHcs zs eq_refl Hin).
Qed.

Lemma getAllLinks_shape document cancelled links link :
  getAllLinks document cancelled = Ret links -> In link links ->
  linkShape document link.
Proof.
  unfold getAllLinks. cbv zeta. destruct cancelled; [intros [= <-] []|].
  destruct (concatInline _ _) as [noLinkRanges' withInlineLinks].
  destruct (getLinkDefinitions document noLinkRanges') as [definitions|] eqn:Ed;
    cbn [mbind Outcome_bind]; [|discriminate].
  destruct (getAutoLinks document noLinkRanges') as [autoLinks|] eqn:Ea;
    cbn [mbind Outcome_bind]; [|discriminate].
  destruct (getHtmlLinks document noLinkRanges') as [htmlLinks|] eqn:Eh;
    cbn [mbind Outcome_bind]; [|discriminate].
  intros [= <-] Hin.
  apply in_app_or in Hin as [Hin | Hin]; [eapply getInlineLinks_shape; exact Hin|].
  apply in_app_or in Hin as [Hin | Hin];
    [eapply getReferenceLinksInText_shape; exact Hin|].
  apply in_app_or in Hin as [Hin | Hin];
    [eapply getLinkDefinitions_shape; [exact Ed | exact Hin]|].
  apply in_app_or in Hin as [Hin | Hin];
    [eapply getAutoLinks_shape; [exact Ea | exact Hin]|].
  unfold getHtmlLinks in Eh. cbv zeta in Eh.
  destruct (negb _); [injection Eh as <-; destruct Hin|].
  destruct (parse _) as [tree|]; [|injection Eh as <-; destruct Hin].
  eapply getHtmlLinksFromNode_shape; [exact Eh | exact Hin].
Qed.

(** X4.  Every link of [getAllLinks] names the scanned document as its
    resource. *)
Theorem links_belong_to_document
        (document : ITextDocument) (cancelled : bool)
        (links : list MdLink) (link : MdLink) :
  getAllLinks document cancelled = Ret links ->
  In link links ->
  resource (source link) = getDocUri document.
Proof.
  intros Hall Hin. exact (proj1 (@getAllLinks_shape _ _ _ _ Hall Hin)).
Qed.

(** X5.  Among the links of [getAllLinks], the links with a reference
    name are exactly the definitions, the target of an autolink is
    external, and the target of a definition or of an autolink is never
    a reference. *)
Theorem link_kinds_and_targets
        (document : ITextDocument) (cancelled : bool)
        (links : list MdLink) (link : MdLink) :
  getAllLinks document cancelled = Ret links ->
  In link links ->
  (ref link <> None <-> kind link = Definition_)
  /\ (kind link = AutoLink -> exists u, href link = ExternalHref u)
  /\ (href_kind (href link) = Reference -> kind link = Link).
Proof.
  intros Hall Hin.
  destruct (@getAllLinks_shape _ _ _ _ Hall Hin) as [_ [Hname [Hauto Hreference]]].
  split; [exact Hname|]. split; [exact Hauto|].
  destruct (href link) as [u|p f|reference] eqn:E; try discriminate.
  intros _. exact (proj1 (Hreference reference eq_refl)).
Qed.

(** X6.  A link by reference of [getAllLinks] has a reference that is
    not empty, has it as href text, and has no fragment range. *)
Theorem reference_links_name_a_reference
        (document : ITextDocument) (cancelled : bool)
        (links : list MdLink) (link : MdLink) (reference : jsstring) :
  getAllLinks document cancelled = Ret links ->
  In link links ->
  href link = ReferenceHref reference ->
  reference <> []
  /\ hrefText (source link) = reference
  /\ hrefFragmentRange (source link) = None.
Proof.
  intros Hall Hin Hhref.
  destruct (@getAllLinks_shape _ _ _ _ Hall Hin) as [_ [_ [_ Hreference]]].
  exact (proj2 (Hreference reference Hhref)).
Qed.

End LinkShapes.

Lemma links_belong_to_document_witness :
  exists inlineLink rest,
    KindsExample.links = Ret (inlineLink :: rest)
    /\ resource (source inlineLink) = InMemory.workspacePath "test.md".
Proof.
  let links := eval vm_compute in KindsExample.links in
  lazymatch links with
  | Ret (?link :: ?rest) =>
      exists link, rest; split; [vm_compute; reflexivity|];
      exact (@links_belong_to_document
               KindsExample.workspace InMemory.helpers KindsExample.tokenizer
               KindsExample.document false (link :: rest) link
               ltac:(vm_compute; reflexivity) (or_introl eq_refl))
  end.
Defined.

Lemma link_kinds_and_targets_witness :
  exists inlineLink referenceLink definition autoLink,
    KindsExample.links = Ret [inlineLink; referenceLink; definition; autoLink]
    /\ ref definition <> None
    /\ exists u, href autoLink = ExternalHref u.
Proof.
  let links := eval vm_compute in KindsExample.links in
  lazymatch links with
  | Ret [?l1; ?l2; ?l3; ?l4] =>
      exists l1, l2, l3, l4; split; [vm_compute; reflexivity|]; split;
      [exact (proj2 (proj1 (@link_kinds_and_targets
                              KindsExample.workspace InMemory.helpers
                              KindsExample.tokenizer KindsExample.document false
                              [l1; l2; l3; l4] l3
                              ltac:(vm_compute; reflexivity)
                              ltac:(right; right; left; reflexivity)))
                    eq_refl)
      |exact (proj1 (proj2 (@link_kinds_and_targets
                              KindsExample.workspace InMemory.helpers
                              KindsExample.tokenizer KindsExample.document false
                              [l1; l2; l3; l4] l4
                              ltac:(vm_compute; reflexivity)
                              ltac:(right; right; right; left; reflexivity)))
                    eq_refl)]
  end.
Defined.

Lemma reference_links_name_a_reference_witness :
  exists inlineLink referenceLink rest,
    KindsExample.links = Ret (inlineLink :: referenceLink :: rest)
    /\ hrefText (source referenceLink) = lit "c"
    /\ hrefFragmentRange (source referenceLink) = None.
Proof.
  let links := eval vm_compute in KindsExample.links in
  lazymatch links with
  | Ret (?l1 :: ?l2 :: ?rest) =>
      exists l1, l2, rest; split; [vm_compute; reflexivity|];
      exact (proj2 (@reference_links_name_a_reference
                      KindsExample.workspace InMemory.helpers
                      KindsExample.tokenizer KindsExample.document false
                      (l1 :: l2 :: rest) l2 (lit "c")
                      ltac:(vm_compute; reflexivity)
                      ltac:(right; left; reflexivity)
                      ltac:(vm_compute; reflexivity)))
  end.
Defined.

(** *** Angle brackets around a link *)

Lemma repeatMatcher_greedyClass inp (p : ascii -> bool) (c : Cont) :
  forall rest pos prev caps fuel,
    length rest < fuel ->
    repeatMatcher (matcher inp (Chr p)) true [] fuel
                  (mkState pos prev rest caps) c
    = greedyClass p c pos prev rest caps.
Proof.
  induction rest as [|a rest IH]; intros pos prev caps fuel Hfuel;
    (destruct fuel as [|fuel]; [inversion Hfuel|]);
    cbn [repeatMatcher greedyClass]; unfold withCaps, clearCaptures;
    cbn [st_caps st_pos st_prev st_rest matcher]; unfold advance;
    cbn [st_rest st_pos st_caps].
  - reflexivity.
  - destruct (p a); [|reflexivity].
    cbn [st_pos].
    replace (S pos =? pos) with false by (symmetry; apply Nat.eqb_neq; lia).
    rewrite IH by (cbn [length] in Hfuel; lia). reflexivity.
Qed.

(** A continuation that succeeds exactly in front of a last
    greater-than sign: the star stops in front of it. *)
Lemma greedyClass_last (c : Cont) :
  (forall y, st_rest y <> [">"%char] -> c y = None) ->
  (forall y, st_rest y = [">"%char] -> c y <> None) ->
  forall s pos prev caps,
    forallb dot s = true ->
    greedyClass dot c pos prev (s ++ [">"%char]) caps
    = c (afterRun pos prev s [">"%char] caps).
Proof.
  intros Hnone Hsome. induction s as [|a s IH]; intros pos prev caps Hs.
  - cbn [app greedyClass]. unfold afterRun. cbn [length fold_left].
    rewrite Nat.add_0_r.
    replace (dot ">"%char) with true by reflexivity.
    rewrite (Hnone (mkState (S pos) (Some ">"%char) [] caps)) by discriminate.
    reflexivity.
  - cbn [forallb] in Hs. apply andb_true_iff in Hs as [Ha Hs].
    cbn [app greedyClass]. rewrite Ha, (IH _ _ _ Hs).
    unfold afterRun. cbn [length fold_left].
    replace (S pos + length s) with (pos + S (length s)) by lia.
    destruct (c _) eqn:E; [reflexivity|].
    exfalso. refine (Hsome _ _ E). reflexivity.
Qed.

Lemma greedyClass_no_last (c : Cont) :
  (forall y, st_rest y <> [">"%char] -> c y = None) ->
  forall rest pos prev caps,
    (forall s, rest = s ++ [">"%char] -> forallb dot s = false) ->
    greedyClass dot c pos prev rest caps = None.
Proof.
  intros Hnone. induction rest as [|a rest IH]; intros pos prev caps Hrest.
  - cbn [greedyClass]. apply Hnone. discriminate.
  - assert (Hhere : c (mkState pos prev (a :: rest) caps) = None).
    { apply Hnone. cbn [st_rest]. intros [= -> ->].
      discriminate (Hrest [] eq_refl). }
    cbn [greedyClass]. destruct (dot a) eqn:Ha; [|exact Hhere].
    rewrite IH; [exact Hhere|].
    intros s ->. pose proof (Hrest (a :: s) eq_refl) as H.
    cbn [forallb] in H. rewrite Ha in H. exact H.
Qed.

(** X7.  [stripAngleBrackets] takes the angle brackets off a link that
    starts with a less-than sign, ends with a greater-than sign and has
    no line break in between, and leaves every other text as it is. *)
Theorem stripAngleBrackets_spec :
  (forall s, forallb dot s = true ->
             stripAngleBrackets ("<"%char :: s ++ [">"%char]) = s)
  /\ (forall link,
         (forall s, link = "<"%char :: s ++ [">"%char] -> forallb dot s = false) ->
         stripAngleBrackets link = link).
Proof.
  assert (Hcont : forall inp,
             let c : Cont := fun y =>
               matcher inp (Seq (ch ">"%char) (Eol false))
                       (withCaps y ((1, (1, st_pos y)) :: st_caps y)) Some in
             (forall y, st_rest y <> [">"%char] -> c y = None)
             /\ (forall y, st_rest y = [">"%char] ->
                           c y = Some (mkState (S (st_pos y)) (Some ">"%char) []
                                               ((1, (1, st_pos y)) :: st_caps y)))).
  { intros inp c. unfold c. cbn [matcher ch]. unfold advance, withCaps.
    cbn [st_rest st_pos st_caps st_prev]. split.
    - intros y Hy. destruct (st_rest y) as [|a [|b t]]; [reflexivity| |].
      + destruct (only ">"%char a) eqn:E; [|reflexivity].
        apply Ascii.eqb_eq in E. subst a. exfalso. apply Hy. reflexivity.
      + destruct (only ">"%char a); reflexivity.
    - intros y ->. reflexivity. }
  split.
  - intros s Hs. unfold stripAngleBrackets, replaceFirst, exec.
    cbn [length Nat.ltb Nat.leb prevAt skipn].
    cbn [searchFrom angleBracketLinkRe seqs matcher st_prev ch].
    unfold advance at 1. cbn [st_rest st_pos st_caps].
    replace (only "<"%char "<"%char) with true by reflexivity.
    cbn [groupsOf st_rest st_pos st_caps].
    destruct (Hcont ("<"%char :: s ++ [">"%char])) as [Hnone Hsome].
    cbv zeta in Hnone, Hsome.
    change (fun (x : State) (c : Cont) =>
              match advance x with
              | Some (a, y) => if dot a then c y else None
              | None => None
              end)
      with (matcher ("<"%char :: s ++ [">"%char]) (Chr dot)).
    rewrite repeatMatcher_greedyClass by lia.
    match goal with
    | |- context [greedyClass dot ?k _ _ _ _] => set (c := k)
    end.
    assert (Hnone' : forall y, st_rest y <> [">"%char] -> c y = None)
      by exact Hnone.
    assert (Hsome' : forall y, st_rest y = [">"%char] ->
                               c y = Some (mkState (S (st_pos y)) (Some ">"%char) []
                                                   ((1, (1, st_pos y)) :: st_caps y)))
      by exact Hsome.
    clearbody c.
    rewrite (@greedyClass_last c Hnone');
      [|intros y Hy; rewrite (Hsome' y Hy); discriminate|exact Hs].
    rewrite Hsome' by reflexivity.
    unfold afterRun. cbn [st_pos st_caps m_index m_end firstn app].
    unfold groupOr, group. cbn [m_caps lookupCapture Nat.eqb].
    unfold Js.slice. cbn [skipn].
    replace (1 + length s - 1) with (length s) by lia.
    change (drop 0 (s ++ [">"%char])) with (s ++ [">"%char]).
    rewrite take_app_length.
    rewrite drop_ge by (rewrite length_app; cbn [length]; lia).
    apply app_nil_r.
  - intros link Hlink. unfold stripAngleBrackets, replaceFirst, exec.
    cbn [length Nat.ltb Nat.leb prevAt skipn].
    assert (Hsearch : searchFrom link angleBracketLinkRe 0 None link = None).
    { destruct link as [|a rest]; [reflexivity|].
      cbn [searchFrom angleBracketLinkRe seqs matcher st_prev ch].
      rewrite searchFrom_anchored.
      unfold advance at 1. cbn [st_rest st_pos st_caps].
      destruct (only "<"%char a) eqn:Ea; [|reflexivity].
      apply Ascii.eqb_eq in Ea. subst a.
      cbn [groupsOf st_rest st_pos st_caps].
      destruct (Hcont ("<"%char :: rest)) as [Hnone _]. cbv zeta in Hnone.
      change (fun (x : State) (c : Cont) =>
                match advance x with
                | Some (a, y) => if dot a then c y else None
                | None => None
                end)
        with (matcher ("<"%char :: rest) (Chr dot)).
      rewrite repeatMatcher_greedyClass by lia.
      match goal with
      | |- context [greedyClass dot ?k _ _ _ _] => set (c := k)
      end.
      assert (Hnone' : forall y, st_rest y <> [">"%char] -> c y = None)
        by exact Hnone.
      clearbody c.
      rewrite (@greedyClass_no_last c Hnone'); [reflexivity|].
      intros s ->. exact (Hlink s eq_refl). }
    change (drop 0 link) with link. rewrite Hsearch. reflexivity.
Qed.

Lemma stripAngleBrackets_spec_witness :
  stripAngleBrackets (lit "<a b>") = lit "a b"
  /\ stripAngleBrackets (lit "a>") = lit "a>".
Proof.
  split.
  - exact (proj1 stripAngleBrackets_spec (lit "a b") eq_refl).
  - apply (proj2 stripAngleBrackets_spec). intros s H. discriminate H.
Defined.

(** *** HTML links *)

Lemma searchFrom_no_tag inp :
  forall rest pos prev,
    (forall pre a post, rest = pre ++ "<"%char :: a :: post ->
                        Js.isWordChar a = false) ->
    searchFrom inp htmlTagStartPattern pos prev rest = None.
Proof.
  induction rest as [|b rest IH]; intros pos prev Hrest.
  - reflexivity.
  - assert (Hnext : searchFrom inp htmlTagStartPattern (S pos) (Some b) rest = None).
    { apply IH. intros pre a post ->. exact (Hrest (b :: pre) a post eq_refl). }
    cbn [searchFrom htmlTagStartPattern matcher ch]. unfold advance.
    cbn [st_rest st_pos st_caps].
    destruct (only "<"%char b) eqn:Eb; [|exact Hnext].
    apply Ascii.eqb_eq in Eb. subst b.
    destruct rest as [|a t]; [reflexivity|].
    cbn [st_rest st_pos st_caps].
    rewrite (Hrest [] a t eq_refl). exact Hnext.
Qed.

Section HtmlLinks.
Context {workspace : IWorkspace} {helpers : Helpers}.

(** X8.  [#getHtmlLinks] finds nothing in a text without a less-than
    sign followed by a word character, and nothing when the HTML
    parser fails. *)
Theorem getHtmlLinks_needs_a_tag (document : ITextDocument) (nlr : NoLinkRanges) :
  ((forall pre a post, getText document = pre ++ "<"%char :: a :: post ->
                       Js.isWordChar a = false) ->
   getHtmlLinks document nlr = Ret [])
  /\ (parse (getText document) = None -> getHtmlLinks document nlr = Ret []).
Proof.
  unfold getHtmlLinks. cbv zeta. split.
  - intros Htext. unfold test, exec.
    cbn [length Nat.ltb Nat.leb prevAt].
    change (drop 0 (getText document)) with (getText document).
    rewrite (@searchFrom_no_tag (getText document) (getText document) 0 None Htext).
    reflexivity.
  - intros Hparse. rewrite Hparse. destruct (negb _); reflexivity.
Qed.

End HtmlLinks.

Lemma getHtmlLinks_needs_a_tag_witness :
  @getHtmlLinks exampleWorkspace InMemory.helpers
                (InMemory.docOf "test.md" (lit "a < b")) emptyNoLinkRanges
  = Ret [].
Proof.
  apply (proj1 (@getHtmlLinks_needs_a_tag
                  exampleWorkspace InMemory.helpers
                  (InMemory.docOf "test.md" (lit "a < b")) emptyNoLinkRanges)).
  intros pre a post H.
  destruct pre as [|x1 [|x2 [|x3 [|x4 [|x5 [|x6 pre]]]]]];
    cbn in H; try discriminate H.
  injection H as _ _ <- _. reflexivity.
Defined.

(* ================================================================== *)
(** ** Further properties of the rename provider *)
(* ================================================================== *)

Section RenameProvider.
Import Rename PrepareRename.
Context {workspace : IWorkspace} {helpers : Helpers} {pathHelpers : PathHelpers}
        {tocProvider : ITocProvider} {slugifier : ISlugifier}
        {referencesProvider : IReferencesProvider}.
Variable configuration : LsConfiguration.

Lemma arePositionsEqual_refl (p : Position) : arePositionsEqual p p = true.
Proof. unfold arePositionsEqual. rewrite !Z.eqb_refl. reflexivity. Qed.

Lemma cacheHit_fresh document position triggerRef references :
  cacheHit (mkCached (getDocUri document) (version document) position
                     triggerRef references) document position = true.
Proof.
  unfold cacheHit. cbn.
  rewrite (proj2 (Js_eqb_eq _ _) eq_refl), Z.eqb_refl, arePositionsEqual_refl.
  reflexivity.
Qed.

(** A request that was answered is answered again from the cache. *)
Lemma getAllReferences_again cachedRefs document position cancelled response :
  fst (getAllReferences cachedRefs document position cancelled) = Some response ->
  forall cancelled',
    getAllReferences (snd (getAllReferences cachedRefs document position cancelled))
                     document position cancelled'
    = (Some response,
       snd (getAllReferences cachedRefs document position cancelled)).
Proof.
  intros H cancelled'.
  assert (Hmiss :
            forall c,
              fst (if cancelled then (None, c)
                   else match find isTriggerLocation
                                   (getReferencesAtPosition document position) with
                        | None => (None, c)
                        | Some triggerRef =>
                            (Some (mkResponse
                                     (getReferencesAtPosition document position)
                                     triggerRef),
                             Some (mkCached (getDocUri document) (version document)
                                            position triggerRef
                                            (getReferencesAtPosition document
                                                                     position)))
                        end) = Some response ->
              exists triggerRef,
                (if cancelled then (None, c)
                 else match find isTriggerLocation
                                 (getReferencesAtPosition document position) with
                      | None => (None, c)
                      | Some triggerRef =>
                          (Some (mkResponse
                                   (getReferencesAtPosition document position)
                                   triggerRef),
                           Some (mkCached (getDocUri document) (version document)
                                          position triggerRef
                                          (getReferencesAtPosition document
                                                                   position)))
                      end)
                = (Some response,
                   Some (mkCached (getDocUri document) (version document) position
                                  triggerRef
                                  (getReferencesAtPosition document position)))
                /\ response = mkResponse (getReferencesAtPosition document position)
                                         triggerRef).
  { intros c Hc. destruct cancelled; [discriminate Hc|].
    destruct (find isTriggerLocation _) as [triggerRef|]; [|discriminate Hc].
    cbn [fst] in Hc. injection Hc as <-. exists triggerRef. split; reflexivity. }
  assert (Hfresh :
            forall triggerRef,
              getAllReferences
                (Some (mkCached (getDocUri document) (version document) position
                                triggerRef
                                (getReferencesAtPosition document position)))
                document position cancelled'
              = (Some (mkResponse (getReferencesAtPosition document position)
                                  triggerRef),
                 Some (mkCached (getDocUri document) (version document) position
                                triggerRef
                                (getReferencesAtPosition document position)))).
  { intros triggerRef. unfold getAllReferences. rewrite cacheHit_fresh. reflexivity. }
  unfold getAllReferences in H |- * at 2 3.
  destruct cachedRefs as [c|].
  - destruct (cacheHit c document position) eqn:Ehit.
    + cbn [fst snd] in H |- *. injection H as <-.
      unfold getAllReferences. rewrite Ehit. reflexivity.
    + destruct (Hmiss _ H) as [triggerRef [-> ->]]. cbn [snd]. apply Hfresh.
  - destruct (Hmiss _ H) as [triggerRef [-> ->]]. cbn [snd]. apply Hfresh.
Qed.

(** X9.  [#getAllReferences] and its cache.  A request without an
    answer leaves the cache as it is.  A request with an answer leaves
    a cache from which the same request is answered again, with the
    same answer and without a change, also when cancellation is
    requested by then.  Without a cache, the answer holds the
    references of the provider and the first of them that is the
    trigger, and a cancelled request has no answer. *)
Theorem getAllReferences_cache
        (cachedRefs : option CachedRefs) (document : ITextDocument)
        (position : Position) (cancelled : bool) :
  (fst (getAllReferences cachedRefs document position cancelled) = None ->
   snd (getAllReferences cachedRefs document position cancelled) = cachedRefs)
  /\ (forall response,
         fst (getAllReferences cachedRefs document position cancelled)
         = Some response ->
         forall cancelled',
           getAllReferences
             (snd (getAllReferences cachedRefs document position cancelled))
             document position cancelled'
           = (Some response,
              snd (getAllReferences cachedRefs document position cancelled)))
  /\ (forall response,
         fst (getAllReferences None document position cancelled) = Some response ->
         cancelled = false
         /\ references response = getReferencesAtPosition document position
         /\ find isTriggerLocation (references response)
            = Some (triggerRef response)).
Proof.
  split; [|split].
  - unfold getAllReferences. destruct cachedRefs as [c|].
    + destruct (cacheHit c document position); [discriminate|].
      destruct cancelled; [reflexivity|].
      destruct (find isTriggerLocation _); [discriminate | reflexivity].
    + destruct cancelled; [reflexivity|].
      destruct (find isTriggerLocation _); [discriminate | reflexivity].
  - apply getAllReferences_again.
  - intros response. unfold getAllReferences.
    destruct cancelled; [discriminate|].
    destruct (find isTriggerLocation _) as [triggerRef|] eqn:E; [|discriminate].
    cbn [fst]. intros [= <-]. cbn [references]. repeat split. exact E.
Qed.

Lemma rewriteChangedHeaders_returns doc changedHeaders :
  forall cachedRefs builder,
  exists cachedRefs' added,
    rewriteChangedHeaders doc changedHeaders false cachedRefs builder
    = Some (cachedRefs', builder ++ added).
Proof.
  induction changedHeaders as [|header rest IH]; intros cachedRefs builder.
  - exists cachedRefs, []. cbn. rewrite app_nil_r. reflexivity.
  - cbn [rewriteChangedHeaders].
    destruct (getAllReferences cachedRefs doc _ false) as [refs cachedRefs1].
    destruct (IH cachedRefs1
                 (replaceLinksTo header
                    (match refs with Some r => references r | None => [] end)
                    builder)) as [cachedRefs' [added Hrest]].
    rewrite Hrest, replaceLinksTo_edits, <- app_assoc.
    eexists _, _. reflexivity.
Qed.

(** A rename of a fragment that is not cancelled returns; its edit
    ends with the edits of the gathered references. *)
Lemma renameFragment_returns cachedRefs allRefsInfo newHeaderText :
  exists cachedRefs' cascade newSlug,
    renameFragment cachedRefs allRefsInfo newHeaderText false
    = Some (cachedRefs',
            cascade ++ map (referenceEdit newHeaderText newSlug)
                           (references allRefsInfo)).
Proof.
  unfold renameFragment. cbv zeta.
  destruct (find isHeaderReference (references allRefsInfo)) as [existingHeader|].
  2:{ eexists _, [], _. rewrite renameReference_edits. reflexivity. }
  destruct (openMarkdownDocument _) as [doc|].
  2:{ eexists _, [], _. rewrite renameReference_edits. reflexivity. }
  destruct (compareTocs _ _ _ _) as [newSlug changedHeaders].
  destruct (rewriteChangedHeaders_returns doc changedHeaders cachedRefs [])
    as [cachedRefs' [added Hrewrite]].
  rewrite Hrewrite. cbn [app]. rewrite renameReference_edits.
  eexists _, _, _. reflexivity.
Qed.

Lemma renameReferenceLinks_edits allRefsInfo newName :
  renameReferenceLinks allRefsInfo newName
  = flat_map (nameEdits newName) (references allRefsInfo).
Proof.
  unfold renameReferenceLinks.
  assert (Hfold :
            forall refs builder,
              fold_left
                (fun builder r =>
                   match r with
                   | LinkReference _ _ location link =>
                       match kind link, ref link with
                       | Definition_, Some name =>
                           builder_replace builder (resource (source link))
                                           (ref_range name) newName
                       | _, _ =>
                           builder_replace builder (resource (source link))
                                           (fragmentSpan link location) newName
                       end
                   | HeaderReference _ _ _ _ _ => builder
                   end) refs builder
              = builder ++ flat_map (nameEdits newName) refs).
  { induction refs as [|r refs IH]; intros builder; cbn [fold_left flat_map].
    - rewrite app_nil_r. reflexivity.
    - rewrite IH. destruct r as [? ? ? ? ?|? ? location link]; cbn [nameEdits app].
      + reflexivity.
      + destruct (kind link), (ref link); unfold builder_replace;
          rewrite <- app_assoc; reflexivity. }
  apply Hfold.
Qed.

(** X10.  Preparing and performing a rename.  Without a cache,
    [prepareRename] throws when the provider knows no trigger at the
    position.  When it offers a range for a header, for the name of a
    definition or for the fragment of a link to a file, a rename at the
    same position that follows returns an edit, and one of its text
    edits replaces just that range. *)
Theorem prepared_range_is_renamed
        (document : ITextDocument) (position : Position) (newName : jsstring) :
  (find isTriggerLocation (getReferencesAtPosition document position) = None ->
   prepareRename None document position false = (Throw, None))
  /\ (forall allRefsInfo range placeholder cachedRefs,
         lookupReferences document position = Some allRefsInfo ->
         prepareRename None document position false
         = (Ret (Some (range, placeholder)), cachedRefs) ->
         match triggerRef allRefsInfo with
         | HeaderReference _ _ _ _ _ => True
         | LinkReference _ _ _ link =>
             triggeredName link position <> None
             \/ fragmentRenameTrigger (triggerRef allRefsInfo) position = true
         end ->
         exists edit cachedRefs',
           provideRenameEdits configuration cachedRefs document position
                              newName false
           = (Ret (Some edit), cachedRefs')
           /\ exists resource text, In (Replace resource range text) edit).
Proof.
  split.
  - intros Hnone. unfold prepareRename, getAllReferences. rewrite Hnone.
    reflexivity.
  - intros allRefsInfo range placeholder cachedRefs Hlookup Hprepare Htrigger.
    unfold lookupReferences in Hlookup.
    destruct (find isTriggerLocation (getReferencesAtPosition document position))
      as [trigger|] eqn:Efind; [|discriminate Hlookup].
    injection Hlookup as <-. cbn [triggerRef references] in *.
    pose proof (proj1 (find_some _ _ Efind)) as Hin.
    set (found := getReferencesAtPosition document position) in *.
    set (cache := Some (mkCached (getDocUri document) (version document)
                                 position trigger found)).
    assert (Hfirst : getAllReferences None document position false
                     = (Some (mkResponse found trigger), cache)).
    { unfold getAllReferences. fold found. rewrite Efind. reflexivity. }
    assert (Hsecond : getAllReferences cache document position false
                      = (Some (mkResponse found trigger), cache)).
    { unfold getAllReferences, cache. rewrite cacheHit_fresh. reflexivity. }
    assert (Hsome : forall (A : Type) (x y : A),
               match found with [] => x | _ :: _ => y end = y).
    { intros A x y. revert Hin. destruct found; intros Hin;
        [destruct Hin | reflexivity]. }
    unfold prepareRename in Hprepare. rewrite Hfirst in Hprepare.
    cbn [references triggerRef] in Hprepare. rewrite Hsome in Hprepare.
    assert (Hcache : cachedRefs = cache).
    { destruct trigger as [t d l h hl | t d l link]; [congruence|].
      destruct (triggeredName link position); [congruence|].
      destruct (HrefKind_eqb _ _); [congruence|].
      destruct (hrefFragmentRange (source link)) as [fr|]; [|congruence].
      destruct (rangeContainsPosition fr position); congruence. }
    subst cachedRefs.
    unfold provideRenameEdits. rewrite Hsecond. cbn [references triggerRef orb].
    rewrite Hsome.
    destruct (renameFragment_returns cache (mkResponse found trigger) newName)
      as [cachedRefs' [cascade [newSlug Hfragment]]].
    cbn [references] in Hfragment.
    destruct trigger as [t d l h hl | t d l link].
    + injection Hprepare as <- _. rewrite Hfragment.
      eexists _, _. split; [reflexivity|].
      exists (loc_uri l), newName. apply in_or_app. right.
      apply in_map_iff. exists (HeaderReference t d l h hl).
      split; [reflexivity | exact Hin].
    + destruct Htrigger as [Hname | Hfrag].
      * destruct (triggeredName link position) as [name|] eqn:Ename;
          [|exfalso; apply Hname; reflexivity].
        injection Hprepare as <- _.
        unfold triggeredName in Ename.
        destruct (MdLinkKind_eqb (kind link) Definition_) eqn:Ekind;
          [|discriminate Ename].
        destruct (ref link) as [name'|] eqn:Eref; [|discriminate Ename].
        destruct (rangeContainsPosition (ref_range name') position) eqn:Econt;
          [|discriminate Ename].
        injection Ename as ->. cbn [andb orb].
        eexists _, _. split; [reflexivity|].
        exists (resource (source link)), newName.
        rewrite renameReferenceLinks_edits. cbn [references].
        apply in_flat_map. exists (LinkReference t d l link).
        split; [exact Hin|]. cbn [nameEdits].
        destruct (kind link); try discriminate Ekind.
        rewrite Eref. left. reflexivity.
      * unfold fragmentRenameTrigger in Hfrag.
        apply andb_true_iff in Hfrag as [Hfrag Hinfrag].
        apply andb_true_iff in Hfrag as [Hfrag Hkind].
        apply andb_true_iff in Hfrag as [Hdef Hinternal].
        apply negb_true_iff in Hdef.
        assert (Hno : triggeredName link position = None).
        { unfold triggeredName.
          destruct (MdLinkKind_eqb (kind link) Definition_); [|reflexivity].
          destruct (ref link) as [name|]; [|reflexivity].
          cbn [andb] in Hdef. rewrite Hdef. reflexivity. }
        rewrite Hno in Hprepare.
        destruct (href_kind (href link)) eqn:Ehk; try discriminate Hinternal.
        cbn [HrefKind_eqb] in Hprepare.
        unfold inFragment in Hinfrag.
        destruct (hrefFragmentRange (source link)) as [fr|] eqn:Efr;
          [|discriminate Hinfrag].
        rewrite Hinfrag in Hprepare. injection Hprepare as <- _.
        rewrite Hdef. cbn [HrefKind_eqb orb].
        unfold inFragment. rewrite Efr, Hinfrag. cbn [andb].
        assert (Hkinds : MdLinkKind_eqb (kind link) Definition_
                         || MdLinkKind_eqb (kind link) Link && true = true).
        { rewrite andb_true_r. exact Hkind. }
        rewrite Hkinds, Hfragment.
        eexists _, _. split; [reflexivity|].
        eexists (resource (source link)), _. apply in_or_app. right.
        apply in_map_iff. exists (LinkReference t d l link).
        split; [|exact Hin].
        unfold referenceEdit, fragmentSpan. rewrite Efr. reflexivity.
Qed.

End RenameProvider.
Lemma getAllReferences_cache_witness :
  exists response cache,
    @Rename.getAllReferences InMemoryPaths.pathHelpers HeaderRenameExample.referencesProvider
      None HeaderRenameExample.document (mkPosition 1 3) false
    = (Some response, cache)
    /\ @Rename.getAllReferences InMemoryPaths.pathHelpers HeaderRenameExample.referencesProvider
         cache HeaderRenameExample.document (mkPosition 1 3) true
       = (Some response, cache).
Proof.
  let v := eval vm_compute in
        (@Rename.getAllReferences InMemoryPaths.pathHelpers
           HeaderRenameExample.referencesProvider
           None HeaderRenameExample.document (mkPosition 1 3) false) in
  lazymatch v with
  | (Some ?response, ?cache) =>
      exists response, cache; split; [vm_compute; reflexivity|];
      exact (proj1 (proj2 (@getAllReferences_cache
                             InMemoryPaths.pathHelpers
                             HeaderRenameExample.referencesProvider
                             None HeaderRenameExample.document (mkPosition 1 3)
                             false))
               response ltac:(vm_compute; reflexivity) true)
  end.
Defined.

Lemma prepared_range_is_renamed_witness :
  exists range placeholder cache edit cache',
    @PrepareRename.prepareRename InMemory.helpers InMemoryPaths.pathHelpers
      HeaderRenameExample.referencesProvider
      None HeaderRenameExample.document (mkPosition 1 3) false
    = (Ret (Some (range, placeholder)), cache)
    /\ @Rename.provideRenameEdits
         HeaderRenameExample.workspace InMemory.helpers InMemoryPaths.pathHelpers
         HeaderRenameExample.tocProvider HeaderRenameExample.slugifier
         HeaderRenameExample.referencesProvider InMemoryPaths.config
         cache HeaderRenameExample.document (mkPosition 1 3) (lit "New") false
       = (Ret (Some edit), cache')
    /\ exists resource text, In (Replace resource range text) edit.
Proof.
  let found := eval vm_compute in
        (@lookupReferences HeaderRenameExample.referencesProvider
           HeaderRenameExample.document (mkPosition 1 3)) in
  let prepared := eval vm_compute in
        (@PrepareRename.prepareRename InMemory.helpers InMemoryPaths.pathHelpers
           HeaderRenameExample.referencesProvider
           None HeaderRenameExample.document (mkPosition 1 3) false) in
  lazymatch found with
  | Some ?allRefsInfo =>
      lazymatch prepared with
      | (Ret (Some (?range, ?placeholder)), ?cache) =>
          exists range, placeholder, cache;
          destruct (proj2 (@prepared_range_is_renamed
                             HeaderRenameExample.workspace InMemory.helpers
                             InMemoryPaths.pathHelpers
                             HeaderRenameExample.tocProvider
                             HeaderRenameExample.slugifier
                             HeaderRenameExample.referencesProvider
                             InMemoryPaths.config
                             HeaderRenameExample.document (mkPosition 1 3)
                             (lit "New"))
                      allRefsInfo range placeholder cache
                      ltac:(vm_compute; reflexivity)
                      ltac:(vm_compute; reflexivity) I)
            as [edit [cache' [Hedit Hin]]];
          exists edit, cache';
          split; [vm_compute; reflexivity | split; [exact Hedit | exact Hin]]
      end
  end.
Defined.

(* ------------------------------------------------------------------ *)
(** *** The response to a batch of file renames *)

Section FileRenameResponse.
Import FileRename Rename.
Context {workspace : IWorkspace} {helpers : Helpers} {pathHelpers : PathHelpers}
        {referencesProvider : IReferencesProvider} {linkCache : ILinkCache}.
Variable config : LsConfiguration.

Lemma nonEmpty_app {A : Type} (l1 l2 : list A) :
  nonEmpty (l1 ++ l2) = nonEmpty l1 || nonEmpty l2.
Proof. destruct l1; reflexivity. Qed.

Lemma tallied_skip builder didParticipate :
  tallied builder didParticipate (didParticipate, builder).
Proof.
  exists []. cbn. rewrite app_nil_r, orb_false_r. repeat split.
Qed.

Lemma tallied_replace builder doc range text :
  tallied builder false (true, builder_replace builder doc range text).
Proof. exists [Replace doc range text]. repeat split. Qed.

Lemma tallies_skip : tallies (fun builder => Ret (false, builder)).
Proof. intros builder r [= <-]. apply tallied_skip. Qed.

Lemma tallied_then builder r1 r2 :
  tallied builder false r1 -> tallied (snd r1) false r2 ->
  tallied builder false (fst r1 || fst r2, snd r2).
Proof.
  intros [a1 [H1 [B1 T1]]] [a2 [H2 [B2 T2]]].
  exists (a1 ++ a2). cbn [fst snd].
  rewrite H2, H1, <- app_assoc, nonEmpty_app, B2, B1, forallb_app, T1, T2.
  repeat split.
Qed.

Lemma forEachEdit_tallies {A : Type}
      (step : A -> WorkspaceEdit -> Outcome (bool * WorkspaceEdit)) :
  (forall a, tallies (step a)) ->
  forall l didParticipate builder r,
    forEachEdit step l didParticipate builder = Ret r ->
    tallied builder didParticipate r.
Proof.
  intros Hstep. induction l as [|a rest IH]; intros d builder r Hrun.
  - injection Hrun as <-. apply tallied_skip.
  - cbn [forEachEdit] in Hrun.
    destruct (step a builder) as [r1|] eqn:E1; [|discriminate Hrun].
    cbn [mbind Outcome_bind] in Hrun.
    pose proof (Hstep a builder r1 E1) as [a1 [H1 [B1 T1]]].
    pose proof (IH _ _ _ Hrun) as [a2 [H2 [B2 T2]]].
    exists (a1 ++ a2). rewrite H2, H1, <- app_assoc, nonEmpty_app, B2, B1.
    rewrite forallb_app, T1, T2.
    repeat split. destruct d, (nonEmpty a1), (nonEmpty a2); reflexivity.
Qed.

Lemma addLinkRenameEdit_tallies doc link newUri_ :
  tallies (addLinkRenameEdit config doc link newUri_).
Proof.
  intros builder r Hrun. unfold addLinkRenameEdit in Hrun.
  destruct (href link); try (injection Hrun as <-; apply tallied_skip).
  destruct (getLinkRenameText _ _ _) as [[text|]|]; cbn [mbind Outcome_bind] in Hrun;
    [| |discriminate Hrun]; injection Hrun as <-.
  - apply tallied_replace.
  - apply tallied_skip.
Qed.

Lemma addEditsForLinksInSelf_tallies doc link rename allEdits :
  tallies (addEditsForLinksInSelf config doc link rename allEdits).
Proof.
  intros builder r Hrun. unfold addEditsForLinksInSelf in Hrun.
  destruct (href link); try (injection Hrun as <-; apply tallied_skip).
  destruct (Js.startsWith _ _); [injection Hrun as <-; apply tallied_skip|].
  destruct (Js.startsWith _ _); [injection Hrun as <-; apply tallied_skip|].
  destruct (resolveInternalDocumentLink _ _ _) as [[oldLink|]|];
    cbn [mbind Outcome_bind] in Hrun; [| |discriminate Hrun].
  - eapply addLinkRenameEdit_tallies. exact Hrun.
  - injection Hrun as <-. apply tallied_skip.
Qed.

Lemma tryAddEditsInSelf_tallies rename allEdits :
  tallies (tryAddEditsInSelf config rename allEdits).
Proof.
  intros builder r Hrun. unfold tryAddEditsInSelf in Hrun.
  destruct (negb _); [injection Hrun as <-; apply tallied_skip|].
  destruct (isExcludedPath _ _); [injection Hrun as <-; apply tallied_skip|].
  destruct (openMarkdownDocument _) as [doc|];
    [|injection Hrun as <-; apply tallied_skip].
  eapply forEachEdit_tallies; [|exact Hrun].
  intros link. apply addEditsForLinksInSelf_tallies.
Qed.

Lemma addEditsForReferencesToFile_tallies rename cancelled :
  tallies (fun builder =>
             addEditsForReferencesToFile config rename builder cancelled).
Proof.
  intros builder r Hrun. unfold addEditsForReferencesToFile in Hrun.
  destruct (isExcludedPath _ _); [injection Hrun as <-; apply tallied_skip|].
  destruct cancelled; [injection Hrun as <-; apply tallied_skip|].
  eapply forEachEdit_tallies; [|exact Hrun].
  intros [? ? ? ? ?|? ? location link].
  - apply tallies_skip.
  - apply addLinkRenameEdit_tallies.
Qed.

Lemma addSingleFileRenameEdits_tallies rename allEdits cancelled :
  tallies (fun builder =>
             addSingleFileRenameEdits config rename allEdits builder cancelled).
Proof.
  intros builder r Hrun. unfold addSingleFileRenameEdits in Hrun.
  destruct (addEditsForReferencesToFile config rename builder cancelled)
    as [r1|] eqn:E1; [|discriminate Hrun].
  cbn [mbind Outcome_bind] in Hrun.
  pose proof E1 as H1. apply addEditsForReferencesToFile_tallies in H1.
  destruct cancelled.
  - injection Hrun as <-.
    unfold addEditsForReferencesToFile in E1.
    destruct (isExcludedPath _ _); injection E1 as <-; apply tallied_skip.
  - destruct (tryAddEditsInSelf config rename allEdits (snd r1)) as [r2|] eqn:E2;
      [|discriminate Hrun].
    cbn [mbind Outcome_bind] in Hrun. injection Hrun as <-.
    eapply tallied_then; [exact H1 | eapply tryAddEditsInSelf_tallies; exact E2].
Qed.

Lemma directoryRenameEditsForLink_tallies rename docUri link :
  tallies (directoryRenameEditsForLink config rename docUri link).
Proof.
  intros builder r Hrun. unfold directoryRenameEditsForLink in Hrun.
  destruct (href link) as [|hrefPath fragment_|];
    try (injection Hrun as <-; apply tallied_skip).
  destruct (Js.startsWith _ _); [injection Hrun as <-; apply tallied_skip|].
  destruct (isParentDir (oldUri rename) hrefPath).
  - destruct (addLinkRenameEdit _ _ _ _ _) as [first|] eqn:E1;
      [|discriminate Hrun].
    pose proof E1 as H1. apply addLinkRenameEdit_tallies in H1.
    destruct (fst first) eqn:Efirst; [injection Hrun as <-; exact H1|].
    destruct (_ && _); [|injection Hrun as <-; apply tallied_skip].
    destruct (resolveInternalDocumentLink _ _ _) as [[oldLink|]|];
      cbn [mbind Outcome_bind] in Hrun; [| |discriminate Hrun].
    + destruct (negb _); injection Hrun as <-;
        [apply tallied_replace | apply tallied_skip].
    + injection Hrun as <-. apply tallied_skip.
  - cbn [fst] in Hrun.
    destruct (_ && _); [|injection Hrun as <-; apply tallied_skip].
    destruct (resolveInternalDocumentLink _ _ _) as [[oldLink|]|];
      cbn [mbind Outcome_bind] in Hrun; [| |discriminate Hrun].
    + destruct (negb _); injection Hrun as <-;
        [apply tallied_replace | apply tallied_skip].
    + injection Hrun as <-. apply tallied_skip.
Qed.

Lemma addDirectoryRenameEdits_tallies rename cancelled :
  tallies (fun builder => addDirectoryRenameEdits config rename builder cancelled).
Proof.
  intros builder r Hrun. unfold addDirectoryRenameEdits in Hrun.
  destruct cancelled; [injection Hrun as <-; apply tallied_skip|].
  eapply forEachEdit_tallies; [|exact Hrun].
  intros [docUri links] builder' r' Hrun'.
  eapply forEachEdit_tallies; [|exact Hrun'].
  intros link. apply directoryRenameEditsForLink_tallies.
Qed.

Lemma renameLoop_tallies allEdits cancelled remaining :
  forall participating builder response,
    renameLoop config remaining allEdits cancelled participating builder
    = Ret (Some response) ->
    exists chosen added,
      participatingRenames response = participating ++ chosen
      /\ sublist chosen remaining
      /\ edit response = builder ++ added
      /\ nonEmpty chosen = nonEmpty added
      /\ forallb isTextEdit added = true.
Proof.
  induction remaining as [|rename rest IH];
    intros participating builder response Hrun.
  - injection Hrun as <-. exists [], []. cbn.
    rewrite !app_nil_r. repeat split. constructor.
  - cbn [renameLoop] in Hrun.
    destruct cancelled; [discriminate Hrun|].
    set (step := if match stat (newUri rename) with
                       | Some s => isDirectory s
                       | None => false
                       end
                 then addDirectoryRenameEdits config rename builder false
                 else addSingleFileRenameEdits config rename allEdits builder false)
      in Hrun.
    assert (Hstep : forall r, step = Ret r -> tallied builder false r).
    { intros r Hr. unfold step in Hr.
      destruct (match stat (newUri rename) with
                | Some s => isDirectory s
                | None => false
                end).
      - apply addDirectoryRenameEdits_tallies in Hr. exact Hr.
      - apply addSingleFileRenameEdits_tallies in Hr. exact Hr. }
    destruct step as [[didParticipate builder1]|]; [|discriminate Hrun].
    cbn [mbind Outcome_bind] in Hrun.
    destruct (Hstep _ eq_refl) as [a1 [H1 [B1 T1]]]. cbn [fst snd] in H1, B1.
    destruct (IH _ _ _ Hrun) as [chosen [a2 [Hp [Hsub [He [Hne T2]]]]]].
    exists ((if didParticipate then [rename] else []) ++ chosen), (a1 ++ a2).
    repeat split.
    + rewrite Hp. destruct didParticipate; cbn [app].
      * rewrite <- app_assoc. reflexivity.
      * reflexivity.
    + destruct didParticipate; cbn [app].
      * apply sublist_skip. exact Hsub.
      * apply sublist_cons. exact Hsub.
    + rewrite He, H1, <- app_assoc. reflexivity.
    + rewrite !nonEmpty_app, <- Hne. cbn [orb] in B1. rewrite <- B1.
      destruct didParticipate; reflexivity.
    + rewrite forallb_app, T1, T2. reflexivity.
Qed.

(** X11.  The response to a batch of file renames.  The renames that
    take part are renames of the batch, in the order of the batch; the
    edit holds text edits only, and it is empty exactly when no rename
    takes part.  A cancelled request gives a response only for the
    empty batch. *)
Theorem file_rename_response
        (edits : list FileRename) (cancelled : bool)
        (response : FileRenameResponse) :
  getRenameFilesInWorkspaceEdit config edits cancelled = Ret (Some response) ->
  sublist (participatingRenames response) edits
  /\ (participatingRenames response = [] <-> edit response = [])
  /\ forallb isTextEdit (edit response) = true
  /\ (cancelled = true -> edits = []).
Proof.
  intros Hrun. unfold getRenameFilesInWorkspaceEdit in Hrun.
  pose proof Hrun as Htally. apply renameLoop_tallies in Htally.
  destruct Htally as [chosen [added [Hp [Hsub [He [Hne Htext]]]]]].
  cbn [app] in Hp, He. rewrite Hp, He.
  repeat split.
  - exact Hsub.
  - intros ->. destruct added; [reflexivity | discriminate Hne].
  - intros ->. destruct chosen; [reflexivity | discriminate Hne].
  - exact Htext.
  - intros ->. destruct edits; [reflexivity | discriminate Hrun].
Qed.

End FileRenameResponse.

Lemma file_rename_response_witness :
  exists response,
    @FileRename.getRenameFilesInWorkspaceEdit
      RenameExample.workspace InMemory.helpers InMemoryPaths.pathHelpers
      RenameExample.referencesProvider RenameExample.linkCache
      InMemoryPaths.config RenameExample.batch false
    = Ret (Some response)
    /\ sublist (FileRename.participatingRenames response) RenameExample.batch
    /\ FileRename.edit response <> [].
Proof.
  let v := eval vm_compute in
        (@FileRename.getRenameFilesInWorkspaceEdit
           RenameExample.workspace InMemory.helpers InMemoryPaths.pathHelpers
           RenameExample.referencesProvider RenameExample.linkCache
           InMemoryPaths.config RenameExample.batch false) in
  lazymatch v with
  | Ret (Some ?response) =>
      exists response;
      pose proof (@file_rename_response
                    RenameExample.workspace InMemory.helpers
                    InMemoryPaths.pathHelpers RenameExample.referencesProvider
                    RenameExample.linkCache InMemoryPaths.config
                    RenameExample.batch false response
                    ltac:(vm_compute; reflexivity)) as [Hsub [Hiff _]];
      split; [vm_compute; reflexivity | split; [exact Hsub|]];
      intros Hempty; apply Hiff in Hempty; vm_compute in Hempty;
      discriminate Hempty
  end.
Defined.

(* ------------------------------------------------------------------ *)
(** *** The headers and the blocks around a position *)

Section AroundPosition.
Import SmartSelect.
Local Open Scope Z_scope.

Lemma insertSorted_Permutation {A : Type} (cmp : A -> A -> Z) (x : A) (l : list A) :
  Permutation (insertSorted cmp x l) (x :: l).
Proof.
  induction l as [|y t IH]; cbn [insertSorted]; [reflexivity|].
  destruct (cmp x y <? 0); [reflexivity|].
  rewrite IH. apply perm_swap.
Qed.

Lemma sortBy_Permutation {A : Type} (cmp : A -> A -> Z) (l : list A) :
  Permutation (sortBy cmp l) l.
Proof.
  unfold sortBy.
  assert (H : forall acc, Permutation
                            (fold_left (fun acc x => insertSorted cmp x acc) l acc)
                            (acc ++ l)).
  { induction l as [|x t IH]; intros acc; cbn [fold_left].
    - rewrite app_nil_r. reflexivity.
    - rewrite IH, insertSorted_Permutation.
      change (x :: acc) with ([x] ++ acc).
      change (x :: t) with ([x] ++ t).
      rewrite (Permutation_app_comm [x] acc), <- app_assoc. reflexivity. }
  apply (H []).
Qed.

Lemma insertSorted_sorted {A : Type} (key : A -> Z) (cmp : A -> A -> Z) :
  (forall x y, cmp x y = key x - key y) ->
  forall x l,
    StronglySorted (fun a b => key a <= key b) l ->
    StronglySorted (fun a b => key a <= key b) (insertSorted cmp x l).
Proof.
  intros Hcmp x l. induction l as [|y t IH]; intros Hsorted; cbn [insertSorted].
  - repeat constructor.
  - apply StronglySorted_inv in Hsorted as [Ht Hy].
    rewrite Hcmp. destruct (key x - key y <? 0) eqn:E.
    + apply Z.ltb_lt in E. constructor.
      * constructor; assumption.
      * constructor; [lia|].
        eapply List.Forall_impl; [|exact Hy]. cbn. intros a Ha. lia.
    + apply Z.ltb_ge in E. constructor.
      * apply IH. exact Ht.
      * eapply Permutation_Forall.
        { symmetry. apply insertSorted_Permutation. }
        constructor; [lia | exact Hy].
Qed.

Lemma sortBy_sorted {A : Type} (key : A -> Z) (cmp : A -> A -> Z) (l : list A) :
  (forall x y, cmp x y = key x - key y) ->
  StronglySorted (fun a b => key a <= key b) (sortBy cmp l).
Proof.
  intros Hcmp. unfold sortBy.
  assert (H : forall acc,
             StronglySorted (fun a b => key a <= key b) acc ->
             StronglySorted (fun a b => key a <= key b)
                            (fold_left (fun acc x => insertSorted cmp x acc) l acc)).
  { induction l as [|x t IH]; intros acc Hacc; cbn [fold_left]; [exact Hacc|].
    apply IH. apply insertSorted_sorted; assumption. }
  apply H. constructor.
Qed.

Lemma in_sortBy {A : Type} (cmp : A -> A -> Z) (l : list A) (x : A) :
  In x (sortBy cmp l) <-> In x l.
Proof.
  split; apply Permutation_in; [|symmetry]; apply sortBy_Permutation.
Qed.

Lemma getHeadersForPosition_in (toc : list TocEntry) (position : Position)
      (header : TocEntry) :
  In header (fst (getHeadersForPosition toc position))
  <-> In header toc
      /\ line (start (sectionRange header)) <= line position
         <= line (end_ (sectionRange header)).
Proof.
  unfold getHeadersForPosition. cbn [fst].
  rewrite in_sortBy, <- !list_elem_of_In, list_elem_of_filter.
  rewrite Is_true_true, andb_true_iff. split.
  - intros [[Hs He] Hin]. split; [exact Hin | lia].
  - intros [Hin [Hs He]]. split; [split; lia | exact Hin].
Qed.

(** X12.  [getHeadersForPosition] returns the entries of the table of
    contents whose section spans the line of the position, ordered by
    their line, so that the last one is the closest to the position;
    and it tells whether some entry is on the line of the position. *)
Theorem getHeadersForPosition_sorted (toc : list TocEntry) (position : Position) :
  (forall header,
      In header (fst (getHeadersForPosition toc position))
      <-> In header toc
          /\ line (start (sectionRange header)) <= line position
             <= line (end_ (sectionRange header)))
  /\ StronglySorted (fun header1 header2 => toc_line header1 <= toc_line header2)
                    (fst (getHeadersForPosition toc position))
  /\ (snd (getHeadersForPosition toc position) = true
      <-> exists header, In header toc /\ toc_line header = line position).
Proof.
  split; [apply getHeadersForPosition_in|].
  unfold getHeadersForPosition. cbn [fst snd].
  split.
  - apply sortBy_sorted with (key := fun header => toc_line header). intros x y. lia.
  - split.
    + destruct (find _ toc) as [header|] eqn:E; [|discriminate].
      intros _. apply find_some in E as [Hin Hline].
      exists header. split; [exact Hin | lia].
    + intros [header [Hin Hline]].
      destruct (find _ toc) eqn:E; [reflexivity|].
      exfalso. pose proof (find_none _ _ E _ Hin) as Hnone. cbn in Hnone. lia.
Qed.

(** X13.  [getBlockTokensForPosition] returns the block tokens whose
    line span holds the line of the position and, with a parent, lies
    within the lines of the parent; the token that spans most lines
    comes first. *)
Theorem getBlockTokensForPosition_sorted
        (tokens : list Token) (position : Position)
        (parent : option SelectionRange) :
  (forall block,
      In block (getBlockTokensForPosition tokens position parent)
      <-> exists token,
            In token tokens
            /\ tok_map token = Some (tm_map block)
            /\ tok_type token = tm_type block
            /\ isBlockElement token = true
            /\ fst (tm_map block) <= line position < snd (tm_map block)
            /\ match parent with
               | Some p =>
                   line (start (sr_range p)) <= fst (tm_map block)
                   /\ snd (tm_map block) <= line (end_ (sr_range p)) + 1
               | None => True
               end)
  /\ StronglySorted (fun block1 block2 => tokenSize block2 <= tokenSize block1)
                    (getBlockTokensForPosition tokens position parent).
Proof.
  unfold getBlockTokensForPosition. split.
  - intros block. rewrite in_sortBy, <- list_elem_of_In, list_elem_of_omap.
    split.
    + intros [token [Hin Hsome]]. exists token.
      apply list_elem_of_In in Hin. split; [exact Hin|].
      destruct (tok_map token) as [[m0 m1]|]; [|discriminate Hsome].
      destruct (_ && _) eqn:E in Hsome; [|discriminate Hsome].
      injection Hsome as <-. cbn [tm_map tm_type fst snd].
      apply andb_true_iff in E as [E Hblock].
      apply andb_true_iff in E as [E Hparent].
      apply andb_true_iff in E as [H0 H1].
      repeat split; try reflexivity; try exact Hblock; try lia.
      destruct parent as [p|]; [|exact I].
      apply andb_true_iff in Hparent. lia.
    + intros [token [Hin [Hmap [Htype [Hblock [Hline Hparent]]]]]].
      exists token. split; [apply list_elem_of_In, Hin|].
      rewrite Hmap. destruct block as [type [m0 m1]].
      cbn [tm_map tm_type fst snd] in *. subst type.
      assert (E : (m0 <=? line position) && (m1 >? line position)
                  && match parent with
                     | Some p =>
                         (m0 >=? line (start (sr_range p)))
                         && (m1 <=? line (end_ (sr_range p)) + 1)
                     | None => true
                     end
                  && isBlockElement token = true).
      { rewrite Hblock, andb_true_r. apply andb_true_iff. split.
        - apply andb_true_iff. split; lia.
        - destruct parent as [p|]; [|reflexivity].
          apply andb_true_iff. split; lia. }
      rewrite E. reflexivity.
  - match goal with
    | |- StronglySorted _ (sortBy ?cmp ?l) =>
        assert (Hsorted : StronglySorted
                            (fun a b => - tokenSize a <= - tokenSize b)
                            (sortBy cmp l))
          by (apply sortBy_sorted; intros x y; lia);
        induction Hsorted as [|block blocks Hblocks IH Hfirst]
    end.
    + constructor.
    + constructor; [exact IH|].
      eapply List.Forall_impl; [|exact Hfirst]. cbn. intros a Ha. lia.
Qed.

End AroundPosition.

(* ------------------------------------------------------------------ *)
(** *** Inline selections go on with the selection around them *)

Section InlineSelections.
Import SmartSelect.
Context {workspace : IWorkspace} {helpers : Helpers} {parser : IMdParser}
        {tocProvider : ITocProvider}.

Lemma getLineage_node (r : Range) (parent : option SelectionRange) :
  getLineage (mkSelectionRange r parent) = r :: lineageOf parent.
Proof. destruct parent; reflexivity. Qed.

Lemma expandsTo_refl (s : SelectionRange) : expandsTo (Some s) s.
Proof. exists []. reflexivity. Qed.

Lemma expandsTo_trans (a : option SelectionRange) (b c : SelectionRange) :
  expandsTo a b -> expandsTo (Some b) c -> expandsTo a c.
Proof.
  intros [i1 H1] [i2 H2]. exists (i2 ++ i1).
  rewrite H2. cbn [lineageOf]. rewrite H1, app_assoc. reflexivity.
Qed.

Lemma makeSelectionRange_expandsTo (r : Range) (parent : option SelectionRange) :
  expandsTo parent (makeSelectionRange r parent).
Proof.
  unfold makeSelectionRange. destruct parent as [p|].
  - destruct (areRangesEqual (sr_range p) r).
    + apply expandsTo_refl.
    + exists [r]. apply getLineage_node.
  - exists [r]. reflexivity.
Qed.

Lemma makeSelectionRange_twice (r1 r2 : Range) (parent : option SelectionRange) :
  expandsTo parent
            (makeSelectionRange r1 (Some (makeSelectionRange r2 parent))).
Proof.
  eapply expandsTo_trans; apply makeSelectionRange_expandsTo.
Qed.

Lemma createBoldRange_expandsTo lineText cursorChar cursorLine parent :
  expandsToOpt parent (createBoldRange lineText cursorChar cursorLine parent).
Proof.
  unfold createBoldRange.
  destruct (matchesAtCursor _ _ _) as [|m ms]; [exact I|].
  cbv zeta. cbn [expandsToOpt].
  destruct (_ || _).
  - apply makeSelectionRange_expandsTo.
  - apply makeSelectionRange_twice.
Qed.

Lemma createOtherInlineRange_expandsTo lineText cursorChar cursorLine isItalic parent :
  expandsToOpt parent
               (createOtherInlineRange lineText cursorChar cursorLine isItalic parent).
Proof.
  unfold createOtherInlineRange. cbv zeta.
  destruct (if isItalic then _ else _) as [|m ms]; [exact I|].
  cbn [expandsToOpt].
  destruct (_ || _).
  - apply makeSelectionRange_expandsTo.
  - apply makeSelectionRange_twice.
Qed.

Lemma expandsToOpt_orElse (parent a b : option SelectionRange) :
  expandsToOpt parent a -> expandsToOpt parent b ->
  expandsToOpt parent (orElseOpt a b).
Proof. destruct a; cbn; auto. Qed.

Lemma expandsToOpt_through (parent middle s : option SelectionRange) :
  expandsToOpt parent middle ->
  (middle = None -> expandsToOpt parent s) ->
  expandsToOpt middle s ->
  expandsToOpt parent s.
Proof.
  intros Hm Hnone Hs. destruct middle as [m|]; [|apply Hnone; reflexivity].
  destruct s as [s|]; [|exact I].
  eapply expandsTo_trans; [exact Hm | exact Hs].
Qed.

Lemma areRangesEqual_eq (a b : Range) : areRangesEqual a b = true -> a = b.
Proof.
  destruct a as [[l1 c1] [l2 c2]], b as [[l3 c3] [l4 c4]].
  unfold areRangesEqual, arePositionsEqual. cbn.
  rewrite !andb_true_iff, !Z.eqb_eq. intros [[-> ->] [-> ->]]. reflexivity.
Qed.

Lemma makeSelectionRange_holds (r : Range) (parent : option SelectionRange) :
  In r (getLineage (makeSelectionRange r parent)).
Proof.
  unfold makeSelectionRange. destruct parent as [p|].
  - destruct (areRangesEqual (sr_range p) r) eqn:E.
    + apply areRangesEqual_eq in E. subst r.
      destruct p as [r [q|]]; left; reflexivity.
    + left. reflexivity.
  - left. reflexivity.
Qed.

Lemma expandsTo_holds (parent : option SelectionRange) (s : SelectionRange) r :
  expandsTo parent s -> In r (lineageOf parent) -> In r (getLineage s).
Proof. intros [inner ->] Hin. apply in_or_app. right. exact Hin. Qed.

(** What [createLinkRange] builds for the link it picked. *)
Lemma createLinkRange_picked allLinks cursorPos parent s :
  createLinkRange allLinks cursorPos parent = Some s ->
  exists link,
    last (filter (fun link => rangeContainsPosition (range (source link)) cursorPos)
                 allLinks) = Some link
    /\ expandsTo parent s
    /\ In (range (source link)) (getLineage s).
Proof.
  unfold createLinkRange. cbv zeta.
  destruct (last _) as [link|]; [|discriminate].
  intros Hs. exists link. split; [reflexivity|].
  assert (Hfull : forall r,
             expandsTo parent
               (makeSelectionRange r
                  (Some (makeSelectionRange (range (source link)) parent)))
             /\ In (range (source link))
                   (getLineage
                      (makeSelectionRange r
                         (Some (makeSelectionRange (range (source link)) parent))))).
  { intros r. split; [apply makeSelectionRange_twice|].
    eapply expandsTo_holds; [apply makeSelectionRange_expandsTo|].
    apply makeSelectionRange_holds. }
  assert (Hdest : forall r1 r2,
             let dest :=
               makeSelectionRange r1
                 (Some (makeSelectionRange r2
                          (Some (makeSelectionRange (range (source link)) parent)))) in
             expandsTo parent dest /\ In (range (source link)) (getLineage dest)).
  { intros r1 r2 dest. unfold dest. split.
    - eapply expandsTo_trans; [apply makeSelectionRange_twice|].
      apply makeSelectionRange_expandsTo.
    - eapply expandsTo_holds; [apply makeSelectionRange_expandsTo|].
      apply (proj2 (Hfull r2)). }
  assert (Hover : forall r dest,
             expandsTo parent dest /\ In (range (source link)) (getLineage dest) ->
             expandsTo parent (makeSelectionRange r (Some dest))
             /\ In (range (source link))
                   (getLineage (makeSelectionRange r (Some dest)))).
  { intros r dest [He Hin]. split.
    - eapply expandsTo_trans; [exact He | apply makeSelectionRange_expandsTo].
    - eapply expandsTo_holds; [apply makeSelectionRange_expandsTo | exact Hin]. }
  destruct (MdLinkKind_eqb (kind link) AutoLink).
  { injection Hs as <-. apply Hfull. }
  destruct (_ && _) eqn:Eref.
  { injection Hs as <-. apply andb_true_iff in Eref as [_ Eref].
    apply areRangesEqual_eq in Eref. rewrite Eref. split.
    - apply makeSelectionRange_expandsTo.
    - apply makeSelectionRange_holds. }
  destruct (rangeContainsPosition (targetRange (source link)) cursorPos).
  - destruct (MdLinkKind_eqb (kind link) Definition_).
    { injection Hs as <-. apply Hfull. }
    specialize (Hdest (mkRange (translatePosition (start (targetRange (source link))) 0 1)
                               (translatePosition (end_ (targetRange (source link))) 0 (-1)))
                      (targetRange (source link))).
    cbv zeta in Hdest.
    set (dest := makeSelectionRange
                   (mkRange (translatePosition (start (targetRange (source link))) 0 1)
                            (translatePosition (end_ (targetRange (source link))) 0 (-1)))
                   (Some (makeSelectionRange (targetRange (source link))
                            (Some (makeSelectionRange (range (source link)) parent)))))
      in *.
    clearbody dest.
    destruct (titleRange (source link)) as [title|].
    + destruct (rangeContainsPosition title cursorPos).
      { injection Hs as <-. apply Hover, Hdest. }
      destruct (isAngleBracketLink (source link)
                && rangeContainsPosition (hrefRange (source link)) cursorPos);
        unfold orElseOpt in Hs; injection Hs as <-.
      * apply Hover, Hover, Hdest.
      * apply Hover, Hdest.
    + destruct (isAngleBracketLink (source link)
                && rangeContainsPosition (hrefRange (source link)) cursorPos);
        unfold orElseOpt in Hs; injection Hs as <-.
      * apply Hover, Hover, Hdest.
      * apply Hdest.
  - destruct (MdLinkKind_eqb (kind link) Definition_);
      injection Hs as <-; apply Hfull.
Qed.

(** X14.  [createLinkRange] gives a selection exactly when the range
    of some link holds the cursor.  The selection goes on with the
    whole chain it was given as parent, and the range of the last link
    that holds the cursor is one of its ranges. *)
Theorem createLinkRange_selects
        (allLinks : list MdLink) (cursorPos : Position)
        (parent : option SelectionRange) :
  (createLinkRange allLinks cursorPos parent = None
   <-> forall link, In link allLinks ->
                    rangeContainsPosition (range (source link)) cursorPos = false)
  /\ (forall s,
         createLinkRange allLinks cursorPos parent = Some s ->
         expandsTo parent s
         /\ exists before link after,
              allLinks = before ++ link :: after
              /\ rangeContainsPosition (range (source link)) cursorPos = true
              /\ (forall other, In other after ->
                    rangeContainsPosition (range (source other)) cursorPos = false)
              /\ In (range (source link)) (getLineage s)).
Proof.
  split.
  - split.
    + intros Hnone link Hin.
      destruct (rangeContainsPosition (range (source link)) cursorPos) eqn:E;
        [|reflexivity].
      exfalso. unfold createLinkRange in Hnone. cbv zeta in Hnone.
      destruct (last _) as [picked|] eqn:Elast.
      * repeat match type of Hnone with
               | (if ?c then _ else _) = None => destruct c
               | match ?c with Some _ => _ | None => _ end = None => destruct c
               | orElseOpt (if ?c then _ else _) _ = None => destruct c
               end; cbn [orElseOpt] in Hnone; discriminate Hnone.
      * apply last_None in Elast.
        apply list_elem_of_In in Hin.
        refine (filter_nil_not_elem_of _ _ link Elast _ Hin).
        apply Is_true_true. exact E.
    + intros Hall. unfold createLinkRange. cbv zeta.
      destruct (last _) as [picked|] eqn:Elast; [|reflexivity].
      exfalso. apply last_Some in Elast as [l' Elast].
      assert (Hin : picked ∈ filter
                      (fun link => rangeContainsPosition (range (source link)) cursorPos)
                      allLinks).
      { rewrite Elast. apply list_elem_of_In, in_or_app. right. left. reflexivity. }
      apply list_elem_of_filter in Hin as [Hp Hin].
      apply Is_true_true in Hp. apply list_elem_of_In in Hin.
      rewrite (Hall _ Hin) in Hp. discriminate Hp.
  - intros s Hs. apply createLinkRange_picked in Hs as [link [Hlast [He Hin]]].
    split; [exact He|].
    apply last_filter_Some in Hlast as Hsplit.
    destruct Hsplit as [before [after [-> Hafter]]].
    exists before, link, after. split; [reflexivity|].
    apply last_Some in Hlast as [l' Hlast].
    assert (Hp : link ∈ filter
                   (fun link => rangeContainsPosition (range (source link)) cursorPos)
                   (before ++ link :: after)).
    { rewrite Hlast. apply list_elem_of_In, in_or_app. right. left. reflexivity. }
    apply list_elem_of_filter in Hp as [Hp _]. apply Is_true_true in Hp.
    split; [exact Hp|]. split; [|exact Hin].
    intros other Hother. rewrite List.Forall_forall in Hafter.
    specialize (Hafter _ Hother).
    destruct (rangeContainsPosition (range (source other)) cursorPos);
      [|reflexivity].
    exfalso. apply Hafter. exact I.
Qed.

(** X15.  An inline selection of [createInlineRange] goes on with the
    whole chain it was given as parent: expanding the selection from a
    bold or italic run, a code span or a link reaches every range of
    the block selection around it. *)
Theorem createInlineRange_keeps_parent
        (document : ITextDocument) (cursorPosition : Position)
        (parent : option SelectionRange) (cancelled : bool)
        (s : SelectionRange) :
  createInlineRange document cursorPosition parent cancelled = Ret (Some s) ->
  expandsTo parent s.
Proof.
  unfold createInlineRange. cbv zeta.
  generalize (getLine document (line cursorPosition)). intros lineText.
  destruct (getLinks document) as [links|]; [|discriminate].
  cbn [mbind Outcome_bind].
  destruct cancelled; [discriminate|].
  set (cursorChar := character cursorPosition).
  set (cursorLine := line cursorPosition).
  pose proof (createBoldRange_expandsTo lineText cursorChar cursorLine parent) as Hb.
  pose proof (createOtherInlineRange_expandsTo
                lineText cursorChar cursorLine true parent) as Hi.
  set (bold := createBoldRange lineText cursorChar cursorLine parent) in *.
  set (italic := createOtherInlineRange lineText cursorChar cursorLine true parent)
    in *.
  set (combo := match bold, italic with
                | Some b, Some i => _
                | _, _ => None
                end).
  assert (Hc : expandsToOpt parent combo).
  { unfold combo. destruct bold as [b|]; [|exact I].
    destruct italic as [i|]; [|exact I].
    destruct (negb _); [|exact I].
    destruct (rangeContains (sr_range b) (sr_range i)).
    - eapply expandsToOpt_through with (middle := Some b);
        [exact Hb | discriminate |].
      apply createOtherInlineRange_expandsTo.
    - destruct (rangeContains (sr_range i) (sr_range b)); [|exact I].
      eapply expandsToOpt_through with (middle := Some i);
        [exact Hi | discriminate |].
      apply createBoldRange_expandsTo. }
  set (around := orElseOpt combo (orElseOpt bold (orElseOpt italic parent))).
  assert (Haround : expandsToOpt parent around
                    /\ (around = None -> parent = None)).
  { unfold around. destruct combo; [split; [exact Hc | discriminate]|].
    destruct bold; [split; [exact Hb | discriminate]|].
    destruct italic; [split; [exact Hi | discriminate]|].
    cbn [orElseOpt]. split; [|auto].
    destruct parent as [p|]; [apply expandsTo_refl | exact I]. }
  destruct Haround as [Haround Hnone].
  set (linkSelection := createLinkRange links cursorPosition around).
  assert (Hl : expandsToOpt parent linkSelection).
  { unfold linkSelection.
    destruct (createLinkRange links cursorPosition around) as [l|] eqn:El;
      [|exact I].
    apply createLinkRange_picked in El as [_ [_ [He _]]].
    cbn [expandsToOpt]. destruct around as [a|].
    - eapply expandsTo_trans; [exact Haround | exact He].
    - rewrite (Hnone eq_refl). exact He. }
  set (code := createOtherInlineRange lineText cursorChar cursorLine false
                                      (orElseOpt linkSelection parent)).
  assert (Hcode : expandsToOpt parent code).
  { unfold code. destruct linkSelection as [l|]; cbn [orElseOpt].
    - eapply expandsToOpt_through with (middle := Some l);
        [exact Hl | discriminate |].
      apply createOtherInlineRange_expandsTo.
    - apply createOtherInlineRange_expandsTo. }
  intros [= Hs].
  assert (Hall : expandsToOpt parent
                   (orElseOpt code
                      (orElseOpt linkSelection
                         (orElseOpt combo (orElseOpt bold italic))))).
  { repeat apply expandsToOpt_orElse; assumption. }
  rewrite Hs in Hall. exact Hall.
Qed.

End InlineSelections.
Lemma createLinkRange_selects_witness :
  exists s,
    SmartSelect.createLinkRange HeaderRenameExample.links (mkPosition 3 5)
      (Some (mkSelectionRange (Range_create 3 0 3 29) None)) = Some s
    /\ expandsTo (Some (mkSelectionRange (Range_create 3 0 3 29) None)) s
    /\ SmartSelect.getLineage s
       = [Range_create 3 4 3 13; Range_create 3 3 3 14; Range_create 3 0 3 14;
          Range_create 3 0 3 29].
Proof.
  let v := eval vm_compute in
        (SmartSelect.createLinkRange HeaderRenameExample.links (mkPosition 3 5)
           (Some (mkSelectionRange (Range_create 3 0 3 29) None))) in
  lazymatch v with
  | Some ?s =>
      exists s; split; [vm_compute; reflexivity|];
      split; [|vm_compute; reflexivity];
      exact (proj1 (proj2 (createLinkRange_selects
                             HeaderRenameExample.links (mkPosition 3 5)
                             (Some (mkSelectionRange (Range_create 3 0 3 29) None)))
                      s ltac:(vm_compute; reflexivity)))
  end.
Defined.

Lemma createInlineRange_keeps_parent_witness :
  exists s,
    @SmartSelect.createInlineRange
      (InMemory.workspaceOf [InMemory.docOf "test.md" Examples.boldInLinkText])
      InMemory.helpers (InMemory.parserOf (Examples.paragraph 0 1))
      (InMemory.docOf "test.md" Examples.boldInLinkText) (mkPosition 0 6)
      (Some (mkSelectionRange (Range_create 0 0 0 16) None)) false
    = Ret (Some s)
    /\ expandsTo (Some (mkSelectionRange (Range_create 0 0 0 16) None)) s.
Proof.
  let v := eval vm_compute in
        (@SmartSelect.createInlineRange
           (InMemory.workspaceOf [InMemory.docOf "test.md" Examples.boldInLinkText])
           InMemory.helpers (InMemory.parserOf (Examples.paragraph 0 1))
           (InMemory.docOf "test.md" Examples.boldInLinkText) (mkPosition 0 6)
           (Some (mkSelectionRange (Range_create 0 0 0 16) None)) false) in
  lazymatch v with
  | Ret (Some ?s) =>
      exists s; split; [vm_compute; reflexivity|];
      exact (@createInlineRange_keeps_parent
               (InMemory.workspaceOf
                  [InMemory.docOf "test.md" Examples.boldInLinkText])
               InMemory.helpers (InMemory.parserOf (Examples.paragraph 0 1))
               (InMemory.docOf "test.md" Examples.boldInLinkText) (mkPosition 0 6)
               (Some (mkSelectionRange (Range_create 0 0 0 16) None)) false s
               ltac:(vm_compute; reflexivity))
  end.
Defined.

(* ------------------------------------------------------------------ *)
(** *** The chains of the selection-range provider *)

Section ProvidedChains.
Import SmartSelect.
Context {workspace : IWorkspace} {helpers : Helpers} {parser : IMdParser}
        {tocProvider : ITocProvider}.

(** X16.  [provideSelectionRanges] answers with at most one chain for
    each position, and with none when the request is cancelled.  In
    every chain of the answer, no selection has the range of its
    parent. *)
Theorem provideSelectionRanges_chains
        (document : ITextDocument) (positions : list Position)
        (cancelled : bool) (chains : list SelectionRange) :
  provideSelectionRanges document positions cancelled = Ret chains ->
  List.Forall distinctFromParents chains
  /\ (length chains <= length positions)%nat
  /\ (cancelled = true -> chains = []).
Proof.
  revert chains. induction positions as [|position rest IH]; intros chains Hrun.
  - injection Hrun as <-. split; [apply List.Forall_nil|]. split; [cbn; lia | reflexivity].
  - cbn [provideSelectionRanges] in Hrun.
    destruct (provideSelectionRange document position cancelled) as [r|] eqn:E;
      [|discriminate Hrun].
    cbn [mbind Outcome_bind] in Hrun.
    destruct (provideSelectionRanges document rest cancelled) as [rs|];
      [|discriminate Hrun].
    cbn [mbind Outcome_bind] in Hrun. injection Hrun as <-.
    destruct (IH rs eq_refl) as [Hall [Hlen Hcancel]].
    destruct r as [s|].
    + split; [|split].
      * apply List.Forall_cons; [|exact Hall].
        eapply provideSelectionRange_distinct. exact E.
      * cbn [length]. lia.
      * intros ->. discriminate E.
    + split; [exact Hall|]. split; [cbn [length]; lia | exact Hcancel].
Qed.

Lemma createHeaderRange_section header closest onLine parent child :
  expandsTo parent (createHeaderRange header closest onLine parent child)
  /\ In (sectionRange header)
        (getLineage (createHeaderRange header closest onLine parent child)).
Proof.
  assert (Hone : expandsTo parent (makeSelectionRange (sectionRange header) parent)
                 /\ In (sectionRange header)
                       (getLineage (makeSelectionRange (sectionRange header) parent))).
  { split; [apply makeSelectionRange_expandsTo | apply makeSelectionRange_holds]. }
  assert (Hover : forall r s,
             expandsTo parent s /\ In (sectionRange header) (getLineage s) ->
             expandsTo parent (makeSelectionRange r (Some s))
             /\ In (sectionRange header) (getLineage (makeSelectionRange r (Some s)))).
  { intros r s [He Hin]. split.
    - eapply expandsTo_trans; [exact He | apply makeSelectionRange_expandsTo].
    - eapply expandsTo_holds; [apply makeSelectionRange_expandsTo | exact Hin]. }
  unfold createHeaderRange. cbv zeta.
  destruct child as [child|].
  - destruct (onLine && closest); [apply Hover, Hone|].
    destruct closest; [apply Hover, Hover, Hone | apply Hover, Hone].
  - destruct (onLine && closest); [apply Hone | apply Hover, Hone].
Qed.

Lemma headerChain_sections document toc onLine headers :
  forall current,
    (forall s, headerChain document toc onLine headers current = Some s ->
               expandsTo current s
               /\ forall header, In header headers ->
                                 In (sectionRange header) (getLineage s))
    /\ (headerChain document toc onLine headers current = None ->
        headers = [] /\ current = None).
Proof.
  induction headers as [|header rest IH]; intros current; cbn [headerChain].
  - split.
    + intros s ->. split; [apply expandsTo_refl | intros header []].
    + intros ->. split; reflexivity.
  - match goal with
    | |- context [createHeaderRange ?h ?c ?o ?p ?ch] =>
        destruct (createHeaderRange_section h c o p ch) as [He Hin];
        set (node := createHeaderRange h c o p ch) in *
    end.
    destruct (IH (Some node)) as [Hsome Hnone]. split.
    + intros s Hs. destruct (Hsome s Hs) as [Hes Hall]. split.
      * eapply expandsTo_trans; [exact He | exact Hes].
      * intros h [<- | Hh]; [|apply Hall, Hh].
        eapply expandsTo_holds; [exact Hes | exact Hin].
    + intros Hs. destruct (Hnone Hs) as [_ Hcontra]. discriminate Hcontra.
Qed.

(** X17.  [#getHeaderSelectionRange] gives a chain exactly when the
    section of some header spans the line of the position, and then
    the section of every such header is one of the ranges of the
    chain. *)
Theorem getHeaderSelectionRange_sections
        (document : ITextDocument) (position : Position) :
  (getHeaderSelectionRange document position false = None
   <-> forall header,
         In header (entries (getForDocument document)) ->
         ~ (line (start (sectionRange header)) <= line position
            <= line (end_ (sectionRange header)))%Z)
  /\ (forall s header,
         getHeaderSelectionRange document position false = Some s ->
         In header (entries (getForDocument document)) ->
         (line (start (sectionRange header)) <= line position
          <= line (end_ (sectionRange header)))%Z ->
         In (sectionRange header) (getLineage s)).
Proof.
  unfold getHeaderSelectionRange. cbv zeta.
  pose proof (getHeadersForPosition_in (entries (getForDocument document)) position)
    as Hin.
  destruct (getHeadersForPosition (entries (getForDocument document)) position)
    as [headers onLine].
  cbn [fst] in Hin.
  destruct (headerChain_sections document (entries (getForDocument document))
                                 onLine headers None) as [Hsome Hnone].
  split; [split|].
  - intros Hchain header Hheader Hspan.
    destruct (Hnone Hchain) as [-> _].
    exact (proj2 (Hin header) (conj Hheader Hspan)).
  - intros Hall.
    destruct (headerChain _ _ _ headers None) as [s|] eqn:E; [|reflexivity].
    exfalso. destruct headers as [|header rest].
    + discriminate E.
    + destruct (proj1 (Hin header) (or_introl eq_refl)) as [Hheader Hspan].
      exact (Hall header Hheader Hspan).
  - intros s header Hchain Hheader Hspan.
    apply (proj2 (Hsome s Hchain)). apply Hin. split; assumption.
Qed.

End ProvidedChains.

Lemma provideSelectionRanges_chains_witness :
  exists chains,
    @SmartSelect.provideSelectionRanges
      (InMemory.workspaceOf [InMemory.docOf "test.md" Examples.boldInLinkText])
      InMemory.helpers (InMemory.parserOf (Examples.paragraph 0 1))
      Examples.noHeaders
      (InMemory.docOf "test.md" Examples.boldInLinkText)
      [mkPosition 0 6; mkPosition 5 0] false
    = Ret chains
    /\ List.Forall distinctFromParents chains
    /\ length chains = 1%nat.
Proof.
  let v := eval vm_compute in
        (@SmartSelect.provideSelectionRanges
           (InMemory.workspaceOf [InMemory.docOf "test.md" Examples.boldInLinkText])
           InMemory.helpers (InMemory.parserOf (Examples.paragraph 0 1))
           Examples.noHeaders
           (InMemory.docOf "test.md" Examples.boldInLinkText)
           [mkPosition 0 6; mkPosition 5 0] false) in
  lazymatch v with
  | Ret ?chains =>
      exists chains; split; [vm_compute; reflexivity|];
      split; [|vm_compute; reflexivity];
      exact (proj1 (@provideSelectionRanges_chains
                      (InMemory.workspaceOf
                         [InMemory.docOf "test.md" Examples.boldInLinkText])
                      InMemory.helpers (InMemory.parserOf (Examples.paragraph 0 1))
                      Examples.noHeaders
                      (InMemory.docOf "test.md" Examples.boldInLinkText)
                      [mkPosition 0 6; mkPosition 5 0] false chains
                      ltac:(vm_compute; reflexivity)))
  end.
Defined.

Lemma getHeaderSelectionRange_sections_witness :
  exists s,
    @SmartSelect.getHeaderSelectionRange
      HeaderRenameExample.tocProvider HeaderRenameExample.document
      (mkPosition 1 3) false = Some s
    /\ In (Range_create 1 0 1 8) (SmartSelect.getLineage s).
Proof.
  let v := eval vm_compute in
        (@SmartSelect.getHeaderSelectionRange
           HeaderRenameExample.tocProvider HeaderRenameExample.document
           (mkPosition 1 3) false) in
  let toc := eval vm_compute in
        (entries (HeaderRenameExample.tocOf HeaderRenameExample.document)) in
  lazymatch v with
  | Some ?s =>
      lazymatch toc with
      | _ :: ?header :: _ =>
          exists s; split; [vm_compute; reflexivity|];
          exact (proj2 (@getHeaderSelectionRange_sections
                          HeaderRenameExample.tocProvider
                          HeaderRenameExample.document (mkPosition 1 3))
                   s header
                   ltac:(vm_compute; reflexivity)
                   ltac:(vm_compute; right; left; reflexivity)
                   ltac:(vm_compute; split; discriminate))
      end
  end.
Defined.

(* ------------------------------------------------------------------ *)
(** *** What the answer of the link resolution tells *)

Section ResolvedTargets.
Import LinkProvider.
Context {workspace : IWorkspace} {helpers : Helpers}
        {pathHelpers : PathHelpers} {tocProvider : ITocProvider}.
Variable config : LsConfiguration.

Lemma probeTarget_answer linkPath cancelled :
  match probeTarget config linkPath cancelled with
  | inl (FolderTarget uri) =>
      uri = linkPath
      /\ (match stat uri with Some s => isDirectory s | None => false end = true
          \/ cancelled = true)
  | inl (FileTarget uri position fragment_) =>
      uri = linkPath /\ position = None /\ fragment_ = None
  | inl (ExternalTarget _) => False
  | inr target =>
      target = linkPath
      \/ tryAppendMarkdownFileExtension config linkPath = Some target
  end.
Proof.
  unfold probeTarget. cbv zeta.
  destruct (match getContainingDocument with
            | Some f => f linkPath
            | None => None
            end); [left; reflexivity|].
  destruct (match stat linkPath with Some s => isDirectory s | None => false end)
    eqn:Edir; [split; [reflexivity | left; exact Edir]|].
  destruct cancelled; [split; [reflexivity | right; reflexivity]|].
  destruct (stat linkPath); [left; reflexivity|].
  destruct (tryAppendMarkdownFileExtension config linkPath) as [dotMd|];
    [|repeat split].
  destruct (stat dotMd); [right; reflexivity | repeat split].
Qed.

(** X18.  An answer of [resolveLinkTarget] is about the target the
    link text resolves to.  It is never an external target.  It is a
    folder only when the workspace knows the target as a directory, or
    when the request was cancelled.  A fragment in the answer is the
    fragment of the link, found in the table of contents of the target
    document, and the answer then points at the start of that header.
    A position without a fragment is what the fragment gives as a line
    number.  Without a fragment, the file of the answer is the target
    or the target with a Markdown extension added. *)
Theorem resolveLinkTarget_answer
        (linkText : jsstring) (sourceDoc : URI) (cancelled : bool)
        (answer : ResolvedDocumentLinkTarget) :
  resolveLinkTarget config linkText sourceDoc cancelled = Ret (Some answer) ->
  exists resolved,
    resolveInternalDocumentLink sourceDoc linkText workspace = Ret (Some resolved)
    /\ match answer with
       | ExternalTarget _ => False
       | FolderTarget uri =>
           uri = target_resource resolved
           /\ (match stat uri with Some s => isDirectory s | None => false end = true
               \/ cancelled = true)
       | FileTarget uri position (Some fragment_) =>
           cancelled = false
           /\ fragment_ = linkFragment resolved
           /\ exists file doc entry,
                openMarkdownDocument file = Some doc
                /\ lookupByFragment (getForContainingDoc doc) fragment_ = Some entry
                /\ uri = loc_uri (headerLocation entry)
                /\ position = Some (start (loc_range (headerLocation entry)))
       | FileTarget uri position None =>
           (uri = target_resource resolved
            \/ tryAppendMarkdownFileExtension config (target_resource resolved)
               = Some uri)
           /\ match position with
              | Some p => parseLocationInfoFromFragment (linkFragment resolved) = Some p
              | None => True
              end
       end.
Proof.
  unfold resolveLinkTarget.
  destruct (snd (createHref sourceDoc linkText)) as [[[| |]|]|];
    cbn [mbind Outcome_bind]; try discriminate.
  destruct (resolveInternalDocumentLink sourceDoc linkText workspace)
    as [[resolved|]|]; cbn [mbind Outcome_bind]; try discriminate.
  intros [= <-]. exists resolved. split; [reflexivity|].
  unfold resolveInternalLinkTarget.
  pose proof (probeTarget_answer (target_resource resolved) cancelled) as Hprobe.
  destruct (probeTarget config (target_resource resolved) cancelled)
    as [[uri position fragment_|uri|uri]|file].
  - destruct Hprobe as [-> [-> ->]]. split; [left; reflexivity | exact I].
  - exact Hprobe.
  - exact Hprobe.
  - destruct (Js.isEmpty (linkFragment resolved)); [split; [exact Hprobe | exact I]|].
    destruct (parseLocationInfoFromFragment (linkFragment resolved)) as [p|] eqn:Ep;
      [split; [exact Hprobe | reflexivity]|].
    destruct cancelled; [split; [exact Hprobe | exact I]|].
    destruct (openMarkdownDocument file) as [doc|] eqn:Edoc;
      [|split; [exact Hprobe | exact I]].
    destruct (lookupByFragment (getForContainingDoc doc) (linkFragment resolved))
      as [entry|] eqn:Eentry; [|split; [exact Hprobe | exact I]].
    split; [reflexivity|]. split; [reflexivity|].
    exists file, doc, entry. repeat split; assumption.
Qed.

End ResolvedTargets.

Lemma resolveLinkTarget_answer_witness :
  exists answer resolved,
    @LinkProvider.resolveLinkTarget
      HeadingExample.workspace InMemory.helpers InMemoryPaths.pathHelpers
      HeadingExample.tocProvider InMemoryPaths.config
      (lit "./x.md#heading") HeadingExample.source false
    = Ret (Some answer)
    /\ @resolveInternalDocumentLink InMemory.helpers
         HeadingExample.source (lit "./x.md#heading") HeadingExample.workspace
       = Ret (Some resolved)
    /\ answer = FileTarget (InMemory.workspacePath "x.md") (Some (mkPosition 0 0))
                           (Some (linkFragment resolved)).
Proof.
  let v := eval vm_compute in
        (@LinkProvider.resolveLinkTarget
           HeadingExample.workspace InMemory.helpers InMemoryPaths.pathHelpers
           HeadingExample.tocProvider InMemoryPaths.config
           (lit "./x.md#heading") HeadingExample.source false) in
  lazymatch v with
  | Ret (Some ?answer) =>
      exists answer;
      destruct (@resolveLinkTarget_answer
                  HeadingExample.workspace InMemory.helpers
                  InMemoryPaths.pathHelpers HeadingExample.tocProvider
                  InMemoryPaths.config
                  (lit "./x.md#heading") HeadingExample.source false answer
                  ltac:(vm_compute; reflexivity))
        as [resolved [Hresolved [_ [Hfragment _]]]];
      exists resolved; split; [vm_compute; reflexivity|];
      split; [exact Hresolved|];
      rewrite <- Hfragment; vm_compute; reflexivity
  end.
Defined.

(* ------------------------------------------------------------------ *)
(** *** The ranges without links of a document *)

Section ComputedNoLinkRanges.

Lemma fold_left_add_ranges {A : Type} (f : A -> Range) (l : list A) :
  forall m,
    fold_left (fun acc a => InlineRanges_add acc (f a)) l m
    = fold_left InlineRanges_add (map f l) m.
Proof.
  induction l as [|a l IH]; intros m; cbn [fold_left map]; [reflexivity|].
  apply IH.
Qed.

(** X19.  The ranges without links that [NoLinkRanges.compute] builds
    for a document contain a position exactly when a code block, a
    fence or a block of HTML among the tokens, of another type than the
    excluded one, holds the line of the position, or when the range of
    a match of the inline code pattern holds the position. *)
Theorem NoLinkRanges_compute_contains
        (tokens : list Token) (document : ITextDocument)
        (position : Position) (excludeType : jsstring) :
  contains (NoLinkRanges_compute tokens document) position excludeType
  = existsb (blocksLine excludeType (line position)) tokens
    || existsb (fun m => rangeContainsPosition (codeSpanRange document m) position)
               (Regex.matchAll inlineCodePattern (getText document)).
Proof.
  unfold contains, NoLinkRanges_compute. cbv zeta. cbn [multiline inline].
  f_equal.
  - induction tokens as [|t tokens IH]; [reflexivity|].
    cbn [omap list_omap existsb]. unfold blocksLine at 1.
    destruct (isCodeLikeBlock t) eqn:Eblock.
    + destruct (tok_map t) as [[m0 m1]|]; cbn [option_map existsb andb].
      * rewrite IH. rewrite andb_assoc. reflexivity.
      * rewrite andb_false_r. exact IH.
    + cbn [andb orb]. exact IH.
  - rewrite (fold_left_add_ranges (codeSpanRange document)).
    rewrite InlineRanges_fold_get.
    unfold InlineRanges_get at 1. rewrite lookup_empty. cbn [default app].
    rewrite existsb_filter_implied by (intros r; apply rangeContainsPosition_covers).
    induction (Regex.matchAll inlineCodePattern (getText document)) as [|m ms IH];
      cbn [map existsb]; [reflexivity|].
    rewrite IH. reflexivity.
Qed.

End ComputedNoLinkRanges.

(* ------------------------------------------------------------------ *)
(** *** Requests that the rename provider answers with nothing *)

Section RenameRequests.
Import Rename PrepareRename.
Context {workspace : IWorkspace} {helpers : Helpers} {pathHelpers : PathHelpers}
        {tocProvider : ITocProvider} {slugifier : ISlugifier}
        {referencesProvider : IReferencesProvider}.
Variable configuration : LsConfiguration.

Lemma getAllReferences_cancelled cachedRefs document position :
  snd (getAllReferences cachedRefs document position true) = cachedRefs.
Proof.
  unfold getAllReferences. destruct cachedRefs as [c|]; [|reflexivity].
  destruct (cacheHit c document position); reflexivity.
Qed.

(** X20.  A cancelled request for a rename is answered with
    [undefined], whatever the cache holds, and leaves the cache as it
    was.  Without a cache, [provideRenameEdits] also answers with
    [undefined], and does not throw, when no reference at the position
    is a trigger. *)
Theorem rename_requests_without_answer
        (cachedRefs : option CachedRefs) (document : ITextDocument)
        (position : Position) (newName : jsstring) :
  prepareRename cachedRefs document position true = (Ret None, cachedRefs)
  /\ provideRenameEdits configuration cachedRefs document position newName true
     = (Ret None, cachedRefs)
  /\ (find isTriggerLocation (getReferencesAtPosition document position) = None ->
      provideRenameEdits configuration None document position newName false
      = (Ret None, None)).
Proof.
  split; [|split].
  - unfold prepareRename.
    pose proof (getAllReferences_cancelled cachedRefs document position) as Hc.
    destruct (getAllReferences cachedRefs document position true) as [r c].
    cbn [snd] in Hc. subst c. reflexivity.
  - unfold provideRenameEdits.
    pose proof (getAllReferences_cancelled cachedRefs document position) as Hc.
    destruct (getAllReferences cachedRefs document position true) as [r c].
    cbn [snd] in Hc. subst c. destruct r; reflexivity.
  - intros Hnone. unfold provideRenameEdits, getAllReferences.
    rewrite Hnone. reflexivity.
Qed.

(** The loop of [#renameFilePath] over the references. *)
Lemma renameFilePath_loop rawNewFilePath newName refs :
  forall builder edit,
    fold_left
      (fun acc ref =>
         builder ← acc;
         match ref with
         | LinkReference _ _ _ link =>
             e ← linkRenameEditFor link rawNewFilePath newName;
             Ret (builder_replace builder (resource (source link))
                                  (edit_range e) (edit_newText e))
         | HeaderReference _ _ _ _ _ => Ret builder
         end)
      refs (Ret builder) = Ret edit ->
    exists textEdits,
      edit = builder ++ textEdits
      /\ forallb isTextEdit textEdits = true
      /\ flat_map editedResource textEdits = linkResources refs.
Proof.
  induction refs as [|ref refs IH]; intros builder edit Hrun; cbn [fold_left] in Hrun.
  - injection Hrun as <-. exists []. rewrite app_nil_r. repeat split.
  - cbn [mbind Outcome_bind] in Hrun.
    destruct ref as [? ? ? ? ?|? ? location link].
    + apply IH in Hrun as [textEdits [-> [Htext Hres]]].
      exists textEdits. repeat split; assumption.
    + destruct (linkRenameEditFor link rawNewFilePath newName) as [e|].
      * cbn [mbind Outcome_bind] in Hrun.
        apply IH in Hrun as [textEdits [-> [Htext Hres]]].
        exists (Replace (resource (source link)) (edit_range e) (edit_newText e)
                        :: textEdits).
        unfold builder_replace. rewrite <- app_assoc. cbn [app].
        split; [reflexivity|]. split; [exact Htext|].
        cbn [flat_map linkResources editedResource app]. f_equal. exact Hres.
      * exfalso. cbn [mbind Outcome_bind] in Hrun.
        clear IH. induction refs as [|r refs IH]; cbn [fold_left] in Hrun;
          [discriminate Hrun | exact (IH Hrun)].
Qed.

(** X21.  The edit of [#renameFilePath].  It is empty when the request
    is cancelled or when the new name does not resolve to a path.
    Otherwise it is made, in some order, of text edits, one in the
    document of every link among the references, and, exactly when the
    workspace has the file the link points to, of one rename of that
    file. *)
Theorem renameFilePath_edit
        (triggerDocument triggerHrefPath : URI)
        (allRefsInfo : MdReferencesResponse) (newName : jsstring)
        (cancelled : bool) (edit : WorkspaceEdit) :
  renameFilePath configuration triggerDocument triggerHrefPath allRefsInfo
                 newName cancelled = Ret edit ->
  let targetUri :=
    default triggerHrefPath
            (statLinkToMarkdownFile configuration workspace triggerHrefPath) in
  (cancelled = true -> edit = [])
  /\ (resolveInternalDocumentLink triggerDocument newName workspace = Ret None ->
      edit = [])
  /\ (cancelled = false ->
      resolveInternalDocumentLink triggerDocument newName workspace <> Ret None ->
      exists textEdits,
        forallb isTextEdit textEdits = true
        /\ Permutation (flat_map editedResource textEdits)
                       (linkResources (references allRefsInfo))
        /\ match stat targetUri with
           | Some _ =>
               exists newPath,
                 Permutation edit (RenameFile targetUri newPath :: textEdits)
           | None => Permutation edit textEdits
           end).
Proof.
  intros Hrun targetUri. unfold renameFilePath in Hrun. cbv zeta in Hrun.
  fold targetUri in Hrun.
  destruct cancelled.
  { injection Hrun as <-. repeat split; [discriminate]. }
  destruct (resolveInternalDocumentLink triggerDocument newName workspace)
    as [[rawNewFilePath|]|]; cbn [mbind Outcome_bind] in Hrun;
    [| |discriminate Hrun].
  2:{ injection Hrun as <-. repeat split. intros _ Hcontra. exfalso.
      apply Hcontra. reflexivity. }
  split; [discriminate|]. split; [discriminate|]. intros _ _.
  apply renameFilePath_loop in Hrun as [textEdits [-> [Htext Hres]]].
  exists textEdits. split; [exact Htext|].
  split; [rewrite Hres; apply Permutation_refl|].
  destruct (stat targetUri); [|apply Permutation_refl].
  eexists. apply Permutation_refl.
Qed.

End RenameRequests.

Lemma renameFilePath_edit_witness :
  exists allRefsInfo edit newPath textEdits,
    PathRenameExample.response = Some allRefsInfo
    /\ @Rename.renameFilePath
         RenameExample.workspace InMemory.helpers InMemoryPaths.pathHelpers
         InMemoryPaths.config
         (InMemory.workspacePath "sub/b.md") (InMemory.workspacePath "other/a.md")
         allRefsInfo (lit "../other/c.md") false
       = Ret edit
    /\ Permutation edit
                   (RenameFile (InMemory.workspacePath "other/a.md") newPath
                               :: textEdits)
    /\ Permutation (flat_map editedResource textEdits)
                   [InMemory.workspacePath "sub/b.md"].
Proof.
  let found := eval vm_compute in PathRenameExample.response in
  lazymatch found with
  | Some ?allRefsInfo =>
      let v := eval vm_compute in
            (@Rename.renameFilePath
               RenameExample.workspace InMemory.helpers InMemoryPaths.pathHelpers
               InMemoryPaths.config
               (InMemory.workspacePath "sub/b.md")
               (InMemory.workspacePath "other/a.md")
               allRefsInfo (lit "../other/c.md") false) in
      lazymatch v with
      | Ret ?edit =>
          exists allRefsInfo, edit;
          destruct (proj2 (proj2
                      (@renameFilePath_edit
                         RenameExample.workspace InMemory.helpers
                         InMemoryPaths.pathHelpers InMemoryPaths.config
                         (InMemory.workspacePath "sub/b.md")
                         (InMemory.workspacePath "other/a.md")
                         allRefsInfo (lit "../other/c.md") false edit
                         ltac:(vm_compute; reflexivity)))
                      eq_refl ltac:(vm_compute; discriminate))
            as [textEdits [_ [Hresources Hedit]]]
      end
  end.
  vm_compute in Hedit. destruct Hedit as [newPath Hedit].
  exists newPath, textEdits.
  split; [vm_compute; reflexivity|]. split; [vm_compute; reflexivity|].
  split; [exact Hedit|].
  vm_compute in Hresources. exact Hresources.
Defined.

(* ------------------------------------------------------------------ *)
(** *** The documents a batch of file renames edits *)

Section EditedByFileRename.
Import FileRename Rename.
Context {workspace : IWorkspace} {helpers : Helpers} {pathHelpers : PathHelpers}
        {referencesProvider : IReferencesProvider} {linkCache : ILinkCache}.
Variable config : LsConfiguration.

Lemma lands_skip allowed b : adds allowed (fun builder => Ret (b, builder)).
Proof.
  intros builder r [= <-]. exists []. cbn. rewrite app_nil_r.
  split; [reflexivity | apply List.Forall_nil].
Qed.

Lemma landsIn_weaken (allowed allowed' : URI -> Prop) op :
  (forall resource, allowed resource -> allowed' resource) ->
  landsIn allowed op -> landsIn allowed' op.
Proof. intros H. destruct op; cbn; auto. Qed.

Lemma lands_weaken (allowed allowed' : URI -> Prop) step :
  (forall resource, allowed resource -> allowed' resource) ->
  adds allowed step -> adds allowed' step.
Proof.
  intros H Hstep builder r Hrun.
  destruct (Hstep builder r Hrun) as [added [Hr Hall]].
  exists added. split; [exact Hr|].
  eapply List.Forall_impl; [|exact Hall].
  intros op. apply landsIn_weaken. exact H.
Qed.

Lemma forEachEdit_lands {A : Type} allowed
      (step : A -> WorkspaceEdit -> Outcome (bool * WorkspaceEdit)) (l : list A) :
  (forall a, In a l -> adds allowed (step a)) ->
  forall didParticipate, adds allowed (forEachEdit step l didParticipate).
Proof.
  induction l as [|a rest IH]; intros Hstep d builder r Hrun.
  - injection Hrun as <-. exists []. cbn. rewrite app_nil_r.
    split; [reflexivity | apply List.Forall_nil].
  - cbn [forEachEdit] in Hrun.
    destruct (step a builder) as [r1|] eqn:E1; [|discriminate Hrun].
    cbn [mbind Outcome_bind] in Hrun.
    destruct (Hstep a (or_introl eq_refl) builder r1 E1) as [a1 [H1 T1]].
    destruct (IH (fun x Hx => Hstep x (or_intror Hx)) _ _ _ Hrun) as [a2 [H2 T2]].
    exists (a1 ++ a2). rewrite H2, H1, <- app_assoc.
    split; [reflexivity | apply List.Forall_app; split; assumption].
Qed.

Lemma lands_replace (allowed : URI -> Prop) builder doc range text :
  allowed doc ->
  exists added,
    builder_replace builder doc range text = builder ++ added
    /\ List.Forall (landsIn allowed) added.
Proof.
  intros H. exists [Replace doc range text]. split; [reflexivity|].
  apply List.Forall_cons; [exact H | apply List.Forall_nil].
Qed.

Lemma addLinkRenameEdit_lands doc link newUri_ :
  adds (eq doc) (addLinkRenameEdit config doc link newUri_).
Proof.
  intros builder r Hrun. unfold addLinkRenameEdit in Hrun.
  destruct (href link); try (eapply lands_skip; exact Hrun).
  destruct (getLinkRenameText _ _ _) as [[text|]|]; cbn [mbind Outcome_bind] in Hrun;
    [| |discriminate Hrun].
  - injection Hrun as <-. apply lands_replace. reflexivity.
  - eapply lands_skip. exact Hrun.
Qed.

Lemma addEditsForLinksInSelf_lands doc link rename allEdits :
  adds (eq (getDocUri doc)) (addEditsForLinksInSelf config doc link rename allEdits).
Proof.
  intros builder r Hrun. unfold addEditsForLinksInSelf in Hrun.
  destruct (href link); try (eapply lands_skip; exact Hrun).
  destruct (Js.startsWith _ _); [eapply lands_skip; exact Hrun|].
  destruct (Js.startsWith _ _); [eapply lands_skip; exact Hrun|].
  destruct (resolveInternalDocumentLink _ _ _) as [[oldLink|]|];
    cbn [mbind Outcome_bind] in Hrun; [| |discriminate Hrun].
  - eapply addLinkRenameEdit_lands. exact Hrun.
  - eapply lands_skip. exact Hrun.
Qed.

Lemma tryAddEditsInSelf_lands rename allEdits :
  adds (isRenamedDocument rename) (tryAddEditsInSelf config rename allEdits).
Proof.
  intros builder r Hrun. unfold tryAddEditsInSelf in Hrun.
  destruct (negb _); [eapply lands_skip; exact Hrun|].
  destruct (isExcludedPath _ _); [eapply lands_skip; exact Hrun|].
  destruct (openMarkdownDocument _) as [doc|] eqn:Edoc;
    [|eapply lands_skip; exact Hrun].
  eapply forEachEdit_lands; [|exact Hrun].
  intros link _. eapply lands_weaken; [|apply addEditsForLinksInSelf_lands].
  intros resource <-. exists doc. split; [exact Edoc | reflexivity].
Qed.

Lemma addEditsForReferencesToFile_lands rename cancelled :
  adds (referencesOldFile rename)
       (fun builder => addEditsForReferencesToFile config rename builder cancelled).
Proof.
  intros builder r Hrun. unfold addEditsForReferencesToFile in Hrun.
  destruct (isExcludedPath _ _); [eapply lands_skip; exact Hrun|].
  destruct cancelled; [eapply lands_skip; exact Hrun|].
  eapply forEachEdit_lands; [|exact Hrun].
  intros [? ? ? ? ?|t d location link] Hin.
  - apply lands_skip.
  - eapply lands_weaken; [|apply addLinkRenameEdit_lands].
    intros resource <-. exists t, d, location, link.
    split; [exact Hin | reflexivity].
Qed.

Lemma addSingleFileRenameEdits_lands rename allEdits cancelled :
  adds (fun resource =>
          referencesOldFile rename resource \/ isRenamedDocument rename resource)
       (fun builder =>
          addSingleFileRenameEdits config rename allEdits builder cancelled).
Proof.
  intros builder r Hrun. unfold addSingleFileRenameEdits in Hrun.
  destruct (addEditsForReferencesToFile config rename builder cancelled)
    as [r1|] eqn:E1; [|discriminate Hrun].
  cbn [mbind Outcome_bind] in Hrun.
  apply addEditsForReferencesToFile_lands in E1 as [a1 [H1 T1]].
  assert (T1' : List.Forall
                  (landsIn (fun resource =>
                              referencesOldFile rename resource
                              \/ isRenamedDocument rename resource)) a1).
  { eapply List.Forall_impl; [|exact T1].
    intros op. apply landsIn_weaken. intros resource H. left. exact H. }
  destruct cancelled.
  - injection Hrun as <-. exists a1. split; [exact H1 | exact T1'].
  - destruct (tryAddEditsInSelf config rename allEdits (snd r1)) as [r2|] eqn:E2;
      [|discriminate Hrun].
    cbn [mbind Outcome_bind] in Hrun. injection Hrun as <-.
    apply tryAddEditsInSelf_lands in E2 as [a2 [H2 T2]].
    exists (a1 ++ a2). cbn [snd]. rewrite H2, H1, <- app_assoc.
    split; [reflexivity|]. apply List.Forall_app. split; [exact T1'|].
    eapply List.Forall_impl; [|exact T2].
    intros op. apply landsIn_weaken. intros resource H. right. exact H.
Qed.

Lemma directoryRenameEditsForLink_lands rename docUri link :
  adds (eq docUri) (directoryRenameEditsForLink config rename docUri link).
Proof.
  intros builder r Hrun. unfold directoryRenameEditsForLink in Hrun.
  destruct (href link) as [|hrefPath fragment_|];
    try (eapply lands_skip; exact Hrun).
  destruct (Js.startsWith _ _); [eapply lands_skip; exact Hrun|].
  assert (Hlater :
            forall r,
              (if Js.startsWith (hrefText (source link)) ["."%char; "."%char]
                  && isParentDir (newUri rename) docUri
               then
                 oldLink ← resolveInternalDocumentLink
                             (URI_withPath docUri
                                (path (Utils_joinPath (oldUri rename)
                                         (posix_relative (path (newUri rename))
                                                         (path docUri)))))
                             (hrefText (source link)) workspace;
                 match oldLink with
                 | None => Ret (false, builder)
                 | Some oldLink =>
                     let newPathText :=
                       if isParentDir (oldUri rename) (target_resource oldLink) then
                         "."%char :: "/"%char ::
                           posix_relative
                             (path (Utils_dirname
                                      (URI_withPath docUri
                                         (path (Utils_joinPath (oldUri rename)
                                                  (posix_relative
                                                     (path (newUri rename))
                                                     (path docUri)))))))
                             (path (target_resource oldLink))
                       else
                         posix_relative (path (Utils_dirname docUri))
                                        (path (target_resource oldLink)) in
                     let replacementPath := encodeURI newPathText in
                     if negb (Js.eqb replacementPath (hrefPathText (source link)))
                     then
                       let e := getLinkRenameEdit link replacementPath in
                       Ret (true, builder_replace builder docUri
                                                  (edit_range e) (edit_newText e))
                     else Ret (false, builder)
                 end
               else Ret (false, builder)) = Ret r ->
              exists added,
                snd r = builder ++ added /\ List.Forall (landsIn (eq docUri)) added).
  { intros r' Hr.
    destruct (_ && _); [|eapply lands_skip; exact Hr].
    destruct (resolveInternalDocumentLink _ _ _) as [[oldLink|]|];
      cbn [mbind Outcome_bind] in Hr; [| |discriminate Hr].
    - cbv zeta in Hr. destruct (negb _); injection Hr as <-.
      + apply lands_replace. reflexivity.
      + exists []. cbn. rewrite app_nil_r.
        split; [reflexivity | apply List.Forall_nil].
    - eapply lands_skip. exact Hr. }
  destruct (isParentDir (oldUri rename) hrefPath).
  - destruct (addLinkRenameEdit _ _ _ _ _) as [first|] eqn:E1;
      [|discriminate Hrun].
    destruct (fst first).
    + injection Hrun as <-. eapply addLinkRenameEdit_lands. exact E1.
    + apply Hlater. exact Hrun.
  - cbn [fst] in Hrun. apply Hlater. exact Hrun.
Qed.

Lemma addDirectoryRenameEdits_lands rename cancelled :
  adds inLinkCache
       (fun builder => addDirectoryRenameEdits config rename builder cancelled).
Proof.
  intros builder r Hrun. unfold addDirectoryRenameEdits in Hrun.
  destruct cancelled; [eapply lands_skip; exact Hrun|].
  eapply forEachEdit_lands; [|exact Hrun].
  intros [docUri links] Hentry builder' r' Hrun'.
  eapply forEachEdit_lands; [|exact Hrun'].
  intros link _. eapply lands_weaken; [|apply directoryRenameEditsForLink_lands].
  intros resource <-. exists links. exact Hentry.
Qed.

Lemma renameLoop_lands allEdits cancelled remaining :
  forall participating builder response,
    renameLoop config remaining allEdits cancelled participating builder
    = Ret (Some response) ->
    exists added,
      edit response = builder ++ added
      /\ List.Forall
           (landsIn (fun resource =>
                       inLinkCache resource
                       \/ exists rename,
                            In rename remaining
                            /\ (referencesOldFile rename resource
                                \/ isRenamedDocument rename resource)))
           added.
Proof.
  induction remaining as [|rename rest IH];
    intros participating builder response Hrun.
  - injection Hrun as <-. exists []. cbn. rewrite app_nil_r.
    split; [reflexivity | apply List.Forall_nil].
  - cbn [renameLoop] in Hrun.
    destruct cancelled; [discriminate Hrun|].
    set (step := if match stat (newUri rename) with
                       | Some s => isDirectory s
                       | None => false
                       end
                 then addDirectoryRenameEdits config rename builder false
                 else addSingleFileRenameEdits config rename allEdits builder false)
      in Hrun.
    assert (Hstep :
              forall r, step = Ret r ->
                exists added,
                  snd r = builder ++ added
                  /\ List.Forall
                       (landsIn (fun resource =>
                                   inLinkCache resource
                                   \/ exists rename0,
                                        In rename0 (rename :: rest)
                                        /\ (referencesOldFile rename0 resource
                                            \/ isRenamedDocument rename0 resource)))
                       added).
    { intros r Hr. unfold step in Hr.
      destruct (match stat (newUri rename) with
                | Some s => isDirectory s
                | None => false
                end).
      - apply addDirectoryRenameEdits_lands in Hr as [added [H1 T1]].
        exists added. split; [exact H1|].
        eapply List.Forall_impl; [|exact T1].
        intros op. apply landsIn_weaken. intros resource H. left. exact H.
      - apply addSingleFileRenameEdits_lands in Hr as [added [H1 T1]].
        exists added. split; [exact H1|].
        eapply List.Forall_impl; [|exact T1].
        intros op. apply landsIn_weaken. intros resource H. right.
        exists rename. split; [left; reflexivity | exact H]. }
    destruct step as [[didParticipate builder1]|]; [|discriminate Hrun].
    cbn [mbind Outcome_bind] in Hrun.
    destruct (Hstep _ eq_refl) as [a1 [H1 T1]]. cbn [snd] in H1.
    destruct (IH _ _ _ Hrun) as [a2 [H2 T2]].
    exists (a1 ++ a2). rewrite H2, H1, <- app_assoc.
    split; [reflexivity|]. apply List.Forall_app. split; [exact T1|].
    eapply List.Forall_impl; [|exact T2].
    intros op. apply landsIn_weaken.
    intros resource [H | [rename0 [Hin H]]]; [left; exact H|].
    right. exists rename0. split; [right; exact Hin | exact H].
Qed.

(** X22.  The documents a batch of file renames edits.  Every
    operation of the edit of [getRenameFilesInWorkspaceEdit] is a text
    edit in a document of the link cache, in a document whose link the
    references provider reports as a reference to the old file of a
    rename of the batch, or in a renamed file of the batch itself,
    opened at its new place. *)
Theorem file_rename_edited_documents
        (edits : list FileRename) (cancelled : bool)
        (response : FileRenameResponse) (op : EditOperation) :
  getRenameFilesInWorkspaceEdit config edits cancelled = Ret (Some response) ->
  In op (edit response) ->
  landsIn (fun resource =>
             inLinkCache resource
             \/ exists rename,
                  In rename edits
                  /\ (referencesOldFile rename resource
                      \/ isRenamedDocument rename resource))
          op.
Proof.
  intros Hrun Hop. unfold getRenameFilesInWorkspaceEdit in Hrun.
  apply renameLoop_lands in Hrun as [added [Hedit Hall]].
  cbn [app] in Hedit. rewrite Hedit in Hop.
  rewrite List.Forall_forall in Hall. exact (Hall op Hop).
Qed.

End EditedByFileRename.
Lemma file_rename_edited_documents_witness :
  exists response,
    @FileRename.getRenameFilesInWorkspaceEdit
      RenameExample.workspace InMemory.helpers InMemoryPaths.pathHelpers
      RenameExample.referencesProvider RenameExample.linkCache
      InMemoryPaths.config RenameExample.batch false
    = Ret (Some response)
    /\ List.Forall
         (landsIn (fun resource =>
                     @inLinkCache RenameExample.linkCache resource
                     \/ exists rename,
                          In rename RenameExample.batch
                          /\ (@referencesOldFile RenameExample.referencesProvider
                                rename resource
                              \/ @isRenamedDocument RenameExample.workspace
                                   rename resource)))
         (FileRename.edit response).
Proof.
  let v := eval vm_compute in
        (@FileRename.getRenameFilesInWorkspaceEdit
           RenameExample.workspace InMemory.helpers InMemoryPaths.pathHelpers
           RenameExample.referencesProvider RenameExample.linkCache
           InMemoryPaths.config RenameExample.batch false) in
  lazymatch v with
  | Ret (Some ?response) =>
      exists response; split; [vm_compute; reflexivity|];
      apply List.Forall_forall; intros op Hop;
      exact (@file_rename_edited_documents
               RenameExample.workspace InMemory.helpers
               InMemoryPaths.pathHelpers RenameExample.referencesProvider
               RenameExample.linkCache InMemoryPaths.config
               RenameExample.batch false response op
               ltac:(vm_compute; reflexivity) Hop)
  end.
Defined.

(* ------------------------------------------------------------------ *)
(** *** Texts without the characters a pattern needs *)

Section NeededCharacters.
Import Regex.
Variable inp : jsstring.

Lemma reaches_trans (x y z : State) : reaches x y -> reaches y z -> reaches x z.
Proof.
  intros [p1 H1] [p2 H2]. exists (p1 ++ p2). rewrite H1, H2, app_assoc. reflexivity.
Qed.

Lemma consume_reaches (sub : jsstring) :
  forall x y, consume sub x = Some y -> reaches x y.
Proof.
  induction sub as [|a sub IH]; intros x y H; cbn [consume] in H.
  - injection H as <-. exists []. reflexivity.
  - unfold advance in H. destruct (st_rest x) as [|b t] eqn:E; [discriminate H|].
    destruct (Ascii.eqb a b); [|discriminate H].
    apply IH in H as [pre H]. cbn [st_rest] in H.
    exists (b :: pre). rewrite E, H. reflexivity.
Qed.

(** A matcher answers with what its continuation answers: when the
    continuation fails on every end of the input, the matcher fails. *)
Lemma repeatMatcher_fails (m : Matcher) greedy gs :
  (forall x c, (forall y, reaches x y -> c y = None) -> m x c = None) ->
  forall fuel x c,
    (forall y, reaches x y -> c y = None) ->
    repeatMatcher m greedy gs fuel x c = None.
Proof.
  intros Hm. induction fuel as [|fuel IH]; intros x c Hc; [reflexivity|].
  cbn [repeatMatcher].
  assert (Hx : c x = None) by (apply Hc; exists []; reflexivity).
  assert (Hd : m (withCaps x (clearCaptures gs (st_caps x)))
                 (fun y => if Nat.eqb (st_pos y) (st_pos x) then None
                           else repeatMatcher m greedy gs fuel y c) = None).
  { apply Hm. intros y Hy. destruct (Nat.eqb _ _); [reflexivity|].
    apply IH. intros z Hz. apply Hc.
    eapply reaches_trans; [exact Hy | exact Hz]. }
  destruct greedy; rewrite Hx, Hd; reflexivity.
Qed.

Lemma matcher_fails (r : regex) :
  forall x c, (forall y, reaches x y -> c y = None) -> matcher inp r x c = None.
Proof.
  induction r as [|p|r1 IH1 r2 IH2|r1 IH1 r2 IH2|greedy r IH|greedy r IH
                  |greedy r IH|i r IH|i|multiline|multiline|p|r IH];
    intros x c Hc; cbn [matcher].
  - apply Hc. exists []. reflexivity.
  - unfold advance. destruct (st_rest x) as [|a t] eqn:E; [reflexivity|].
    destruct (p a); [|reflexivity].
    apply Hc. exists [a]. first [rewrite E; reflexivity | reflexivity].
  - apply IH1. intros y Hy. apply IH2. intros z Hz. apply Hc.
    eapply reaches_trans; [exact Hy | exact Hz].
  - rewrite IH1, IH2 by exact Hc. reflexivity.
  - apply repeatMatcher_fails; [exact IH | exact Hc].
  - apply IH. intros y Hy. apply repeatMatcher_fails; [exact IH|].
    intros z Hz. apply Hc. eapply reaches_trans; [exact Hy | exact Hz].
  - assert (Hx : c x = None) by (apply Hc; exists []; reflexivity).
    assert (Hd : matcher inp r
                   (withCaps x (clearCaptures (groupsOf r) (st_caps x)))
                   (fun y => if Nat.eqb (st_pos y) (st_pos x) then None else c y)
                 = None).
    { apply IH. intros y Hy. destruct (Nat.eqb _ _); [reflexivity|].
      apply Hc. exact Hy. }
    destruct greedy; rewrite Hx, Hd; reflexivity.
  - apply IH. intros y Hy. apply Hc. exact Hy.
  - destruct (lookupCapture i (st_caps x)) as [[s e]|].
    + destruct (consume (Js.slice inp s e) x) as [y|] eqn:E; [|reflexivity].
      apply Hc. eapply consume_reaches. exact E.
    + apply Hc. exists []. reflexivity.
  - assert (Hx : c x = None) by (apply Hc; exists []; reflexivity).
    destruct (st_prev x) as [a|]; [|exact Hx].
    destruct (_ && _); [exact Hx | reflexivity].
  - assert (Hx : c x = None) by (apply Hc; exists []; reflexivity).
    destruct (st_rest x) as [|a t]; [exact Hx|].
    destruct (_ && _); [exact Hx | reflexivity].
  - assert (Hx : c x = None) by (apply Hc; exists []; reflexivity).
    destruct (st_prev x) as [a|]; [|exact Hx].
    destruct (p a); [reflexivity | exact Hx].
  - destruct (matcher inp r x Some); [reflexivity|].
    apply Hc. exists []. reflexivity.
Qed.

Lemma lacks_reaches (q : ascii -> bool) (x y : State) :
  lacks q (st_rest x) -> reaches x y -> lacks q (st_rest y).
Proof.
  intros Hx [pre Hy] a Ha. apply Hx. rewrite Hy. apply in_or_app. right. exact Ha.
Qed.

(** A pattern that needs a character does not match where none is
    left. *)
Lemma matcher_needs (q : ascii -> bool) (r : regex) :
  Needs q r ->
  forall x c, lacks q (st_rest x) -> matcher inp r x c = None.
Proof.
  induction 1 as [p Hp|r1 r2 _ IH|r1 r2 _ IH|r1 r2 _ IH1 _ IH2|greedy r _ IH
                  |i r _ IH]; intros x c Hx; cbn [matcher].
  - unfold advance. destruct (st_rest x) as [|a t] eqn:E; [reflexivity|].
    destruct (p a) eqn:Ep; [|reflexivity].
    apply Hp in Ep. rewrite (Hx a (or_introl eq_refl)) in Ep. discriminate Ep.
  - apply IH. exact Hx.
  - apply matcher_fails. intros y Hy. apply IH.
    eapply lacks_reaches; [exact Hx | exact Hy].
  - rewrite IH1, IH2 by exact Hx. reflexivity.
  - apply IH. exact Hx.
  - apply IH. exact Hx.
Qed.

Lemma searchFrom_needs (q : ascii -> bool) (r : regex) :
  Needs q r ->
  forall rest pos prev, lacks q rest -> searchFrom inp r pos prev rest = None.
Proof.
  intros Hr. induction rest as [|a t IH]; intros pos prev Hrest; cbn [searchFrom].
  - rewrite (@matcher_needs _ _ Hr) by exact Hrest. reflexivity.
  - rewrite (@matcher_needs _ _ Hr) by exact Hrest.
    apply IH. intros b Hb. apply Hrest. right. exact Hb.
Qed.

End NeededCharacters.

Section NeededInText.
Import Regex.

Lemma exec_needs (q : ascii -> bool) (r : regex) (inp : jsstring) (lastIndex : nat) :
  Needs q r -> lacks q inp -> exec r inp lastIndex = None.
Proof.
  intros Hr Hinp. unfold exec. destruct (length inp <? lastIndex); [reflexivity|].
  apply (@searchFrom_needs inp _ _ Hr).
  intros a Ha. apply Hinp. rewrite <- (firstn_skipn lastIndex inp).
  apply in_or_app. right. exact Ha.
Qed.

Lemma matchAll_needs (q : ascii -> bool) (r : regex) (inp : jsstring) :
  Needs q r -> lacks q inp -> matchAll r inp = [].
Proof.
  intros Hr Hinp. unfold matchAll.
  replace (length inp + 2) with (S (length inp + 1)) by lia.
  cbn [matchAllFrom]. rewrite (@exec_needs _ _ _ 0 Hr Hinp). reflexivity.
Qed.

Lemma test_needs (q : ascii -> bool) (r : regex) (inp : jsstring) :
  Needs q r -> lacks q inp -> test r inp = false.
Proof. intros Hr Hinp. unfold test. rewrite (@exec_needs _ _ _ 0 Hr Hinp). reflexivity. Qed.

End NeededInText.

(** The search for a part of a pattern that needs the character. *)
Ltac needs :=
  first [ apply Needs_Chr; intros ? Hclass; exact Hclass
        | apply Needs_Group; needs
        | apply Needs_Plus; needs
        | apply Needs_Alt; needs
        | apply Needs_Seq_l; needs
        | apply Needs_Seq_r; needs ].

Section PatternsNeed.
Import Regex Patterns.

Lemma linkPattern_needs : Needs (only "["%char) linkPattern.
Proof. unfold linkPattern. cbn [seqs]. needs. Qed.

Lemma referenceLinkPattern_needs : Needs (only "["%char) referenceLinkPattern.
Proof. unfold referenceLinkPattern. cbn [seqs]. needs. Qed.

Lemma definitionPattern_needs : Needs (only "["%char) definitionPattern.
Proof. unfold definitionPattern. cbn [seqs]. needs. Qed.

Lemma autoLinkPattern_needs : Needs (only "<"%char) autoLinkPattern.
Proof. unfold autoLinkPattern. cbn [seqs]. needs. Qed.

Lemma htmlTagStartPattern_needs : Needs (only "<"%char) htmlTagStartPattern.
Proof. unfold htmlTagStartPattern. needs. Qed.

Lemma boldPattern_needs : Needs (only "*"%char) boldPattern.
Proof. unfold boldPattern. cbn [seqs]. needs. Qed.

Lemma italicPattern0_needs : Needs (only "*"%char) italicPattern0.
Proof. unfold italicPattern0, italicCore. cbn [seqs]. needs. Qed.

Lemma italicPattern1_needs : Needs (only "*"%char) italicPattern1.
Proof. unfold italicPattern1, italicCore. cbn [seqs]. needs. Qed.

Lemma inlineCodeSpanPattern_needs : Needs (only "`"%char) inlineCodeSpanPattern.
Proof. unfold inlineCodeSpanPattern. cbn [seqs]. needs. Qed.

End PatternsNeed.
(* ------------------------------------------------------------------ *)
(** *** Plain text *)

Section PlainText.
Import Regex Patterns SmartSelect.
Context {workspace : IWorkspace} {helpers : Helpers} {parser : IMdParser}.

Lemma lacks_only (c : ascii) (s : jsstring) :
  (forall a, In a s -> a <> c) -> lacks (only c) s.
Proof.
  intros H a Ha. unfold only. apply Ascii.eqb_neq. intros <-. exact (H _ Ha eq_refl).
Qed.

(** X23.  A document whose text holds no opening bracket and no
    less-than sign has no links, whatever its tokens are. *)
Theorem plain_text_has_no_links (document : ITextDocument) (cancelled : bool) :
  (forall a, In a (getText document) -> a <> "["%char /\ a <> "<"%char) ->
  getAllLinks document cancelled = Ret [].
Proof.
  intros Hplain.
  assert (Hbracket : lacks (only "["%char) (getText document)).
  { apply lacks_only. intros a Ha. apply (Hplain a Ha). }
  assert (Hangle : lacks (only "<"%char) (getText document)).
  { apply lacks_only. intros a Ha. apply (Hplain a Ha). }
  unfold getAllLinks. cbv zeta. destruct cancelled; [reflexivity|].
  unfold getInlineLinks.
  rewrite (@matchAll_needs _ _ _ linkPattern_needs Hbracket). cbn [flat_map map].
  destruct (concatInline _ []) as [noLinkRanges' withInlineLinks].
  unfold getReferenceLinks. cbv zeta. cbn [getReferenceLinksInText].
  rewrite (@matchAll_needs _ _ _ referenceLinkPattern_needs Hbracket). cbn [flat_map].
  unfold getLinkDefinitions.
  rewrite (@matchAll_needs _ _ _ definitionPattern_needs Hbracket).
  cbn [flatMapO mbind Outcome_bind].
  unfold getAutoLinks.
  rewrite (@matchAll_needs _ _ _ autoLinkPattern_needs Hangle).
  cbn [flatMapO mbind Outcome_bind].
  unfold getHtmlLinks.
  rewrite (@test_needs _ _ _ htmlTagStartPattern_needs Hangle).
  reflexivity.
Qed.

(** X24.  On a line without an asterisk and without a backtick,
    [createInlineRange] finds no bold or italic run and no code span:
    its answer is the selection of the link at the cursor, built on the
    parent it was given, or nothing when no link holds the cursor. *)
Theorem plain_line_selects_links
        (document : ITextDocument) (cursorPosition : Position)
        (parent : option SelectionRange) (allLinks : list MdLink) :
  (forall a, In a (getLine document (line cursorPosition)) ->
             a <> "*"%char /\ a <> "`"%char) ->
  getLinks document = Ret allLinks ->
  createInlineRange document cursorPosition parent false
  = Ret (createLinkRange allLinks cursorPosition parent).
Proof.
  intros Hplain Hlinks.
  assert (Hstar : lacks (only "*"%char) (getLine document (line cursorPosition))).
  { apply lacks_only. intros a Ha. apply (Hplain a Ha). }
  assert (Htick : lacks (only "`"%char) (getLine document (line cursorPosition))).
  { apply lacks_only. intros a Ha. apply (Hplain a Ha). }
  unfold createInlineRange. cbv zeta. rewrite Hlinks. cbn [mbind Outcome_bind].
  unfold createBoldRange, createOtherInlineRange, matchesAtCursor.
  rewrite (@matchAll_needs _ _ _ boldPattern_needs Hstar).
  rewrite (@matchAll_needs _ _ _ italicPattern0_needs Hstar).
  rewrite (@matchAll_needs _ _ _ italicPattern1_needs Hstar).
  rewrite (@matchAll_needs _ _ _ inlineCodeSpanPattern_needs Htick).
  cbn. destruct (createLinkRange allLinks cursorPosition parent); reflexivity.
Qed.

End PlainText.

Lemma plain_text_has_no_links_witness :
  @getAllLinks (InMemory.workspaceOf [InMemory.docOf "test.md" (lit "Hello")])
               InMemory.helpers (InMemory.parserOf (Examples.paragraph 0 1))
               (InMemory.docOf "test.md" (lit "Hello")) false
  = Ret [].
Proof.
  apply (@plain_text_has_no_links
           (InMemory.workspaceOf [InMemory.docOf "test.md" (lit "Hello")])
           InMemory.helpers (InMemory.parserOf (Examples.paragraph 0 1))
           (InMemory.docOf "test.md" (lit "Hello")) false).
  intros a Ha. vm_compute in Ha.
  repeat (destruct Ha as [<-|Ha]; [split; discriminate|]). destruct Ha.
Defined.

Lemma plain_line_selects_links_witness :
  @SmartSelect.createInlineRange
    (InMemory.workspaceOf [InMemory.docOf "test.md" (lit "Hello")])
    InMemory.helpers (InMemory.parserOf (Examples.paragraph 0 1))
    (InMemory.docOf "test.md" (lit "Hello")) (mkPosition 0 3)
    (Some (mkSelectionRange (Range_create 0 0 0 5) None)) false
  = Ret None.
Proof.
  apply (@plain_line_selects_links
           (InMemory.workspaceOf [InMemory.docOf "test.md" (lit "Hello")])
           InMemory.helpers (InMemory.parserOf (Examples.paragraph 0 1))
           (InMemory.docOf "test.md" (lit "Hello")) (mkPosition 0 3)
           (Some (mkSelectionRange (Range_create 0 0 0 5) None)) []).
  - intros a Ha. vm_compute in Ha.
    repeat (destruct Ha as [<-|Ha]; [split; discriminate|]). destruct Ha.
  - vm_compute. reflexivity.
Defined.
